(* ===== verification/_CoqProject ===== *)
-Q . S2P
Prelude.v
IntUtil.v
Varint.v
Base58.v
StringTools.v
TreeHash.v
Config.v
Types.v
Utilities.v
FormatUtils.v
Difficulty.v
Serialization.v
SerializationProofs.v
TransactionExtra.v
ParseExtra.v
Addresses.v
WordList.v
Mnemonics.v
Block.v
Currency.v
CurrencyProofs.v
Checkpoints.v
ValidateTransaction.v
ValidateProofs.v
TransactionPool.v
CorePool.v
PoolProofs.v
BlockchainCache.v
CacheProofs.v
PushProofs.v
CoreChain.v
Templates.v
Miner.v
ChainProofs.v
MathProofs.v
FindProofs.v
BlockRules.v
MainChain.v
NodeProofs.v
NodePool.v
DeleteProofs.v
SampleChain.v
NodeTheorems.v
CacheTheorems.v
SyncProofs.v
SwitchProofs.v
TemplateProofs.v
MinerProofs.v
