(* ===== verification/Prelude.v ===== *)
(** * WrkzCoin: a verification development

    WrkzCoin is a CryptoNote currency written in C++.  A node receives blocks and
    transactions as bytes, parses them, validates the transactions against the
    rules of the height, keeps the valid ones in a pool, selects from the pool
    the transactions of new blocks, checks the proof of work, the reward and the
    difficulty of blocks, and keeps the blocks in a tree of chains of which the
    one with the most work is the main chain.  This library models that path, from
    the bytes on the wire to the tree of chains, the block template and the miner
    that works on it, and the formats a wallet shares with it.

    ** How the code is modelled

    Pure functions of the source are functions here; methods that change an
    object take its record and return the new one; a function that can throw,
    fail an assertion or run into undefined behaviour returns an [outcome], and
    the error tells which.  Unsigned integers are [Z] with the wrap-around
    written out by [u8], [u32], [u64]; bytes are [Z] below 256; maps and sets are
    [gmap] and [gset].  Hash functions and curve operations are parameters of the
    definitions that use them, the clock and the contents of files are arguments.
    What the validation of transactions and the pool ask of a chain is the type
    class [IBlockchainCache]; the chains of segments are its instance.  Objects
    that point to each other, the caches of the tree of chains, are a heap from
    addresses to records.

    ** The files

    - [Prelude]: outcomes, machine integers, byte lists, tactics.
    - [IntUtil]: [src/src/common/int-util.h] (128-bit products and quotients) and
      [CheckDifficulty.cpp] (the difficulty test of a hash).
    - [Varint]: [Varint.h] and the readers and writers of [StreamTools.cpp].
    - [Base58]: [common/Base58.cpp], the text form of addresses.
    - [StringTools]: hexadecimal and decimal text, [common/StringTools.cpp] and
      [utilities/String.cpp].
    - [TreeHash]: [crypto/tree-hash.c], the Merkle tree of a block.
    - [Config], [Types]: the constants of [config/CryptoNoteConfig.h] that the
      models use, and the structures of [include/CryptoNote.h].
    - [Utilities]: [utilities/Utilities.cpp] and [Mixins.cpp]: fees, sizes, times.
    - [FormatUtils]: [CryptoNoteFormatUtils.cpp] and [CryptoNoteBasicImpl.cpp]:
      amounts, overflow tests, offsets, the penalty of large blocks.
    - [Difficulty]: the three LWMA algorithms of [Difficulty.cpp].
    - [Serialization]: the binary serialisers of [src/src/serialization] and the
      transaction part of [CryptoNoteSerialization.cpp]; one function per type
      serves for reading and writing, as in the source.  [SerializationProofs]:
      the class [Codec] of such functions whose two directions are inverse.
    - [TransactionExtra], [ParseExtra]: the two parsers of the extra field.
    - [Addresses]: [utilities/Addresses.cpp] and the checks of addresses and
      payment ids of [errors/ValidateParameters.cpp].
    - [WordList], [Mnemonics]: [src/src/mnemonics], a private key as 25 words, and the
      CRC of its checksum.
    - [Block]: blocks and merge-mined parents on the wire, and the hashes of
      [CachedBlock.cpp] and [CachedTransaction.cpp].
    - [Currency], [CurrencyProofs]: [Currency.cpp]: rewards, the miner
      transaction, fusion transactions, amounts as text, the difficulty before
      LWMA, proof of work, the genesis block.
    - [Checkpoints]: [Checkpoints.cpp], [UpgradeManager.cpp], [UpgradeDetector.cpp].
    - [ValidateTransaction], [ValidateProofs]: [ValidateTransaction.cpp]; each
      check is a function on the validator's state, and the signature jobs of the
      thread pool are a transition system whose schedules are lists of events.
    - [TransactionPool], [CorePool], [PoolProofs]: [TransactionPool.cpp],
      [TransactionPoolCleaner.cpp], and the methods of [Core.cpp] that admit
      transactions, prune the pool and fill block templates.
    - [BlockchainCache]: [BlockchainCache.cpp] and [MemoryBlockchainStorage.cpp], a
      segment of consecutive blocks with its indexes; a query that asks the parent
      is a function of the list of segments up to the root.  [CacheProofs],
      [PushProofs]: a chain of segments behaves as one segment, [flatten]; what
      pushing a block adds, and splitting a segment.
    - [CoreChain]: the chain part of [Core.cpp]: [addBlock], [submitBlock],
      [validateBlock], forks and switches, [deleteAlternativeChains],
      [mergeMainChainSegments], [rewind] and the queries by hash and index, with
      [common/Math.h] and [utilities/Container.h].  [ChainProofs]: the invariant
      [tree_ok] of the heap of caches.  [MathProofs]: the median.  [FindProofs]:
      searches along parents.  [BlockRules]: the consensus rules [conforms] that a
      block has passed.  [MainChain]: the abstract step [added] that [addBlock]
      takes on the list of chains.  [NodeProofs], [NodePool]: the states a node
      reaches and their invariant, with the pool.  [DeleteProofs]: deleting chains.
    - [Templates], [TemplateProofs]: [Core::getBlockTemplate] of [Core.cpp], the
      block that a node offers to miners, with the transaction of the miner whose
      size is adjusted to the block; a mined template passes the checks of blocks.
    - [Miner], [MinerProofs]: [src/src/miner]: the hashes of [BlockUtilities.cpp], the
      threads of [Miner.cpp] as steps on the state they share, and from
      [MinerManager.cpp] the changes to a template and the loop over events.
    - [SampleChain]: a small node that grows two chains and switches, on which the
      theorems are evaluated.  [NodeTheorems], [CacheTheorems], [SyncProofs]: what
      nodes and chains guarantee, and how two nodes find their common block.
      [SwitchProofs]: no block is in two caches, and what the message about a
      switch says.

    ** What is shown

    - Round trips and canonicity of the formats: varints, Base58, addresses
      and integrated addresses, hexadecimal text, transactions and blocks on the wire, the extra field,
      payment ids, amounts as text, mnemonic seeds; the transaction format is a
      bijection and its parser never leaves its buffer.
    - Arithmetic: the 256-bit difficulty test, the penalty of large blocks, the
      overflow tests on sums, the decomposition of amounts, the difficulty
      algorithms and the reward are equal to their mathematical definitions
      within stated bounds.
    - Merkle trees: the in-place algorithm computes the recursively defined root,
      and the branch of a merge-mining proof recomputes it.
    - Validation: [validate] accepts exactly the transactions that meet a
      declarative specification, under every interleaving of the signature jobs,
      which always terminate.
    - The pool: an invariant of every reachable state (distinct hashes, no double
      spends, exact validator state, sorted by priority, bounded number of
      transactions without fee); removal never fails; block templates are the
      greedy selection.
    - Chains of segments: pushing a block adds exactly its entries, its outputs are
      found again by their global index, splitting changes no answer, and every
      query answers as one segment with all blocks would.
    - The tree of chains, for every state reached from the genesis block by adding
      and submitting blocks and transactions, requests for templates and the
      cleaning of the pool: the caches form a tree, no key image
      is spent twice on a chain, the cumulative difficulty grows by what the rules
      require, the main chain has the most work, and the pool stays consistent
      through switches.  [addBlock] refines a step on the list of chains: a refused
      block changes no chain, an added one follows the consensus rules and each of
      its transactions meets the specification of validation; a block that passes the checks on top of the main chain is added.  Deleting the
      alternative chains ends and keeps the main chain.
    - Mining: [getBlockTemplate] succeeds on a node with room in its next block,
      and a block mined from the template passes all checks of [addBlock], on the
      main chain, where the windows and sizes that the two use agree.  For every
      interleaving of the threads of the miner only one writes the block it
      found, and that block passes the proof-of-work check of the node; a nonce
      that solves the block is found when the threads go on.
    - Two nodes find a common block at most twice as far below the top as their
      chains are apart.
    - Places where the code does not do what it means to are theorems about the
      definitions as they are: the timestamp that does not reach the validation
      of pool transactions, the expiry that fails, the message about a switch,
      whose root is a common block only when the segment that has grown left the
      old main chain itself, the parser of the extra field that leaves its
      buffer, the fee rate that is never charged, and others.

    ** Fuel and bounds

    Loops whose recursion is not structural take fuel: the varint and Base58
    loops at most the number of bits or characters, the parsers of the extra
    field and of the checkpoint file the length of their input, the loops over
    digits 20 steps since a 64-bit number has at most 20 decimal digits.  The
    theorems are about the functions with this fuel and show that it suffices, as
    they state results and not [OutOfFuel].  Walks along the parents of caches take
    as many steps as there are caches, which [tree_ok] shows to be enough; deleting
    chains takes one round per cache.  The transaction of a template is adjusted in
    ten tries, as in the source.  Bounds on sizes (a transaction below
    [2^40] bytes, timestamps below [2^62], a window of work below [2^44]) are
    hypotheses of the theorems and far above what the network allows.  The steps of
    a node have room: fewer than [2^32] blocks and outputs of an amount, and a
    cumulative difficulty below [2^64].

    ** Not modelled

    - The curve and hash primitives of [src/src/crypto], parameters here.
    - [DatabaseBlockchainCache.cpp], which keeps the root segment in a key-value
      store behind the same interface; here every segment is in memory, as
      [MemoryBlockchainCacheFactory] builds it.  Saving and loading files, the
      export and import of the chain, and the queries of [Core.cpp] that gather
      details of blocks and transactions for wallets and explorers.
    - Threads other than the signature jobs and the miner: the pool's mutex makes its
      operations atomic, and the steps of [PoolProofs] are those operations.
      Logging and messages to observers have no effect on the state.
    - Peer-to-peer protocol, RPC, wallets, console programs, and the requests of
      the miner to its node, [BlockchainMonitor.cpp] among them: sockets, timers,
      files and terminals around the code that is modelled.
    - The JSON and key-value serialisers, which blocks and transactions do not
      use.
    - Libraries under [src/external]. *)

From stdpp Require Export base numbers list gmap sorting strings.

#[global] Open Scope Z_scope.

(** ** Outcomes of C++ code

    A function that can throw, fail an [assert] it relies on, or run into
    undefined behaviour returns an [outcome].  [Unmodelled] marks inputs outside
    the range for which a definition is faithful. *)

Inductive error :=
| RuntimeError (what : string)
| SystemError (what : string)
| AssertFailed (what : string)
| UndefinedBehaviour (what : string)
| Unmodelled (what : string)
| OutOfFuel.

Inductive outcome (A : Type) :=
| Ok (a : A)
| Err (e : error).

Arguments Ok {A} a.
Arguments Err {A} e.
Arguments RuntimeError what%_string.
Arguments SystemError what%_string.
Arguments AssertFailed what%_string.
Arguments UndefinedBehaviour what%_string.
Arguments Unmodelled what%_string.

Declare Scope cpp_scope.
Delimit Scope cpp_scope with cpp.

Definition obind {A B} (m : outcome A) (k : A -> outcome B) : outcome B :=
  match m with
  | Ok a => k a
  | Err e => Err e
  end.

Notation "'let!' x ':=' m 'in' k" := (obind m (fun x => k))
  (at level 10, x pattern, k at level 200) : cpp_scope.

#[global] Open Scope cpp_scope.

Definition assert_that (b : bool) (what : string) : outcome unit :=
  if b then Ok tt else Err (AssertFailed what).

Arguments assert_that b what%_string.

Definition is_ok {A} (m : outcome A) : bool :=
  match m with Ok _ => true | Err _ => false end.

(** ** Machine integers *)

(** An unsigned [w]-bit integer is a [Z] in [[0, 2^w)]; arithmetic on it wraps. *)
Definition fits (w x : Z) : Prop := 0 <= x < 2 ^ w.
Definition fitsb (w x : Z) : bool := (0 <=? x) && (x <? 2 ^ w).
Definition wrap (w x : Z) : Z := x mod 2 ^ w.

Abbreviation u8 := (wrap 8).
Abbreviation u32 := (wrap 32).
Abbreviation u64 := (wrap 64).

(** A signed 64-bit integer; arithmetic that leaves the range is undefined. *)
Definition i64_min : Z := - 2 ^ 63.
Definition i64_max : Z := 2 ^ 63 - 1.
Definition i64_fitsb (x : Z) : bool := (i64_min <=? x) && (x <=? i64_max).
Definition i64_checked (x : Z) : outcome Z :=
  if i64_fitsb x then Ok x else Err (UndefinedBehaviour "signed overflow").
(** The conversion of an unsigned 64-bit value to [int64_t]. *)
Definition i64_of_u64 (x : Z) : Z := if x <? 2 ^ 63 then x else x - 2 ^ 64.

(** Signed division truncates towards zero; dividing by zero is undefined. *)
Definition i64_div (x y : Z) : outcome Z :=
  if y =? 0 then Err (UndefinedBehaviour "division by zero") else i64_checked (Z.quot x y).

(** [std::vector::operator[]], whose index is not checked. *)
Definition vec_at {A} (l : list A) (i : Z) : outcome A :=
  if i <? 0 then Err (UndefinedBehaviour "index out of range")
  else match l !! Z.to_nat i with
       | Some x => Ok x
       | None => Err (UndefinedBehaviour "index out of range")
       end.

Definition is_byte (b : Z) : Prop := fits 8 b.
Definition bytes_ok (l : list Z) : Prop := Forall is_byte l.

(** Little-endian reading and writing of byte strings, as the memory image of
    an integer on the little-endian platforms the program is built for. *)
Fixpoint le_to_Z (l : list Z) : Z :=
  match l with
  | [] => 0
  | b :: l => b + 256 * le_to_Z l
  end.

Fixpoint Z_to_le (n : nat) (x : Z) : list Z :=
  match n with
  | O => []
  | S n => x mod 256 :: Z_to_le n (x / 256)
  end.

(** The bytes of a string literal of the source. *)
Definition str (s : string) : list Z :=
  map (fun c => Z.of_N (Ascii.N_of_ascii c)) (String.list_ascii_of_string s).

Arguments str s%_string.

(** Conversion of a byte to a (signed) [char]. *)
Definition schar (b : Z) : Z := if b <? 128 then b else b - 256.

(** Fixed-length digits in a base, least significant first. *)
Fixpoint to_digits (b : Z) (n : nat) (x : Z) : list Z :=
  match n with
  | O => []
  | S n => x mod b :: to_digits b n (x / b)
  end.

Fixpoint of_digits (b : Z) (l : list Z) : Z :=
  match l with
  | [] => 0
  | d :: l => d + b * of_digits b l
  end.

(** The sum of a list of integers. *)
Definition sumZ : list Z -> Z := foldr Z.add 0.

(** ** Tactics *)

(** Turns boolean tests of the code into arithmetic facts. *)
Ltac bool_prop :=
  repeat match goal with
  | H : (_ && _)%bool = true |- _ => apply andb_prop in H; destruct H
  | H : (_ || _)%bool = false |- _ => apply orb_false_elim in H; destruct H
  | H : negb _ = true |- _ => apply negb_true_iff in H
  | H : negb _ = false |- _ => apply negb_false_iff in H
  | H : (_ =? _) = true |- _ => apply Z.eqb_eq in H
  | H : (_ =? _) = false |- _ => apply Z.eqb_neq in H
  | H : (_ <? _) = true |- _ => apply Z.ltb_lt in H
  | H : (_ <? _) = false |- _ => apply Z.ltb_ge in H
  | H : (_ <=? _) = true |- _ => apply Z.leb_le in H
  | H : (_ <=? _) = false |- _ => apply Z.leb_gt in H
  end.

(** Case analysis on the test of the first [if] of the goal. *)
Ltac case_if :=
  match goal with
  | |- context [if ?b then _ else _] => let E := fresh "E" in destruct b eqn:E; bool_prop
  end.

(** Case analysis on the test of an [if] of a hypothesis. *)
Ltac case_if_in H :=
  match type of H with
  | context [if ?b then _ else _] => let E := fresh "E" in destruct b eqn:E; bool_prop
  end.

(** Evaluates the powers of two that are closed. *)
Ltac pow2 :=
  repeat match goal with
  | |- context [2 ^ ?k] => let v := eval compute in (2 ^ k) in progress change (2 ^ k) with v
  | H : context [2 ^ ?k] |- _ => let v := eval compute in (2 ^ k) in progress change (2 ^ k) with v in H
  end.

(** Closed arithmetic facts, by evaluation. *)
Ltac ground :=
  solve [repeat (split || constructor); vm_compute; first [reflexivity | discriminate]].

(** ** Generic lemmas *)

Section Outcome.
Context {A B : Type}.
Implicit Types (m : outcome A) (k : A -> outcome B).

Lemma obind_Ok m k b : obind m k = Ok b <-> exists a, m = Ok a /\ k a = Ok b.
Proof. destruct m; simpl; naive_solver. Qed.

Lemma obind_Err m k e :
  obind m k = Err e <-> m = Err e \/ exists a, m = Ok a /\ k a = Err e.
Proof. destruct m; simpl; naive_solver. Qed.

End Outcome.

Lemma fitsb_spec w x : fitsb w x = true <-> fits w x.
Proof. unfold fitsb, fits. rewrite andb_true_iff, Z.leb_le, Z.ltb_lt. done. Qed.

Lemma wrap_small w x : fits w x -> wrap w x = x.
Proof. apply Z.mod_small. Qed.

Lemma wrap_fits w x : 0 <= w -> fits w (wrap w x).
Proof. intros. apply Z.mod_pos_bound. apply Z.pow_pos_nonneg; lia. Qed.

Lemma wrap_add_carry w x y :
  0 <= w -> fits w x -> fits w y ->
  x + y = wrap w (x + y) + 2 ^ w * (if wrap w (x + y) <? x then 1 else 0).
Proof.
  intros Hw Hx Hy. unfold wrap, fits in *.
  set (m := 2 ^ w) in *.
  destruct (Z_lt_ge_dec (x + y) m).
  - rewrite Z.mod_small by lia. destruct (Z.ltb_spec (x + y) x); lia.
  - assert ((x + y) mod m = x + y - m) as ->.
    { symmetry. apply Z.mod_unique with 1; lia. }
    destruct (Z.ltb_spec (x + y - m) x); lia.
Qed.

(** Bits below [k] or-ed with a value shifted above them add up. *)
Lemma lor_shiftl_add k q r :
  0 <= k -> 0 <= q -> 0 <= r < 2 ^ k -> Z.lor r (Z.shiftl q k) = r + q * 2 ^ k.
Proof.
  intros Hk Hq Hr. rewrite Z.shiftl_mul_pow2 by done.
  rewrite Z.add_nocarry_lxor, Z.lxor_lor; [done| |];
  apply Z.bits_inj'; intros n Hn; rewrite Z.land_spec, Z.bits_0;
  destruct (Z_lt_ge_dec n k).
  all: try (rewrite Z.mul_pow2_bits_low, andb_false_r by lia; done).
  all: replace (Z.testbit r n) with false; [done|].
  all: symmetry; rewrite <- (Z.mod_small r (2 ^ k)) by lia.
  all: apply Z.mod_pow2_bits_high; lia.
Qed.

Lemma land_127 x : Z.land x 0x7f = x mod 128.
Proof. exact (Z.land_ones x 7 ltac:(lia)). Qed.

Lemma le_to_Z_bound l : bytes_ok l -> 0 <= le_to_Z l < 256 ^ Z.of_nat (length l).
Proof.
  induction 1 as [|b l Hb Hl IH]; simpl length; [simpl; lia|].
  rewrite Nat2Z.inj_succ, Z.pow_succ_r by lia. cbn [le_to_Z].
  unfold is_byte, fits in Hb. pow2. lia.
Qed.

Lemma length_Z_to_le n x : length (Z_to_le n x) = n.
Proof. revert x; induction n; simpl; auto. Qed.

Lemma Z_to_le_bytes n x : bytes_ok (Z_to_le n x).
Proof.
  revert x; induction n; intros x; simpl; constructor; [|apply IHn].
  unfold is_byte, fits. pow2. apply Z.mod_pos_bound; lia.
Qed.

Lemma le_to_Z_to_le n x : le_to_Z (Z_to_le n x) = x mod 256 ^ Z.of_nat n.
Proof.
  revert x; induction n; intros x; [simpl; by rewrite Z.mod_1_r|].
  cbn [Z_to_le le_to_Z]. rewrite IHn, Nat2Z.inj_succ, Z.pow_succ_r by lia.
  rewrite Z.rem_mul_r by lia. lia.
Qed.

Lemma Z_to_le_to_Z l : bytes_ok l -> Z_to_le (length l) (le_to_Z l) = l.
Proof.
  induction 1 as [|b l Hb Hl IH]; [done|]. cbn [length Z_to_le le_to_Z].
  unfold is_byte, fits in Hb. pow2.
  rewrite Z.mul_comm, Z.mod_add, Z.div_add by lia.
  rewrite Z.mod_small, Z.div_small by lia. by rewrite Z.add_0_l, IH.
Qed.

Section Digits.
Context (b : Z) (Hb : 1 < b).

Lemma length_to_digits n x : length (to_digits b n x) = n.
Proof. revert x; induction n; simpl; auto. Qed.

Lemma to_digits_range n x : Forall (fun d => 0 <= d < b) (to_digits b n x).
Proof. revert x; induction n; intros x; simpl; constructor; [apply Z.mod_pos_bound; lia|apply IHn]. Qed.

Lemma of_to_digits n x : of_digits b (to_digits b n x) = x mod b ^ Z.of_nat n.
Proof.
  revert x; induction n; intros x; [simpl; by rewrite Z.mod_1_r|].
  cbn [to_digits of_digits]. rewrite IHn, Nat2Z.inj_succ, Z.pow_succ_r by lia.
  rewrite Z.rem_mul_r by (try apply Z.pow_nonzero; lia). lia.
Qed.

Lemma to_of_digits l : Forall (fun d => 0 <= d < b) l -> to_digits b (length l) (of_digits b l) = l.
Proof.
  induction 1 as [|d l Hd Hl IH]; [done|]. cbn [length to_digits of_digits].
  rewrite Z.mul_comm, Z.mod_add, Z.div_add by lia.
  rewrite Z.mod_small, Z.div_small by lia. by rewrite Z.add_0_l, IH.
Qed.

Lemma of_digits_bound l :
  Forall (fun d => 0 <= d < b) l -> 0 <= of_digits b l < b ^ Z.of_nat (length l).
Proof.
  induction 1 as [|d l Hd Hl IH]; [simpl; lia|].
  cbn [length of_digits]. rewrite Nat2Z.inj_succ, Z.pow_succ_r by lia. nia.
Qed.

Lemma to_digits_zero n : to_digits b n 0 = repeat 0 n.
Proof. induction n; [done|]. simpl. by rewrite Z.mod_0_l, Z.div_0_l, IHn by lia. Qed.

End Digits.

Lemma Z_to_le_digits n x : Z_to_le n x = to_digits 256 n x.
Proof. revert x; induction n; intros x; simpl; [done|by rewrite IHn]. Qed.

Lemma le_to_Z_digits l : le_to_Z l = of_digits 256 l.
Proof. induction l; simpl; [done|by rewrite IHl]. Qed.

Lemma sumZ_app l1 l2 : sumZ (l1 ++ l2) = sumZ l1 + sumZ l2.
Proof. unfold sumZ. induction l1; simpl; lia. Qed.

Lemma sumZ_nonneg l : Forall (fun x => 0 <= x) l -> 0 <= sumZ l.
Proof. induction 1; simpl; lia. Qed.

Lemma i64_checked_ok x : i64_min <= x <= i64_max -> i64_checked x = Ok x.
Proof. intros H. unfold i64_checked, i64_fitsb. by rewrite !(proj2 (Z.leb_le _ _)) by lia. Qed.

Lemma i64_div_ok x y : y <> 0 -> i64_min < x <= i64_max -> i64_div x y = Ok (Z.quot x y).
Proof.
  intros Hy Hx. unfold i64_div. rewrite (proj2 (Z.eqb_neq _ _)) by done. apply i64_checked_ok.
  pose proof (Z.quot_abs x y Hy). pose proof (Z.quot_le_upper_bound (Z.abs x) (Z.abs y) (Z.abs x)).
  unfold i64_min, i64_max in *. nia.
Qed.

Lemma vec_at_ok {A} (l : list A) i x : 0 <= i -> l !! Z.to_nat i = Some x -> vec_at l i = Ok x.
Proof. intros Hi Hx. unfold vec_at. rewrite (proj2 (Z.ltb_ge _ _)) by lia. by rewrite Hx. Qed.

Lemma vec_at_elem {A} (l : list A) i x : vec_at l i = Ok x -> x ∈ l.
Proof.
  unfold vec_at. intros H. destruct (i <? 0); [done|]. destruct (l !! Z.to_nat i) as [y|] eqn:E; [|done]. injection H as ->.
  by eapply list_elem_of_lookup_2.
Qed.

(** The numbers below a bound, one case each. *)
Lemma below_cases n k : 0 <= n < Z.of_nat k -> In n (map Z.of_nat (seq 0 k)).
Proof.
  intros H. apply in_map_iff. exists (Z.to_nat n). split; [lia|]. apply in_seq. lia.
Qed.

Ltac each_below n k :=
  let H := fresh in
  assert (H := below_cases n k ltac:(lia)); vm_compute in H; repeat destruct H as [<-|H]; [..|destruct H].

(** A property of all bytes, by evaluation. *)
Lemma byte_cases (P : Z -> bool) :
  forallb P (map Z.of_nat (seq 0 256)) = true -> forall b, is_byte b -> P b = true.
Proof.
  intros H b Hb. rewrite forallb_forall in H. apply H, below_cases. exact Hb.
Qed.

Create HintDb cpp.
#[export] Hint Resolve wrap_fits Z_to_le_bytes : cpp.
