(* ===== verification/IntUtil.v ===== *)
(** * Wide arithmetic and the proof-of-work test

    Models [src/src/common/int-util.h] (rotations, double-word products and
    quotients, byte swaps) and [src/src/common/CheckDifficulty.cpp] (the test
    that a block hash meets a difficulty). The theorems compare each routine
    with unbounded arithmetic on [Z]. *)

From S2P Require Import Prelude.

(** ** [int-util.h] *)

Module IntUtil.

Definition rol32 (x r : Z) : Z :=
  Z.lor (wrap 32 (Z.shiftl x (Z.land r 31))) (Z.shiftr x (Z.land (- r) 31)).

Definition rol64 (x r : Z) : Z :=
  Z.lor (wrap 64 (Z.shiftl x (Z.land r 63))) (Z.shiftr x (Z.land (- r) 63)).

Definition hi_dword (v : Z) : Z := Z.shiftr v 32.
Definition lo_dword (v : Z) : Z := Z.land v 0xFFFFFFFF.

(** Returns [(product_lo, product_hi)]; the third component is the condition of
    the routine's [assert]. *)
Definition mul128_full (multiplier multiplicand : Z) : Z * Z * bool :=
  let a := hi_dword multiplier in
  let b := lo_dword multiplier in
  let c := hi_dword multiplicand in
  let d := lo_dword multiplicand in
  let ac := u64 (a * c) in
  let ad := u64 (a * d) in
  let bc := u64 (b * c) in
  let bd := u64 (b * d) in
  let adbc := u64 (ad + bc) in
  let adbc_carry := if adbc <? ad then 1 else 0 in
  let product_lo := u64 (bd + u64 (Z.shiftl adbc 32)) in
  let product_lo_carry := if product_lo <? bd then 1 else 0 in
  let product_hi :=
    u64 (u64 (u64 (ac + Z.shiftr adbc 32) + u64 (Z.shiftl adbc_carry 32)) + product_lo_carry) in
  (product_lo, product_hi, ac <=? product_hi).

Definition mul128 (multiplier multiplicand : Z) : Z * Z :=
  (mul128_full multiplier multiplicand).1.

(** Returns [(quotient, remainder)]; [remainder] is also the incoming high word. *)
Definition div_with_reminder (dividend divisor remainder : Z) : Z * Z :=
  let dividend := Z.lor dividend (u64 (Z.shiftl remainder 32)) in
  (dividend / divisor, u32 (dividend mod divisor)).

(** Returns [(quotient_hi, quotient_lo, remainder)]. *)
Definition div128_32 (dividend_hi dividend_lo divisor : Z) : Z * Z * Z :=
  let '(q3, r3) := div_with_reminder (hi_dword dividend_hi) divisor 0 in
  let '(q2, r2) := div_with_reminder (lo_dword dividend_hi) divisor r3 in
  let quotient_hi := Z.lor (u64 (Z.shiftl q3 32)) q2 in
  let '(q1, r1) := div_with_reminder (hi_dword dividend_lo) divisor r2 in
  let '(q0, r0) := div_with_reminder (lo_dword dividend_lo) divisor r1 in
  let quotient_lo := Z.lor (u64 (Z.shiftl q1 32)) q0 in
  (quotient_hi, quotient_lo, r0).

Definition swap32 (x : Z) : Z :=
  let x := Z.lor (wrap 32 (Z.shiftl (Z.land x 0x00ff00ff) 8))
                 (Z.shiftr (Z.land x 0xff00ff00) 8) in
  Z.lor (wrap 32 (Z.shiftl x 16)) (Z.shiftr x 16).

Definition swap64 (x : Z) : Z :=
  let x := Z.lor (wrap 64 (Z.shiftl (Z.land x 0x00ff00ff00ff00ff) 8))
                 (Z.shiftr (Z.land x 0xff00ff00ff00ff00) 8) in
  let x := Z.lor (wrap 64 (Z.shiftl (Z.land x 0x0000ffff0000ffff) 16))
                 (Z.shiftr (Z.land x 0xffff0000ffff0000) 16) in
  Z.lor (wrap 64 (Z.shiftl x 32)) (Z.shiftr x 32).

Definition SWAP32 (x : Z) : Z :=
  Z.lor (Z.lor (Z.lor
    (wrap 32 (Z.shiftl (Z.land x 0x000000ff) 24))
    (wrap 32 (Z.shiftl (Z.land x 0x0000ff00) 8)))
    (Z.shiftr (Z.land x 0x00ff0000) 8))
    (Z.shiftr (Z.land x 0xff000000) 24).

Definition SWAP64 (x : Z) : Z :=
  Z.lor (Z.lor (Z.lor (Z.lor (Z.lor (Z.lor (Z.lor
    (wrap 64 (Z.shiftl (Z.land x 0x00000000000000ff) 56))
    (wrap 64 (Z.shiftl (Z.land x 0x000000000000ff00) 40)))
    (wrap 64 (Z.shiftl (Z.land x 0x0000000000ff0000) 24)))
    (wrap 64 (Z.shiftl (Z.land x 0x00000000ff000000) 8)))
    (Z.shiftr (Z.land x 0x000000ff00000000) 8))
    (Z.shiftr (Z.land x 0x0000ff0000000000) 24))
    (Z.shiftr (Z.land x 0x00ff000000000000) 40))
    (Z.shiftr (Z.land x 0xff00000000000000) 56).

(** On a little-endian platform the [le] variants are the identity and the
    [be] variants are the swaps. *)
Definition ident64 (x : Z) : Z := x.
Definition swap64le (x : Z) : Z := ident64 x.
Definition SWAP64BE (x : Z) : Z := SWAP64 x.

(** ** Lemmas *)

Lemma hi_dword_div v : hi_dword v = v / 2 ^ 32.
Proof. unfold hi_dword. apply Z.shiftr_div_pow2. lia. Qed.

Lemma lo_dword_mod v : lo_dword v = v mod 2 ^ 32.
Proof. unfold lo_dword. by rewrite <- (Z.land_ones v 32) by lia. Qed.

Lemma dword_split v : fits 64 v ->
  v = hi_dword v * 2 ^ 32 + lo_dword v /\ fits 32 (hi_dword v) /\ fits 32 (lo_dword v).
Proof.
  unfold fits. rewrite hi_dword_div, lo_dword_mod. intros H.
  pose proof (Z.div_mod v (2 ^ 32)). pose proof (Z.mod_pos_bound v (2 ^ 32)).
  pow2. split; [lia|]. split; [|lia]. Z.to_euclidean_division_equations. lia.
Qed.

Lemma mul_fits_64 a b : fits 32 a -> fits 32 b -> 0 <= a * b <= (2 ^ 32 - 1) * (2 ^ 32 - 1).
Proof. unfold fits. pow2. nia. Qed.

(** A word [q * 2^32] or-ed with a half word is their sum. *)
Lemma lor_shift_add q r : 0 <= q -> fits 32 r -> Z.lor (q * 2 ^ 32) r = q * 2 ^ 32 + r.
Proof.
  unfold fits. intros Hq Hr. rewrite Z.lor_comm, <- Z.shiftl_mul_pow2, lor_shiftl_add by lia.
  rewrite Z.shiftl_mul_pow2 by lia. lia.
Qed.

Lemma mul128_full_spec a b : fits 64 a -> fits 64 b ->
  let '(lo, hi, ok) := mul128_full a b in
  hi * 2 ^ 64 + lo = a * b /\ fits 64 lo /\ fits 64 hi /\ ok = true.
Proof.
  intros Ha Hb. unfold mul128_full.
  destruct (dword_split a Ha) as (Ea & Ha1 & Ha0).
  destruct (dword_split b Hb) as (Eb & Hb1 & Hb0).
  set (a1 := hi_dword a) in *. set (a0 := lo_dword a) in *.
  set (b1 := hi_dword b) in *. set (b0 := lo_dword b) in *.
  assert (a * b = a1 * b1 * 2 ^ 64 + (a1 * b0 + a0 * b1) * 2 ^ 32 + a0 * b0) as Eab by lia.
  clearbody a1 a0 b1 b0.
  pose proof (mul_fits_64 _ _ Ha1 Hb1) as Hac. pose proof (mul_fits_64 _ _ Ha1 Hb0) as Had.
  pose proof (mul_fits_64 _ _ Ha0 Hb1) as Hbc. pose proof (mul_fits_64 _ _ Ha0 Hb0) as Hbd.
  assert (0 <= a * b <= (2 ^ 64 - 1) * (2 ^ 64 - 1)) as Hab.
  { unfold fits in Ha, Hb. pow2. nia. }
  rewrite Eab in *.
  generalize dependent (a1 * b1). intros ac ? ?.
  generalize dependent (a1 * b0). intros ad ? ?.
  generalize dependent (a0 * b1). intros bc ? ?.
  generalize dependent (a0 * b0). intros bd ? ? ?.
  rewrite (wrap_small 64 ac), (wrap_small 64 ad), (wrap_small 64 bc), (wrap_small 64 bd)
    by (unfold fits; pow2; lia).
  pose proof (wrap_add_carry 64 ad bc) as C1. specialize (C1 ltac:(lia)).
  do 2 specialize (C1 ltac:(unfold fits; pow2; lia)).
  pose proof (wrap_fits 64 (ad + bc) ltac:(lia)) as F1.
  set (adbc := u64 (ad + bc)) in *. clearbody adbc.
  set (c1 := if adbc <? ad then 1 else 0) in *.
  assert (c1 = 0 \/ c1 = 1) as Hc1 by (subst c1; case_if; lia). clearbody c1.
  rewrite !Z.shiftl_mul_pow2, Z.shiftr_div_pow2 by lia.
  assert (u64 (adbc * 2 ^ 32) = (adbc mod 2 ^ 32) * 2 ^ 32) as ->.
  { unfold wrap. replace (2 ^ 64) with (2 ^ 32 * 2 ^ 32) by done.
    rewrite Z.mul_mod_distr_r by (pow2; lia). done. }
  rewrite (wrap_small 64 (c1 * 2 ^ 32)) by (unfold fits; pow2; lia).
  assert (adbc = adbc / 2 ^ 32 * 2 ^ 32 + adbc mod 2 ^ 32) as Eadbc.
  { rewrite Z.mul_comm. apply Z.div_mod. pow2; lia. }
  assert (0 <= adbc mod 2 ^ 32 < 2 ^ 32) as Hlo by (apply Z.mod_pos_bound; pow2; lia).
  assert (0 <= adbc / 2 ^ 32 < 2 ^ 32) as Hhi.
  { unfold fits in F1. split; [apply Z.div_pos|apply Z.div_lt_upper_bound]; pow2; lia. }
  generalize dependent (adbc / 2 ^ 32). intros h Eadbc Hhi.
  generalize dependent (adbc mod 2 ^ 32). intros l Eadbc Hlo.
  pose proof (wrap_add_carry 64 bd (l * 2 ^ 32)) as C2. specialize (C2 ltac:(lia)).
  do 2 specialize (C2 ltac:(unfold fits; pow2; lia)).
  pose proof (wrap_fits 64 (bd + l * 2 ^ 32) ltac:(lia)) as F2.
  set (lo := u64 (bd + l * 2 ^ 32)) in *. clearbody lo.
  set (c2 := if lo <? bd then 1 else 0) in *.
  assert (c2 = 0 \/ c2 = 1) as Hc2 by (subst c2; case_if; lia). clearbody c2.
  assert (ac + h + c1 * 2 ^ 32 + c2 < 2 ^ 64) as Hsum by (unfold fits in *; pow2; lia).
  rewrite (wrap_small 64 (ac + h)) by (unfold fits; pow2; lia).
  rewrite (wrap_small 64 (ac + h + _)) by (unfold fits; pow2; lia).
  rewrite (wrap_small 64 (_ + c2)) by (unfold fits; pow2; lia).
  unfold fits in *; pow2; lia.
Qed.

Lemma mul128_eq a b : fits 64 a -> fits 64 b ->
  exists lo hi, mul128 a b = (lo, hi) /\ hi * 2 ^ 64 + lo = a * b /\ fits 64 lo /\ fits 64 hi.
Proof.
  intros Ha Hb. pose proof (mul128_full_spec a b Ha Hb) as H. unfold mul128.
  destruct (mul128_full a b) as [[lo hi] ok]. exists lo, hi. naive_solver.
Qed.

Lemma div_with_reminder_spec n d r :
  fits 32 n -> fits 32 d -> 0 <= r < d ->
  exists q r', div_with_reminder n d r = (q, r') /\
    r * 2 ^ 32 + n = q * d + r' /\ fits 32 q /\ 0 <= r' < d.
Proof.
  unfold div_with_reminder. intros Hn Hd Hr.
  rewrite Z.shiftl_mul_pow2 by lia.
  rewrite (wrap_small 64 (r * 2 ^ 32)) by (unfold fits in *; pow2; lia).
  rewrite Z.lor_comm, lor_shift_add by (lia || done).
  set (N := r * 2 ^ 32 + n).
  pose proof (Z.div_mod N d) as E. pose proof (Z.mod_pos_bound N d) as B.
  exists (N / d), (N mod d).
  assert (fits 32 (N / d)).
  { unfold fits in *. split; [apply Z.div_pos|apply Z.div_lt_upper_bound]; subst N; pow2; nia. }
  unfold fits in *. rewrite wrap_small by (unfold fits; pow2; lia).
  split; [done|]. lia.
Qed.

Lemma div128_32_spec hi lo d :
  fits 64 hi -> fits 64 lo -> fits 32 d -> 0 < d ->
  exists qh ql r, div128_32 hi lo d = (qh, ql, r) /\
    qh * 2 ^ 64 + ql = (hi * 2 ^ 64 + lo) / d /\
    r = (hi * 2 ^ 64 + lo) mod d /\ fits 64 qh /\ fits 64 ql.
Proof.
  intros Hhi Hlo Hd Hpos. unfold div128_32.
  destruct (dword_split hi Hhi) as (Eh & Hh1 & Hh0).
  destruct (dword_split lo Hlo) as (El & Hl1 & Hl0).
  destruct (div_with_reminder_spec _ d 0 Hh1 Hd) as (q3 & r3 & -> & E3 & F3 & B3); [lia|].
  destruct (div_with_reminder_spec _ d r3 Hh0 Hd) as (q2 & r2 & -> & E2 & F2 & B2); [lia|].
  destruct (div_with_reminder_spec _ d r2 Hl1 Hd) as (q1 & r1 & -> & E1 & F1 & B1); [lia|].
  destruct (div_with_reminder_spec _ d r1 Hl0 Hd) as (q0 & r0 & -> & E0 & F0 & B0); [lia|].
  rewrite !Z.shiftl_mul_pow2 by lia.
  rewrite !wrap_small by (unfold fits in *; pow2; lia).
  rewrite !lor_shift_add by (unfold fits in *; lia || done).
  eexists _, _, _. split; [done|].
  assert (hi * 2 ^ 64 + lo = (q3 * 2 ^ 96 + q2 * 2 ^ 64 + q1 * 2 ^ 32 + q0) * d + r0) as E.
  { rewrite Eh, El. pow2. lia. }
  rewrite E, Z.div_add_l, Z.div_small by lia.
  rewrite (Z.add_comm (_ * d)), Z.mod_add, Z.mod_small by lia.
  unfold fits in *. pow2. lia.
Qed.

(** *** Byte swaps, bit by bit *)

Lemma testbit_fits w x n : fits w x -> 0 <= w <= n -> Z.testbit x n = false.
Proof.
  intros Hx Hn. rewrite <- (wrap_small w x Hx). unfold wrap.
  apply Z.mod_pow2_bits_high. lia.
Qed.

Lemma testbit_wrap w x n : 0 <= w -> 0 <= n ->
  Z.testbit (wrap w x) n = (n <? w) && Z.testbit x n.
Proof. intros. unfold wrap. by rewrite <- Z.land_ones, Z.land_spec, Z.testbit_ones_nonneg, andb_comm by lia. Qed.

(** Splits an index below [w] into its [w] values. *)
Ltac each_bit n w :=
  lazymatch w with
  | 0 => exfalso; lia
  | _ => let w' := eval compute in (w - 1) in
         destruct (Z.eq_dec n w') as [->|]; [|each_bit n w']
  end.

(** Evaluates a bit of an expression built from shifts, masks and wraps. *)
Ltac bit_eval :=
  repeat match goal with
  | |- context [Z.testbit (Z.lor ?a ?b) ?k] => rewrite (Z.lor_spec a b k)
  | |- context [Z.testbit (Z.land ?a (Zpos ?p)) ?k] =>
      let v := eval compute in (Z.testbit (Zpos p) k) in
      rewrite (Z.land_spec a (Zpos p) k);
      change (Z.testbit (Zpos p) k) with v
  | |- context [Z.testbit (wrap ?w ?a) ?k] =>
      let v := eval compute in (k <? w) in
      rewrite (testbit_wrap w a k) by lia; change (k <? w) with v
  | |- context [Z.testbit (Z.shiftl ?a ?s) ?k] =>
      let v := eval compute in (k - s) in
      rewrite (Z.shiftl_spec a s k) by lia; change (k - s) with v
  | |- context [Z.testbit (Z.shiftr ?a ?s) ?k] =>
      let v := eval compute in (k + s) in
      rewrite (Z.shiftr_spec a s k) by lia; change (k + s) with v
  | |- context [Z.testbit ?a (Zneg ?p)] => rewrite (Z.testbit_neg_r a (Zneg p)) by lia
  end; rewrite ?andb_false_r, ?andb_true_r, ?orb_false_r; cbn [andb orb].

Lemma fits_of_bits w x : 0 <= w -> 0 <= x -> (forall n, w <= n -> Z.testbit x n = false) -> fits w x.
Proof.
  intros Hw Hx Hb. unfold fits. split; [done|].
  destruct (Z_lt_ge_dec x (2 ^ w)) as [|Hge]; [done|exfalso].
  assert (0 < x) as Hpos by (pose proof (Z.pow_pos_nonneg 2 w); lia).
  pose proof (Z.bit_log2 x Hpos) as Hbit.
  rewrite Hb in Hbit; [done|]. apply Z.log2_le_pow2; lia.
Qed.

Lemma fits_lor w x y : 0 <= w -> fits w x -> fits w y -> fits w (Z.lor x y).
Proof.
  intros Hw Hx Hy. apply fits_of_bits; [done| |].
  - apply Z.lor_nonneg. unfold fits in *. lia.
  - intros n Hn. by rewrite Z.lor_spec, !(testbit_fits w) by (done || lia).
Qed.

Lemma fits_land w x y : 0 <= w -> fits w x -> fits w (Z.land x y).
Proof.
  intros Hw Hx. apply fits_of_bits; [done| |].
  - apply Z.land_nonneg. unfold fits in *. lia.
  - intros n Hn. by rewrite Z.land_spec, (testbit_fits w) by (done || lia).
Qed.

Lemma fits_shiftr w x k : 0 <= w -> 0 <= k -> fits w x -> fits w (Z.shiftr x k).
Proof.
  intros Hw Hk Hx. apply fits_of_bits; [done| |].
  - apply Z.shiftr_nonneg. unfold fits in *. lia.
  - intros n Hn. by rewrite Z.shiftr_spec, (testbit_fits w) by (done || lia).
Qed.

#[local] Hint Resolve fits_lor fits_land fits_shiftr wrap_fits : cpp.
#[local] Hint Extern 4 (0 <= _) => lia : cpp.

Lemma swap64_fits x : fits 64 x -> fits 64 (swap64 x).
Proof. intros. unfold swap64. auto 12 with cpp. Qed.

Lemma SWAP64_fits x : fits 64 x -> fits 64 (SWAP64 x).
Proof. intros. unfold SWAP64. auto 12 with cpp. Qed.

(** Two words agree when their bits below the width do. *)
Lemma fits_bits_inj w x y : 0 <= w -> fits w x -> fits w y ->
  (forall n, 0 <= n < w -> Z.testbit x n = Z.testbit y n) -> x = y.
Proof.
  intros Hw Hx Hy H. apply Z.bits_inj'. intros n Hn.
  destruct (Z_lt_ge_dec n w); [by apply H|]. by rewrite !(testbit_fits w) by (done || lia).
Qed.

Lemma swap64_SWAP64 x : fits 64 x -> swap64 x = SWAP64 x.
Proof.
  intros Hx. apply (fits_bits_inj 64); [lia|by apply swap64_fits|by apply SWAP64_fits|].
  intros n Hn. unfold swap64, SWAP64. each_bit n 64; bit_eval; reflexivity.
Qed.

Lemma le_to_Z_testbit l n : bytes_ok l -> 0 <= n ->
  Z.testbit (le_to_Z l) n = Z.testbit (nth (Z.to_nat (n / 8)) l 0) (n mod 8).
Proof.
  intros Hl. revert n. induction Hl as [|b l Hb Hl IH]; intros n Hn; cbn [le_to_Z].
  - destruct (Z.to_nat (n / 8)); simpl; by rewrite !Z.bits_0.
  - rewrite Z.mul_comm. change 256 with (2 ^ 8).
    destruct (Z_lt_ge_dec n 8).
    + rewrite (Z.div_small n), (Z.mod_small n) by lia. simpl.
      rewrite <- (Z.mod_pow2_bits_low _ 8 n) by lia. rewrite Z.mod_add by (pow2; lia).
      by rewrite Z.mod_pow2_bits_low by lia.
    + replace n with ((n - 8) + 8) at 1 by lia.
      rewrite <- Z.div_pow2_bits, Z.div_add by (pow2; lia).
      rewrite Z.div_small by done. rewrite Z.add_0_l, IH by lia.
      replace (n - 8) with (n + (-1) * 8) by lia.
      rewrite Z.mod_add, Z.div_add by lia.
      assert (1 <= n / 8) by (apply Z.div_le_lower_bound; lia).
      by replace (Z.to_nat (n / 8)) with (S (Z.to_nat (n / 8 + -1))) by lia.
Qed.

Lemma le_to_Z_fits n l : bytes_ok l -> length l = n -> fits (8 * Z.of_nat n) (le_to_Z l).
Proof.
  intros Hl <-. unfold fits. rewrite Z.pow_mul_r by lia. change (2 ^ 8) with 256.
  by apply le_to_Z_bound.
Qed.

Lemma nth_Z_to_le n k x : (k < n)%nat ->
  nth k (Z_to_le n x) 0 = (x / 2 ^ (8 * Z.of_nat k)) mod 256.
Proof.
  revert k x. induction n; intros k x Hk; [lia|]. cbn [Z_to_le]. destruct k.
  - simpl. by rewrite Z.div_1_r.
  - cbn [nth]. rewrite IHn, Zdiv.Zdiv_Zdiv by lia. f_equal. f_equal.
    rewrite Nat2Z.inj_succ. replace (8 * Z.succ (Z.of_nat k)) with (8 + 8 * Z.of_nat k) by lia.
    by rewrite Z.pow_add_r by lia.
Qed.

Lemma testbit_nth_Z_to_le n k x i : (k < n)%nat -> 0 <= i < 8 ->
  Z.testbit (nth k (Z_to_le n x) 0) i = Z.testbit x (i + 8 * Z.of_nat k).
Proof.
  intros. rewrite nth_Z_to_le by done. change 256 with (2 ^ 8).
  by rewrite Z.mod_pow2_bits_low, Z.div_pow2_bits by lia.
Qed.

Lemma SWAP64_rev_bytes x : fits 64 x -> SWAP64 x = le_to_Z (rev (Z_to_le 8 x)).
Proof.
  intros Hx. assert (bytes_ok (rev (Z_to_le 8 x))) as Hb by apply Forall_rev, Z_to_le_bytes.
  apply (fits_bits_inj 64); [lia|by apply SWAP64_fits| |].
  - apply (le_to_Z_fits 8); [done|]. by rewrite length_rev, length_Z_to_le.
  - intros n Hn. rewrite le_to_Z_testbit by (done || lia).
    assert (0 <= n mod 8 < 8) by (apply Z.mod_pos_bound; lia).
    assert (Z.to_nat (n / 8) < 8)%nat as Hk.
    { apply Nat2Z.inj_lt. rewrite Z2Nat.id by (apply Z.div_pos; lia).
      apply Z.div_lt_upper_bound; lia. }
    rewrite rev_nth, length_Z_to_le, testbit_nth_Z_to_le by (rewrite ?length_Z_to_le; lia).
    unfold SWAP64. each_bit n 64; bit_eval; reflexivity.
Qed.

End IntUtil.

(** ** [CheckDifficulty.cpp] *)

Module CheckDifficulty.
Import IntUtil.

(** The 128-bit product of the build with [__int128]: [(low, high)]. *)
Definition mul (a b : Z) : Z * Z :=
  let res := a * b in
  (u64 res, u64 (Z.shiftr res 64)).

(** The product of the build without it. *)
Definition mul_portable (a b : Z) : Z * Z := mul128 a b.

Definition cadd (a b : Z) : bool := u64 (a + b) <? a.

Definition cadc (a b : Z) (c : bool) : bool :=
  (u64 (a + b) <? a) || (c && (u64 (a + b) =? 2 ^ 64 - 1)).

(** The [i]-th 64-bit word of the memory image of a hash. *)
Definition hash_word (hash : list Z) (i : nat) : Z := le_to_Z (take 8 (drop (8 * i) hash)).

Definition check_hash (hash : list Z) (difficulty : Z) : bool :=
  let '(top, high) := mul (swap64le (hash_word hash 3)) difficulty in
  if negb (high =? 0) then false
  else
    let '(low, cur) := mul (swap64le (hash_word hash 0)) difficulty in
    let '(low, high) := mul (swap64le (hash_word hash 1)) difficulty in
    let carry := cadd cur low in
    let cur := high in
    let '(low, high) := mul (swap64le (hash_word hash 2)) difficulty in
    let carry := cadc cur low carry in
    let carry := cadc high top carry in
    negb carry.

Lemma mul_spec a b : fits 64 a -> fits 64 b ->
  exists lo hi, mul a b = (lo, hi) /\ hi * 2 ^ 64 + lo = a * b /\ fits 64 lo /\ fits 64 hi.
Proof.
  intros Ha Hb. unfold mul. rewrite Z.shiftr_div_pow2 by lia.
  assert (fits 64 (a * b / 2 ^ 64)).
  { unfold fits in *. split; [apply Z.div_pos|apply Z.div_lt_upper_bound]; pow2; nia. }
  eexists _, _. split; [done|]. rewrite (wrap_small 64 (_ / _)) by done.
  split; [|split; [apply wrap_fits; lia|done]].
  unfold wrap. pose proof (Z.div_mod (a * b) (2 ^ 64)). pow2. lia.
Qed.

Lemma cadd_spec a b : fits 64 a -> fits 64 b -> cadd a b = (2 ^ 64 <=? a + b).
Proof.
  intros Ha Hb. unfold cadd. pose proof (wrap_add_carry 64 a b ltac:(lia) Ha Hb) as E.
  pose proof (wrap_fits 64 (a + b) ltac:(lia)). unfold fits in *. pow2.
  destruct (_ <? _) eqn:C in E |- *; bool_prop; symmetry; [apply Z.leb_le|apply Z.leb_gt]; lia.
Qed.

Lemma cadc_spec a b c : fits 64 a -> fits 64 b ->
  cadc a b c = (2 ^ 64 <=? a + b + Z.b2z c).
Proof.
  intros Ha Hb. unfold cadc. pose proof (wrap_add_carry 64 a b ltac:(lia) Ha Hb) as E.
  pose proof (wrap_fits 64 (a + b) ltac:(lia)). unfold fits in *. pow2.
  destruct (_ <? _) eqn:C in E |- *; bool_prop; destruct c; simpl Z.b2z; cbn [andb orb].
  all: try (symmetry; (apply Z.leb_le || apply Z.leb_gt); lia).
  destruct (Z.eqb_spec (u64 (a + b)) (18446744073709551616 - 1));
    symmetry; [apply Z.leb_le|apply Z.leb_gt]; lia.
Qed.

Lemma le_to_Z_app l k : le_to_Z (l ++ k) = le_to_Z l + 256 ^ Z.of_nat (length l) * le_to_Z k.
Proof.
  induction l as [|b l IH]; [simpl; lia|].
  cbn [length app le_to_Z]. rewrite IH, Nat2Z.inj_succ, Z.pow_succ_r by lia. lia.
Qed.

Lemma hash_word_fits h i : bytes_ok h -> length h = 32%nat -> (i < 4)%nat -> fits 64 (hash_word h i).
Proof.
  intros Hb Hl Hi. apply (le_to_Z_fits 8).
  - by apply Forall_take, Forall_drop.
  - rewrite length_take, length_drop. lia.
Qed.

Lemma hash_words h : length h = 32%nat ->
  le_to_Z h = hash_word h 0 + 2 ^ 64 * (hash_word h 1 + 2 ^ 64 * (hash_word h 2 + 2 ^ 64 * hash_word h 3)).
Proof.
  intros Hl. unfold hash_word.
  do 32 (destruct h as [|? h]; [discriminate Hl|]). destruct h; [|discriminate Hl].
  cbn [take drop Nat.mul Nat.add le_to_Z]. pow2. lia.
Qed.

Lemma check_hash_eq (hash : list Z) (difficulty : Z) :
  bytes_ok hash -> length hash = 32%nat -> fits 64 difficulty ->
  check_hash hash difficulty = (le_to_Z hash * difficulty <? 2 ^ 256).
Proof.
  intros Hb Hl Hd. rewrite (hash_words hash Hl). unfold check_hash, swap64le, ident64.
  destruct (mul_spec _ _ (hash_word_fits hash 3 Hb Hl ltac:(lia)) Hd) as (l3 & h3 & -> & E3 & F3 & G3).
  destruct (mul_spec _ _ (hash_word_fits hash 0 Hb Hl ltac:(lia)) Hd) as (l0 & h0 & -> & E0 & F0 & G0).
  destruct (mul_spec _ _ (hash_word_fits hash 1 Hb Hl ltac:(lia)) Hd) as (l1 & h1 & -> & E1 & F1 & G1).
  destruct (mul_spec _ _ (hash_word_fits hash 2 Hb Hl ltac:(lia)) Hd) as (l2 & h2 & -> & E2 & F2 & G2).
  rewrite !cadc_spec, cadd_spec by done.
  set (H := _ * difficulty).
  assert (H = l0 + (h0 + l1) * 2 ^ 64 + (h1 + l2) * 2 ^ 128 + (h2 + l3) * 2 ^ 192 + h3 * 2 ^ 256) as EH.
  { subst H. pow2. lia. }
  clearbody H. clear Hb Hl Hd E0 E1 E2 E3. unfold fits in *. pow2.
  destruct (Z.eqb_spec h3 0) as [->|]; simpl negb; cbv iota; symmetry.
  - destruct (Z.leb_spec 18446744073709551616 (h0 + l1)) as [C1|C1]; simpl Z.b2z;
    match goal with |- context [Z.b2z (?a <=? ?b)] => destruct (Z.leb_spec a b) as [C2|C2] end;
    simpl Z.b2z; match goal with |- _ = negb (?a <=? ?b) => destruct (Z.leb_spec a b) as [C3|C3] end;
    simpl negb; (apply Z.ltb_lt || apply Z.ltb_ge); lia.
  - apply Z.ltb_ge. lia.
Qed.

(** C20. The proof-of-work test accepts exactly the hashes whose value, read as a
    little-endian 256-bit integer, times the difficulty is below [2^256], for
    every 32-byte hash and every 64-bit difficulty. *)
Theorem check_hash_correct (hash : list Z) (difficulty : Z) :
  bytes_ok hash -> length hash = 32%nat -> fits 64 difficulty ->
  check_hash hash difficulty = (le_to_Z hash * difficulty <? 2 ^ 256).
Proof. apply check_hash_eq. Qed.

Lemma check_hash_correct_witness :
  check_hash (repeat 255 31 ++ [0]) 256 = true /\ check_hash (repeat 255 31 ++ [0]) 257 = false.
Proof.
  split.
  - rewrite (check_hash_correct (repeat 255 31 ++ [0]) 256); [reflexivity| | |].
    + repeat (constructor; [unfold is_byte, fits; lia|]). constructor.
    + reflexivity.
    + unfold fits; lia.
  - reflexivity.
Defined.

End CheckDifficulty.
