(* ===== verification/Varint.v ===== *)
(** * Byte streams and variable-length integers

    Models [src/src/common/Varint.h] (the varint encoder and decoder used for
    addresses and transaction extras), [src/src/common/StreamTools.cpp] (the
    stream reader and writer the binary serializers use) and
    [src/src/common/MemoryInputStream.cpp]. The theorems show that the two
    decoders invert the two encoders, that they accept only the shortest
    encoding, and where they differ: on truncated input. *)

From S2P Require Import Prelude.

(** ** [Varint.h] *)

Module Varint.

(** The byte [(static_cast<char>(i) & 0x7f) | 0x80]. *)
Definition continuation_byte (i : Z) : Z := Z.lor (Z.land (u8 i) 0x7f) 0x80.

(** The loop of [write_varint]; ten rounds shift a 64-bit value to below [0x80]
    (lemma [write_varint_eq] shows the fuel is never the reason to stop). *)
Fixpoint write_varint_loop (fuel : nat) (i : Z) : list Z :=
  match fuel with
  | O => [u8 i]
  | S fuel =>
      if 0x80 <=? i then continuation_byte i :: write_varint_loop fuel (Z.shiftr i 7)
      else [u8 i]
  end.

Definition write_varint (i : Z) : list Z := write_varint_loop 10 i.

Definition get_varint_data (v : Z) : list Z := write_varint v.

(** [read_varint<bits>]: the return code (bytes read, [-1] for an overflow,
    [-2] for a non-canonical representation) and the value of [i]. *)
Fixpoint read_varint_loop (bits shift read i : Z) (input : list Z) : Z * Z :=
  match input with
  | [] => (read, i)
  | byte :: input =>
      let read := read + 1 in
      if (bits <=? shift + 7) && (Z.shiftl 1 (bits - shift) <=? byte) then (-1, i)
      else if (byte =? 0) && negb (shift =? 0) then (-2, i)
      else
        let i := Z.lor i (wrap bits (Z.shiftl (Z.land byte 0x7f) shift)) in
        if Z.land byte 0x80 =? 0 then (read, i)
        else read_varint_loop bits (shift + 7) read i input
  end.

Definition read_varint (bits : Z) (input : list Z) : Z * Z := read_varint_loop bits 0 0 0 input.

(** [uintToVarintVector], the same loop on a [size_t]. *)
Fixpoint uintToVarintVector_loop (fuel : nat) (i : Z) (output : list Z) : list Z :=
  match fuel with
  | O => output ++ [u8 i]
  | S fuel =>
      if 0x80 <=? i then
        let elem := continuation_byte i in
        uintToVarintVector_loop fuel (Z.shiftr i 7) (output ++ [elem])
      else output ++ [u8 i]
  end.

Definition uintToVarintVector (i : Z) : list Z := uintToVarintVector_loop 10 i [].

End Varint.

(** ** [StreamTools.cpp] over a [MemoryInputStream] *)

Module StreamTools.

(** An input stream is the bytes from its position to its end. *)
Definition MemoryInputStream_endOfStream (stream : list Z) : bool :=
  match stream with [] => true | _ => false end.

(** Returns the bytes copied and the stream after them; their number is
    [min(size, bufferSize - position)]. *)
Definition MemoryInputStream_readSome (size : Z) (stream : list Z) : list Z * list Z :=
  let readSize := Z.to_nat (Z.min size (Z.of_nat (length stream))) in
  (take readSize stream, drop readSize stream).

(** [read(in, data, size)]: three rounds are enough on a memory stream, which
    delivers all it has at once ([read_spec]). *)
Fixpoint read_loop (fuel : nat) (size : Z) (data stream : list Z) : outcome (list Z * list Z) :=
  match fuel with
  | O => Err OutOfFuel
  | S fuel =>
      if 0 <? size then
        let '(chunk, stream) := MemoryInputStream_readSome size stream in
        let readSize := Z.of_nat (length chunk) in
        if readSize =? 0 then Err (RuntimeError "Failed to read from IInputStream")
        else read_loop fuel (size - readSize) (data ++ chunk) stream
      else Ok (data, stream)
  end.

Definition read (size : Z) (stream : list Z) : outcome (list Z * list Z) :=
  read_loop 3 size [] stream.

(** [read(in, value)] for a [w]-bit unsigned value, [w] a multiple of eight. *)
Definition read_uint (w : Z) (stream : list Z) : outcome (Z * list Z) :=
  let! (data, stream) := read (w / 8) stream in
  Ok (le_to_Z data, stream).

(** [readVarint(in, value)] for a [w]-bit value; [read(in, piece)] takes one
    byte of the stream or throws. *)
Fixpoint readVarint_loop (w shift temp : Z) (stream : list Z) : outcome (Z * list Z) :=
  match stream with
  | [] => Err (RuntimeError "Failed to read from IInputStream")
  | piece :: stream =>
      if (w - 7 <=? shift) && (Z.shiftl 1 (w - shift) <=? piece)
      then Err (RuntimeError "readVarint, value overflow")
      else
        let temp := wrap w (Z.lor temp (u64 (Z.shiftl (Z.land piece 0x7f) shift))) in
        if Z.land piece 0x80 =? 0 then
          if (piece =? 0) && negb (shift =? 0)
          then Err (RuntimeError "readVarint, invalid value representation")
          else Ok (temp, stream)
        else readVarint_loop w (u8 (shift + 7)) temp stream
  end.

Definition readVarint (w : Z) (stream : list Z) : outcome (Z * list Z) :=
  readVarint_loop w 0 0 stream.

(** Writing appends to the output; [write(out, data, size)] on a vector or
    string stream stores all bytes in one round. *)
Definition write (data out : list Z) : list Z := out ++ data.

Definition write_uint (w value : Z) (out : list Z) : list Z :=
  write (Z_to_le (Z.to_nat (w / 8)) value) out.

Fixpoint writeVarint_loop (fuel : nat) (value : Z) (out : list Z) : list Z :=
  match fuel with
  | O => write [u8 value] out
  | S fuel =>
      if 0x80 <=? value then
        writeVarint_loop fuel (Z.shiftr value 7) (write [u8 (Z.lor value 0x80)] out)
      else write [u8 value] out
  end.

Definition writeVarint (value : Z) (out : list Z) : list Z := writeVarint_loop 10 value out.

End StreamTools.

Import Varint StreamTools.

(** ** Lemmas on the encoders *)

Lemma lor_128 r : 0 <= r < 128 -> Z.lor r 0x80 = r + 128.
Proof. intros Hr. apply (lor_shiftl_add 7 1 r); lia. Qed.

Lemma continuation_byte_eq i : 0 <= i -> continuation_byte i = i mod 128 + 128.
Proof.
  intros Hi. unfold continuation_byte, wrap. rewrite land_127.
  rewrite lor_128 by (apply Z.mod_pos_bound; lia).
  pow2. change 256 with (128 * 2). rewrite Z.rem_mul_r by lia.
  rewrite Z.mul_comm, Z.mod_add, Z.mod_mod by lia. lia.
Qed.

Lemma u8_lor_128 i : 0 <= i -> u8 (Z.lor i 0x80) = i mod 128 + 128.
Proof.
  intros Hi. rewrite <- continuation_byte_eq by done. unfold continuation_byte.
  unfold wrap. rewrite <- !Z.land_ones by lia.
  rewrite Z.land_lor_distr_l. change (Z.land 128 (Z.ones 8)) with 128.
  apply Z.bits_inj'. intros n Hn. rewrite !Z.lor_spec, !Z.land_spec.
  destruct (Z.eq_dec n 7) as [->|]; [by rewrite !orb_true_r|].
  f_equal. destruct (Z_lt_ge_dec n 8).
  - assert (Z.testbit 127 n = true) as ->; [|by rewrite andb_true_r].
    change 127 with (Z.ones 7). apply Z.ones_spec_low. lia.
  - rewrite (Z.ones_spec_high 8) by lia. by rewrite !andb_false_r.
Qed.

Lemma write_varint_loop_bound fuel i :
  fits (7 * Z.of_nat fuel + 7) i ->
  write_varint_loop fuel i =
    if 0x80 <=? i then (i mod 128 + 128) :: write_varint_loop (pred fuel) (i / 128) else [i].
Proof.
  unfold fits. intros Hi. destruct fuel as [|fuel]; cbn [write_varint_loop pred].
  - pow2. case_if; [simpl in Hi; lia|]. by rewrite wrap_small by (unfold fits; pow2; simpl in Hi; lia).
  - case_if.
    + by rewrite continuation_byte_eq, Z.shiftr_div_pow2 by lia.
    + by rewrite wrap_small by (unfold fits; pow2; lia).
Qed.

Lemma fits_div_128 fuel i :
  fits (7 * Z.of_nat (S fuel) + 7) i -> fits (7 * Z.of_nat fuel + 7) (i / 128).
Proof.
  unfold fits. intros [H0 H1]. split; [apply Z.div_pos; lia|].
  apply Z.div_lt_upper_bound; [lia|].
  replace (7 * Z.of_nat (S fuel) + 7) with (7 + (7 * Z.of_nat fuel + 7)) in H1 by lia.
  rewrite Z.pow_add_r in H1 by lia. done.
Qed.

Lemma fits_mono w w' x : 0 <= w <= w' -> fits w x -> fits w' x.
Proof. unfold fits. intros Hw Hx. pose proof (Z.pow_le_mono_r 2 w w'). lia. Qed.

Lemma write_varint_loop_fuel f f' i :
  fits (7 * Z.of_nat f + 7) i -> (f <= f')%nat -> write_varint_loop f' i = write_varint_loop f i.
Proof.
  revert f' i. induction f as [|f IH]; intros f' i Hi Hf.
  - assert (i < 128) by (unfold fits in Hi; simpl in Hi; lia).
    assert (0 <= i) by (unfold fits in Hi; lia).
    rewrite (write_varint_loop_bound f') by (apply (fits_mono (7 * Z.of_nat 0 + 7)); [lia|done]).
    rewrite (write_varint_loop_bound 0) by done.
    rewrite (proj2 (Z.leb_gt _ _)) by lia. done.
  - destruct f' as [|f']; [lia|].
    rewrite (write_varint_loop_bound (S f')) by (apply (fits_mono (7 * Z.of_nat (S f) + 7)); [lia|done]).
    rewrite (write_varint_loop_bound (S f)) by done. cbn [pred].
    case_if; [|done]. rewrite (IH f'); [done| |lia]. by apply fits_div_128.
Qed.

(** The defining equation of the encoder: the loop runs until the value is
    below [0x80], whatever the 64-bit value. *)
Lemma write_varint_eq i : fits 64 i ->
  write_varint i = if 0x80 <=? i then (i mod 128 + 128) :: write_varint (i / 128) else [i].
Proof.
  intros Hi. unfold write_varint.
  rewrite write_varint_loop_bound by (apply (fits_mono 64); [lia|done]). cbn [pred].
  case_if; [|done]. rewrite (write_varint_loop_fuel 9 10); [done| |lia].
  apply fits_div_128. apply (fits_mono 64); [lia|done].
Qed.

Lemma write_varint_small i : 0 <= i < 128 -> write_varint i = [i].
Proof.
  intros Hi. rewrite write_varint_eq by (unfold fits; pow2; lia).
  by rewrite (proj2 (Z.leb_gt _ _)) by lia.
Qed.

Lemma write_varint_large i : fits 64 i -> 128 <= i ->
  write_varint i = (i mod 128 + 128) :: write_varint (i / 128).
Proof. intros Hi Hle. rewrite write_varint_eq by done. by rewrite (proj2 (Z.leb_le _ _)) by lia. Qed.

(** Induction along the groups of seven bits of a 64-bit value. *)
Lemma varint_ind (P : Z -> Prop) :
  (forall i, 0 <= i < 128 -> P i) ->
  (forall i, fits 64 i -> 128 <= i -> P (i / 128) -> P i) ->
  forall i, fits 64 i -> P i.
Proof.
  intros Hsmall Hlarge i Hi. assert (0 <= i) as H0 by (unfold fits in Hi; lia).
  revert Hi. revert i H0. apply (Zlt_0_ind (fun i => fits 64 i -> P i)). intros i IH H0 Hi.
  destruct (Z_lt_ge_dec i 128); [by apply Hsmall|].
  assert (0 <= i / 128 < i) by (split; [apply Z.div_pos|apply Z.div_lt]; lia).
  apply Hlarge; [done|lia|]. apply IH; [done|]. unfold fits in *. lia.
Qed.

Lemma write_varint_bytes i : fits 64 i -> bytes_ok (write_varint i).
Proof.
  revert i. apply varint_ind; intros i Hi.
  - rewrite write_varint_small by done. repeat constructor; unfold is_byte, fits; pow2; lia.
  - intros Hle IH. rewrite write_varint_large by done. constructor; [|done].
    unfold is_byte, fits. pow2. pose proof (Z.mod_pos_bound i 128). lia.
Qed.

Lemma write_varint_nonempty i : fits 64 i -> (0 < length (write_varint i))%nat.
Proof. intros Hi. rewrite write_varint_eq by done. case_if; simpl; lia. Qed.

Lemma write_varint_loop_length fuel i : (length (write_varint_loop fuel i) <= S fuel)%nat.
Proof. revert i; induction fuel; intros i; simpl; [lia|]. case_if; simpl; [specialize (IHfuel (Z.shiftr i 7))|]; lia. Qed.

Lemma writeVarint_loop_eq fuel value out :
  0 <= value -> writeVarint_loop fuel value out = out ++ write_varint_loop fuel value.
Proof.
  revert value out; induction fuel; intros value out Hv; [done|].
  cbn [writeVarint_loop write_varint_loop]. case_if; [|done].
  rewrite IHfuel by (rewrite Z.shiftr_div_pow2 by lia; apply Z.div_pos; pow2; lia).
  unfold write. rewrite <- app_assoc. simpl.
  by rewrite u8_lor_128, continuation_byte_eq by lia.
Qed.

Lemma writeVarint_eq value out : 0 <= value -> writeVarint value out = out ++ write_varint value.
Proof. apply writeVarint_loop_eq. Qed.

Lemma uintToVarintVector_loop_eq fuel i output :
  uintToVarintVector_loop fuel i output = output ++ write_varint_loop fuel i.
Proof.
  revert i output; induction fuel; intros i output; [done|].
  cbn [uintToVarintVector_loop write_varint_loop]. case_if; [|done].
  by rewrite IHfuel, <- app_assoc.
Qed.

(** ** A reference decoder

    One pass over the groups of seven bits, in plain arithmetic. Both decoders
    of the program refine it. *)

Inductive decoded :=
| DOk (value : Z) (rest : list Z)
| DOverflow (partial : Z)
| DNonCanonical (partial : Z)
| DTruncated (partial : Z).

Fixpoint decode_groups (w shift acc : Z) (s : list Z) : decoded :=
  match s with
  | [] => DTruncated acc
  | p :: s =>
      if (w <=? shift + 7) && (2 ^ (w - shift) <=? p) then DOverflow acc
      else if (p =? 0) && negb (shift =? 0) then DNonCanonical acc
      else if p <? 128 then DOk (acc + p * 2 ^ shift) s
      else decode_groups w (shift + 7) (acc + (p - 128) * 2 ^ shift) s
  end.

Lemma land_0x80 b : is_byte b -> (Z.land b 0x80 =? 0) = (b <? 128).
Proof.
  intros Hb. apply eqb_prop.
  refine (byte_cases (fun b => Bool.eqb (Z.land b 0x80 =? 0) (b <? 128)) _ b Hb). by vm_compute.
Qed.

Lemma byte_mod_128 p : is_byte p -> p mod 128 = if p <? 128 then p else p - 128.
Proof.
  unfold is_byte, fits. pow2. intros. case_if; [apply Z.mod_small; lia|].
  symmetry. apply Z.mod_unique with 1; lia.
Qed.

(** No group that passes the overflow test leaves the width. *)
Lemma group_bound w shift acc p :
  8 <= w <= 64 -> 0 <= shift < w -> 0 <= acc < 2 ^ shift -> is_byte p ->
  (w <=? shift + 7) && (2 ^ (w - shift) <=? p) = false ->
  0 <= acc + (p mod 128) * 2 ^ shift < 2 ^ w /\
  (128 <= p -> shift + 7 < w /\ acc + (p mod 128) * 2 ^ shift < 2 ^ (shift + 7)).
Proof.
  intros Hw Hs Ha Hp Hov. pose proof (Z.mod_pos_bound p 128).
  pose proof (byte_mod_128 p Hp) as Ep. assert (0 < 2 ^ shift) by (apply Z.pow_pos_nonneg; lia).
  unfold is_byte, fits in Hp. change (2 ^ 8) with 256 in Hp.
  apply andb_false_iff in Hov. destruct Hov; bool_prop.
  - assert (2 ^ (shift + 7) = 128 * 2 ^ shift) as E7 by (rewrite Z.pow_add_r by lia; lia).
    assert (2 ^ (shift + 7) <= 2 ^ w) by (apply Z.pow_le_mono_r; lia).
    rewrite E7 in *. nia.
  - assert (2 ^ w = 2 ^ (w - shift) * 2 ^ shift) as E by (rewrite <- Z.pow_add_r by lia; f_equal; lia).
    assert (p mod 128 <= p) by (case_if_in Ep; lia).
    split; [rewrite E; nia|]. intros Hp128.
    destruct (Z_lt_ge_dec (shift + 7) w); [|exfalso].
    + split; [done|]. rewrite Z.pow_add_r by lia. change (2 ^ 7) with 128. nia.
    + assert (2 ^ (w - shift) <= 2 ^ 7) by (apply Z.pow_le_mono_r; lia). pow2. lia.
Qed.

Definition decoded_stream (d : decoded) : outcome (Z * list Z) :=
  match d with
  | DOk v rest => Ok (v, rest)
  | DOverflow _ => Err (RuntimeError "readVarint, value overflow")
  | DNonCanonical _ => Err (RuntimeError "readVarint, invalid value representation")
  | DTruncated _ => Err (RuntimeError "Failed to read from IInputStream")
  end.

Definition decoded_code (read : Z) (s : list Z) (d : decoded) : Z * Z :=
  match d with
  | DOk v rest => (read + Z.of_nat (length s) - Z.of_nat (length rest), v)
  | DOverflow v => (-1, v)
  | DNonCanonical v => (-2, v)
  | DTruncated v => (read + Z.of_nat (length s), v)
  end.

Lemma readVarint_loop_refines w shift temp s :
  8 <= w <= 64 -> 0 <= shift < w -> 0 <= temp < 2 ^ shift -> bytes_ok s ->
  readVarint_loop w shift temp s = decoded_stream (decode_groups w shift temp s).
Proof.
  intros Hw Hs Ht Hb. revert shift temp Hs Ht.
  induction Hb as [|p s Hp Hb IH]; intros shift temp Hs Ht; [done|].
  cbn [readVarint_loop decode_groups].
  rewrite Z.shiftl_1_l, land_127, land_0x80 by done.
  replace (w - 7 <=? shift) with (w <=? shift + 7) by (apply eq_bool_prop_intro; rewrite !Is_true_true, !Z.leb_le; lia).
  destruct ((w <=? shift + 7) && (2 ^ (w - shift) <=? p)) eqn:Hov; [done|].
  destruct (group_bound w shift temp p Hw Hs Ht Hp Hov) as [Hrange Hcont].
  pose proof (Z.mod_pos_bound p 128).
  assert (2 ^ w <= 2 ^ 64) by (apply Z.pow_le_mono_r; lia).
  assert (0 < 2 ^ shift) by (apply Z.pow_pos_nonneg; lia).
  rewrite (wrap_small 64).
  2:{ rewrite Z.shiftl_mul_pow2 by lia. unfold fits. nia. }
  rewrite lor_shiftl_add, (wrap_small w) by (unfold fits; lia).
  rewrite byte_mod_128 in * by done. unfold is_byte, fits in Hp. change (2 ^ 8) with 256 in Hp.
  destruct (Z.ltb_spec p 128).
  - destruct ((p =? 0) && negb (shift =? 0)); done.
  - rewrite (proj2 (Z.eqb_neq p 0)) by lia. cbn [andb].
    rewrite (wrap_small 8) by (unfold fits; pow2; lia). apply IH; lia.
Qed.

Lemma read_varint_loop_refines w shift read i s :
  8 <= w <= 64 -> 0 <= shift < w -> 0 <= i < 2 ^ shift -> bytes_ok s ->
  read_varint_loop w shift read i s = decoded_code read s (decode_groups w shift i s).
Proof.
  intros Hw Hs Ht Hb. revert shift read i Hs Ht.
  induction Hb as [|p s Hp Hb IH]; intros shift read i Hs Ht; [simpl; f_equal; lia|].
  cbn [read_varint_loop decode_groups].
  rewrite Z.shiftl_1_l, land_127, land_0x80 by done.
  destruct ((w <=? shift + 7) && (2 ^ (w - shift) <=? p)) eqn:Hov; [done|].
  destruct (group_bound w shift i p Hw Hs Ht Hp Hov) as [Hrange Hcont].
  destruct ((p =? 0) && negb (shift =? 0)) eqn:Hnc; [done|].
  pose proof (Z.mod_pos_bound p 128). assert (0 < 2 ^ shift) by (apply Z.pow_pos_nonneg; lia).
  rewrite (wrap_small w).
  2:{ rewrite Z.shiftl_mul_pow2 by lia. unfold fits. nia. }
  rewrite lor_shiftl_add by lia. rewrite byte_mod_128 in * by done.
  destruct (Z.ltb_spec p 128); [simpl; f_equal; lia|].
  rewrite IH by lia. destruct (decode_groups _ _ _ s); simpl; try done; f_equal; lia.
Qed.

(** ** Decoding inverts encoding *)

Lemma decode_encode w shift acc x rest :
  8 <= w <= 64 -> 0 <= shift < w -> 0 <= acc < 2 ^ shift -> fits 64 x ->
  acc + x * 2 ^ shift < 2 ^ w -> (shift <> 0 -> x <> 0) ->
  decode_groups w shift acc (write_varint x ++ rest) = DOk (acc + x * 2 ^ shift) rest.
Proof.
  intros Hw Hs Ha Hx. revert shift acc Hs Ha. revert x Hx.
  refine (varint_ind _ _ _); intros x Hx.
  - intros shift acc Hs Ha Hlt Hnz. rewrite write_varint_small by done. simpl.
    assert (0 < 2 ^ shift) by (apply Z.pow_pos_nonneg; lia).
    destruct ((w <=? shift + 7) && (2 ^ (w - shift) <=? x)) eqn:Hov.
    { bool_prop. exfalso. assert (2 ^ w = 2 ^ (w - shift) * 2 ^ shift) as E
        by (rewrite <- Z.pow_add_r by lia; f_equal; lia). nia. }
    destruct ((x =? 0) && negb (shift =? 0)) eqn:Hnc; [bool_prop; lia|].
    by rewrite (proj2 (Z.ltb_lt x 128)) by lia.
  - intros Hle IH shift acc Hs Ha Hlt Hnz. rewrite write_varint_large by done. simpl.
    assert (0 < 2 ^ shift) by (apply Z.pow_pos_nonneg; lia).
    assert (2 ^ (shift + 7) = 128 * 2 ^ shift) as E7 by (rewrite Z.pow_add_r by lia; lia).
    pose proof (Z.mod_pos_bound x 128). pose proof (Z.div_mod x 128 ltac:(lia)) as Ex.
    assert (1 <= x / 128) by (apply Z.div_le_lower_bound; lia).
    assert (shift + 7 < w) as Hs7.
    { destruct (Z_lt_ge_dec (shift + 7) w); [done|exfalso].
      assert (2 ^ w <= 2 ^ (shift + 7)) by (apply Z.pow_le_mono_r; lia). nia. }
    rewrite (proj2 (Z.leb_gt w (shift + 7))) by lia. cbn [andb].
    rewrite (proj2 (Z.eqb_neq (_ + 128) 0)), (proj2 (Z.ltb_ge (_ + 128) 128)) by lia. cbn [andb].
    assert (acc + (x mod 128 + 128 - 128) * 2 ^ shift + x / 128 * 2 ^ (shift + 7) =
            acc + x * 2 ^ shift) as E by (rewrite E7; lia).
    rewrite IH, E; [done|lia|rewrite E7; nia|lia|lia].
Qed.

Lemma encode_decode w shift acc s v rest :
  8 <= w <= 64 -> 0 <= shift < w -> 0 <= acc < 2 ^ shift -> bytes_ok s ->
  decode_groups w shift acc s = DOk v rest ->
  exists x, fits 64 x /\ s = write_varint x ++ rest /\ v = acc + x * 2 ^ shift /\ v < 2 ^ w /\
    (shift <> 0 -> x <> 0).
Proof.
  intros Hw Hs Ha Hb. revert shift acc Hs Ha.
  induction Hb as [|p s Hp Hb IH]; intros shift acc Hs Ha; [done|]. cbn [decode_groups].
  destruct ((w <=? shift + 7) && (2 ^ (w - shift) <=? p)) eqn:Hov; [done|].
  destruct ((p =? 0) && negb (shift =? 0)) eqn:Hnc; [done|].
  destruct (group_bound w shift acc p Hw Hs Ha Hp Hov) as [Hrange Hcont].
  rewrite byte_mod_128 in * by done. unfold is_byte, fits in Hp. change (2 ^ 8) with 256 in Hp.
  assert (0 < 2 ^ shift) by (apply Z.pow_pos_nonneg; lia).
  destruct (Z.ltb_spec p 128) as [Hlt|Hge].
  - intros [= <- <-]. exists p. split; [unfold fits; pow2; lia|].
    split; [by rewrite write_varint_small by lia|]. split; [done|]. split; [lia|].
    intros Hsh ->. apply andb_false_iff in Hnc. destruct Hnc as [?|E]; [done|].
    apply negb_false_iff, Z.eqb_eq in E. done.
  - intros Hd. destruct (IH (shift + 7) (acc + (p - 128) * 2 ^ shift)) as (x & Hx & -> & Ev & Hv & Hnz);
      [lia|lia|done|]. specialize (Hnz ltac:(lia)).
    assert (2 ^ (shift + 7) = 128 * 2 ^ shift) as E7 by (rewrite Z.pow_add_r by lia; lia).
    assert (2 ^ w <= 2 ^ 64) by (apply Z.pow_le_mono_r; lia). unfold fits in Hx.
    assert (fits 64 (x * 128 + (p - 128))) as Hfit by (unfold fits; nia).
    exists (x * 128 + (p - 128)). split; [done|].
    rewrite (write_varint_large (x * 128 + (p - 128))) by (done || lia).
    rewrite (Z.add_comm (x * 128)), Z.mod_add, Z.div_add by lia.
    rewrite Z.mod_small, Z.div_small by lia. simpl.
    split; [f_equal; lia|]. lia.
Qed.

Lemma readVarint_encode w v rest :
  8 <= w <= 64 -> fits w v -> bytes_ok rest ->
  readVarint w (write_varint v ++ rest) = Ok (v, rest).
Proof.
  intros Hw Hv Hr. assert (fits 64 v) by (apply (fits_mono w); [lia|done]).
  unfold readVarint. rewrite readVarint_loop_refines; [|lia|lia|simpl; lia|].
  - rewrite decode_encode; [|lia|lia|simpl; lia|done|unfold fits in Hv; simpl; lia|lia].
    simpl. do 2 f_equal. lia.
  - apply Forall_app. split; [by apply write_varint_bytes|done].
Qed.

Lemma readVarint_inverse w stream v rest : 8 <= w <= 64 -> bytes_ok stream ->
  readVarint w stream = Ok (v, rest) -> fits w v /\ stream = write_varint v ++ rest.
Proof.
  intros Hw Hb. unfold readVarint. rewrite readVarint_loop_refines by (simpl; lia || done).
  destruct (decode_groups w 0 0 stream) eqn:Hd; simpl; try done.
  intros [= -> ->]. destruct (encode_decode w 0 0 stream v rest) as (x & Hx & -> & Ev & Hlt & _);
    [lia|lia|simpl; lia|done|done|].
  simpl in Ev. assert (v = x) as -> by lia. unfold fits in *. split; [lia|done].
Qed.

Lemma read_varint_agrees w s : 8 <= w <= 64 -> bytes_ok s ->
  match readVarint w s with
  | Ok (v, rest) => read_varint w s = (Z.of_nat (length s) - Z.of_nat (length rest), v)
  | Err (RuntimeError e) =>
      (e = "readVarint, value overflow"%string /\ (read_varint w s).1 = -1) \/
      (e = "readVarint, invalid value representation"%string /\ (read_varint w s).1 = -2) \/
      (e = "Failed to read from IInputStream"%string /\ (read_varint w s).1 = Z.of_nat (length s))
  | Err _ => False
  end.
Proof.
  intros Hw Hb. unfold readVarint, read_varint.
  rewrite readVarint_loop_refines, read_varint_loop_refines by (simpl; lia || done).
  destruct (decode_groups w 0 0 s); simpl; auto.
Qed.

(** C30. Varint decoding from a stream is the exact inverse of encoding: for every
    width, [readVarint] returns [v] and the rest of the stream exactly when [v]
    fits the width and the stream is the encoder's output for [v] followed by
    that rest. No other byte string is accepted, so encodings are unique. *)
Theorem readVarint_correct (w : Z) (stream : list Z) (v : Z) (rest : list Z) :
  8 <= w <= 64 -> bytes_ok stream ->
  readVarint w stream = Ok (v, rest) <-> fits w v /\ stream = writeVarint v [] ++ rest.
Proof.
  intros Hw Hb. split.
  - intros H. apply readVarint_inverse in H as [Hv ->]; [|done..]. split; [done|].
    rewrite writeVarint_eq by (unfold fits in Hv; lia). done.
  - intros [Hv ->]. rewrite writeVarint_eq in * by (unfold fits in Hv; lia).
    apply readVarint_encode; [done|done|]. by apply Forall_app in Hb as [_ ?].
Qed.

Lemma readVarint_correct_witness :
  readVarint 32 [0xac; 0x02; 7] = Ok (300, [7]) /\ readVarint 32 [0xac; 0x82; 0x00] <> Ok (300, []).
Proof.
  split.
  - apply (readVarint_correct 32 [0xac; 0x02; 7] 300 [7]); [lia| |].
    + repeat (constructor; [unfold is_byte, fits; lia|]). constructor.
    + split; [unfold fits; lia|reflexivity].
  - vm_compute. discriminate.
Defined.

(** The two decoders agree on complete input: on every byte string, the
    iterator decoder [read_varint] returns the value and the number of bytes the
    stream decoder takes, [-1] exactly on the stream decoder's overflow error and
    [-2] exactly on its representation error. On input that ends inside a varint
    the stream decoder throws, and [read_varint] returns the (positive) number of
    bytes it saw as if it had succeeded. *)
Theorem read_varint_readVarint (w : Z) (s : list Z) :
  8 <= w <= 64 -> bytes_ok s ->
  match readVarint w s with
  | Ok (v, rest) => read_varint w s = (Z.of_nat (length s) - Z.of_nat (length rest), v)
  | Err (RuntimeError e) =>
      (e = "readVarint, value overflow"%string /\ (read_varint w s).1 = -1) \/
      (e = "readVarint, invalid value representation"%string /\ (read_varint w s).1 = -2) \/
      (e = "Failed to read from IInputStream"%string /\ (read_varint w s).1 = Z.of_nat (length s))
  | Err _ => False
  end.
Proof. apply read_varint_agrees. Qed.

Lemma read_varint_readVarint_witness :
  read_varint 64 [0x80] = (1, 0) /\ (1 = Z.of_nat (length [0x80])).
Proof.
  split; [reflexivity|].
  pose proof (read_varint_readVarint 64 [0x80] ltac:(lia)
    ltac:(repeat constructor; unfold is_byte, fits; lia)) as H.
  vm_compute in H. destruct H as [[H _]|[[H _]|[_ H]]]; [discriminate H|discriminate H|].
  reflexivity.
Defined.

(** ** Reading from memory streams *)

(** [read] returns the requested bytes when the stream has them and throws
    otherwise. *)
Lemma read_spec size stream : 0 <= size ->
  read size stream =
    if size <=? Z.of_nat (length stream)
    then Ok (take (Z.to_nat size) stream, drop (Z.to_nat size) stream)
    else Err (RuntimeError "Failed to read from IInputStream").
Proof.
  intros Hs. unfold read. cbn [read_loop MemoryInputStream_readSome].
  destruct (Z.ltb_spec 0 size) as [Hpos|Hz].
  2:{ assert (size = 0) as -> by lia. rewrite (proj2 (Z.leb_le _ _)) by lia. done. }
  rewrite length_take. destruct (Z.leb_spec size (Z.of_nat (length stream))) as [Hle|Hgt].
  - rewrite Z.min_l, Nat.min_l by lia. rewrite (proj2 (Z.eqb_neq _ 0)) by lia.
    rewrite Z2Nat.id, Z.sub_diag by lia. done.
  - rewrite Z.min_r, Nat2Z.id, Nat.min_id by lia.
    destruct (Z.eqb_spec (Z.of_nat (length stream)) 0); [done|].
    rewrite (proj2 (Z.ltb_lt 0 _)) by lia. by rewrite drop_all, take_nil.
Qed.

Lemma read_app data rest : read (Z.of_nat (length data)) (data ++ rest) = Ok (data, rest).
Proof.
  rewrite read_spec by lia. rewrite length_app, (proj2 (Z.leb_le _ _)) by lia.
  by rewrite Nat2Z.id, take_app_length, drop_app_length.
Qed.
