(* ===== verification/Base58.v ===== *)
(** * Base58 block encoding and addresses

    Models [src/src/common/Base58.cpp]: bytes are encoded in blocks of eight,
    each to eleven letters of a 58-letter alphabet, the last block to as many
    letters as it needs; an address is a tag, a payload and a four-byte checksum
    of both. The theorems show that encoding and decoding are inverse to each
    other in both directions, so an address has exactly one spelling. *)

From S2P Require Import Prelude IntUtil Varint.
Import IntUtil Varint StreamTools.

Module Base58.

Definition alphabet : list Z :=
  str "123456789ABCDEFGHJKLMNPQRSTUVWXYZabcdefghijkmnopqrstuvwxyz".
Definition alphabet_size : Z := 58.
Definition encoded_block_sizes : list Z := [0; 2; 3; 5; 6; 7; 9; 10; 11].
Definition full_block_size : Z := 8.
Definition full_encoded_block_size : Z := 11.
Definition addr_checksum_size : Z := 4.

Definition alphabet_at (i : Z) : Z := nth (Z.to_nat i) alphabet 0.
Definition encoded_block_size (i : Z) : Z := nth (Z.to_nat i) encoded_block_sizes 0.

(** The table of the constructor of [reverse_alphabet]. *)
Definition reverse_alphabet_data : list Z :=
  foldl (fun m_data (i : nat) =>
           let idx := Z.to_nat (alphabet_at (Z.of_nat i) - alphabet_at 0) in
           <[idx := Z.of_nat i]> m_data)
    (repeat (-1) (Z.to_nat (alphabet_at (alphabet_size - 1) - alphabet_at 0 + 1)))
    (seq 0 (Z.to_nat alphabet_size)).

(** [reverse_alphabet::operator()]: a letter before the first one of the
    alphabet gives a huge index. *)
Definition reverse_alphabet (letter : Z) : Z :=
  let idx := u64 (schar letter - alphabet_at 0) in
  if idx <? Z.of_nat (length reverse_alphabet_data)
  then nth (Z.to_nat idx) reverse_alphabet_data (-1)
  else -1.

(** The table of the constructor of [decoded_block_sizes]. *)
Definition decoded_block_sizes_data : list Z :=
  foldl (fun m_data (i : nat) =>
           <[Z.to_nat (encoded_block_size (Z.of_nat i)) := Z.of_nat i]> m_data)
    (repeat (-1) (Z.to_nat (encoded_block_size full_block_size + 1)))
    (seq 0 (Z.to_nat full_block_size + 1)).

Definition decoded_block_sizes (encoded_block_size : Z) : Z :=
  nth (Z.to_nat encoded_block_size) decoded_block_sizes_data (-1).

(** The switch of [uint_8be_to_64] falls through from the first of [size] bytes
    to the last. *)
Definition uint_8be_to_64 (data : list Z) (size : Z) : Z :=
  foldl (fun res b => Z.lor (u64 (Z.shiftl res 8)) b) 0 (take (Z.to_nat size) data).

(** The [size] last bytes of the memory image of the swapped number. *)
Definition uint_64_to_8be (num size : Z) : list Z :=
  let num_be := SWAP64BE num in
  take (Z.to_nat size) (drop (Z.to_nat (8 - size)) (Z_to_le 8 num_be)).

(** The loop of [encode_block] writes the letters of [num] from index [i] down;
    an index outside the block would be a write outside the buffer. *)
Fixpoint encode_block_loop (fuel : nat) (num i : Z) (res : list Z) : outcome (list Z) :=
  match fuel with
  | O => Err OutOfFuel
  | S fuel =>
      if 0 <? num then
        let remainder := num mod alphabet_size in
        let num := num / alphabet_size in
        if (i <? 0) || (Z.of_nat (length res) <=? i)
        then Err (UndefinedBehaviour "encode_block: write outside the block")
        else encode_block_loop fuel num (i - 1) (<[Z.to_nat i := alphabet_at remainder]> res)
      else Ok res
  end.

(** Eleven digits hold 64 bits, and one more round sees the zero. *)
Definition encode_block (block : list Z) (size : Z) (res : list Z) : outcome (list Z) :=
  let! _ := assert_that ((1 <=? size) && (size <=? full_block_size)) "encode_block: size" in
  let num := uint_8be_to_64 block size in
  let i := encoded_block_size size - 1 in
  encode_block_loop 12 num i res.

(** The loop of [decode_block] over the letters from the last to the first. *)
Fixpoint decode_block_loop (letters : list Z) (res_num order : Z) : option Z :=
  match letters with
  | [] => Some res_num
  | letter :: letters =>
      let digit := reverse_alphabet letter in
      if digit <? 0 then None
      else
        let '(product_lo, product_hi) := mul128 order digit in
        let tmp := u64 (res_num + product_lo) in
        if (tmp <? res_num) || negb (0 =? product_hi) then None
        else decode_block_loop letters tmp (u64 (order * alphabet_size))
  end.

(** [None] is the return value false. *)
Definition decode_block (block : list Z) (size : Z) : option (list Z) :=
  let res_size := decoded_block_sizes size in
  if res_size <=? 0 then None
  else
    match decode_block_loop (rev (take (Z.to_nat size) block)) 0 1 with
    | None => None
    | Some res_num =>
        if (res_size <? full_block_size) && (Z.shiftl 1 (8 * res_size) <=? res_num) then None
        else Some (uint_64_to_8be res_num res_size)
    end.

(** The loops of [encode] and [decode] over the full blocks: round [i] works at
    offset [i * full_block_size] of one string and [i * full_encoded_block_size]
    of the other. *)
Fixpoint encode_full_blocks (full_block_count : nat) (data : list Z) : outcome (list Z) :=
  match full_block_count with
  | O => Ok []
  | S n =>
      let! block := encode_block (take (Z.to_nat full_block_size) data) full_block_size
                      (repeat (alphabet_at 0) (Z.to_nat full_encoded_block_size)) in
      let! rest := encode_full_blocks n (drop (Z.to_nat full_block_size) data) in
      Ok (block ++ rest)
  end.

Definition encode (data : list Z) : outcome (list Z) :=
  match data with
  | [] => Ok []
  | _ =>
      let full_block_count := Z.of_nat (length data) / full_block_size in
      let last_block_size := Z.of_nat (length data) mod full_block_size in
      let! res := encode_full_blocks (Z.to_nat full_block_count) data in
      if 0 <? last_block_size then
        let! block := encode_block (drop (Z.to_nat (full_block_count * full_block_size)) data)
                        last_block_size
                        (repeat (alphabet_at 0) (Z.to_nat (encoded_block_size last_block_size))) in
        Ok (res ++ block)
      else Ok res
  end.

Fixpoint decode_full_blocks (full_block_count : nat) (enc : list Z) : option (list Z) :=
  match full_block_count with
  | O => Some []
  | S n =>
      match decode_block (take (Z.to_nat full_encoded_block_size) enc) full_encoded_block_size with
      | None => None
      | Some block =>
          match decode_full_blocks n (drop (Z.to_nat full_encoded_block_size) enc) with
          | None => None
          | Some rest => Some (block ++ rest)
          end
      end
  end.

Definition decode (enc : list Z) : option (list Z) :=
  match enc with
  | [] => Some []
  | _ =>
      let full_block_count := Z.of_nat (length enc) / full_encoded_block_size in
      let last_block_size := Z.of_nat (length enc) mod full_encoded_block_size in
      let last_block_decoded_size := decoded_block_sizes last_block_size in
      if last_block_decoded_size <? 0 then None
      else
        match decode_full_blocks (Z.to_nat full_block_count) enc with
        | None => None
        | Some data =>
            if 0 <? last_block_size then
              match decode_block (drop (Z.to_nat (full_block_count * full_encoded_block_size)) enc)
                      last_block_size with
              | None => None
              | Some block => Some (data ++ block)
              end
            else Some data
        end
  end.

Section Addresses.

(** The hash of the checksum, [Crypto::cn_fast_hash]. *)
Context (cn_fast_hash : list Z -> list Z).

Definition encode_addr (tag : Z) (data : list Z) : outcome (list Z) :=
  let buf := get_varint_data tag ++ data in
  let hash := cn_fast_hash buf in
  encode (buf ++ take (Z.to_nat addr_checksum_size) hash).

Definition decode_addr (addr : list Z) : option (Z * list Z) :=
  match decode addr with
  | None => None
  | Some addr_data =>
      if Z.of_nat (length addr_data) <=? addr_checksum_size then None
      else
        let n := Z.to_nat (Z.of_nat (length addr_data) - addr_checksum_size) in
        let checksum := drop n addr_data in
        let addr_data := take n addr_data in
        let expected_checksum := take (Z.to_nat addr_checksum_size) (cn_fast_hash addr_data) in
        if negb (bool_decide (expected_checksum = checksum)) then None
        else
          let '(read, tag) := read_varint 64 addr_data in
          if read <=? 0 then None
          else Some (tag, drop (Z.to_nat read) addr_data)
  end.

End Addresses.

(** *** Known encodings *)

Example encode_ff : encode [0xff] = Ok (str "5Q").
Proof. reflexivity. Qed.

Example encode_max_block : encode (repeat 0xff 8) = Ok (str "jpXCZedGfVQ").
Proof. reflexivity. Qed.

Example decode_overflow : decode (str "jpXCZedGfVR") = None.
Proof. reflexivity. Qed.

(** *** The tables *)

Definition is_letter (c : Z) : bool := 0 <=? reverse_alphabet c.

Lemma reverse_alphabet_at d : 0 <= d < 58 -> reverse_alphabet (alphabet_at d) = d.
Proof.
  intros Hd. apply Z.eqb_eq.
  assert (forallb (fun d => reverse_alphabet (alphabet_at d) =? d) (map Z.of_nat (seq 0 58)) = true) as H
    by (vm_compute; reflexivity).
  rewrite forallb_forall in H. apply H, in_map_iff. exists (Z.to_nat d).
  split; [lia|]. apply in_seq. lia.
Qed.

Lemma alphabet_at_reverse c : is_byte c -> 0 <= reverse_alphabet c -> alphabet_at (reverse_alphabet c) = c.
Proof.
  intros Hc Hr. assert ((reverse_alphabet c <? 0) || (alphabet_at (reverse_alphabet c) =? c) = true) as H.
  { refine (byte_cases (fun c => (reverse_alphabet c <? 0) || (alphabet_at (reverse_alphabet c) =? c)) _ c Hc).
    vm_compute. reflexivity. }
  apply orb_prop in H. destruct H; bool_prop; lia.
Qed.

Lemma reverse_alphabet_range c : is_byte c -> reverse_alphabet c < 58.
Proof.
  intros Hc. apply Z.ltb_lt.
  refine (byte_cases (fun c => reverse_alphabet c <? 58) _ c Hc). vm_compute. reflexivity.
Qed.

Lemma alphabet_at_byte d : 0 <= d < 58 -> is_byte (alphabet_at d).
Proof.
  intros Hd. apply fitsb_spec.
  assert (forallb (fun d => fitsb 8 (alphabet_at d)) (map Z.of_nat (seq 0 58)) = true) as H
    by (vm_compute; reflexivity).
  rewrite forallb_forall in H. apply H, in_map_iff. exists (Z.to_nat d).
  split; [lia|]. apply in_seq. lia.
Qed.

(** Block sizes in bytes and letters correspond, and the letters suffice. *)
Definition block_size_ok (m n : Z) : Prop :=
  1 <= m <= 8 /\ encoded_block_size m = n /\ decoded_block_sizes n = m /\ 1 <= n <= 11 /\
  256 ^ m <= 58 ^ n.

Lemma block_size_encoded m : 1 <= m <= 8 -> block_size_ok m (encoded_block_size m).
Proof.
  intros Hm. assert (m = 1 \/ m = 2 \/ m = 3 \/ m = 4 \/ m = 5 \/ m = 6 \/ m = 7 \/ m = 8) as H by lia.
  unfold block_size_ok.
  repeat destruct H as [->|H]; try (subst m); vm_compute; intuition congruence.
Qed.

Lemma block_size_decoded n : 0 <= n <= 11 -> 0 < decoded_block_sizes n ->
  block_size_ok (decoded_block_sizes n) n.
Proof.
  intros Hn.
  unfold block_size_ok. each_below n 12%nat; vm_compute; intuition congruence.
Qed.

(** *** Big-endian bytes *)

Lemma uint_8be_fold l acc : bytes_ok l ->
  0 <= acc -> acc * 256 ^ Z.of_nat (length l) + le_to_Z (rev l) < 2 ^ 64 ->
  foldl (fun res b => Z.lor (u64 (Z.shiftl res 8)) b) acc l =
    acc * 256 ^ Z.of_nat (length l) + le_to_Z (rev l).
Proof.
  intros Hl. revert acc. induction Hl as [|b l Hb Hl IH]; intros acc Ha Hlt; [simpl; lia|].
  cbn [length rev foldl] in *.
  rewrite CheckDifficulty.le_to_Z_app, length_rev, Nat2Z.inj_succ, Z.pow_succ_r in * by lia.
  cbn [le_to_Z] in *. pose proof (le_to_Z_bound (rev l) ltac:(by apply Forall_rev)) as Hr.
  rewrite length_rev in Hr. unfold is_byte, fits in Hb. change (2 ^ 8) with 256 in Hb.
  assert (0 < 256 ^ Z.of_nat (length l)) by (apply Z.pow_pos_nonneg; lia).
  rewrite Z.shiftl_mul_pow2 by lia. change (2 ^ 8) with 256.
  rewrite wrap_small by (unfold fits; nia).
  rewrite Z.lor_comm. change 256 with (2 ^ 8) at 1. rewrite <- Z.shiftl_mul_pow2 by lia.
  rewrite lor_shiftl_add by (change (2 ^ 8) with 256; lia). change (2 ^ 8) with 256.
  rewrite IH by nia. nia.
Qed.

Lemma uint_8be_to_64_eq block m :
  bytes_ok block -> Z.of_nat (length block) = m -> 1 <= m <= 8 ->
  uint_8be_to_64 block m = le_to_Z (rev block) /\ 0 <= le_to_Z (rev block) < 256 ^ m.
Proof.
  intros Hb Hl Hm. pose proof (le_to_Z_bound (rev block) ltac:(by apply Forall_rev)) as Hr.
  rewrite length_rev, Hl in Hr. split; [|done]. unfold uint_8be_to_64.
  rewrite take_ge by lia. rewrite uint_8be_fold; [lia|done|lia|].
  assert (256 ^ m <= 256 ^ 8) by (apply Z.pow_le_mono_r; lia).
  change (256 ^ 8) with (2 ^ 64) in *. lia.
Qed.

Lemma Z_to_le_SWAP64 x : fits 64 x -> Z_to_le 8 (SWAP64 x) = rev (Z_to_le 8 x).
Proof.
  intros Hx. rewrite SWAP64_rev_bytes by done.
  rewrite <- (Z_to_le_to_Z (rev (Z_to_le 8 x))) at 2 by apply Forall_rev, Z_to_le_bytes.
  by rewrite length_rev, length_Z_to_le.
Qed.

Lemma take_Z_to_le k n x : (k <= n)%nat -> take k (Z_to_le n x) = Z_to_le k x.
Proof.
  revert n x. induction k; intros n x Hk; [done|]. destruct n; [lia|].
  simpl. by rewrite IHk by lia.
Qed.

Lemma uint_64_to_8be_eq num m : fits 64 num -> 1 <= m <= 8 ->
  uint_64_to_8be num m = rev (Z_to_le (Z.to_nat m) num).
Proof.
  intros Hn Hm. unfold uint_64_to_8be, SWAP64BE. rewrite Z_to_le_SWAP64 by done.
  rewrite take_ge by (rewrite length_drop, length_rev, length_Z_to_le; lia).
  rewrite skipn_rev, length_Z_to_le, take_Z_to_le by lia.
  by replace (8 - Z.to_nat (8 - m))%nat with (Z.to_nat m) by lia.
Qed.

(** *** One block *)

Definition letters (n : nat) (num : Z) : list Z := map alphabet_at (rev (to_digits 58 n num)).

Lemma letters_S n num : letters (S n) num = letters n (num / 58) ++ [alphabet_at (num mod 58)].
Proof. unfold letters. cbn [to_digits rev]. by rewrite map_app. Qed.

Lemma length_letters n num : length (letters n num) = n.
Proof. unfold letters. by rewrite length_map, length_rev, length_to_digits. Qed.

Lemma letters_bytes n num : bytes_ok (letters n num).
Proof.
  unfold letters, bytes_ok. rewrite Forall_map. apply Forall_rev.
  eapply Forall_impl; [apply to_digits_range; lia|]. apply alphabet_at_byte.
Qed.

Lemma letters_zero n : letters n 0 = repeat (alphabet_at 0) n.
Proof.
  unfold letters. rewrite to_digits_zero by lia.
  induction n; [done|]. cbn [repeat rev]. rewrite map_app, IHn. simpl.
  by rewrite <- repeat_cons.
Qed.

Lemma encode_block_loop_spec k fuel num done :
  (k < fuel)%nat -> 0 <= num < 58 ^ Z.of_nat k ->
  encode_block_loop fuel num (Z.of_nat k - 1) (repeat (alphabet_at 0) k ++ done) =
    Ok (letters k num ++ done).
Proof.
  revert fuel num done. induction k as [|k IH]; intros fuel num done Hf Hnum.
  - destruct fuel; [lia|]. assert (num = 0) as -> by (simpl in Hnum; lia). reflexivity.
  - destruct fuel; [lia|]. cbn [encode_block_loop]. destruct (Z.ltb_spec 0 num).
    2:{ assert (num = 0) as -> by lia. by rewrite letters_zero. }
    rewrite length_app, repeat_length.
    destruct ((_ <? 0) || _) eqn:E; [apply orb_prop in E; destruct E; bool_prop; lia|clear E].
    replace (Z.to_nat (Z.of_nat (S k) - 1)) with k by lia.
    replace (Z.of_nat (S k) - 1 - 1) with (Z.of_nat k - 1) by lia.
    replace (S k) with (k + 1)%nat at 1 by lia. rewrite repeat_app, <- app_assoc.
    rewrite insert_app_r_alt by (rewrite repeat_length; lia).
    rewrite repeat_length, Nat.sub_diag. simpl (_ ++ done). rewrite IH.
    + unfold alphabet_size. rewrite letters_S, <- app_assoc. done.
    + lia.
    + unfold alphabet_size. rewrite Nat2Z.inj_succ, Z.pow_succ_r in Hnum by lia.
      split; [apply Z.div_pos; lia|]. apply Z.div_lt_upper_bound; lia.
Qed.

Lemma encode_block_spec block m n : bytes_ok block -> Z.of_nat (length block) = m ->
  block_size_ok m n ->
  encode_block block m (repeat (alphabet_at 0) (Z.to_nat n)) =
    Ok (letters (Z.to_nat n) (le_to_Z (rev block))).
Proof.
  intros Hb Hl (Hm & Hn & _ & Hn11 & Hpow). unfold encode_block, full_block_size.
  rewrite (proj2 (Z.leb_le 1 m)), (proj2 (Z.leb_le m 8)) by lia. cbn [andb assert_that obind].
  destruct (uint_8be_to_64_eq block m Hb Hl Hm) as [-> Hr].
  rewrite Hn, <- (app_nil_r (repeat _ _)). replace (n - 1) with (Z.of_nat (Z.to_nat n) - 1) by lia.
  rewrite encode_block_loop_spec; [by rewrite app_nil_r|lia|]. rewrite Z2Nat.id by lia. lia.
Qed.

(** The digits of letters, least significant letter first. *)
Definition digits_of (ls : list Z) : list Z := map reverse_alphabet ls.

Lemma forallb_is_letter_rev ls : forallb is_letter (rev ls) = forallb is_letter ls.
Proof. induction ls; simpl; [done|]. rewrite forallb_app, IHls. simpl. rewrite andb_true_r. apply andb_comm. Qed.

Lemma digits_of_range ls : bytes_ok ls -> forallb is_letter ls = true ->
  Forall (fun d => 0 <= d < 58) (digits_of ls).
Proof.
  induction 1 as [|c ls Hc Hls IH]; simpl; constructor; bool_prop.
  - unfold is_letter in *. bool_prop. split; [done|]. by apply reverse_alphabet_range.
  - by apply IH.
Qed.

Lemma decode_block_loop_spec ls res k :
  bytes_ok ls -> (length ls + k <= 11)%nat -> fits 64 res ->
  decode_block_loop ls res (u64 (58 ^ Z.of_nat k)) =
    let v := res + 58 ^ Z.of_nat k * of_digits 58 (digits_of ls) in
    if forallb is_letter ls && (v <? 2 ^ 64) then Some v else None.
Proof.
  intros Hb. revert res k. induction Hb as [|c ls Hc Hb IH]; intros res k Hk Hres.
  { simpl. rewrite Z.mul_0_r, Z.add_0_r. unfold fits in Hres.
    by rewrite (proj2 (Z.ltb_lt _ _)) by lia. }
  cbn [decode_block_loop forallb digits_of map of_digits length] in *. fold (digits_of ls).
  unfold is_letter at 1. destruct (Z.ltb_spec (reverse_alphabet c) 0) as [Hd|Hd].
  { by rewrite (proj2 (Z.leb_gt 0 _)) by lia. }
  rewrite (proj2 (Z.leb_le 0 _)) by lia. cbn [andb].
  pose proof (reverse_alphabet_range c Hc) as Hd58.
  assert (58 ^ Z.of_nat k <= 58 ^ 10) as Hk10 by (apply Z.pow_le_mono_r; lia).
  assert (0 < 58 ^ Z.of_nat k) as Hpos by (apply Z.pow_pos_nonneg; lia).
  assert (fits 64 (58 ^ Z.of_nat k)) as Hfk by (unfold fits; change (58 ^ 10) with 430804206899405824 in *; pow2; lia).
  rewrite (wrap_small 64 (58 ^ _)) by done.
  destruct (mul128_eq (58 ^ Z.of_nat k) (reverse_alphabet c)) as (lo & hi & -> & E & Flo & Fhi);
    [done|unfold fits; pow2; lia|].
  pose proof (wrap_add_carry 64 res lo ltac:(lia) Hres Flo) as C.
  pose proof (wrap_fits 64 (res + lo) ltac:(lia)) as Ft.
  set (d := reverse_alphabet c) in *. set (p := 58 ^ Z.of_nat k) in *.
  assert (forallb is_letter ls = true -> 0 <= of_digits 58 (digits_of ls)) as Hnn.
  { intros Hl. pose proof (of_digits_bound 58 ltac:(lia) _ (digits_of_range ls Hb Hl)). lia. }
  set (r := of_digits 58 (digits_of ls)) in *.
  destruct ((u64 (res + lo) <? res) || negb (0 =? hi)) eqn:Hov.
  - destruct (forallb is_letter ls) eqn:Hl; [|done]. specialize (Hnn eq_refl). cbn [andb].
    rewrite (proj2 (Z.ltb_ge _ _)); [done|].
    rewrite Z.mul_add_distr_l.
    assert (0 <= p * (58 * r)) by (apply Z.mul_nonneg_nonneg; lia).
    enough (2 ^ 64 <= res + p * d) by lia. unfold fits in *.
    destruct (u64 (res + lo) <? res) in C, Hov; [pow2; lia|]. cbn [orb] in Hov. bool_prop. pow2. lia.
  - apply orb_false_elim in Hov. destruct Hov as [Hc1 Hc2]. rewrite Hc1 in C.
    bool_prop. subst hi. assert (u64 (res + lo) = res + p * d) as Et by lia.
    rewrite Et. unfold alphabet_size. replace (p * 58) with (58 ^ Z.of_nat (S k))
      by (subst p; rewrite Nat2Z.inj_succ, Z.pow_succ_r by lia; lia).
    rewrite IH; [|lia|rewrite <- Et; done].
    cbv zeta. replace (58 ^ Z.of_nat (S k)) with (58 * p)
      by (subst p; rewrite Nat2Z.inj_succ, Z.pow_succ_r by lia; lia).
    fold r. replace (res + p * d + 58 * p * r) with (res + p * (d + 58 * r)) by lia. done.
Qed.

(** A block of letters decodes exactly when its value fits the bytes. *)
Lemma decode_block_spec block m n : bytes_ok block -> Z.of_nat (length block) = n ->
  block_size_ok m n ->
  decode_block block n =
    let v := of_digits 58 (digits_of (rev block)) in
    if forallb is_letter block && (v <? 256 ^ m) then Some (rev (Z_to_le (Z.to_nat m) v)) else None.
Proof.
  intros Hb Hl (Hm & _ & Hd & Hn & _). unfold decode_block.
  rewrite Hd, (proj2 (Z.leb_gt m 0)) by lia.
  assert (bytes_ok (rev block)) as Hrb by by apply Forall_rev.
  rewrite take_ge by lia.
  pose proof (decode_block_loop_spec (rev block) 0 0 Hrb ltac:(rewrite length_rev; lia)
    ltac:(unfold fits; pow2; lia)) as E.
  change (u64 (58 ^ Z.of_nat 0)) with 1 in E. change (58 ^ Z.of_nat 0) with 1 in E. rewrite E.
  clear E. cbv zeta. rewrite Z.add_0_l, Z.mul_1_l.
  pose proof (forallb_is_letter_rev block) as Ef. rewrite Ef. destruct (forallb is_letter block) eqn:Hlet; [|done]. cbn [andb].
  pose proof (of_digits_bound 58 ltac:(lia) _ (digits_of_range _ Hrb ltac:(by rewrite Ef))) as [Hv0 _].
  set (v := of_digits 58 (digits_of (rev block))) in *.
  assert (Z.shiftl 1 (8 * m) = 256 ^ m) as ->.
  { rewrite Z.shiftl_1_l, Z.pow_mul_r by lia. done. }
  assert (256 ^ m <= 256 ^ 8) by (apply Z.pow_le_mono_r; lia).
  change (256 ^ 8) with (2 ^ 64) in *. unfold full_block_size.
  destruct (Z.ltb_spec v (2 ^ 64)).
  - destruct (Z.ltb_spec m 8); cbn [andb].
    + destruct (Z.leb_spec (256 ^ m) v).
      * by rewrite (proj2 (Z.ltb_ge _ _)) by lia.
      * rewrite (proj2 (Z.ltb_lt _ _)) by lia. by rewrite uint_64_to_8be_eq by (unfold fits; lia).
    + assert (m = 8) as -> by lia. change (256 ^ 8) with (2 ^ 64).
      rewrite (proj2 (Z.ltb_lt _ _)) by lia. by rewrite uint_64_to_8be_eq by (unfold fits; lia).
  - by rewrite (proj2 (Z.ltb_ge _ _)) by lia.
Qed.

Lemma letters_are_letters n num : forallb is_letter (letters n num) = true.
Proof.
  apply forallb_forall. intros c Hc. unfold letters in Hc. apply in_map_iff in Hc.
  destruct Hc as (d & <- & Hd). apply in_rev in Hd.
  pose proof (to_digits_range 58 ltac:(lia) n num) as Hr. rewrite Forall_forall in Hr.
  specialize (Hr d ltac:(by apply list_elem_of_In)).
  unfold is_letter. rewrite reverse_alphabet_at by done. apply Z.leb_le. lia.
Qed.

Lemma digits_of_letters n num : digits_of (rev (letters n num)) = to_digits 58 n num.
Proof.
  unfold digits_of, letters. rewrite <- map_rev, rev_involutive, map_map.
  rewrite <- (map_id (to_digits 58 n num)) at 2. apply map_ext_in. intros d Hd.
  pose proof (to_digits_range 58 ltac:(lia) n num) as Hr. rewrite Forall_forall in Hr.
  apply reverse_alphabet_at, Hr. by apply list_elem_of_In.
Qed.

Lemma letters_digits_of block : bytes_ok block -> forallb is_letter block = true ->
  letters (length block) (of_digits 58 (digits_of (rev block))) = block.
Proof.
  intros Hb Hl. unfold letters.
  assert (bytes_ok (rev block)) as Hrb by by apply Forall_rev.
  assert (forallb is_letter (rev block) = true) as Hrl by by rewrite forallb_is_letter_rev.
  replace (length block) with (length (digits_of (rev block)))
    by (unfold digits_of; by rewrite length_map, length_rev).
  rewrite to_of_digits by (lia || by apply digits_of_range).
  unfold digits_of. rewrite <- map_rev, rev_involutive, map_map.
  rewrite <- (map_id block) at 2. apply map_ext_in. intros c Hc.
  rewrite forallb_forall in Hl. specialize (Hl c Hc). unfold is_letter in Hl. bool_prop.
  apply alphabet_at_reverse; [|done]. unfold bytes_ok in Hb. rewrite Forall_forall in Hb.
  apply Hb. by apply list_elem_of_In.
Qed.

(** Encoding and decoding a block are inverse to each other. *)
Lemma decode_encode_block block m n res : bytes_ok block -> Z.of_nat (length block) = m ->
  block_size_ok m n ->
  encode_block block m (repeat (alphabet_at 0) (Z.to_nat n)) = Ok res ->
  Z.of_nat (length res) = n /\ bytes_ok res /\ decode_block res n = Some block.
Proof.
  intros Hb Hl Hs. rewrite (encode_block_spec block m n) by done. intros [= <-].
  pose proof Hs as (Hm & Hmn & Hdec & Hn & Hpow).
  assert (Z.of_nat (length (letters (Z.to_nat n) (le_to_Z (rev block)))) = n) as Hlen
    by (rewrite length_letters; lia).
  split; [done|]. split; [apply letters_bytes|].
  rewrite (decode_block_spec _ m n); [|apply letters_bytes|done|done].
  rewrite letters_are_letters, digits_of_letters, of_to_digits, Z2Nat.id by lia.
  pose proof (le_to_Z_bound (rev block) ltac:(by apply Forall_rev)) as Hr.
  rewrite length_rev, Hl in Hr. rewrite Z.mod_small by lia. cbv zeta.
  rewrite (proj2 (Z.ltb_lt _ _)) by lia. cbn [andb].
  rewrite <- Hl, Nat2Z.id, <- (length_rev block), Z_to_le_to_Z by by apply Forall_rev.
  by rewrite rev_involutive.
Qed.

Lemma encode_decode_block block m n res : bytes_ok block -> Z.of_nat (length block) = n ->
  block_size_ok m n -> decode_block block n = Some res ->
  Z.of_nat (length res) = m /\ bytes_ok res /\
  encode_block res m (repeat (alphabet_at 0) (Z.to_nat n)) = Ok block.
Proof.
  intros Hb Hl Hs. rewrite (decode_block_spec block m n) by done. cbv zeta.
  destruct (forallb is_letter block) eqn:Hlet; [|done].
  destruct (Z.ltb_spec (of_digits 58 (digits_of (rev block))) (256 ^ m)) as [Hv|]; [|done].
  intros [= <-]. assert (bytes_ok (rev (Z_to_le (Z.to_nat m) (of_digits 58 (digits_of (rev block)))))) as Hbr
    by apply Forall_rev, Z_to_le_bytes.
  assert (1 <= m <= 8) as Hm by apply Hs.
  assert (Z.of_nat (length (rev (Z_to_le (Z.to_nat m) (of_digits 58 (digits_of (rev block)))))) = m) as Hlm
    by (rewrite length_rev, length_Z_to_le; lia).
  split; [done|]. split; [done|]. rewrite (encode_block_spec _ m n) by done.
  rewrite rev_involutive, le_to_Z_to_le, Z2Nat.id by lia.
  assert (bytes_ok (rev block)) as Hrb by by apply Forall_rev.
  assert (forallb is_letter (rev block) = true) as Hrl by by rewrite forallb_is_letter_rev.
  pose proof (of_digits_bound 58 ltac:(lia) _ (digits_of_range _ Hrb Hrl)) as [Hv0 _].
  rewrite Z.mod_small by lia. rewrite <- Hl, Nat2Z.id. by rewrite letters_digits_of.
Qed.

(** *** Whole strings *)

Lemma full_block_sizes : block_size_ok 8 11.
Proof. apply (block_size_encoded 8). lia. Qed.

Lemma encode_full_blocks_spec count data :
  bytes_ok data -> (8 * count <= length data)%nat ->
  exists res, encode_full_blocks count data = Ok res /\ length res = (11 * count)%nat /\
    bytes_ok res /\ forall tail, decode_full_blocks count (res ++ tail) = Some (take (8 * count) data).
Proof.
  revert data. induction count as [|count IH]; intros data Hb Hl.
  { exists []. split; [done|]. split; [done|]. split; [constructor|]. intros tail. by rewrite take_0. }
  cbn [encode_full_blocks decode_full_blocks]. unfold full_block_size, full_encoded_block_size.
  change (Z.to_nat 8) with 8%nat. change (Z.to_nat 11) with 11%nat.
  assert (bytes_ok (take 8 data)) as Hb8 by by apply Forall_take.
  assert (Z.of_nat (length (take 8 data)) = 8) as Hl8 by (rewrite length_take; lia).
  pose proof (encode_block_spec _ 8 11 Hb8 Hl8 full_block_sizes) as Eb.
  pose proof (decode_encode_block _ 8 11 _ Hb8 Hl8 full_block_sizes Eb) as (Hlen & Hbl & Hdec).
  change (Z.to_nat 11) with 11%nat in Eb, Hlen, Hbl, Hdec. rewrite Eb.
  set (block := letters 11 (le_to_Z (rev (take 8 data)))) in *. clearbody block.
  destruct (IH (drop 8 data)) as (res & Er & Hlr & Hbr & Hdr);
    [by apply Forall_drop|rewrite length_drop; lia|].
  rewrite Er. simpl obind. exists (block ++ res).
  split; [done|]. rewrite length_app. split; [lia|]. split; [by apply Forall_app|].
  intros tail. rewrite <- app_assoc, take_app_length', drop_app_length', Hdec, Hdr by lia.
  f_equal. replace (8 * S count)%nat with (8 + 8 * count)%nat by lia.
  by rewrite <- take_take_drop.
Qed.

Lemma decode_full_blocks_spec count enc data :
  bytes_ok enc -> (11 * count <= length enc)%nat -> decode_full_blocks count enc = Some data ->
  length data = (8 * count)%nat /\ bytes_ok data /\
  forall tail, encode_full_blocks count (data ++ tail) = Ok (take (11 * count) enc).
Proof.
  revert enc data. induction count as [|count IH]; intros enc data Hb Hl.
  { intros [= <-]. split; [done|]. split; [constructor|]. intros tail. by rewrite take_0. }
  cbn [encode_full_blocks decode_full_blocks]. unfold full_block_size, full_encoded_block_size.
  change (Z.to_nat 8) with 8%nat. change (Z.to_nat 11) with 11%nat.
  assert (bytes_ok (take 11 enc)) as Hb11 by by apply Forall_take.
  assert (Z.of_nat (length (take 11 enc)) = 11) as Hl11 by (rewrite length_take; lia).
  destruct (decode_block (take 11 enc) 11) as [block|] eqn:Ed; [|done].
  destruct (encode_decode_block _ 8 11 _ Hb11 Hl11 full_block_sizes Ed) as (Hlb & Hbb & Eb).
  change (Z.to_nat 11) with 11%nat in Eb.
  destruct (decode_full_blocks count (drop 11 enc)) as [rest|] eqn:Er; [|done].
  destruct (IH (drop 11 enc) rest) as (Hlr & Hbr & Hr);
    [by apply Forall_drop|rewrite length_drop; lia|done|].
  intros [= <-]. rewrite length_app. split; [lia|]. split; [by apply Forall_app|].
  intros tail. rewrite <- app_assoc, take_app_length', drop_app_length', Eb by lia.
  simpl obind. rewrite Hr. simpl obind. f_equal.
  replace (11 * S count)%nat with (11 + 11 * count)%nat by lia. apply take_take_drop.
Qed.

Lemma last_block_bounds l : 0 <= l < 8 ->
  0 <= encoded_block_size l < 11 /\ decoded_block_sizes (encoded_block_size l) = l /\
  (encoded_block_size l = 0 <-> l = 0).
Proof.
  intros Hl. assert (l = 0 \/ l = 1 \/ l = 2 \/ l = 3 \/ l = 4 \/ l = 5 \/ l = 6 \/ l = 7) as H by lia.
  repeat destruct H as [->|H]; try (subst l); vm_compute; intuition congruence.
Qed.

(** The last, shorter block; with no bytes left it is empty. *)
Definition encode_last (block : list Z) (l : Z) : outcome (list Z) :=
  if 0 <? l then encode_block block l (repeat (alphabet_at 0) (Z.to_nat (encoded_block_size l)))
  else Ok [].

Definition decode_last (block : list Z) (n : Z) : option (list Z) :=
  if 0 <? n then decode_block block n else Some [].

Lemma encode_eq data :
  encode data =
    let c := Z.of_nat (length data) / 8 in
    let! res := encode_full_blocks (Z.to_nat c) data in
    let! block := encode_last (drop (Z.to_nat (c * 8)) data) (Z.of_nat (length data) mod 8) in
    Ok (res ++ block).
Proof.
  destruct data; [reflexivity|]. unfold encode, encode_last, full_block_size. cbv zeta.
  destruct (encode_full_blocks _ _) as [res|]; [|done]. simpl obind.
  destruct (0 <? _); [done|]. simpl. by rewrite app_nil_r.
Qed.

Lemma decode_eq enc :
  decode enc =
    let c := Z.of_nat (length enc) / 11 in
    let n := Z.of_nat (length enc) mod 11 in
    if decoded_block_sizes n <? 0 then None
    else
      match decode_full_blocks (Z.to_nat c) enc, decode_last (drop (Z.to_nat (c * 11)) enc) n with
      | Some data, Some block => Some (data ++ block)
      | _, _ => None
      end.
Proof.
  destruct enc; [reflexivity|]. unfold decode, decode_last, full_encoded_block_size. cbv zeta.
  destruct (decoded_block_sizes _ <? 0); [done|].
  destruct (decode_full_blocks _ _) as [data|]; [|done].
  destruct (0 <? _); [done|]. by rewrite app_nil_r.
Qed.

Lemma decode_encode_last block l : bytes_ok block -> Z.of_nat (length block) = l -> 0 <= l < 8 ->
  exists res, encode_last block l = Ok res /\ bytes_ok res /\
    Z.of_nat (length res) = encoded_block_size l /\
    decode_last res (encoded_block_size l) = Some block.
Proof.
  intros Hb Hl Hr. unfold encode_last, decode_last.
  destruct (last_block_bounds l Hr) as (Hn & Hdn & Hn0). destruct (Z.ltb_spec 0 l).
  - pose proof (block_size_encoded l ltac:(lia)) as Hs.
    pose proof (encode_block_spec block l _ Hb Hl Hs) as Eb. rewrite Eb.
    destruct (decode_encode_block block l _ _ Hb Hl Hs Eb) as (H1 & H2 & H3).
    eexists. split; [done|]. split; [done|]. split; [done|].
    by rewrite (proj2 (Z.ltb_lt _ _)) by (destruct Hs as (?&?&?&?&?); lia).
  - assert (l = 0) as -> by lia. exists []. destruct block; [|simpl in Hl; lia].
    split; [done|]. split; [constructor|]. by split.
Qed.

Lemma encode_decode_last block n res : bytes_ok block -> Z.of_nat (length block) = n -> 0 <= n < 11 ->
  0 <= decoded_block_sizes n -> decode_last block n = Some res ->
  let l := decoded_block_sizes n in
  bytes_ok res /\ Z.of_nat (length res) = l /\ l < 8 /\ encode_last res l = Ok block.
Proof.
  intros Hb Hl Hr Hd. unfold encode_last, decode_last. cbv zeta.
  assert (decoded_block_sizes n < 8 /\ (decoded_block_sizes n = 0 -> n = 0)) as [H8 H0].
  { clear Hb Hl Hd. each_below n 11%nat; (split; [reflexivity|done]). }
  destruct (Z.ltb_spec 0 n).
  - assert (0 < decoded_block_sizes n) as Hpos.
    { destruct (Z.eq_dec (decoded_block_sizes n) 0) as [E|]; [specialize (H0 E)|]; lia. }
    intros Ed. pose proof (block_size_decoded n ltac:(lia) Hpos) as Hs.
    destruct (encode_decode_block block _ n res Hb Hl Hs Ed) as (H1 & H2 & H3).
    rewrite (proj2 (Z.ltb_lt _ _)) by lia. destruct Hs as (_ & -> & _). done.
  - assert (n = 0) as -> by lia. intros [= <-]. destruct block; [|simpl in Hl; lia].
    split; [constructor|]. done.
Qed.

Lemma decode_encode_string data : bytes_ok data ->
  exists enc, encode data = Ok enc /\ bytes_ok enc /\ decode enc = Some data.
Proof.
  intros Hb. rewrite encode_eq. cbv zeta.
  pose proof (Z.div_mod (Z.of_nat (length data)) 8 ltac:(lia)) as Elen.
  pose proof (Z.mod_pos_bound (Z.of_nat (length data)) 8 ltac:(lia)) as Hl.
  assert (0 <= Z.of_nat (length data) / 8) as Hc by (apply Z.div_pos; lia).
  set (c := Z.of_nat (length data) / 8) in *. set (l := Z.of_nat (length data) mod 8) in *.
  clearbody c l. destruct (last_block_bounds l Hl) as (Hn & Hdn & _).
  destruct (encode_full_blocks_spec (Z.to_nat c) data) as (res & -> & Hlr & Hbr & Hdr); [done|lia|].
  destruct (decode_encode_last (drop (Z.to_nat (c * 8)) data) l) as (block & -> & Hbb & Hlb & Hdb);
    [by apply Forall_drop|rewrite length_drop; lia|done|].
  exists (res ++ block). split; [done|]. split; [by apply Forall_app|].
  rewrite decode_eq. cbv zeta.
  replace (Z.of_nat (length (res ++ block))) with (encoded_block_size l + c * 11)
    by (rewrite length_app; lia).
  rewrite Z.div_add, Z.mod_add, Z.div_small, Z.mod_small, Z.add_0_l, Hdn by lia.
  rewrite (proj2 (Z.ltb_ge l 0)), Hdr, drop_app_length', Hdb by lia.
  replace (Z.to_nat (c * 8)) with (8 * Z.to_nat c)%nat by lia. by rewrite take_drop.
Qed.

Lemma encode_decode_string enc data : bytes_ok enc -> decode enc = Some data ->
  bytes_ok data /\ encode data = Ok enc.
Proof.
  intros Hb. rewrite decode_eq. cbv zeta.
  pose proof (Z.div_mod (Z.of_nat (length enc)) 11 ltac:(lia)) as Elen.
  pose proof (Z.mod_pos_bound (Z.of_nat (length enc)) 11 ltac:(lia)) as Hn.
  assert (0 <= Z.of_nat (length enc) / 11) as Hc by (apply Z.div_pos; lia).
  set (c := Z.of_nat (length enc) / 11) in *. set (n := Z.of_nat (length enc) mod 11) in *. clearbody c n.
  destruct (Z.ltb_spec (decoded_block_sizes n) 0) as [|Hd]; [done|].
  destruct (decode_full_blocks (Z.to_nat c) enc) as [res|] eqn:Er; [|done].
  destruct (decode_last _ n) as [block|] eqn:El; [|done]. intros [= <-].
  destruct (decode_full_blocks_spec (Z.to_nat c) enc res) as (Hlr & Hbr & Her); [done|lia|done|].
  destruct (encode_decode_last (drop (Z.to_nat (c * 11)) enc) n block) as (Hbb & Hlb & H8 & Elb);
    [by apply Forall_drop|rewrite length_drop; lia|done|done|done|].
  split; [by apply Forall_app|]. rewrite encode_eq. cbv zeta.
  replace (Z.of_nat (length (res ++ block))) with (decoded_block_sizes n + c * 8)
    by (rewrite length_app; lia).
  rewrite Z.div_add, Z.mod_add, Z.div_small, Z.mod_small, Z.add_0_l by lia.
  rewrite Her, drop_app_length', Elb by lia. simpl. f_equal.
  replace (Z.to_nat (c * 11)) with (11 * Z.to_nat c)%nat by lia. by rewrite take_drop.
Qed.

(** C28. Base58 encoding never fails or writes outside its buffer, and decoding is its
    exact inverse: a string decodes to [data] precisely when it is the encoding of
    [data]. Hence every byte string has one encoding, and every string that
    decodes at all is the encoding of what it decodes to. *)
Theorem base58_bijective (data : list Z) :
  bytes_ok data ->
  (exists enc, encode data = Ok enc) /\
  forall enc, bytes_ok enc -> (decode enc = Some data <-> encode data = Ok enc).
Proof.
  intros Hb. destruct (decode_encode_string data Hb) as (enc & Ee & Hbe & Ed).
  split; [by exists enc|]. intros enc' Hbe'. split.
  - intros Hd. by apply encode_decode_string.
  - rewrite Ee. by intros [= <-].
Qed.

Lemma base58_bijective_witness :
  decode (str "5Q") = Some [255] /\ (exists enc, encode [255] = Ok enc).
Proof.
  assert (bytes_ok [255]) as Hb by (repeat constructor; unfold is_byte, fits; lia).
  split.
  - apply (base58_bijective [255] Hb); [|reflexivity].
    repeat (constructor; [unfold is_byte, fits; cbn; lia|]). constructor.
  - apply (base58_bijective [255] Hb).
Defined.

(** *** Length and first letters of a text *)

Lemma encode_length data enc : bytes_ok data -> encode data = Ok enc ->
  Z.of_nat (length enc) = Z.of_nat (length data) / 8 * 11 + encoded_block_size (Z.of_nat (length data) mod 8).
Proof.
  intros Hb. rewrite encode_eq. cbv zeta.
  pose proof (Z.div_mod (Z.of_nat (length data)) 8 ltac:(lia)) as Elen.
  pose proof (Z.mod_pos_bound (Z.of_nat (length data)) 8 ltac:(lia)) as Hl.
  assert (0 <= Z.of_nat (length data) / 8) as Hc by (apply Z.div_pos; lia).
  set (c := Z.of_nat (length data) / 8) in *. set (l := Z.of_nat (length data) mod 8) in *. clearbody c l.
  destruct (encode_full_blocks_spec (Z.to_nat c) data) as (res & -> & Hlr & _ & _); [done|lia|].
  destruct (decode_encode_last (drop (Z.to_nat (c * 8)) data) l) as (block & -> & _ & Hlb & _);
    [by apply Forall_drop|rewrite length_drop; lia|done|].
  cbn [obind]. intros [= <-]. rewrite length_app. lia.
Qed.

Lemma letters_take n k num : take n (letters (n + k) num) = letters n (num / 58 ^ Z.of_nat k).
Proof.
  revert num. induction k as [|k IH]; intros num.
  - rewrite Nat.add_0_r, take_ge by (rewrite length_letters; lia). by rewrite Z.div_1_r.
  - rewrite Nat.add_succ_r, letters_S, take_app_le by (rewrite length_letters; lia). rewrite IH. f_equal.
    rewrite Nat2Z.inj_succ, Z.pow_succ_r by lia. by rewrite Z.div_div by lia.
Qed.

Lemma encode_head data enc : bytes_ok data -> (8 <= length data)%nat -> encode data = Ok enc ->
  take 11 enc = letters 11 (le_to_Z (rev (take 8 data))).
Proof.
  intros Hb Hl. rewrite encode_eq. cbv zeta.
  assert (Hc : 1 <= Z.of_nat (length data) / 8) by (apply Z.div_le_lower_bound; lia).
  destruct (Z.to_nat (Z.of_nat (length data) / 8)) as [|c] eqn:Ec; [lia|]. cbn [encode_full_blocks].
  unfold full_block_size, full_encoded_block_size. change (Z.to_nat 8) with 8%nat.
  rewrite encode_block_spec; [|by apply Forall_take|rewrite length_take; lia|exact full_block_sizes]. cbn [obind].
  change (Z.to_nat 11) with 11%nat. pose proof (length_letters 11 (le_to_Z (rev (take 8 data)))) as Hlen.
  set (head := letters 11 _) in *. clearbody head.
  destruct (encode_full_blocks c _) as [res|]; [|done]. cbn [obind].
  destruct (encode_last _ _) as [block|]; [|done]. cbn [obind]. intros [= <-].
  rewrite <- app_assoc. by rewrite take_app_length' by lia.
Qed.

(** *** Addresses *)

Section AddressTheorems.
Context (cn_fast_hash : list Z -> list Z).
(** The hash returns 32 bytes whatever its input. *)
Hypothesis hash_bytes : forall l, bytes_ok (cn_fast_hash l) /\ length (cn_fast_hash l) = 32%nat.

Lemma read_varint_encode tag data : fits 64 tag -> bytes_ok data ->
  read_varint 64 (write_varint tag ++ data) = (Z.of_nat (length (write_varint tag)), tag).
Proof.
  intros Ht Hd. assert (bytes_ok (write_varint tag ++ data)) as Hb
    by (apply Forall_app; split; [by apply write_varint_bytes|done]).
  pose proof (read_varint_agrees 64 _ ltac:(lia) Hb) as H.
  rewrite (readVarint_encode 64 tag data) in H by (lia || done).
  rewrite H, length_app. f_equal. lia.
Qed.

(** The checksum of an encoded address is found and removed. *)
Lemma decode_addr_of_buf buf enc : bytes_ok buf -> buf <> [] ->
  encode (buf ++ take 4 (cn_fast_hash buf)) = Ok enc -> bytes_ok enc /\
  decode_addr cn_fast_hash enc =
    let '(read, tag) := read_varint 64 buf in
    if read <=? 0 then None else Some (tag, drop (Z.to_nat read) buf).
Proof.
  intros Hb Hne He. destruct (hash_bytes buf) as [Hh Hlh].
  assert (bytes_ok (buf ++ take 4 (cn_fast_hash buf))) as Hbc
    by (apply Forall_app; split; [done|by apply Forall_take]).
  destruct (decode_encode_string _ Hbc) as (enc' & Ee & Hbe & Ed).
  rewrite Ee in He. injection He as ->. split; [done|]. unfold decode_addr. rewrite Ed.
  assert (0 < length buf)%nat by (destruct buf; [done|simpl; lia]).
  unfold addr_checksum_size. change (Z.to_nat 4) with 4%nat.
  rewrite length_app, length_take, Hlh, (proj2 (Z.leb_gt _ _)) by lia.
  replace (Z.to_nat _) with (length buf) by lia.
  by rewrite take_app_length, drop_app_length, bool_decide_true.
Qed.

(** Whatever the hash, encoding a tag and a payload as an address succeeds and
    decoding the address gives the tag and the payload back. *)
Lemma decode_encode_addr (tag : Z) (data : list Z) :
  fits 64 tag -> bytes_ok data ->
  exists addr, encode_addr cn_fast_hash tag data = Ok addr /\ bytes_ok addr /\
    encode (write_varint tag ++ data ++ take 4 (cn_fast_hash (write_varint tag ++ data))) = Ok addr /\
    decode_addr cn_fast_hash addr = Some (tag, data).
Proof.
  intros Ht Hd. unfold encode_addr, get_varint_data. rewrite (app_assoc _ data). set (buf := write_varint tag ++ data).
  assert (bytes_ok buf) as Hb by (apply Forall_app; split; [by apply write_varint_bytes|done]).
  assert (buf <> []) as Hne.
  { pose proof (write_varint_nonempty tag Ht). subst buf. by destruct (write_varint tag); [simpl in *; lia|]. }
  destruct (decode_encode_string (buf ++ take 4 (cn_fast_hash buf))) as (addr & Ee & _ & _).
  { apply Forall_app; split; [done|]. apply Forall_take, hash_bytes. }
  exists addr. split; [done|].
  destruct (decode_addr_of_buf buf addr Hb Hne Ee) as [Hba ->]. split; [done|]. split; [done|]. subst buf.
  rewrite read_varint_encode by done. pose proof (write_varint_nonempty tag Ht).
  rewrite (proj2 (Z.leb_gt _ _)) by lia. by rewrite Nat2Z.id, drop_app_length.
Qed.

(** An address that decodes to a tag and a non-empty payload is the one the encoder
    produces for them: no second spelling, wrong checksum or longer tag encoding
    is accepted. *)
Theorem address_unique (addr : list Z) (tag : Z) (data : list Z) :
  bytes_ok addr -> data <> [] -> decode_addr cn_fast_hash addr = Some (tag, data) ->
  encode_addr cn_fast_hash tag data = Ok addr /\ fits 64 tag.
Proof.
  intros Hb Hne. unfold decode_addr.
  destruct (decode addr) as [d|] eqn:Ed; [|done].
  destruct (encode_decode_string addr d Hb Ed) as [Hbd Ee].
  unfold addr_checksum_size. destruct (Z.leb_spec (Z.of_nat (length d)) 4) as [|Hlen]; [done|].
  cbv zeta. remember (Z.to_nat (Z.of_nat (length d) - 4)) as n eqn:En. case_bool_decide as Hck; [|done]. cbv beta iota delta [negb].
  change (Z.to_nat 4) with 4%nat in Hck.
  assert (bytes_ok (take n d)) as Hbt by by apply Forall_take.
  pose proof (read_varint_agrees 64 (take n d) ltac:(lia) Hbt) as H.
  destruct (read_varint 64 (take n d)) as [read i] eqn:Er.
  destruct (Z.leb_spec read 0) as [|Hread]; [done|]. intros [= -> <-].
  destruct (readVarint 64 (take n d)) as [[v rest]|e] eqn:Ev.
  - injection H as -> ->.
    apply readVarint_inverse in Ev as [Hv Et]; [|lia|done].
    split; [|done]. unfold encode_addr, get_varint_data. rewrite Et in Hne |- *.
    rewrite length_app.
    replace (Z.to_nat _) with (length (write_varint v)) by lia.
    rewrite drop_app_length, <- Et. unfold addr_checksum_size. change (Z.to_nat 4) with 4%nat.
    rewrite Hck. by rewrite take_drop.
  - exfalso. apply Hne. destruct e; simpl in H; try done.
    destruct H as [[_ H]|[[_ H]|[_ H]]]; subst read; try lia.
    rewrite drop_ge by lia. done.
Qed.

End AddressTheorems.

Lemma address_unique_witness :
  encode_addr (fun _ => repeat 7 32) 5 [1] = Ok (str "13VXbLZfL") /\ fits 64 5.
Proof.
  apply address_unique.
  - repeat (constructor; [unfold is_byte, fits; cbn; lia|]). constructor.
  - discriminate.
  - vm_compute. reflexivity.
Defined.

End Base58.
