(* ===== verification/StringTools.v ===== *)
(** * Strings

    Hexadecimal, trimming, splitting and number parsing of
    [src/src/common/StringTools.cpp], [.h] and [src/src/utilities/String.cpp].
    A [std::string] or byte vector is a list of bytes; an overload that reports
    errors by an exception returns an [outcome], one that reports them by
    [false] an [option] or a boolean with the output argument. *)

From S2P Require Import Prelude.

Module StringTools.

(** ** Hexadecimal *)

Definition characterValues : list Z :=
  [0xff; 0xff; 0xff; 0xff; 0xff; 0xff; 0xff; 0xff; 0xff; 0xff; 0xff; 0xff; 0xff; 0xff; 0xff; 0xff;
   0xff; 0xff; 0xff; 0xff; 0xff; 0xff; 0xff; 0xff; 0xff; 0xff; 0xff; 0xff; 0xff; 0xff; 0xff; 0xff;
   0xff; 0xff; 0xff; 0xff; 0xff; 0xff; 0xff; 0xff; 0xff; 0xff; 0xff; 0xff; 0xff; 0xff; 0xff; 0xff;
   0x00; 0x01; 0x02; 0x03; 0x04; 0x05; 0x06; 0x07; 0x08; 0x09; 0xff; 0xff; 0xff; 0xff; 0xff; 0xff;
   0xff; 0x0a; 0x0b; 0x0c; 0x0d; 0x0e; 0x0f; 0xff; 0xff; 0xff; 0xff; 0xff; 0xff; 0xff; 0xff; 0xff;
   0xff; 0xff; 0xff; 0xff; 0xff; 0xff; 0xff; 0xff; 0xff; 0xff; 0xff; 0xff; 0xff; 0xff; 0xff; 0xff;
   0xff; 0x0a; 0x0b; 0x0c; 0x0d; 0x0e; 0x0f; 0xff; 0xff; 0xff; 0xff; 0xff; 0xff; 0xff; 0xff; 0xff;
   0xff; 0xff; 0xff; 0xff; 0xff; 0xff; 0xff; 0xff; 0xff; 0xff; 0xff; 0xff; 0xff; 0xff; 0xff; 0xff;
   0xff; 0xff; 0xff; 0xff; 0xff; 0xff; 0xff; 0xff; 0xff; 0xff; 0xff; 0xff; 0xff; 0xff; 0xff; 0xff;
   0xff; 0xff; 0xff; 0xff; 0xff; 0xff; 0xff; 0xff; 0xff; 0xff; 0xff; 0xff; 0xff; 0xff; 0xff; 0xff;
   0xff; 0xff; 0xff; 0xff; 0xff; 0xff; 0xff; 0xff; 0xff; 0xff; 0xff; 0xff; 0xff; 0xff; 0xff; 0xff;
   0xff; 0xff; 0xff; 0xff; 0xff; 0xff; 0xff; 0xff; 0xff; 0xff; 0xff; 0xff; 0xff; 0xff; 0xff; 0xff;
   0xff; 0xff; 0xff; 0xff; 0xff; 0xff; 0xff; 0xff; 0xff; 0xff; 0xff; 0xff; 0xff; 0xff; 0xff; 0xff;
   0xff; 0xff; 0xff; 0xff; 0xff; 0xff; 0xff; 0xff; 0xff; 0xff; 0xff; 0xff; 0xff; 0xff; 0xff; 0xff;
   0xff; 0xff; 0xff; 0xff; 0xff; 0xff; 0xff; 0xff; 0xff; 0xff; 0xff; 0xff; 0xff; 0xff; 0xff; 0xff;
   0xff; 0xff; 0xff; 0xff; 0xff; 0xff; 0xff; 0xff; 0xff; 0xff; 0xff; 0xff; 0xff; 0xff; 0xff; 0xff].

Definition character_value (character : Z) : Z := nth (Z.to_nat character) characterValues 0xff.

Definition fromHex_char (character : Z) : outcome Z :=
  let value := character_value character in
  if 0x0f <? value then Err (RuntimeError "fromHex: invalid character") else Ok value.

(** The overload that assigns an output argument. *)
Definition fromHex_char_opt (character : Z) : option Z :=
  if 0x0f <? character_value character then None else Some (character_value character).

(** Two characters make a byte: [value1 << 4 | value2]. *)
Fixpoint fromHex_pairs (text : list Z) : outcome (list Z) :=
  match text with
  | a :: b :: text =>
    let! x := fromHex_char a in
    let! y := fromHex_char b in
    let! rest := fromHex_pairs text in
    Ok (Z.lor (Z.shiftl x 4) y :: rest)
  | _ => Ok []
  end.

(** [fromHex(text)] returning a vector. *)
Definition fromHex (text : list Z) : outcome (list Z) :=
  if Z.odd (Z.of_nat (length text)) then Err (RuntimeError "fromHex: invalid string size")
  else fromHex_pairs text.

(** [fromHex(text, data, bufferSize)]: the bytes written at [data]; the
    returned size is their number. *)
Definition fromHex_buffer (text : list Z) (bufferSize : Z) : outcome (list Z) :=
  if Z.odd (Z.of_nat (length text)) then Err (RuntimeError "fromHex: invalid string size")
  else if bufferSize <? Z.of_nat (length text) / 2 then Err (RuntimeError "fromHex: invalid buffer size")
  else fromHex_pairs text.

(** The loops of the overloads that return [false]: the bytes converted before
    the first bad character, and whether there was one. *)
Fixpoint fromHex_prefix (text : list Z) : list Z * bool :=
  match text with
  | a :: b :: text =>
    match fromHex_char_opt a with
    | None => ([], false)
    | Some value1 =>
      match fromHex_char_opt b with
      | None => ([], false)
      | Some value2 =>
        let '(rest, ok) := fromHex_prefix text in
        (Z.lor (Z.shiftl value1 4) value2 :: rest, ok)
      end
    end
  | _ => ([], true)
  end.

(** [fromHex(text, data, bufferSize, size)]: [Some] of the bytes written when
    it returns [true]; [size] is their number. *)
Definition fromHex_buffer_opt (text : list Z) (bufferSize : Z) : option (list Z) :=
  if Z.odd (Z.of_nat (length text)) then None
  else if bufferSize <? Z.of_nat (length text) / 2 then None
  else let '(data, ok) := fromHex_prefix text in if ok : bool then Some data else None.

(** [fromHex(text, data)]: appends to [data]; bytes before a bad character stay. *)
Definition fromHex_append (text data : list Z) : list Z * bool :=
  if Z.odd (Z.of_nat (length text)) then (data, false)
  else let '(bytes, ok) := fromHex_prefix text in (data ++ bytes, ok).

Definition podFromHex (size : Z) (text : list Z) : option (list Z) :=
  match fromHex_buffer_opt text size with
  | Some data => if Z.of_nat (length data) =? size then Some data else None
  | None => None
  end.

Definition hex_digit (n : Z) : Z := nth (Z.to_nat n) (str "0123456789abcdef") 0.

Fixpoint toHex (data : list Z) : list Z :=
  match data with
  | [] => []
  | b :: data => hex_digit (Z.shiftr b 4) :: hex_digit (Z.land b 15) :: toHex data
  end.

Definition toHex_append (data text : list Z) : list Z := text ++ toHex data.

(** ** Splitting at a delimiter *)

(** [std::string::find] of a character from an offset. *)
Fixpoint find_char (text : list Z) (delimiter : Z) : option nat :=
  match text with
  | [] => None
  | c :: text => if c =? delimiter then Some O else S <$> find_char text delimiter
  end.

(** [extract(text, delimiter)]: the first field; the text keeps the rest. *)
Definition extract (text : list Z) (delimiter : Z) : list Z * list Z :=
  match find_char text delimiter with
  | Some p => (take p text, drop (p + 1) text)
  | None => (text, [])
  end.

(** [extract(text, delimiter, offset)]: returns the field and the new offset. *)
Definition extract_at (text : list Z) (delimiter : Z) (offset : nat) : list Z * nat :=
  match find_char (drop offset text) delimiter with
  | Some p =>
    let delimiterPosition := (offset + p)%nat in
    let offset := (delimiterPosition + 1)%nat in
    (take delimiterPosition (drop offset text), offset)
  | None => ([], length text)
  end.

(** ** Numbers *)

Definition isdigit (c : Z) : bool := (48 <=? c) && (c <=? 57).
Definition isspace (c : Z) : bool := (c =? 32) || ((9 <=? c) && (c <=? 13)).

(** The digits of [std::to_string], least significant first; 20 are enough for
    64 bits. *)
Fixpoint decimal_loop (fuel : nat) (n : Z) : list Z :=
  match fuel with
  | O => []
  | S fuel => if n =? 0 then [] else (48 + n mod 10) :: decimal_loop fuel (n / 10)
  end.

Definition to_string (n : Z) : list Z :=
  if n =? 0 then [48] else rev (decimal_loop 20 n).

(** The digits at the head of a text, and their value. *)
Fixpoint span_digits (text : list Z) : list Z :=
  match text with
  | c :: text => if isdigit c then c :: span_digits text else []
  | [] => []
  end.

Definition decimal_value (digits : list Z) : Z :=
  fold_left (fun v c => v * 10 + (c - 48)) digits 0.

Fixpoint skip_spaces (text : list Z) : list Z :=
  match text with
  | c :: text' => if isspace c then skip_spaces text' else text
  | [] => []
  end.

(** [fromString<uint64_t>(text, value)]: [stream >> value] skips white space,
    takes a sign and decimal digits, and fails without a digit or when the
    number exceeds 64 bits. *)
Definition fromString_u64 (text : list Z) : option Z :=
  let text := skip_spaces text in
  let '(negative, text) :=
    match text with
    | c :: text' => if c =? 45 then (true, text') else if c =? 43 then (false, text') else (false, text)
    | [] => (false, [])
    end in
  let digits := span_digits text in
  match digits with
  | [] => None
  | _ =>
    let v := decimal_value digits in
    if 2 ^ 64 <=? v then None else Some (if negative : bool then u64 (- v) else v)
  end.

(** ** Trimming and prefixes *)

Definition whitespace : list Z := [32; 9; 10; 13; 12; 11].

Definition is_whitespace (c : Z) : bool := existsb (Z.eqb c) whitespace.

(** [str.erase(0, str.find_first_not_of(whitespace))]; with nothing found the
    position is [npos] and everything is erased. *)
Fixpoint leftTrim (text : list Z) : list Z :=
  match text with
  | c :: text' => if is_whitespace c then leftTrim text' else text
  | [] => []
  end.

(** [str.erase(str.find_last_not_of(whitespace) + 1)]; with nothing found the
    position is [npos + 1 = 0]. *)
Definition rightTrim (text : list Z) : list Z := rev (leftTrim (rev text)).

Definition trim (text : list Z) : list Z := leftTrim (rightTrim text).

Definition removeCharFromString (text : list Z) (c : Z) : list Z :=
  List.filter (fun x => negb (x =? c)) text.

Fixpoint startsWith (text substring : list Z) : bool :=
  match substring, text with
  | [], _ => true
  | c :: substring, d :: text => (c =? d) && startsWith text substring
  | _ :: _, [] => false
  end.

Definition removePrefix (text prefix : list Z) : list Z :=
  if startsWith text prefix then drop (length prefix) text else text.

(** [split]: [std::getline] until the stream is exhausted, so a trailing
    delimiter adds no empty token. *)
Fixpoint split_loop (text : list Z) (delimiter : Z) (token : list Z) : list (list Z) :=
  match text with
  | [] => match token with [] => [] | _ => [token] end
  | c :: text =>
    if c =? delimiter then token :: split_loop text delimiter []
    else split_loop text delimiter (token ++ [c])
  end.

Definition split (text : list Z) (delimiter : Z) : list (list Z) := split_loop text delimiter [].

(** ** Addresses and intervals *)

Definition ipAddressToString (ip : Z) : list Z :=
  to_string (Z.land ip 0xFF) ++ str "." ++
  to_string (Z.land (Z.shiftr ip 8) 0xFF) ++ str "." ++
  to_string (Z.land (Z.shiftr ip 16) 0xFF) ++ str "." ++
  to_string (Z.land (Z.shiftr ip 24) 0xFF).

(** [std::setw(2)] with fill ['0']. *)
Definition pad2 (text : list Z) : list Z := repeat 48 (2 - length text) ++ text.

Definition timeIntervalToString (intervalInSeconds : Z) : list Z :=
  let tail := intervalInSeconds in
  let days := tail / (60 * 60 * 24) in
  let tail := tail mod (60 * 60 * 24) in
  let hours := tail / (60 * 60) in
  let tail := tail mod (60 * 60) in
  let minutes := tail / 60 in
  let tail := tail mod 60 in
  let seconds := tail in
  str "d" ++ to_string days ++ str ".h" ++ pad2 (to_string hours) ++
  str ".m" ++ pad2 (to_string minutes) ++ str ".s" ++ pad2 (to_string seconds).

(** ** Hexadecimal: the accepted texts and the round trip *)

Definition lower (c : Z) : Z := if (65 <=? c) && (c <=? 70) then c + 32 else c.

Lemma character_value_outside c : ~ is_byte c -> character_value c = 0xff.
Proof.
  intros Hc. unfold character_value. destruct (Z_lt_ge_dec c 0).
  - destruct c; [lia|lia|done].
  - apply nth_overflow. unfold is_byte, fits in Hc. pow2. change (length characterValues) with 256%nat. lia.
Qed.

Lemma is_byte_dec c : {is_byte c} + {~ is_byte c}.
Proof.
  destruct (fitsb 8 c) eqn:E; [left; by apply fitsb_spec|right]. intros H. apply fitsb_spec in H. congruence.
Qed.

Lemma character_value_lower c : character_value (lower c) = character_value c.
Proof.
  destruct (is_byte_dec c) as [Hc|Hc].
  - apply Z.eqb_eq. apply (byte_cases (fun c => character_value (lower c) =? character_value c)); done.
  - unfold lower. case_if; [|done]. exfalso. apply Hc. unfold is_byte, fits. pow2. lia.
Qed.

Lemma character_value_digit c : character_value c <= 15 -> hex_digit (character_value c) = lower c /\ 0 <= character_value c.
Proof.
  intros Hv. destruct (is_byte_dec c) as [Hc|Hc]; [|rewrite character_value_outside in Hv; [lia|done]].
  pose proof (byte_cases (fun c => (15 <? character_value c) ||
    ((hex_digit (character_value c) =? lower c) && (0 <=? character_value c))) eq_refl c Hc) as H.
  simpl in H. apply orb_prop in H as [H|H]; bool_prop; [lia|]. done.
Qed.

Lemma hex_digit_value n : 0 <= n <= 15 -> character_value (hex_digit n) = n.
Proof.
  intros Hn. apply Z.eqb_eq.
  pose proof (byte_cases (fun n => (15 <? n) || (character_value (hex_digit n) =? n)) eq_refl n) as H.
  apply orb_prop in H as [H|H]; bool_prop; [lia| |unfold is_byte, fits; pow2; lia]. by apply Z.eqb_eq.
Qed.

Lemma nibbles b : is_byte b ->
  0 <= Z.shiftr b 4 <= 15 /\ 0 <= Z.land b 15 <= 15 /\ Z.lor (Z.shiftl (Z.shiftr b 4) 4) (Z.land b 15) = b.
Proof.
  intros Hb. pose proof (byte_cases (fun b => (0 <=? Z.shiftr b 4) && (Z.shiftr b 4 <=? 15) && (0 <=? Z.land b 15) &&
    (Z.land b 15 <=? 15) && (Z.lor (Z.shiftl (Z.shiftr b 4) 4) (Z.land b 15) =? b)) eq_refl b Hb) as H.
  simpl in H. bool_prop. done.
Qed.

Lemma pair_byte x y : 0 <= x <= 15 -> 0 <= y <= 15 ->
  let b := Z.lor (Z.shiftl x 4) y in is_byte b /\ Z.shiftr b 4 = x /\ Z.land b 15 = y.
Proof.
  intros Hx Hy. assert (E : Z.lor (Z.shiftl x 4) y = y + x * 2 ^ 4)
    by (rewrite Z.lor_comm; apply lor_shiftl_add; lia).
  cbv zeta. rewrite E. split_and!.
  - unfold is_byte, fits. pow2. lia.
  - rewrite Z.shiftr_div_pow2 by lia. pow2. rewrite Z.div_add by lia. rewrite Z.div_small by lia. lia.
  - change 15 with (Z.ones 4). rewrite Z.land_ones by lia. pow2. rewrite Z.mod_add by lia. apply Z.mod_small. lia.
Qed.

Lemma fromHex_char_Ok c v : fromHex_char c = Ok v <-> character_value c <= 15 /\ v = character_value c.
Proof. unfold fromHex_char. destruct (Z.ltb_spec 15 (character_value c)); naive_solver lia. Qed.

Lemma pair_ind {A} (P : list A -> Prop) :
  P [] -> (forall x, P [x]) -> (forall x y l, P l -> P (x :: y :: l)) -> forall l, P l.
Proof.
  intros H0 H1 H2. assert (forall l, P l /\ forall x, P (x :: l)) as H; [|apply H].
  induction l as [|x l [IH IH']]; split; auto.
Qed.

Lemma odd_length_pair {A} (x y : A) l :
  Z.odd (Z.of_nat (length (x :: y :: l))) = Z.odd (Z.of_nat (length l)).
Proof. cbn [length]. rewrite !Nat2Z.inj_succ, Z.odd_succ_succ. done. Qed.

Lemma fromHex_pairs_sound text : forall d,
  Z.odd (Z.of_nat (length text)) = false -> fromHex_pairs text = Ok d ->
  bytes_ok d /\ toHex d = map lower text.
Proof.
  induction text as [|x|x y text IH] using pair_ind; intros d Hodd H; [by inversion_clear H; repeat constructor|done|].
  rewrite odd_length_pair in Hodd. cbn [fromHex_pairs] in H.
  apply obind_Ok in H as (vx & Hx & H). apply obind_Ok in H as (vy & Hy & H).
  apply obind_Ok in H as (rest & Hr & H). injection H as <-.
  apply fromHex_char_Ok in Hx as [Hx ->]. apply fromHex_char_Ok in Hy as [Hy ->].
  destruct (IH rest Hodd Hr) as [Hok Eq].
  destruct (character_value_digit x Hx) as [Ex Hx']. destruct (character_value_digit y Hy) as [Ey Hy'].
  destruct (pair_byte (character_value x) (character_value y)) as (Hb & E1 & E2); [lia|lia|].
  split; [by constructor|]. cbn [toHex map]. rewrite E1, E2, Ex, Ey, Eq. done.
Qed.

Lemma fromHex_pairs_lower text : fromHex_pairs (map lower text) = fromHex_pairs text.
Proof.
  induction text as [| |x y text IH] using pair_ind; [done|done|].
  cbn [map fromHex_pairs]. unfold fromHex_char. by rewrite !character_value_lower, IH.
Qed.

Lemma fromHex_pairs_toHex d : bytes_ok d -> fromHex_pairs (toHex d) = Ok d.
Proof.
  induction 1 as [|b d Hb Hd IH]; [done|]. cbn [toHex fromHex_pairs].
  destruct (nibbles b Hb) as (Hh & Hl & E).
  unfold fromHex_char. rewrite !hex_digit_value by lia.
  rewrite !(proj2 (Z.ltb_ge _ _)) by lia. cbn [obind]. rewrite IH. cbn [obind]. by rewrite E.
Qed.

Lemma length_toHex d : length (toHex d) = (2 * length d)%nat.
Proof. induction d; simpl; lia. Qed.

Lemma fromHex_spec text d : fromHex text = Ok d <-> bytes_ok d /\ toHex d = map lower text.
Proof.
  unfold fromHex. split.
  - destruct (Z.odd _) eqn:E; [done|]. intros H. by apply fromHex_pairs_sound.
  - intros [Hd E]. assert (length text = (2 * length d)%nat) as Hlen.
    { rewrite <- (length_map lower text), <- E. apply length_toHex. }
    rewrite Hlen, Nat2Z.inj_mul, Z.odd_mul. cbn [Z.odd Z.of_nat andb].
    rewrite <- fromHex_pairs_lower, <- E. by apply fromHex_pairs_toHex.
Qed.

Lemma fromHex_prefix_pairs text d :
  fromHex_prefix text = (d, true) <-> fromHex_pairs text = Ok d.
Proof.
  revert d. induction text as [| |x y text IH] using pair_ind; intros d.
  1-2: simpl; naive_solver.
  cbn [fromHex_prefix fromHex_pairs]. unfold fromHex_char_opt, fromHex_char.
  destruct (15 <? character_value x); [done|]. destruct (15 <? character_value y); [done|]. cbn [obind].
  destruct (fromHex_prefix text) as [rest ok]. destruct (fromHex_pairs text) as [rest'|e]; cbn [obind].
  - destruct (IH rest') as [_ H]. specialize (H eq_refl). injection H as -> ->. naive_solver.
  - split; [|done]. intros [= <- ->]. destruct (IH rest) as [H _]. discriminate (H eq_refl).
Qed.

Lemma podFromHex_toHex n d :
  bytes_ok d -> Z.of_nat (length d) = n -> podFromHex n (toHex d) = Some d.
Proof.
  intros Hd Hn. unfold podFromHex, fromHex_buffer_opt. rewrite length_toHex, Nat2Z.inj_mul, Z.odd_mul.
  change (Z.odd (Z.of_nat 2)) with false. cbn [andb]. rewrite Z.mul_comm, Z.div_mul by done. rewrite Hn, Z.ltb_irrefl.
  rewrite (proj2 (fromHex_prefix_pairs _ d)) by (by apply fromHex_pairs_toHex). cbv beta iota. by rewrite Hn, Z.eqb_refl.
Qed.

Lemma hex_digit_range n : 0 <= n <= 15 -> 48 <= hex_digit n.
Proof. intros H. each_below n 16%nat; vm_compute; discriminate. Qed.

Lemma toHex_range d : bytes_ok d -> Forall (fun c => 48 <= c) (toHex d).
Proof.
  induction 1 as [|b d Hb Hd IH]; [constructor|]. cbn [toHex]. destruct (nibbles b Hb) as (H1 & H2 & _).
  repeat (apply Forall_cons; split; [by apply hex_digit_range|]). done.
Qed.

(** ** Finding a character *)

Lemma find_char_app a l ch : Forall (fun x => x <> ch) a -> find_char (a ++ ch :: l) ch = Some (length a).
Proof.
  induction 1 as [|x a Hx Ha IH]; cbn [app find_char length].
  - by rewrite Z.eqb_refl.
  - by rewrite (proj2 (Z.eqb_neq _ _)), IH by done.
Qed.

(** ** Decimal numbers *)

Lemma decimal_loop_cons fuel n :
  n <> 0 -> decimal_loop (S fuel) n = (48 + n mod 10) :: decimal_loop fuel (n / 10).
Proof. intros Hn. cbn [decimal_loop]. by rewrite (proj2 (Z.eqb_neq _ _)). Qed.

Lemma decimal_loop_digits fuel n : 0 <= n -> Forall (fun c => isdigit c = true) (decimal_loop fuel n).
Proof.
  revert n; induction fuel; intros n Hn; simpl; [constructor|].
  case_if; constructor; [|apply IHfuel, Z.div_pos; lia].
  pose proof (Z.mod_pos_bound n 10 ltac:(lia)). unfold isdigit.
  rewrite !(proj2 (Z.leb_le _ _)) by lia. done.
Qed.

Lemma decimal_loop_value fuel n :
  0 <= n < 10 ^ Z.of_nat fuel -> decimal_value (rev (decimal_loop fuel n)) = n.
Proof.
  unfold decimal_value. rewrite <- fold_left_rev_right, rev_involutive.
  revert n; induction fuel as [|fuel IH]; intros n Hn; [simpl in *; lia|].
  rewrite Nat2Z.inj_succ, Z.pow_succ_r in Hn by lia. cbn [decimal_loop].
  case_if; [simpl; lia|]. cbn [fold_right].
  rewrite IH by (split; [apply Z.div_pos; lia|apply Z.div_lt_upper_bound; lia]).
  pose proof (Z.div_mod n 10 ltac:(lia)). lia.
Qed.

Lemma decimal_value_app a b : decimal_value (a ++ b) = decimal_value a * 10 ^ Z.of_nat (length b) + decimal_value b.
Proof.
  unfold decimal_value. rewrite fold_left_app. generalize (fold_left (fun v c => v * 10 + (c - 48)) a 0) as v.
  induction b as [|c b IH] using rev_ind; intros v; [simpl; lia|].
  rewrite length_app, Nat2Z.inj_add, Z.pow_add_r by lia. rewrite !fold_left_app. cbn [fold_left length].
  rewrite IH. change (10 ^ Z.of_nat 1) with 10. lia.
Qed.

Lemma decimal_value_zeros n : decimal_value (repeat 48 n) = 0.
Proof.
  induction n as [|n IH]; [done|]. change (repeat 48 (S n)) with ([48] ++ repeat 48 n).
  rewrite decimal_value_app, IH. done.
Qed.

Lemma to_string_digits n : 0 <= n -> Forall (fun c => isdigit c = true) (to_string n).
Proof.
  intros Hn. unfold to_string. case_if; [by repeat constructor|]. by apply Forall_rev, decimal_loop_digits.
Qed.

Lemma to_string_value n : fits 64 n -> decimal_value (to_string n) = n.
Proof.
  intros Hn. unfold to_string. case_if; [by subst|]. apply decimal_loop_value.
  unfold fits in Hn. simpl. pow2. lia.
Qed.

Lemma to_string_nonempty n : 0 <= n -> to_string n <> [].
Proof.
  intros Hn. unfold to_string. case_if; [done|]. rewrite decimal_loop_cons by done.
  cbn [rev]. intros H. by apply app_eq_nil in H as [_ H].
Qed.

Lemma span_digits_all l : Forall (fun c => isdigit c = true) l -> span_digits l = l.
Proof. induction 1 as [|c l Hc Hl IH]; simpl; [done|]. by rewrite Hc, IH. Qed.

Lemma isdigit_range c : isdigit c = true -> 48 <= c <= 57.
Proof. unfold isdigit. intros. bool_prop. lia. Qed.

Lemma isspace_false c : 33 <= c -> isspace c = false.
Proof.
  intros. unfold isspace. rewrite (proj2 (Z.eqb_neq c 32)), (proj2 (Z.leb_gt c 13)) by lia. by rewrite andb_false_r.
Qed.

(** A text of digits only parses to its value, unless that exceeds 64 bits. *)
Lemma fromString_digits l :
  l <> [] -> Forall (fun c => isdigit c = true) l ->
  fromString_u64 l = if 2 ^ 64 <=? decimal_value l then None else Some (decimal_value l).
Proof.
  intros Hne Hl. destruct l as [|c l]; [done|]. unfold fromString_u64.
  pose proof (isdigit_range c (Forall_inv Hl)) as Hc.
  cbn [skip_spaces]. rewrite isspace_false by lia.
  rewrite !(proj2 (Z.eqb_neq c _)) by lia. rewrite span_digits_all by done. done.
Qed.

(** ** Properties *)

(** [fromHex] accepts exactly the texts that are, up to the case of the
    letters, the [toHex] of some bytes, and returns those bytes; the overloads
    into a buffer, into a vector and into a fixed-size value accept the same
    texts, when their size fits. *)
Theorem hex_correct text d :
  (fromHex text = Ok d <-> bytes_ok d /\ toHex d = map lower text) /\
  (forall data, fromHex_append text data = (data ++ d, true) <-> fromHex text = Ok d) /\
  (forall n, podFromHex n text = Some d <-> fromHex text = Ok d /\ Z.of_nat (length d) = n) /\
  (forall n, fromHex_buffer text n = Ok d <-> fromHex text = Ok d /\ Z.of_nat (length d) <= n).
Proof.
  assert (Hhalf : forall d', Z.odd (Z.of_nat (length text)) = false -> fromHex_pairs text = Ok d' ->
    Z.of_nat (length text) / 2 = Z.of_nat (length d')).
  { intros d' Ho H. apply fromHex_pairs_sound in H as [_ E]; [|done].
    rewrite <- (length_map lower text), <- E, length_toHex, Nat2Z.inj_mul, Z.mul_comm. by apply Z.div_mul. }
  split; [apply fromHex_spec|].
  unfold fromHex_append, podFromHex, fromHex_buffer_opt, fromHex_buffer, fromHex.
  destruct (Z.odd (Z.of_nat (length text))) eqn:Ho; [naive_solver|].
  pose proof (fromHex_prefix_pairs text) as Hp. split_and!; intros x.
  - rewrite <- Hp. destruct (fromHex_prefix text). split; [|naive_solver].
    intros [= H ->]. apply app_inv_head in H as ->. done.
  - rewrite <- Hp. specialize (Hhalf d eq_refl). rewrite <- Hp in Hhalf.
    destruct (Z.ltb_spec x (Z.of_nat (length text) / 2)); [naive_solver lia|].
    destruct (fromHex_prefix text) as [d' [|]]; [|naive_solver].
    destruct (Z.eqb_spec (Z.of_nat (length d')) x); naive_solver.
  - specialize (Hhalf d eq_refl).
    destruct (Z.ltb_spec x (Z.of_nat (length text) / 2)); naive_solver lia.
Qed.

(** Decimal text and 64-bit numbers: [fromString] of [to_string] gives the
    number back. *)
Theorem to_string_roundtrip n : fits 64 n -> fromString_u64 (to_string n) = Some n.
Proof.
  intros Hn. rewrite fromString_digits.
  - rewrite to_string_value by done. unfold fits in Hn. by rewrite (proj2 (Z.leb_gt _ _)) by lia.
  - apply to_string_nonempty. unfold fits in Hn. lia.
  - apply to_string_digits. unfold fits in Hn. lia.
Qed.

(** The overload of [extract] with an offset moves the offset before it takes
    the field, and so returns the text after the delimiter. *)
Lemma extract_at_skips_field : extract_at (str "1,2,3") 44 0 = (str "2", 2%nat).
Proof. reflexivity. Qed.

End StringTools.
