(* ===== verification/TreeHash.v ===== *)
(** * Merkle trees

    [src/src/crypto/tree-hash.c]: the root of the transaction tree, the branch of
    its first leaf and the root computed from a leaf and its branch.  The hash
    function [cn_fast_hash] is a parameter. *)

From S2P Require Import Prelude.

Module TreeHash.

Section Tree.
Context (cn_fast_hash : list Z -> list Z).

(** [cn_fast_hash(hashes[i], 2 * HASH_SIZE, _)]: two adjacent hashes. *)
Definition hash_pair (hashes : list (list Z)) (i : nat) : list Z :=
  cn_fast_hash (hashes !!! i ++ hashes !!! S i).

(** [for (i, j; j < j + n; i += 2, ++j) cn_fast_hash(hashes[i], ..., ints[j])]. *)
Fixpoint hash_into (n : nat) (hashes ints : list (list Z)) (i j : nat) : list (list Z) :=
  match n with
  | O => ints
  | S n => hash_into n hashes (<[j := hash_pair hashes i]> ints) (i + 2) (j + 1)
  end.

(** The same loop with the array hashed in place. *)
Fixpoint hash_in_place (n : nat) (ints : list (list Z)) (i j : nat) : list (list Z) :=
  match n with
  | O => ints
  | S n => hash_in_place n (<[j := hash_pair ints i]> ints) (i + 2) (j + 1)
  end.

(** [for (i = 1; i < 8 * sizeof(size_t); i <<= 1) cnt |= cnt >> i;
     cnt &= ~(cnt >> 1);] *)
Definition smear (cnt i : Z) : Z := Z.lor cnt (Z.shiftr cnt i).
Definition highest_bit (cnt : Z) : Z :=
  let cnt := fold_left smear [1; 2; 4; 8; 16; 32] cnt in
  Z.land cnt (u64 (Z.lnot (Z.shiftr cnt 1))).

(** [while (cnt > 2) { cnt >>= 1; ... }]; 64 rounds bring any [cnt] below 2. *)
Fixpoint tree_hash_loop (fuel : nat) (cnt : Z) (ints : list (list Z)) : list (list Z) :=
  match fuel with
  | O => ints
  | S fuel =>
    if 2 <? cnt then
      let cnt := Z.shiftr cnt 1 in
      tree_hash_loop fuel cnt (hash_in_place (Z.to_nat cnt) ints 0 0)
    else ints
  end.

Definition tree_hash (hashes : list (list Z)) : outcome (list Z) :=
  let count := Z.of_nat (length hashes) in
  let! _ := assert_that (0 <? count) "count > 0" in
  if count =? 1 then Ok (hashes !!! 0%nat)
  else if count =? 2 then Ok (hash_pair hashes 0)
  else
    let cnt := highest_bit (count - 1) in
    let first := Z.to_nat (2 * cnt - count) in
    let ints := take first hashes ++ repeat [] (Z.to_nat cnt - first) in
    let ints := hash_into (Z.to_nat cnt - first) hashes ints first first in
    let! _ := assert_that (2 * (cnt - (2 * cnt - count)) + (2 * cnt - count) =? count) "i == count" in
    Ok (hash_pair (tree_hash_loop 64 cnt ints) 0).

Definition depth_step (state : Z * Z) (i : Z) : Z * Z :=
  let '(count, depth) := state in
  if 0 <? Z.shiftr count i then (Z.shiftr count i, depth + i) else (count, depth).

(** [for (i = sizeof(size_t) << 2; i > 0; i >>= 1)]. *)
Definition tree_depth (count : Z) : outcome Z :=
  let! _ := assert_that (0 <? count) "count > 0" in
  Ok (fold_left depth_step [32; 16; 8; 4; 2; 1] (count, 0)).2.

Definition branch_step (count : Z) (state : Z * Z) (i : Z) : Z * Z :=
  let '(cnt, depth) := state in
  if u64 (Z.shiftl cnt i) <=? count then (u64 (Z.shiftl cnt i), depth + i) else (cnt, depth).

(** [while (depth > 0)]: stores [branch[depth]] and hashes the next level. *)
Fixpoint branch_loop (depth : nat) (cnt : Z) (ints branch : list (list Z)) : outcome (list (list Z)) :=
  match depth with
  | O => Ok branch
  | S d =>
    let! _ := assert_that (cnt =? 2 ^ Z.of_nat depth) "cnt == 1ULL << depth" in
    let cnt := Z.shiftr cnt 1 in
    let branch := <[d := ints !!! 0%nat]> branch in
    branch_loop d cnt (hash_in_place (Z.to_nat (cnt - 1)) ints 1 0) branch
  end.

(** The branch of the first leaf, an array of [tree_depth(count)] hashes. *)
Definition tree_branch (hashes : list (list Z)) : outcome (list (list Z)) :=
  let count := Z.of_nat (length hashes) in
  let! _ := assert_that (0 <? count) "count > 0" in
  let '(cnt, depth) := fold_left (branch_step count) [32; 16; 8; 4; 2; 1] (1, 0) in
  let! _ := assert_that (cnt =? 2 ^ depth) "cnt == 1ULL << depth" in
  let! d := tree_depth count in
  let! _ := assert_that (depth =? d) "depth == tree_depth(count)" in
  let first := Z.to_nat (2 * cnt - count - 1) in
  let ints := take first (drop 1 hashes) ++ repeat [] (Z.to_nat (cnt - 1) - first) in
  let ints := hash_into (Z.to_nat (cnt - 1) - first) hashes ints (first + 1) first in
  let! _ := assert_that (2 * cnt - count + 2 * (cnt - 1 - (2 * cnt - count - 1)) =? count) "i == count" in
  branch_loop (Z.to_nat depth) cnt ints (repeat [] (Z.to_nat depth)).

(** The bit of the path at a depth; no path means all left. *)
Definition path_bit (path : option (list Z)) (depth : nat) : bool :=
  match path with
  | None => false
  | Some p => negb (Z.land (p !!! (depth / 8)%nat) (Z.shiftl 1 (Z.of_nat (depth mod 8))) =? 0)
  end.

(** The loop of [tree_hash_from_branch], [leaf] being the hash so far. *)
Fixpoint from_branch_loop (depth : nat) (branch : list (list Z)) (leaf : list Z) (path : option (list Z)) : list Z :=
  match depth with
  | O => leaf
  | S depth =>
    let b := branch !!! depth in
    let buffer := if path_bit path depth then b ++ leaf else leaf ++ b in
    from_branch_loop depth branch (cn_fast_hash buffer) path
  end.

Definition tree_hash_from_branch (branch : list (list Z)) (depth : nat) (leaf : list Z)
    (path : option (list Z)) : list Z :=
  from_branch_loop depth branch leaf path.

(** ** Levels of the tree *)

(** The next level: adjacent hashes hashed together. *)
Fixpoint pairs (l : list (list Z)) : list (list Z) :=
  match l with
  | a :: b :: l => cn_fast_hash (a ++ b) :: pairs l
  | _ => []
  end.

(** The root of a complete level of [2 ^ k] hashes. *)
Fixpoint root (k : nat) (level : list (list Z)) : list Z :=
  match k with
  | O => level !!! 0%nat
  | S k => root k (pairs level)
  end.

Lemma pairs_length n l : length l = (2 * n)%nat -> length (pairs l) = n.
Proof.
  revert l; induction n as [|n IH]; intros [|a [|b l]] Hl; simpl in *; try lia.
  rewrite IH by lia. done.
Qed.

Lemma pairs_cons2 l n : length l = (2 * S n)%nat ->
  pairs l = hash_pair l 0 :: pairs (drop 2 l).
Proof. intros Hl. destruct l as [|a [|b l]]; simpl in *; try lia. done. Qed.

Lemma pairs_seq n : forall hashes i, (i + 2 * n <= length hashes)%nat ->
  map (fun k => hash_pair hashes (i + 2 * k)) (seq 0 n) = pairs (take (2 * n) (drop i hashes)).
Proof.
  induction n as [|n IH]; intros hashes i Hl; [done|].
  assert (Hlen : length (take (2 * S n) (drop i hashes)) = (2 * S n)%nat) by (rewrite length_take, length_drop; lia).
  rewrite (pairs_cons2 _ n Hlen). cbn [seq map]. f_equal.
  - unfold hash_pair. rewrite Nat.add_0_r.
    rewrite !list_lookup_total_alt, !lookup_take_lt, !lookup_drop by lia. repeat f_equal; lia.
  - rewrite <- seq_shift, map_map. rewrite skipn_firstn_comm.
    replace (2 * S n - 2)%nat with (2 * n)%nat by lia. rewrite drop_drop, <- IH by lia.
    apply map_ext. intros k. f_equal. lia.
Qed.

Lemma hash_into_spec n : forall hashes ints i j, (j + n <= length ints)%nat ->
  hash_into n hashes ints i j =
    take j ints ++ map (fun k => hash_pair hashes (i + 2 * k)) (seq 0 n) ++ drop (j + n) ints.
Proof.
  induction n as [|n IH]; intros hashes ints i j Hl; cbn [hash_into].
  { simpl. by rewrite Nat.add_0_r, take_drop. }
  rewrite IH by (rewrite length_insert; lia).
  rewrite drop_insert_lt by lia. replace (j + 1)%nat with (S j) by lia.
  rewrite (take_S_r _ _ (hash_pair hashes i)) by (apply list_lookup_insert_eq; lia).
  rewrite take_insert_ge by lia. rewrite <- app_assoc. f_equal. cbn [seq map app]. rewrite Nat.mul_0_r, Nat.add_0_r.
  f_equal. f_equal; [|f_equal; lia]. rewrite <- seq_shift, map_map. apply map_ext. intros k. f_equal. lia.
Qed.

Lemma hash_in_place_into n : forall hashes ints i j,
  (j <= i)%nat -> (forall m, (i <= m)%nat -> ints !!! m = hashes !!! m) ->
  hash_in_place n ints i j = hash_into n hashes ints i j.
Proof.
  induction n as [|n IH]; intros hashes ints i j Hij Hag; cbn [hash_in_place hash_into]; [done|].
  assert (hash_pair ints i = hash_pair hashes i) as -> by (unfold hash_pair; rewrite !Hag by lia; done).
  apply IH; [lia|]. intros m Hm. rewrite list_lookup_total_insert_ne by lia. apply Hag. lia.
Qed.

(** A level hashed in place: the next level is at the front of the array. *)
Lemma hash_in_place_front n ints i j :
  (j <= i)%nat -> (i + 2 * n <= length ints)%nat ->
  take (j + n) (hash_in_place n ints i j) = take j ints ++ pairs (take (2 * n) (drop i ints)) /\
  length (hash_in_place n ints i j) = length ints.
Proof.
  intros Hij Hl. rewrite (hash_in_place_into n ints ints i j) by done.
  rewrite hash_into_spec by lia. rewrite pairs_seq by lia.
  assert (Hp : length (pairs (take (2 * n) (drop i ints))) = n)
    by (apply pairs_length; rewrite length_take, length_drop; lia).
  split.
  - rewrite app_assoc, take_app_length'; [done|]. rewrite length_app, length_take, Hp. lia.
  - rewrite !length_app, length_take, Hp, length_drop. lia.
Qed.

End Tree.

(** ** The powers of two the loops compute *)

Lemma depth_step_spec c d i :
  0 < i -> 0 < c < 2 ^ (2 * i) ->
  exists c' d', depth_step (c, d) i = (c', d') /\ 0 < c' < 2 ^ i /\ d' + Z.log2 c' = d + Z.log2 c.
Proof.
  intros Hi Hc. unfold depth_step. rewrite Z.shiftr_div_pow2 by lia.
  assert (Hp : 0 < 2 ^ i) by (apply Z.pow_pos_nonneg; lia).
  assert (2 ^ (2 * i) = 2 ^ i * 2 ^ i) as E by (rewrite <- Z.pow_add_r by lia; f_equal; lia).
  destruct (Z.ltb_spec 0 (c / 2 ^ i)) as [Hpos|Hz].
  - exists (c / 2 ^ i), (d + i). split; [done|]. split; [split; [done|apply Z.div_lt_upper_bound; nia]|].
    rewrite <- Z.shiftr_div_pow2, Z.log2_shiftr by lia.
    assert (i <= Z.log2 c). { apply Z.log2_le_pow2; [lia|]. destruct (Z_lt_ge_dec c (2 ^ i)); [|lia].
      rewrite Z.div_small in Hpos by lia. lia. }
    lia.
  - exists c, d. split; [done|]. split; [|lia]. split; [lia|].
    destruct (Z_lt_ge_dec c (2 ^ i)); [done|]. exfalso.
    assert (0 < c / 2 ^ i) by (apply Z.div_str_pos; lia). lia.
Qed.

Lemma tree_depth_eq count : 0 < count < 2 ^ 64 -> tree_depth count = Ok (Z.log2 count).
Proof.
  intros Hc. unfold tree_depth, assert_that. rewrite (proj2 (Z.ltb_lt _ _)) by lia. cbn [obind fold_left]. f_equal.
  destruct (depth_step_spec count 0 32) as (c1 & d1 & -> & H1 & E1); [lia|exact Hc|].
  destruct (depth_step_spec c1 d1 16) as (c2 & d2 & -> & H2 & E2); [lia|exact H1|].
  destruct (depth_step_spec c2 d2 8) as (c3 & d3 & -> & H3 & E3); [lia|exact H2|].
  destruct (depth_step_spec c3 d3 4) as (c4 & d4 & -> & H4 & E4); [lia|exact H3|].
  destruct (depth_step_spec c4 d4 2) as (c5 & d5 & -> & H5 & E5); [lia|exact H4|].
  destruct (depth_step_spec c5 d5 1) as (c6 & d6 & -> & H6 & E6); [lia|exact H5|].
  assert (c6 = 1) as -> by lia. change (Z.log2 1) with 0 in E6. simpl. lia.
Qed.

Lemma branch_step_spec count d i :
  0 < i -> 0 <= d -> d + 2 * i <= 64 -> 2 ^ d <= count < 2 ^ (d + 2 * i) ->
  exists d', branch_step count (2 ^ d, d) i = (2 ^ d', d') /\ 0 <= d' <= d + i /\ 2 ^ d' <= count < 2 ^ (d' + i).
Proof.
  intros Hi Hd Hle Hc. unfold branch_step. rewrite Z.shiftl_mul_pow2, <- Z.pow_add_r by lia.
  rewrite wrap_small by (split; [apply Z.pow_nonneg; lia|apply Z.pow_lt_mono_r; lia]).
  destruct (Z.leb_spec (2 ^ (d + i)) count).
  - exists (d + i). split; [done|]. replace (d + i + i) with (d + 2 * i) by lia. lia.
  - exists d. split; [done|]. lia.
Qed.

Lemma branch_cnt_eq count : 0 < count < 2 ^ 64 ->
  fold_left (branch_step count) [32; 16; 8; 4; 2; 1] (1, 0) = (2 ^ Z.log2 count, Z.log2 count).
Proof.
  intros Hc. cbn [fold_left]. change (1, 0) with (2 ^ 0, 0).
  destruct (branch_step_spec count 0 32) as (d1 & -> & R1 & H1); [lia..|simpl; lia|].
  destruct (branch_step_spec count d1 16) as (d2 & -> & R2 & H2); [lia|lia|lia|exact H1|].
  destruct (branch_step_spec count d2 8) as (d3 & -> & R3 & H3); [lia|lia|lia|exact H2|].
  destruct (branch_step_spec count d3 4) as (d4 & -> & R4 & H4); [lia|lia|lia|exact H3|].
  destruct (branch_step_spec count d4 2) as (d5 & -> & R5 & H5); [lia|lia|lia|exact H4|].
  destruct (branch_step_spec count d5 1) as (d6 & -> & R6 & H6); [lia|lia|lia|exact H5|].
  assert (Z.log2 count = d6) as ->; [|done]. apply Z.log2_unique; [lia|]. by rewrite <- Z.add_1_r.
Qed.

(** The top [w] bits of [x] are set. *)
Definition top_ones (t w x : Z) : Prop :=
  0 < x /\ Z.log2 x = t /\ forall n, 0 <= n -> t - w < n <= t -> Z.testbit x n = true.

Lemma smear_top t w x : 0 < w -> top_ones t w x -> top_ones t (2 * w) (smear x w).
Proof.
  intros Hw (Hx & Ht & Hb). unfold smear.
  assert (Hs : 0 <= Z.shiftr x w) by (apply Z.shiftr_nonneg; lia).
  assert (Hl : 0 <= Z.lor x (Z.shiftr x w)) by (apply Z.lor_nonneg; lia).
  split_and!.
  - enough (Z.lor x (Z.shiftr x w) <> 0) by lia. rewrite Z.lor_eq_0_iff. lia.
  - rewrite Z.log2_lor by lia. rewrite Z.log2_shiftr by lia. pose proof (Z.log2_nonneg x). lia.
  - intros n Hn Hr. rewrite Z.lor_spec, Z.shiftr_spec by lia. apply orb_true_iff.
    destruct (Z_lt_ge_dec (t - w) n); [left; apply Hb; lia|right; apply Hb; lia].
Qed.

Lemma highest_bit_eq x : 0 < x < 2 ^ 64 -> highest_bit x = 2 ^ Z.log2 x.
Proof.
  intros Hx. unfold highest_bit. cbn [fold_left]. set (t := Z.log2 x).
  assert (Ht : 0 <= t < 64) by (split; [apply Z.log2_nonneg|apply Z.log2_lt_pow2; lia]).
  assert (H0 : top_ones t 1 x).
  { split_and!; [lia|done|]. intros n Hn Hr. assert (n = t) as -> by lia. apply Z.bit_log2. lia. }
  apply (smear_top t 1 x ltac:(lia)) in H0. apply (smear_top t 2 _ ltac:(lia)) in H0.
  apply (smear_top t 4 _ ltac:(lia)) in H0. apply (smear_top t 8 _ ltac:(lia)) in H0.
  apply (smear_top t 16 _ ltac:(lia)) in H0. apply (smear_top t 32 _ ltac:(lia)) in H0.
  set (y := smear _ 32) in *. destruct H0 as (Hy & Hl & Hb). clearbody y.
  apply Z.bits_inj'. intros n Hn. rewrite Z.land_spec, Z.pow2_bits_eqb by lia.
  unfold wrap. rewrite <- Z.land_ones, Z.land_spec, Z.lnot_spec, Z.shiftr_spec by lia.
  destruct (Z_lt_ge_dec t n) as [Hgt|Hle].
  { rewrite (Z.bits_above_log2 y n) by lia. rewrite (proj2 (Z.eqb_neq t n)) by lia. done. }
  rewrite (Hb n) by lia. rewrite Z.ones_spec_low by lia. rewrite andb_true_r. cbn [andb].
  destruct (Z.eqb_spec t n) as [<-|].
  - by rewrite (Z.bits_above_log2 y (t + 1)) by lia.
  - by rewrite (Hb (n + 1)) by lia.
Qed.

(** ** The loops compute the root and the branch *)

Section Correctness.
Context (cn_fast_hash : list Z -> list Z).
Local Abbreviation hash_pair := (hash_pair cn_fast_hash).
Local Abbreviation pairs := (pairs cn_fast_hash).
Local Abbreviation root := (root cn_fast_hash).

Lemma pow_to_nat k : Z.to_nat (2 ^ Z.of_nat k) = (2 ^ k)%nat.
Proof. rewrite <- (Nat2Z.id (2 ^ k)), Nat2Z.inj_pow. done. Qed.

Lemma shiftr_pow2 k : Z.shiftr (2 ^ Z.of_nat (S k)) 1 = 2 ^ Z.of_nat k.
Proof.
  rewrite Z.shiftr_div_pow2, Nat2Z.inj_succ, Z.pow_succ_r, Z.mul_comm by lia. by apply Z.div_mul.
Qed.

Lemma root_one l : (2 <= length l)%nat -> hash_pair l 0 = root 1 (take 2 l).
Proof. intros Hl. destruct l as [|a [|b l]]; simpl in *; try lia. done. Qed.

Lemma tree_hash_loop_root k : forall fuel ints, (1 <= k <= fuel)%nat -> (2 ^ k <= length ints)%nat ->
  hash_pair (tree_hash_loop cn_fast_hash fuel (2 ^ Z.of_nat k) ints) 0 = root k (take (2 ^ k) ints).
Proof.
  induction k as [|k IH]; intros fuel ints Hk Hl; [lia|]. destruct fuel as [|fuel]; [lia|].
  cbn [tree_hash_loop]. destruct (decide (k = 0%nat)) as [->|Hk0].
  { simpl (2 <? _). by rewrite root_one. }
  assert (Hp : (2 ^ S k = 2 * 2 ^ k)%nat) by (simpl; lia).
  assert (2 <= 2 ^ Z.of_nat k) by (change 2 with (2 ^ 1) at 1; apply Z.pow_le_mono_r; lia).
  rewrite (proj2 (Z.ltb_lt _ _)) by (rewrite Nat2Z.inj_succ, Z.pow_succ_r by lia; lia).
  rewrite shiftr_pow2, pow_to_nat.
  destruct (hash_in_place_front cn_fast_hash (2 ^ k) ints 0 0) as [Ht Hlen]; [lia..|].
  rewrite IH by (rewrite ?Hlen; lia). simpl in Ht. cbn [root]. rewrite Hp. by rewrite Ht, drop_0.
Qed.

(** The complete level: the hashes that have no partner there, then the pairs. *)
Definition complete_level (hashes : list (list Z)) : list (list Z) :=
  let first := (2 * 2 ^ Z.to_nat (Z.log2 (Z.of_nat (length hashes))) - length hashes)%nat in
  take first hashes ++ pairs (drop first hashes).

Definition merkle_root (hashes : list (list Z)) : list Z :=
  root (Z.to_nat (Z.log2 (Z.of_nat (length hashes)))) (complete_level hashes).

(** The counts with their bounds: [n] hashes and the power of two below. *)
Lemma count_bounds n k : (0 < n)%nat -> k = Z.to_nat (Z.log2 (Z.of_nat n)) ->
  (2 ^ k <= n < 2 * 2 ^ k)%nat /\ Z.log2 (Z.of_nat n) = Z.of_nat k.
Proof.
  intros Hn ->. set (t := Z.log2 (Z.of_nat n)). assert (Ht : 0 <= t) by apply Z.log2_nonneg.
  pose proof (Z.log2_spec (Z.of_nat n) ltac:(lia)) as Hs. fold t in Hs.
  rewrite Z.pow_succ_r in Hs by lia. rewrite <- (Z2Nat.id t) in Hs by lia.
  pose proof (Nat2Z.inj_pow 2 (Z.to_nat t)) as E. change (Z.of_nat 2) with 2 in E. rewrite <- E in Hs.
  split; [lia|]. by rewrite Z2Nat.id.
Qed.

Lemma pow2_unique x a b : (2 ^ a <= x < 2 * 2 ^ a)%nat -> (2 ^ b <= x < 2 * 2 ^ b)%nat -> a = b.
Proof.
  intros Ha Hb. destruct (lt_eq_lt_dec a b) as [[Hlt|?]|Hlt]; [exfalso|done|exfalso].
  - pose proof (Nat.pow_le_mono_r 2 (S a) b ltac:(lia) ltac:(lia)). simpl in *. lia.
  - pose proof (Nat.pow_le_mono_r 2 (S b) a ltac:(lia) ltac:(lia)). simpl in *. lia.
Qed.

(** The first pass of [tree_hash], from the hashes to a complete level. *)
Lemma first_level hashes first n :
  (first + 2 * n = length hashes)%nat ->
  hash_into cn_fast_hash n hashes (take first hashes ++ repeat [] n) first first = take first hashes ++ pairs (drop first hashes).
Proof.
  intros Hl. assert (Hf : length (take first hashes) = first) by (rewrite length_take; lia).
  rewrite hash_into_spec by (rewrite length_app, Hf, repeat_length; lia).
  rewrite take_app_length' by done. rewrite drop_ge by (rewrite length_app, Hf, repeat_length; lia).
  rewrite app_nil_r. f_equal. rewrite pairs_seq by lia. f_equal. apply take_ge. rewrite length_drop. lia.
Qed.

Lemma tree_hash_eq hashes :
  (0 < length hashes)%nat -> Z.of_nat (length hashes) < 2 ^ 62 ->
  tree_hash cn_fast_hash hashes = Ok (merkle_root hashes).
Proof.
  intros Hpos Hlt. unfold tree_hash, assert_that. rewrite (proj2 (Z.ltb_lt _ _)) by lia. cbn [obind].
  set (n := length hashes) in *. set (k := Z.to_nat (Z.log2 (Z.of_nat n))).
  destruct (count_bounds n k Hpos eq_refl) as [Hk Hlog].
  destruct (Z.eqb_spec (Z.of_nat n) 1) as [H1|H1].
  { destruct hashes as [|h [|h' l]]; simpl in n; subst n; try lia. done. }
  destruct (Z.eqb_spec (Z.of_nat n) 2) as [H2|H2].
  { destruct hashes as [|h [|h' [|]]]; simpl in n; subst n; try lia. done. }
  rewrite highest_bit_eq by lia. set (k' := Z.to_nat (Z.log2 (Z.of_nat (n - 1)))).
  destruct (count_bounds (n - 1) k' ltac:(lia) eq_refl) as [Hk' Hlog'].
  replace (Z.of_nat n - 1) with (Z.of_nat (n - 1)) by lia. rewrite Hlog', pow_to_nat.
  assert (E2 : 2 ^ Z.of_nat k' = Z.of_nat (2 ^ k')) by (by rewrite Nat2Z.inj_pow).
  replace (Z.to_nat (2 * 2 ^ Z.of_nat k' - Z.of_nat n)) with (2 * 2 ^ k' - n)%nat by lia.
  rewrite first_level by (fold n; lia). rewrite (proj2 (Z.eqb_eq _ _)) by lia. cbn [obind]. f_equal.
  assert (Hk1 : (1 <= k')%nat) by (destruct k'; simpl in *; lia).
  assert (Hp : length (pairs (drop (2 * 2 ^ k' - n) hashes)) = (n - 2 ^ k')%nat)
    by (apply pairs_length; rewrite length_drop; fold n; lia).
  assert (Hk64 : (k' <= 64)%nat).
  { assert (Z.log2 (Z.of_nat (n - 1)) < 64) by (apply Z.log2_lt_pow2; lia). lia. }
  rewrite tree_hash_loop_root; [|lia|rewrite length_app, length_take, Hp; fold n; lia].
  rewrite take_ge by (rewrite length_app, length_take, Hp; fold n; lia).
  unfold merkle_root, complete_level. fold n k. destruct (decide (n = 2 ^ k)%nat) as [En|Hne].
  - (* a full tree: one more level below *)
    assert (k = S k') as ->.
    { destruct k as [|k0]; [simpl in *; lia|]. f_equal. apply (pow2_unique (n - 1)); simpl in *; lia. }
    simpl (2 ^ S k')%nat in *. rewrite <- En. replace (2 * 2 ^ k' - n)%nat with 0%nat by lia.
    replace (2 * n - n)%nat with n by lia. rewrite drop_0. simpl. rewrite (take_ge hashes), (drop_ge hashes) by lia.
    by rewrite app_nil_r.
  - assert (k' = k) as ->; [|done]. apply (pow2_unique (n - 1)); lia.
Qed.

(** [ints] holds the level without its first hash [x]. *)
Lemma branch_loop_root k : forall x ints branch, (2 ^ k - 1 <= length ints)%nat -> (k <= length branch)%nat ->
  exists b, branch_loop cn_fast_hash k (2 ^ Z.of_nat k) ints branch = Ok b /\
    from_branch_loop cn_fast_hash k b x None = root k (x :: take (2 ^ k - 1) ints) /\
    length b = length branch /\ (forall i, (k <= i)%nat -> b !!! i = branch !!! i).
Proof.
  induction k as [|k IH]; intros x ints branch Hi Hb; cbn [branch_loop].
  { exists branch. done. }
  assert (Hp : (2 ^ S k = 2 * 2 ^ k)%nat) by (simpl; lia). assert (2 ^ k <> 0)%nat by (apply Nat.pow_nonzero; lia).
  unfold assert_that. rewrite Z.eqb_refl. cbn [obind]. rewrite shiftr_pow2.
  assert (Z.to_nat (2 ^ Z.of_nat k - 1) = 2 ^ k - 1)%nat as -> by (pose proof (pow_to_nat k); lia).
  destruct (hash_in_place_front cn_fast_hash (2 ^ k - 1) ints 1 0) as [Ht Hlen]; [lia..|].
  destruct (IH (cn_fast_hash (x ++ ints !!! 0%nat)) (hash_in_place cn_fast_hash (2 ^ k - 1) ints 1 0)
    (<[k := ints !!! 0%nat]> branch)) as (b & -> & Hroot & Hlb & Hsame); [rewrite Hlen; lia|rewrite length_insert; lia|].
  exists b. rewrite length_insert in Hlb. split_and!; [done| |done|].
  - cbn [from_branch_loop path_bit]. rewrite Hsame by lia. rewrite list_lookup_total_insert_eq by lia.
    rewrite Hroot. simpl in Ht. rewrite Ht. cbn [root]. f_equal.
    destruct ints as [|y ints]; [simpl in *; lia|]. rewrite Hp.
    replace (2 * 2 ^ k - 1)%nat with (S (2 * (2 ^ k - 1))) by lia. done.
  - intros j Hj. rewrite Hsame by lia. apply list_lookup_total_insert_ne. lia.
Qed.

Lemma branch_first_level h hashes first n :
  (first + 2 * n = S (length hashes))%nat -> (1 <= first)%nat ->
  hash_into cn_fast_hash (first + n - 1 - (first - 1)) (h :: hashes)
    (take (first - 1) (drop 1 (h :: hashes)) ++ repeat [] (first + n - 1 - (first - 1))) (first - 1 + 1) (first - 1) =
  take (first - 1) hashes ++ pairs (drop first (h :: hashes)).
Proof.
  intros Hl Hf1. simpl (drop 1 _). rewrite drop_0.
  assert (Hf : length (take (first - 1) hashes) = (first - 1)%nat) by (rewrite length_take; lia).
  rewrite hash_into_spec by (rewrite length_app, Hf, repeat_length; lia).
  rewrite take_app_length' by done. rewrite drop_ge by (rewrite length_app, Hf, repeat_length; lia).
  rewrite app_nil_r. f_equal. rewrite pairs_seq by (simpl; lia). f_equal.
  replace (first - 1 + 1)%nat with first by lia. apply take_ge. rewrite length_drop. simpl. lia.
Qed.

Lemma tree_branch_eq h hashes :
  Z.of_nat (length (h :: hashes)) < 2 ^ 62 ->
  exists b, tree_branch cn_fast_hash (h :: hashes) = Ok b /\
    tree_depth (Z.of_nat (length (h :: hashes))) = Ok (Z.of_nat (length b)) /\
    tree_hash_from_branch cn_fast_hash b (length b) h None = merkle_root (h :: hashes).
Proof.
  intros Hlt. unfold tree_branch, assert_that. set (n := length (h :: hashes)) in *.
  assert (Hpos : (0 < n)%nat) by (simpl in n; lia). rewrite (proj2 (Z.ltb_lt _ _)) by lia. cbn [obind].
  set (k := Z.to_nat (Z.log2 (Z.of_nat n))). destruct (count_bounds n k Hpos eq_refl) as [Hk Hlog].
  rewrite branch_cnt_eq, tree_depth_eq by lia. rewrite Hlog, Z.eqb_refl. cbn [obind]. rewrite Z.eqb_refl. cbn [obind].
  assert (E2 : 2 ^ Z.of_nat k = Z.of_nat (2 ^ k)) by (by rewrite Nat2Z.inj_pow).
  replace (Z.to_nat (2 * 2 ^ Z.of_nat k - Z.of_nat n - 1)) with (2 * 2 ^ k - n - 1)%nat by lia.
  replace (Z.to_nat (2 ^ Z.of_nat k - 1)) with (2 ^ k - 1)%nat by lia.
  rewrite (proj2 (Z.eqb_eq _ _)) by lia. cbn [obind]. rewrite Nat2Z.id.
  set (first := (2 * 2 ^ k - n)%nat). replace (2 * 2 ^ k - n - 1)%nat with (first - 1)%nat by lia.
  replace (2 ^ k - 1)%nat with (first + (2 ^ k - first) - 1)%nat by lia.
  rewrite branch_first_level by (simpl in n; lia).
  assert (Hp : length (pairs (drop first (h :: hashes))) = (2 ^ k - first)%nat)
    by (apply pairs_length; rewrite length_drop; fold n; lia).
  assert (Hl : length (take (first - 1) hashes ++ pairs (drop first (h :: hashes))) = (2 ^ k - 1)%nat)
    by (rewrite length_app, length_take, Hp; simpl in n; lia).
  destruct (branch_loop_root k h (take (first - 1) hashes ++ pairs (drop first (h :: hashes))) (repeat [] k))
    as (b & -> & Hroot & Hlb & _); [lia|by rewrite repeat_length|].
  rewrite repeat_length in Hlb. exists b. split_and!; [done|by rewrite Hlb|].
  unfold tree_hash_from_branch. rewrite Hlb, Hroot. rewrite take_ge by lia.
  unfold merkle_root, complete_level. fold n k first. f_equal.
  destruct first as [|f0] eqn:Ef; [lia|]. simpl. by rewrite Nat.sub_0_r.
Qed.

End Correctness.

(** ** Properties *)

(** C31. [tree_hash], with its in-place hashing and its bit tricks for the sizes,
    computes the Merkle root: the hashes beyond the last power of two are paired
    first, and the resulting complete level is paired up until one hash is left;
    none of its assertions fails. *)
Theorem tree_hash_correct cn_fast_hash hashes :
  (0 < length hashes)%nat -> Z.of_nat (length hashes) < 2 ^ 62 ->
  tree_hash cn_fast_hash hashes = Ok (merkle_root cn_fast_hash hashes).
Proof. apply tree_hash_eq. Qed.

Lemma tree_hash_correct_witness :
  tree_hash (fun l => l) [[1]; [2]; [3]; [4]; [5]] = Ok [1; 2; 3; 4; 5].
Proof.
  rewrite (tree_hash_correct (fun l => l) [[1]; [2]; [3]; [4]; [5]]); [reflexivity|simpl; lia|simpl; lia].
Defined.

(** A Merkle branch proves its leaf: for every list of hashes, [tree_branch]
    of the list has [tree_depth] entries, and [tree_hash_from_branch] of the first
    hash and that branch is [tree_hash] of the list. *)
Theorem branch_proves_leaf cn_fast_hash h hashes :
  Z.of_nat (length (h :: hashes)) < 2 ^ 62 ->
  exists branch r,
    tree_branch cn_fast_hash (h :: hashes) = Ok branch /\
    tree_depth (Z.of_nat (length (h :: hashes))) = Ok (Z.of_nat (length branch)) /\
    tree_hash cn_fast_hash (h :: hashes) = Ok r /\
    tree_hash_from_branch cn_fast_hash branch (length branch) h None = r.
Proof.
  intros Hlt. destruct (tree_branch_eq cn_fast_hash h hashes Hlt) as (b & Hb & Hd & Hr).
  exists b, (merkle_root cn_fast_hash (h :: hashes)).
  split_and!; [done|done| |done]. apply tree_hash_eq; [simpl; lia|done].
Qed.

Lemma branch_proves_leaf_witness :
  exists branch r,
    tree_branch (fun l => rev l) [[1]; [2]; [3]] = Ok branch /\
    tree_depth 3 = Ok (Z.of_nat (length branch)) /\
    tree_hash (fun l => rev l) [[1]; [2]; [3]] = Ok r /\
    tree_hash_from_branch (fun l => rev l) branch (length branch) [1] None = r.
Proof. apply (branch_proves_leaf (fun l => rev l) [1] [[2]; [3]]). simpl. lia. Defined.

End TreeHash.
