(* ===== verification/Config.v ===== *)
(** * Configuration

    The constants of [src/src/config/CryptoNoteConfig.h] that the modelled code
    reads, with the same names, and the amount table and the extra-field tags of
    [src/src/config/Constants.h].  C++ integer division of positive constants is
    [Z.div]. *)

From S2P Require Import Prelude.

Module parameters.

Definition DIFFICULTY_TARGET : Z := 60.
Definition CRYPTONOTE_MAX_BLOCK_NUMBER : Z := 500000000.
Definition CRYPTONOTE_MAX_BLOCK_BLOB_SIZE : Z := 500000000.
Definition CRYPTONOTE_MAX_TX_SIZE : Z := 1000000000.
Definition CRYPTONOTE_PUBLIC_ADDRESS_BASE58_PREFIX : Z := 999730.
Definition CRYPTONOTE_MINED_MONEY_UNLOCK_WINDOW : Z := 40.
Definition MINIMUM_UNLOCK_TIME_BLOCKS : Z := 15.
Definition UNLOCK_TIME_HEIGHT : Z := 1200000.
Definition CRYPTONOTE_BLOCK_FUTURE_TIME_LIMIT : Z := 60 * 60 * 2.
Definition CRYPTONOTE_BLOCK_FUTURE_TIME_LIMIT_V3 : Z := 3 * DIFFICULTY_TARGET.
Definition CRYPTONOTE_BLOCK_FUTURE_TIME_LIMIT_V4 : Z := 6 * DIFFICULTY_TARGET.
Definition BLOCKCHAIN_TIMESTAMP_CHECK_WINDOW : Z := 60.
Definition BLOCKCHAIN_TIMESTAMP_CHECK_WINDOW_V3 : Z := 11.
Definition MONEY_SUPPLY : Z := 50000000000000.
Definition ZAWY_DIFFICULTY_BLOCK_INDEX : Z := 20160.
Definition ZAWY_DIFFICULTY_V2 : Z := 0.
Definition ZAWY_DIFFICULTY_DIFFICULTY_BLOCK_VERSION : Z := 3.
Definition LWMA_2_DIFFICULTY_BLOCK_INDEX : Z := 100000.
Definition LWMA_2_DIFFICULTY_BLOCK_INDEX_V2 : Z := LWMA_2_DIFFICULTY_BLOCK_INDEX.
Definition LWMA_2_DIFFICULTY_BLOCK_INDEX_V3 : Z := 128800.
Definition EMISSION_SPEED_FACTOR : Z := 22.
Definition FIXED_REWARD_V1 : Z := 1000000.
Definition FIXED_REWARD_V1_HEIGHT : Z := 1500000.
Definition GENESIS_BLOCK_REWARD : Z := MONEY_SUPPLY * 3 / 100.
Definition GENESIS_BLOCK_TIMESTAMP : Z := 1529831318.
Definition CRYPTONOTE_REWARD_BLOCKS_WINDOW : Z := 100.
Definition CRYPTONOTE_BLOCK_GRANTED_FULL_REWARD_ZONE : Z := 100000.
Definition CRYPTONOTE_BLOCK_GRANTED_FULL_REWARD_ZONE_V2 : Z := 20000.
Definition CRYPTONOTE_BLOCK_GRANTED_FULL_REWARD_ZONE_V1 : Z := 10000.
Definition CRYPTONOTE_BLOCK_GRANTED_FULL_REWARD_ZONE_CURRENT : Z := CRYPTONOTE_BLOCK_GRANTED_FULL_REWARD_ZONE.
Definition CRYPTONOTE_COINBASE_BLOB_RESERVED_SIZE : Z := 600.
Definition CRYPTONOTE_DISPLAY_DECIMAL_POINT : Z := 2.
Definition MINIMUM_FEE : Z := 5.
Definition MINIMUM_FEE_V1 : Z := 50000.
Definition MINIMUM_FEE_V1_HEIGHT : Z := 678500.
Definition FEE_PER_BYTE_CHUNK_SIZE : Z := 256.
Definition FEE_PER_BYTE_CHUNK_SIZE_V2 : Z := 128.
Definition MINIMUM_FEE_PER_BYTE_V1_HEIGHT : Z := 832000.
Definition MINIMUM_FEE_PER_BYTE_V2_HEIGHT : Z := 1500000.
Definition MINIMUM_MIXIN_V1 : Z := 0.
Definition MAXIMUM_MIXIN_V1 : Z := 30.
Definition MINIMUM_MIXIN_V2 : Z := 3.
Definition MAXIMUM_MIXIN_V2 : Z := 7.
Definition MINIMUM_MIXIN_V3 : Z := 0.
Definition MAXIMUM_MIXIN_V3 : Z := 7.
Definition MINIMUM_MIXIN_V4 : Z := 1.
Definition MAXIMUM_MIXIN_V4 : Z := 3.
Definition MINIMUM_MIXIN_V5 : Z := 1.
Definition MAXIMUM_MIXIN_V5 : Z := 1.
Definition MIXIN_LIMITS_V1_HEIGHT : Z := 10000.
Definition MIXIN_LIMITS_V2_HEIGHT : Z := 302400.
Definition MIXIN_LIMITS_V3_HEIGHT : Z := 430000.
Definition MIXIN_LIMITS_V4_HEIGHT : Z := 658500.
Definition MIXIN_LIMITS_V5_HEIGHT : Z := 1000000.
Definition DEFAULT_MIXIN_V0 : Z := 3.
Definition DEFAULT_MIXIN_V1 : Z := MINIMUM_MIXIN_V2.
Definition DEFAULT_MIXIN_V2 : Z := MINIMUM_MIXIN_V2.
Definition DEFAULT_MIXIN_V3 : Z := MINIMUM_MIXIN_V2.
Definition DEFAULT_MIXIN_V4 : Z := MAXIMUM_MIXIN_V4.
Definition DEFAULT_MIXIN_V5 : Z := MAXIMUM_MIXIN_V5.
Definition DEFAULT_DUST_THRESHOLD : Z := 10.
Definition DEFAULT_DUST_THRESHOLD_V2 : Z := 0.
Definition DUST_THRESHOLD_V2_HEIGHT : Z := MIXIN_LIMITS_V2_HEIGHT.
Definition FUSION_DUST_THRESHOLD_HEIGHT_V2 : Z := 400000.
Definition EXPECTED_NUMBER_OF_BLOCKS_PER_DAY : Z := 24 * 60 * 60 / DIFFICULTY_TARGET.
Definition DIFFICULTY_WINDOW : Z := 17.
Definition DIFFICULTY_WINDOW_V1 : Z := 2880.
Definition DIFFICULTY_WINDOW_V2 : Z := 2880.
Definition DIFFICULTY_WINDOW_V3 : Z := 60.
Definition DIFFICULTY_BLOCKS_COUNT_V3 : Z := DIFFICULTY_WINDOW_V3 + 1.
Definition DIFFICULTY_CUT : Z := 0.
Definition DIFFICULTY_CUT_V1 : Z := 60.
Definition DIFFICULTY_CUT_V2 : Z := 60.
Definition DIFFICULTY_LAG : Z := 0.
Definition DIFFICULTY_LAG_V1 : Z := 15.
Definition DIFFICULTY_LAG_V2 : Z := 15.
Definition MAX_BLOCK_SIZE_INITIAL : Z := 100000.
Definition MAX_BLOCK_SIZE_GROWTH_SPEED_NUMERATOR : Z := 100 * 1024.
Definition MAX_BLOCK_SIZE_GROWTH_SPEED_DENOMINATOR : Z := 365 * 24 * 60 * 60 / DIFFICULTY_TARGET.
Definition MAX_EXTRA_SIZE : Z := 140000.
Definition MAX_EXTRA_SIZE_V2 : Z := 1024.
Definition MAX_EXTRA_SIZE_V2_HEIGHT : Z := 543000.
Definition TRANSACTION_POW_HEIGHT : Z := 1123000.
Definition TRANSACTION_POW_PASS_WITH_FEE_HEIGHT : Z := 1500000.
Definition TRANSACTION_POW_PASS_WITH_FEE : Z := 10000.
Definition TRANSACTION_POW_DIFFICULTY : Z := 20000.
Definition FUSION_TRANSACTION_POW_DIFFICULTY : Z := 3 * TRANSACTION_POW_DIFFICULTY.
Definition TRANSACTION_POW_HEIGHT_DYN_V1 : Z := 1200000.
Definition TRANSACTION_POW_DIFFICULTY_DYN_V1 : Z := 40000.
Definition MULTIPLIER_TRANSACTION_POW_DIFFICULTY_PER_IO_V1 : Z := 1000.
Definition MULTIPLIER_TRANSACTION_POW_DIFFICULTY_FACTORED_OUT_V1 : Z := 4.
Definition FUSION_TRANSACTION_POW_DIFFICULTY_V2 : Z := 8 * TRANSACTION_POW_DIFFICULTY_DYN_V1.
Definition MAX_OUTPUT_SIZE_NODE : Z := 12500000000000.
Definition MAX_OUTPUT_SIZE_HEIGHT : Z := 800000.
Definition TRANSACTION_SIGNATURE_COUNT_VALIDATION_HEIGHT : Z := 543000.
Definition BLOCK_BLOB_SHUFFLE_CHECK_HEIGHT : Z := 600000.
Definition TRANSACTION_INPUT_BLOCKTIME_VALIDATION_HEIGHT : Z := 600000.
Definition MAX_BLOCK_ALLOWED_TO_REWIND : Z := EXPECTED_NUMBER_OF_BLOCKS_PER_DAY * 3.
Definition CRYPTONOTE_LOCKED_TX_ALLOWED_DELTA_BLOCKS : Z := 1.
Definition CRYPTONOTE_LOCKED_TX_ALLOWED_DELTA_SECONDS : Z := DIFFICULTY_TARGET * CRYPTONOTE_LOCKED_TX_ALLOWED_DELTA_BLOCKS.
Definition CRYPTONOTE_MEMPOOL_TX_LIVETIME : Z := 60 * 60 * 24.
Definition CRYPTONOTE_MEMPOOL_TX_FROM_ALT_BLOCK_LIVETIME : Z := 60 * 60 * 24 * 7.
Definition CRYPTONOTE_NUMBER_OF_PERIODS_TO_FORGET_TX_DELETED_FROM_POOL : Z := 7.
Definition FUSION_TX_MAX_SIZE : Z := CRYPTONOTE_BLOCK_GRANTED_FULL_REWARD_ZONE_CURRENT * 30 / 100.
Definition FUSION_TX_MIN_INPUT_COUNT : Z := 12.
Definition FUSION_TX_MIN_IN_OUT_COUNT_RATIO : Z := 4.
Definition FUSION_FEE_V1_HEIGHT : Z := 864864.
Definition FUSION_FEE_V1 : Z := 10000.
Definition FUSION_ZERO_FEE_V2_HEIGHT : Z := 1123000.
Definition FUSION_TX_MAX_POOL_COUNT : Z := 60.
Definition NORMAL_TX_MAX_OUTPUT_COUNT_V1 : Z := 90.
Definition NORMAL_TX_MAX_OUTPUT_COUNT_V1_HEIGHT : Z := 777777.
Definition UPGRADE_HEIGHT_V2 : Z := 1.
Definition UPGRADE_HEIGHT_V3 : Z := 2.
Definition UPGRADE_HEIGHT_V4 : Z := 3.
Definition UPGRADE_HEIGHT_V5 : Z := 302400.
Definition UPGRADE_HEIGHT_V6 : Z := 600000.
Definition UPGRADE_HEIGHT_V7 : Z := 1000000.
Definition UPGRADE_VOTING_THRESHOLD : Z := 90.
Definition UPGRADE_VOTING_WINDOW : Z := EXPECTED_NUMBER_OF_BLOCKS_PER_DAY.
Definition UPGRADE_WINDOW : Z := EXPECTED_NUMBER_OF_BLOCKS_PER_DAY.
Definition TRANSACTION_VERSION_1 : Z := 1.
Definition TRANSACTION_VERSION_2 : Z := 2.
Definition CURRENT_TRANSACTION_VERSION : Z := TRANSACTION_VERSION_1.
Definition BLOCK_MAJOR_VERSION_1 : Z := 1.
Definition BLOCK_MAJOR_VERSION_2 : Z := 2.
Definition BLOCK_MAJOR_VERSION_3 : Z := 3.
Definition BLOCK_MAJOR_VERSION_4 : Z := 4.
Definition BLOCK_MAJOR_VERSION_5 : Z := 5.
Definition BLOCK_MAJOR_VERSION_6 : Z := 6.
Definition BLOCK_MAJOR_VERSION_7 : Z := 7.
Definition BLOCK_MINOR_VERSION_0 : Z := 0.
Definition BLOCK_MINOR_VERSION_1 : Z := 1.

(** The block heights of the hard forks. *)
Definition FORK_HEIGHTS : list Z :=
  [1; 40000; 100000; 302400; 430000; 543000; 600000; 678500; 777777; 832000;
   864864; 1000000; 1123000; 1200000; 1500000; 1800000; 2500000; 2800000;
   3500000; 3800000].

Definition SOFTWARE_SUPPORTED_FORK_INDEX : Z := 19.

Definition FORK_HEIGHTS_SIZE : Z := Z.of_nat (length FORK_HEIGHTS).


End parameters.

Module Constants.

(** The denominations a transaction output may have. *)
Definition PRETTY_AMOUNTS : list Z :=
  [1; 2; 3; 4; 5; 6; 7; 8; 9;
   10; 20; 30; 40; 50; 60; 70; 80; 90;
   100; 200; 300; 400; 500; 600; 700; 800; 900;
   1000; 2000; 3000; 4000; 5000; 6000; 7000; 8000; 9000;
   10000; 20000; 30000; 40000; 50000; 60000; 70000; 80000; 90000;
   100000; 200000; 300000; 400000; 500000; 600000; 700000; 800000; 900000;
   1000000; 2000000; 3000000; 4000000; 5000000; 6000000; 7000000; 8000000; 9000000;
   10000000; 20000000; 30000000; 40000000; 50000000; 60000000; 70000000; 80000000; 90000000;
   100000000; 200000000; 300000000; 400000000; 500000000; 600000000; 700000000; 800000000; 900000000;
   1000000000; 2000000000; 3000000000; 4000000000; 5000000000; 6000000000; 7000000000; 8000000000; 9000000000;
   10000000000; 20000000000; 30000000000; 40000000000; 50000000000; 60000000000; 70000000000; 80000000000; 90000000000;
   100000000000; 200000000000; 300000000000; 400000000000; 500000000000; 600000000000; 700000000000; 800000000000; 900000000000;
   1000000000000; 2000000000000; 3000000000000; 4000000000000; 5000000000000; 6000000000000; 7000000000000; 8000000000000; 9000000000000;
   10000000000000; 20000000000000; 30000000000000; 40000000000000; 50000000000000; 60000000000000; 70000000000000; 80000000000000; 90000000000000;
   100000000000000; 200000000000000; 300000000000000; 400000000000000; 500000000000000; 600000000000000; 700000000000000; 800000000000000; 900000000000000;
   1000000000000000; 2000000000000000; 3000000000000000; 4000000000000000; 5000000000000000; 6000000000000000; 7000000000000000; 8000000000000000; 9000000000000000;
   10000000000000000; 20000000000000000; 30000000000000000; 40000000000000000; 50000000000000000; 60000000000000000; 70000000000000000; 80000000000000000; 90000000000000000;
   100000000000000000; 200000000000000000; 300000000000000000; 400000000000000000; 500000000000000000; 600000000000000000; 700000000000000000; 800000000000000000; 900000000000000000;
   1000000000000000000; 2000000000000000000; 3000000000000000000; 4000000000000000000; 5000000000000000000; 6000000000000000000; 7000000000000000000; 8000000000000000000; 9000000000000000000;
   10000000000000000000].

Definition TX_EXTRA_PAYMENT_ID_IDENTIFIER : Z := 0x00.
Definition TX_EXTRA_PUBKEY_IDENTIFIER : Z := 0x01.
Definition TX_EXTRA_NONCE_IDENTIFIER : Z := 0x02.
Definition TX_EXTRA_MERGE_MINING_IDENTIFIER : Z := 0x03.
Definition TX_EXTRA_TRANSACTION_POW_NONCE_IDENTIFIER : Z := 0x04.
Definition TX_EXTRA_ARBITRARY_DATA_IDENTIFIER : Z := 0x7f.

End Constants.
