(* ===== verification/Types.v ===== *)
(** * Data types

    The structures of [src/include/CryptoNote.h].  A fixed-size byte array of
    [src/include/CryptoTypes.h] (hash, key, key image, signature) is a list of
    bytes; [pod n] says that it has its length. *)

From S2P Require Import Prelude.

Module Types.

(** A plain array of [n] bytes. *)
Definition pod (n : nat) (l : list Z) : Prop := length l = n /\ bytes_ok l.
Definition podb (n : nat) (l : list Z) : bool :=
  (length l =? n)%nat && forallb (fitsb 8) l.

Definition Hash := list Z.
Definition PublicKey := list Z.
Definition SecretKey := list Z.
Definition KeyDerivation := list Z.
Definition KeyImage := list Z.
Definition Signature := list Z.
Definition BinaryArray := list Z.

Record BaseInput := mkBaseInput { blockIndex : Z }.

Record KeyInput := mkKeyInput {
  in_amount : Z;
  outputIndexes : list Z;
  keyImage : KeyImage
}.

Record KeyOutput := mkKeyOutput { key : PublicKey }.

Inductive TransactionInput :=
| InBase (i : BaseInput)
| InKey (i : KeyInput).

Inductive TransactionOutputTarget :=
| ToKey (o : KeyOutput).

Record TransactionOutput := mkTransactionOutput {
  out_amount : Z;
  target : TransactionOutputTarget
}.

Record TransactionPrefix := mkTransactionPrefix {
  version : Z;
  unlockTime : Z;
  inputs : list TransactionInput;
  outputs : list TransactionOutput;
  extra : list Z
}.

(** [Transaction] and [BaseTransaction] derive from [TransactionPrefix]. *)
Record Transaction := mkTransaction {
  tx_prefix :> TransactionPrefix;
  signatures : list (list Signature)
}.

Record BaseTransaction := mkBaseTransaction {
  base_prefix :> TransactionPrefix
}.

Record ParentBlock := mkParentBlock {
  pb_majorVersion : Z;
  pb_minorVersion : Z;
  pb_previousBlockHash : Hash;
  transactionCount : Z;
  baseTransactionBranch : list Hash;
  pb_baseTransaction : BaseTransaction;
  blockchainBranch : list Hash
}.

Record BlockHeader := mkBlockHeader {
  majorVersion : Z;
  minorVersion : Z;
  nonce : Z;
  timestamp : Z;
  previousBlockHash : Hash
}.

Record BlockTemplate := mkBlockTemplate {
  block_header :> BlockHeader;
  parentBlock : ParentBlock;
  baseTransaction : Transaction;
  transactionHashes : list Hash
}.

Record AccountPublicAddress := mkAccountPublicAddress {
  spendPublicKey : PublicKey;
  viewPublicKey : PublicKey
}.

Record KeyPair := mkKeyPair {
  publicKey : PublicKey;
  secretKey : SecretKey
}.

#[export] Instance BaseInput_eq_dec : EqDecision BaseInput.
Proof. solve_decision. Defined.
#[export] Instance KeyInput_eq_dec : EqDecision KeyInput.
Proof. unfold KeyImage in *. solve_decision. Defined.
#[export] Instance KeyOutput_eq_dec : EqDecision KeyOutput.
Proof. unfold PublicKey in *. solve_decision. Defined.
#[export] Instance TransactionInput_eq_dec : EqDecision TransactionInput.
Proof. solve_decision. Defined.
#[export] Instance TransactionOutputTarget_eq_dec : EqDecision TransactionOutputTarget.
Proof. solve_decision. Defined.
#[export] Instance TransactionOutput_eq_dec : EqDecision TransactionOutput.
Proof. solve_decision. Defined.
#[export] Instance TransactionPrefix_eq_dec : EqDecision TransactionPrefix.
Proof. solve_decision. Defined.
#[export] Instance Transaction_eq_dec : EqDecision Transaction.
Proof. unfold Signature in *. solve_decision. Defined.

Lemma podb_spec n l : podb n l = true <-> pod n l.
Proof.
  unfold podb, pod, bytes_ok. rewrite andb_true_iff, Nat.eqb_eq, forallb_forall, Forall_forall.
  setoid_rewrite fitsb_spec. setoid_rewrite list_elem_of_In. done.
Qed.

End Types.
