(* ===== verification/Utilities.v ===== *)
(** * Utilities

    The helpers of [src/src/utilities/Utilities.cpp] on heights, fees and sizes,
    and [getMixinAllowableRange] of [src/src/utilities/Mixins.cpp].  The clock is
    an argument.

    Fees are computed with [double]s.  Every [double] here is a fraction with a
    power of two as denominator, and while the numerator stays below [2^53] the
    IEEE operations on it are exact; beyond that the result is [Unmodelled]. *)

From S2P Require Import Prelude.
From S2P Require Import StringTools.
From S2P Require Import Config.
Import StringTools.StringTools Config.parameters.

Module Utilities.

Definition getTransactionSum (destinations : list (list Z * Z)) : Z :=
  fold_left (fun amountSum d => u64 (amountSum + d.2)) destinations 0.

(** A remainder by zero is undefined. *)
Definition getLowerBound (val nearestMultiple : Z) : outcome Z :=
  if nearestMultiple =? 0 then Err (UndefinedBehaviour "division by zero")
  else Ok (val - val mod nearestMultiple).

Definition getUpperBound (val nearestMultiple : Z) : outcome Z :=
  let! lower := getLowerBound val nearestMultiple in
  Ok (u64 (lower + nearestMultiple)).

Definition isInputUnlocked (now unlockTime currentHeight : Z) : bool :=
  if unlockTime =? 0 then true
  else if CRYPTONOTE_MAX_BLOCK_NUMBER <=? unlockTime then
    unlockTime <=? u64 (now + CRYPTONOTE_LOCKED_TX_ALLOWED_DELTA_SECONDS)
  else unlockTime <=? u64 (currentHeight + CRYPTONOTE_LOCKED_TX_ALLOWED_DELTA_BLOCKS).

Definition getMaxTxSize (currentHeight : Z) : Z :=
  let numerator := u64 (currentHeight * MAX_BLOCK_SIZE_GROWTH_SPEED_NUMERATOR) in
  let growth := numerator / MAX_BLOCK_SIZE_GROWTH_SPEED_DENOMINATOR in
  let x := u64 (MAX_BLOCK_SIZE_INITIAL + growth) in
  u64 (Z.min x 125000 - CRYPTONOTE_COINBASE_BLOB_RESERVED_SIZE).

(** [time - adjust] with the largest of the three limits. *)
Definition getCurrentTimestampAdjusted (now : Z) : Z :=
  u64 (now - Z.max CRYPTONOTE_BLOCK_FUTURE_TIME_LIMIT
               (Z.max CRYPTONOTE_BLOCK_FUTURE_TIME_LIMIT_V3 CRYPTONOTE_BLOCK_FUTURE_TIME_LIMIT_V4)).

Definition scanHeightToTimestamp (now scanHeight : Z) : Z :=
  if scanHeight =? 0 then 0
  else
    let secondsSinceLaunch := u64 (scanHeight * DIFFICULTY_TARGET) in
    let timestamp := u64 (GENESIS_BLOCK_TIMESTAMP + secondsSinceLaunch) in
    if getCurrentTimestampAdjusted now <=? timestamp then getCurrentTimestampAdjusted now else timestamp.

(** [std::max<uint64_t>(0, x - 10000)]: the difference is unsigned. *)
Definition timestampToScanHeight (timestamp : Z) : Z :=
  if timestamp =? 0 then 0
  else if timestamp <=? GENESIS_BLOCK_TIMESTAMP then 0
  else
    let launchTimestampDelta := timestamp - GENESIS_BLOCK_TIMESTAMP in
    Z.max 0 (u64 (launchTimestampDelta / DIFFICULTY_TARGET - 10000)).

(** [std::stoi]: [None] is [std::invalid_argument]. *)
Definition stoi (text : list Z) : option (outcome Z) :=
  let text := skip_spaces text in
  let '(negative, text) :=
    match text with
    | c :: text' => if c =? 45 then (true, text') else if c =? 43 then (false, text') else (false, text)
    | [] => (false, [])
    end in
  match span_digits text with
  | [] => None
  | digits =>
    let v := if negative : bool then - decimal_value digits else decimal_value digits in
    Some (if (- 2 ^ 31 <=? v) && (v <? 2 ^ 31) then Ok v else Err (RuntimeError "std::out_of_range"))
  end.

Definition RPC_DEFAULT_PORT : Z := 17856.

(** The host and the port, or [None] for the [false] result; only
    [std::invalid_argument] is caught. *)
Definition parseDaemonAddressFromString (address : list Z) : outcome (option (list Z * Z)) :=
  let address := removePrefix address (str "https://") in
  let address := removePrefix address (str "http://") in
  match split address 58 with
  | [] => Ok None
  | [host] => Ok (Some (host, RPC_DEFAULT_PORT))
  | host :: port :: _ =>
    match stoi port with
    | None => Ok None
    | Some r => let! port := r in Ok (Some (host, wrap 16 port))
    end
  end.

(** ** Fees *)

(** The [double] [numerator / 2 ^ exponent]. *)
Record double := mkDouble { numerator : Z; exponent : Z }.

Definition exact (x : Z) : outcome Z :=
  if (- 2 ^ 53 <? x) && (x <? 2 ^ 53) then Ok x else Err (Unmodelled "rounding of double").

Definition MINIMUM_FEE_PER_BYTE_V1 : double := mkDouble 500 8.
Definition MINIMUM_FEE_PER_BYTE_V2 : double := mkDouble 10 7.

(** [ceil(transactionSize / double(chunk))] for a power of two. *)
Definition chunks (transactionSize chunk : Z) : outcome Z :=
  let! size := exact transactionSize in
  Ok (- (- size / chunk)).

(** [uint64_t(numChunks * feePerByte * chunk)]. *)
Definition chunk_fee (numChunks : Z) (feePerByte : double) (chunk : Z) : outcome Z :=
  let! x := exact (numChunks * numerator feePerByte) in
  let! x := exact (x * chunk) in
  Ok (Z.quot x (2 ^ exponent feePerByte)).

Definition getTransactionFee (transactionSize height : Z) (feePerByte : double) : outcome Z :=
  if height <=? MINIMUM_FEE_V1_HEIGHT + 1 then Ok MINIMUM_FEE
  else if height <? MINIMUM_FEE_PER_BYTE_V1_HEIGHT then Ok MINIMUM_FEE_V1
  else if height <? MINIMUM_FEE_PER_BYTE_V2_HEIGHT then
    let! numChunks := chunks transactionSize FEE_PER_BYTE_CHUNK_SIZE in
    chunk_fee numChunks feePerByte FEE_PER_BYTE_CHUNK_SIZE
  else
    let! numChunks := chunks transactionSize FEE_PER_BYTE_CHUNK_SIZE_V2 in
    chunk_fee numChunks feePerByte FEE_PER_BYTE_CHUNK_SIZE_V2.

(** The comparison of the height with the fee rate, as in the source. *)
Definition getMinimumTransactionFee (transactionSize height : Z) : outcome Z :=
  let above := numerator MINIMUM_FEE_PER_BYTE_V1 <? height * 2 ^ exponent MINIMUM_FEE_PER_BYTE_V1 in
  getTransactionFee transactionSize height
    (if above then MINIMUM_FEE_PER_BYTE_V2 else MINIMUM_FEE_PER_BYTE_V1).

(** ** Sizes *)

Definition estimateTransactionSize (mixin numInputs numOutputs : Z) (havePaymentID : bool) (extraDataSize : Z) : Z :=
  let KEY_IMAGE_SIZE := 32 in
  let OUTPUT_KEY_SIZE := 32 in
  let AMOUNT_SIZE := 8 + 2 in
  let GLOBAL_INDEXES_VECTOR_SIZE_SIZE := 1 in
  let GLOBAL_INDEXES_INITIAL_VALUE_SIZE := 4 in
  let SIGNATURE_SIZE := 64 in
  let EXTRA_TAG_SIZE := 1 in
  let INPUT_TAG_SIZE := 1 in
  let OUTPUT_TAG_SIZE := 1 in
  let PUBLIC_KEY_SIZE := 32 in
  let TRANSACTION_VERSION_SIZE := 1 in
  let TRANSACTION_UNLOCK_TIME_SIZE := 8 + 2 in
  let EXTRA_DATA_SIZE := if 0 <? extraDataSize then extraDataSize + 4 else 0 in
  let PAYMENT_ID_SIZE := if havePaymentID then 34 else 0 in
  let headerSize := TRANSACTION_VERSION_SIZE + TRANSACTION_UNLOCK_TIME_SIZE + EXTRA_TAG_SIZE + EXTRA_DATA_SIZE
    + PUBLIC_KEY_SIZE + PAYMENT_ID_SIZE in
  let inputSize := INPUT_TAG_SIZE + AMOUNT_SIZE + KEY_IMAGE_SIZE + SIGNATURE_SIZE + GLOBAL_INDEXES_VECTOR_SIZE_SIZE
    + GLOBAL_INDEXES_INITIAL_VALUE_SIZE + mixin * SIGNATURE_SIZE in
  let inputsSize := inputSize * numInputs in
  let outputSize := OUTPUT_TAG_SIZE + OUTPUT_KEY_SIZE + AMOUNT_SIZE in
  let outputsSize := outputSize * numOutputs in
  u64 (headerSize + inputsSize + outputsSize).

Definition getApproximateMaximumInputCount (transactionSize outputCount mixinCount : Z) : outcome Z :=
  let KEY_IMAGE_SIZE := 32 in
  let OUTPUT_KEY_SIZE := 32 in
  let AMOUNT_SIZE := 8 + 2 in
  let GLOBAL_INDEXES_VECTOR_SIZE_SIZE := 1 in
  let GLOBAL_INDEXES_INITIAL_VALUE_SIZE := 4 in
  let GLOBAL_INDEXES_DIFFERENCE_SIZE := 4 in
  let SIGNATURE_SIZE := 64 in
  let EXTRA_TAG_SIZE := 1 in
  let INPUT_TAG_SIZE := 1 in
  let OUTPUT_TAG_SIZE := 1 in
  let PUBLIC_KEY_SIZE := 32 in
  let TRANSACTION_VERSION_SIZE := 1 in
  let TRANSACTION_UNLOCK_TIME_SIZE := 8 in
  let outputsSize := u64 (outputCount * (OUTPUT_TAG_SIZE + OUTPUT_KEY_SIZE + AMOUNT_SIZE)) in
  let headerSize := TRANSACTION_VERSION_SIZE + TRANSACTION_UNLOCK_TIME_SIZE + EXTRA_TAG_SIZE + PUBLIC_KEY_SIZE in
  let inputSize := u64 (INPUT_TAG_SIZE + AMOUNT_SIZE + KEY_IMAGE_SIZE + SIGNATURE_SIZE
    + GLOBAL_INDEXES_VECTOR_SIZE_SIZE + GLOBAL_INDEXES_INITIAL_VALUE_SIZE
    + mixinCount * (GLOBAL_INDEXES_DIFFERENCE_SIZE + SIGNATURE_SIZE)) in
  if inputSize =? 0 then Err (UndefinedBehaviour "division by zero")
  else Ok (u64 (transactionSize - headerSize - outputsSize) / inputSize).

(** ** Mixins *)

(** The least, the greatest and the default number of mixed-in outputs. *)
Definition getMixinAllowableRange (height : Z) : Z * Z * Z :=
  if MIXIN_LIMITS_V5_HEIGHT <=? height then (MINIMUM_MIXIN_V5, MAXIMUM_MIXIN_V5, DEFAULT_MIXIN_V5)
  else if MIXIN_LIMITS_V4_HEIGHT <=? height then (MINIMUM_MIXIN_V4, MAXIMUM_MIXIN_V4, DEFAULT_MIXIN_V4)
  else if MIXIN_LIMITS_V3_HEIGHT <=? height then (MINIMUM_MIXIN_V3, MAXIMUM_MIXIN_V3, DEFAULT_MIXIN_V3)
  else if MIXIN_LIMITS_V2_HEIGHT <=? height then (MINIMUM_MIXIN_V2, MAXIMUM_MIXIN_V2, DEFAULT_MIXIN_V2)
  else if MIXIN_LIMITS_V1_HEIGHT <=? height then (MINIMUM_MIXIN_V1, MAXIMUM_MIXIN_V1, DEFAULT_MIXIN_V1)
  else (0, 2 ^ 64 - 1, DEFAULT_MIXIN_V0).

(** ** The minimum fee *)

Lemma exact_ok x : - 2 ^ 53 < x < 2 ^ 53 -> exact x = Ok x.
Proof. intros. unfold exact. by rewrite !(proj2 (Z.ltb_lt _ _)) by lia. Qed.

Lemma chunks_eq size chunk :
  0 <= size < 2 ^ 40 -> 0 < chunk -> exists n, chunks size chunk = Ok n /\ 0 <= n <= size /\ size <= n * chunk < size + chunk.
Proof.
  intros Hs Hc. unfold chunks. rewrite exact_ok by lia. cbn [obind]. eexists. split; [done|].
  pose proof (Z.div_mod (- size) chunk ltac:(lia)). pose proof (Z.mod_pos_bound (- size) chunk Hc).
  split; nia.
Qed.

(** Before the timestamps of the first 10000 blocks the estimate wraps around. *)
Lemma timestampToScanHeight_wraps :
  timestampToScanHeight (GENESIS_BLOCK_TIMESTAMP + 60) = 2 ^ 64 - 9999.
Proof. reflexivity. Qed.

(** An out-of-range port is not reported as [false] but thrown. *)
Lemma daemon_port_throws :
  parseDaemonAddressFromString (str "localhost:99999999999") = Err (RuntimeError "std::out_of_range").
Proof. reflexivity. Qed.

(** The minimum fee on each range of heights. *)
Lemma minimum_fee_cases size height :
  0 <= size < 2 ^ 40 -> 2 <= height ->
  exists fee, getMinimumTransactionFee size height = Ok fee /\
    (height <= MINIMUM_FEE_V1_HEIGHT + 1 -> fee = MINIMUM_FEE) /\
    (MINIMUM_FEE_V1_HEIGHT + 1 < height < MINIMUM_FEE_PER_BYTE_V1_HEIGHT -> fee = MINIMUM_FEE_V1) /\
    (MINIMUM_FEE_PER_BYTE_V1_HEIGHT <= height < MINIMUM_FEE_PER_BYTE_V2_HEIGHT -> exists n,
      fee = 20 * n /\ size <= n * 256 < size + 256) /\
    (MINIMUM_FEE_PER_BYTE_V2_HEIGHT <= height -> exists n, fee = 10 * n /\ size <= n * 128 < size + 128).
Proof.
  intros Hs Hh. unfold getMinimumTransactionFee.
  rewrite (proj2 (Z.ltb_lt _ _)) by (simpl numerator; simpl exponent; lia).
  unfold getTransactionFee, MINIMUM_FEE_V1_HEIGHT, MINIMUM_FEE_PER_BYTE_V1_HEIGHT, MINIMUM_FEE_PER_BYTE_V2_HEIGHT.
  repeat case_if.
  - eexists. split; [done|]. split_and!; (done || lia).
  - eexists. split; [done|]. split_and!; (done || lia).
  - destruct (chunks_eq size FEE_PER_BYTE_CHUNK_SIZE Hs) as (n & -> & Hn & Hr); [done|]. cbn [obind].
    unfold chunk_fee, FEE_PER_BYTE_CHUNK_SIZE in *. cbn [numerator exponent MINIMUM_FEE_PER_BYTE_V2].
    rewrite exact_ok by lia. cbn [obind]. rewrite exact_ok by lia. cbn [obind].
    replace (n * 10 * 256) with (20 * n * 2 ^ 7) by lia. rewrite Z.quot_mul by lia.
    eexists. split; [done|]. split_and!; try lia. intros _. by exists n.
  - destruct (chunks_eq size FEE_PER_BYTE_CHUNK_SIZE_V2 Hs) as (n & -> & Hn & Hr); [done|]. cbn [obind].
    unfold chunk_fee, FEE_PER_BYTE_CHUNK_SIZE_V2 in *. cbn [numerator exponent MINIMUM_FEE_PER_BYTE_V2].
    rewrite exact_ok by lia. cbn [obind]. rewrite exact_ok by lia. cbn [obind].
    replace (n * 10 * 128) with (10 * n * 2 ^ 7) by lia. rewrite Z.quot_mul by lia.
    eexists. split; [done|]. split_and!; try lia. intros _. by exists n.
Qed.

(** The minimum fee of a transaction by height and size: fixed amounts up to
    the fee-per-byte fork, then 20 atomic units for every started chunk of 256
    bytes, and from the second fork on 10 for every started chunk of 128 bytes.
    The 500 units per chunk announced for the first fork are never charged,
    because the rate is selected by comparing the height with a fee. *)
Theorem minimum_fee_schedule size height :
  0 <= size < 2 ^ 40 -> 2 <= height ->
  exists fee, getMinimumTransactionFee size height = Ok fee /\
    (height <= MINIMUM_FEE_V1_HEIGHT + 1 -> fee = MINIMUM_FEE) /\
    (MINIMUM_FEE_V1_HEIGHT + 1 < height < MINIMUM_FEE_PER_BYTE_V1_HEIGHT -> fee = MINIMUM_FEE_V1) /\
    (MINIMUM_FEE_PER_BYTE_V1_HEIGHT <= height < MINIMUM_FEE_PER_BYTE_V2_HEIGHT -> exists n,
      fee = 20 * n /\ size <= n * 256 < size + 256) /\
    (MINIMUM_FEE_PER_BYTE_V2_HEIGHT <= height -> exists n, fee = 10 * n /\ size <= n * 128 < size + 128).
Proof. apply minimum_fee_cases. Qed.

Lemma minimum_fee_schedule_witness :
  exists fee, getMinimumTransactionFee 1000 900000 = Ok fee /\ exists n, fee = 20 * n /\ 1000 <= n * 256 < 1000 + 256.
Proof.
  destruct (minimum_fee_schedule 1000 900000) as (fee & H & _ & _ & H3 & _); [lia|lia|].
  exists fee. split; [exact H|]. apply H3. ground.
Defined.

End Utilities.
