(* ===== verification/FormatUtils.v ===== *)
(** * Transaction arithmetic

    The helpers of [src/src/cryptonotecore/CryptoNoteFormatUtils.cpp] and
    [.h] on the amounts and the output offsets of a transaction, and
    [getPenalizedAmount] of [src/src/cryptonotecore/CryptoNoteBasicImpl.cpp]. *)

From S2P Require Import Prelude.
From S2P Require Import IntUtil.
From S2P Require Import Types.
Import IntUtil.IntUtil Types.Types.

Module FormatUtils.

(** ** Block size penalty *)

Definition getPenalizedAmount (amount medianSize currentBlockSize : Z) : outcome Z :=
  let! _ := assert_that (currentBlockSize <=? u64 (2 * medianSize)) "currentBlockSize <= 2 * medianSize" in
  let! _ := assert_that (medianSize <=? 2 ^ 32 - 1) "medianSize <= max" in
  let! _ := assert_that (currentBlockSize <=? 2 ^ 32 - 1) "currentBlockSize <= max" in
  if amount =? 0 then Ok 0
  else if currentBlockSize <=? medianSize then Ok amount
  else
    let '(productLo, productHi) :=
      mul128 amount (u64 (currentBlockSize * u64 (u64 (2 * medianSize) - currentBlockSize))) in
    let '(hi1, lo1, _) := div128_32 productHi productLo (u32 medianSize) in
    let '(penalizedAmountHi, penalizedAmountLo, _) := div128_32 hi1 lo1 (u32 medianSize) in
    let! _ := assert_that (0 =? penalizedAmountHi) "0 == penalizedAmountHi" in
    let! _ := assert_that (penalizedAmountLo <? amount) "penalizedAmountLo < amount" in
    Ok penalizedAmountLo.

(** ** Decomposition of an amount into digits *)

Section Decompose.
Context {S : Type} (dust_threshold : Z) (chunk_handler dust_handler : Z -> S -> S).

(** The [while] loop; a 64-bit amount has at most 20 decimal digits. *)
Fixpoint decompose_loop (fuel : nat) (amount order dust : Z) (is_dust_handled : bool) (s : S)
  : Z * bool * S :=
  match fuel with
  | O => (dust, is_dust_handled, s)
  | Datatypes.S fuel =>
    if 0 =? amount then (dust, is_dust_handled, s)
    else
      let chunk := u64 (amount mod 10 * order) in
      let amount := amount / 10 in
      let order := u64 (order * 10) in
      if u64 (dust + chunk) <=? dust_threshold
      then decompose_loop fuel amount order (u64 (dust + chunk)) is_dust_handled s
      else
        let handle := negb is_dust_handled && negb (0 =? dust) in
        let s := if handle then dust_handler dust s else s in
        let is_dust_handled := is_dust_handled || handle in
        let s := if negb (0 =? chunk) then chunk_handler chunk s else s in
        decompose_loop fuel amount order dust is_dust_handled s
  end.

Definition decompose_amount_into_digits (amount : Z) (s : S) : S :=
  if 0 =? amount then s
  else
    let '(dust, is_dust_handled, s) := decompose_loop 20 amount 1 0 false s in
    if negb is_dust_handled && negb (0 =? dust) then dust_handler dust s else s.

End Decompose.

Definition push_back {A} (x : A) (l : list A) : list A := l ++ [x].

Definition decomposeAmount (amount dustThreshold : Z) (decomposedAmounts : list Z) : list Z :=
  decompose_amount_into_digits dustThreshold push_back push_back amount decomposedAmounts.

(** ** Amounts of a transaction *)

Definition getInputAmount (transaction : Transaction) : Z :=
  fold_left (fun amount input =>
    match input with
    | InKey i => u64 (amount + in_amount i)
    | InBase _ => amount
    end) (inputs transaction) 0.

Definition getInputsAmounts (transaction : Transaction) : list Z :=
  fold_left (fun inputsAmounts input =>
    match input with
    | InKey i => inputsAmounts ++ [in_amount i]
    | InBase _ => inputsAmounts
    end) (inputs transaction) [].

Definition getOutputAmount (transaction : Transaction) : Z :=
  fold_left (fun amount output => u64 (amount + out_amount output)) (outputs transaction) 0.

(** [None] is the [false] result. *)
Definition get_tx_fee (tx : Transaction) : option Z :=
  let amount_in :=
    fold_left (fun amount_in i =>
      match i with
      | InKey i => u64 (amount_in + in_amount i)
      | InBase _ => amount_in
      end) (inputs tx) 0 in
  let amount_out := fold_left (fun amount_out o => u64 (amount_out + out_amount o)) (outputs tx) 0 in
  if negb (amount_out <=? amount_in) then None
  else Some (u64 (amount_in - amount_out)).

Definition get_tx_fee_or_zero (tx : Transaction) : Z :=
  match get_tx_fee tx with
  | None => 0
  | Some r => r
  end.

Definition checkInputTypesSupported (tx : TransactionPrefix) : bool :=
  forallb (fun i => match i with InKey _ => true | InBase _ => false end) (inputs tx).

Fixpoint checkInputsOverflow_loop (l : list TransactionInput) (money : Z) : bool :=
  match l with
  | [] => true
  | i :: l =>
    let amount := match i with InKey i => in_amount i | InBase _ => 0 end in
    if u64 (amount + money) <? money then false
    else checkInputsOverflow_loop l (u64 (money + amount))
  end.

Definition checkInputsOverflow (tx : TransactionPrefix) : bool :=
  checkInputsOverflow_loop (inputs tx) 0.

Fixpoint checkOutsOverflow_loop (l : list TransactionOutput) (money : Z) : bool :=
  match l with
  | [] => true
  | o :: l =>
    if u64 (out_amount o + money) <? money then false
    else checkOutsOverflow_loop l (u64 (money + out_amount o))
  end.

Definition checkOutsOverflow (tx : TransactionPrefix) : bool :=
  checkOutsOverflow_loop (outputs tx) 0.

(** [check_key] tells whether 32 bytes are a point of the curve; the result is
    the error text, or [None] when every output is valid. *)
Definition checkOutsValid (check_key : PublicKey -> bool) (tx : TransactionPrefix) : option string :=
  fold_left (fun error out =>
    match error with
    | Some _ => error
    | None =>
      match target out with
      | ToKey o =>
        if out_amount out =? 0 then Some "Zero amount ouput"%string
        else if negb (check_key (key o)) then Some "Output with invalid key"%string
        else None
      end
    end) (outputs tx) None.

(** ** Output offsets *)

Fixpoint relativeOutputOffsetsToAbsolute_loop (previous : Z) (off : list Z) : list Z :=
  match off with
  | [] => []
  | x :: off =>
    let x := u32 (x + previous) in
    x :: relativeOutputOffsetsToAbsolute_loop x off
  end.

Definition relativeOutputOffsetsToAbsolute (off : list Z) : list Z :=
  match off with
  | [] => []
  | x :: off => x :: relativeOutputOffsetsToAbsolute_loop x off
  end.

Fixpoint absolute_output_offsets_to_relative_loop (previous : Z) (off : list Z) : list Z :=
  match off with
  | [] => []
  | x :: off => u32 (x - previous) :: absolute_output_offsets_to_relative_loop x off
  end.

Definition absolute_output_offsets_to_relative (off : list Z) : list Z :=
  match off with
  | [] => []
  | x :: off => x :: absolute_output_offsets_to_relative_loop x off
  end.

(** ** Penalty: the reward falls quadratically with the excess over the median *)

(** The exact value of the penalty formula. *)
Definition penalized (amount m c : Z) : Z :=
  if c <=? m then amount else amount * (c * (2 * m - c)) / (m * m).

Lemma penalty_factor m c : 0 < m -> m < c <= 2 * m -> 0 <= c * (2 * m - c) < m * m.
Proof. nia. Qed.

Lemma penalized_lt amount m c :
  0 < amount -> 0 < m -> m < c <= 2 * m -> 0 <= penalized amount m c < amount.
Proof.
  intros Ha Hm Hc. unfold penalized. destruct (Z.leb_spec c m); [lia|].
  pose proof (penalty_factor m c Hm Hc). split.
  - apply Z.div_pos; nia.
  - apply Z.div_lt_upper_bound; nia.
Qed.

Lemma getPenalizedAmount_eq amount m c :
  fits 64 amount -> fits 32 m -> fits 32 c -> c <= 2 * m ->
  getPenalizedAmount amount m c = Ok (penalized amount m c).
Proof.
  intros Ha Hm Hc Hcm. unfold getPenalizedAmount.
  assert (Hw : u64 (2 * m) = 2 * m) by (apply wrap_small; unfold fits in *; pow2; lia).
  rewrite Hw. unfold assert_that.
  rewrite 3!(proj2 (Z.leb_le _ _)) by (unfold fits in *; pow2; lia). cbn [obind].
  destruct (Z.eqb_spec amount 0) as [->|Hnz].
  { unfold penalized. destruct (c <=? m); by rewrite ?Z.mul_0_l, ?Z.div_0_l by (unfold fits in *; nia). }
  destruct (Z.leb_spec c m) as [?|Hlt].
  { unfold penalized. by rewrite (proj2 (Z.leb_le _ _)) by lia. }
  unfold fits in Ha, Hm, Hc.
  pose proof (penalty_factor m c ltac:(lia) ltac:(lia)) as Hf.
  rewrite (wrap_small 64 (2 * m - c)) by (unfold fits; pow2; lia).
  assert (Hmm : m * m <= 2 ^ 64) by (pow2; nia).
  rewrite (wrap_small 64 (c * _)) by (unfold fits; lia).
  rewrite (wrap_small 32 m) by done.
  destruct (mul128_eq amount (c * (2 * m - c))) as (lo & hi & -> & E & Hlo & Hhi); [done|unfold fits; lia|].
  destruct (div128_32_spec hi lo m) as (qh & ql & r & -> & E1 & _ & Hqh & Hql); [done|done|done|lia|].
  destruct (div128_32_spec qh ql m) as (qh' & ql' & r' & -> & E2 & _ & Hqh' & Hql'); [done|done|done|lia|].
  rewrite E1, E, Z.div_div in E2 by lia.
  pose proof (penalized_lt amount m c ltac:(lia) ltac:(lia) ltac:(lia)) as Hp.
  unfold penalized in *. rewrite (proj2 (Z.leb_gt _ _)) in * by lia.
  unfold fits in *. assert (qh' = 0) as -> by (pow2; lia).
  rewrite Z.mul_0_l, Z.add_0_l in E2. subst ql'.
  cbn [Z.eqb obind]. rewrite (proj2 (Z.ltb_lt _ _)) by lia. done.
Qed.

(** ** Decomposition: a dust part below the threshold and one chunk per digit *)

(** The non-zero digits of [amount], the lowest standing at [10 ^ k]. *)
Fixpoint digit_chunks (n : nat) (k amount : Z) : list Z :=
  match n with
  | O => []
  | S n =>
    (if amount mod 10 =? 0 then [] else [amount mod 10 * 10 ^ k]) ++ digit_chunks n (k + 1) (amount / 10)
  end.

Definition pretty (c : Z) : Prop := exists d k, 1 <= d <= 9 /\ 0 <= k /\ c = d * 10 ^ k.

Lemma digit_chunks_zero n k : digit_chunks n k 0 = [].
Proof. revert k; induction n; intros k; simpl; [done|apply IHn]. Qed.

Lemma digit_chunks_sum n k amount :
  0 <= k -> 0 <= amount < 10 ^ Z.of_nat n -> sumZ (digit_chunks n k amount) = amount * 10 ^ k.
Proof.
  revert k amount; induction n; intros k amount Hk Ha.
  { simpl in Ha. assert (amount = 0) as -> by lia. done. }
  rewrite Nat2Z.inj_succ, Z.pow_succ_r in Ha by lia. cbn [digit_chunks].
  rewrite sumZ_app, IHn; [|lia|split; [apply Z.div_pos; lia|apply Z.div_lt_upper_bound; lia]].
  rewrite Z.pow_add_r by lia. change (10 ^ 1) with 10.
  pose proof (Z.div_mod amount 10 ltac:(lia)) as E. set (q := amount / 10) in *. rewrite E at 3. clear E.
  destruct (Z.eqb_spec (amount mod 10) 0) as [->|]; simpl; lia.
Qed.

Lemma digit_chunks_pretty n k amount : 0 <= k -> Forall pretty (digit_chunks n k amount).
Proof.
  revert k amount; induction n; intros k amount Hk; simpl; [constructor|].
  apply Forall_app; split; [|apply IHn; lia].
  pose proof (Z.mod_pos_bound amount 10 ltac:(lia)).
  destruct (Z.eqb_spec (amount mod 10) 0); repeat constructor. exists (amount mod 10), k. lia.
Qed.

Lemma digit_chunks_ge n k amount : 0 <= k -> Forall (fun c => 10 ^ k <= c) (digit_chunks n k amount).
Proof.
  revert k amount; induction n; intros k amount Hk; simpl; [constructor|].
  pose proof (Z.mod_pos_bound amount 10 ltac:(lia)).
  pose proof (Z.pow_pos_nonneg 10 k ltac:(lia) Hk).
  apply Forall_app; split.
  - destruct (Z.eqb_spec (amount mod 10) 0); repeat constructor. nia.
  - eapply Forall_impl; [apply IHn; lia|]. simpl. intros c Hc.
    rewrite Z.pow_add_r in Hc by lia. change (10 ^ 1) with 10 in Hc. lia.
Qed.

Lemma digit_chunks_sorted n k amount : 0 <= k -> StronglySorted Z.lt (digit_chunks n k amount).
Proof.
  revert k amount; induction n; intros k amount Hk; simpl; [constructor|].
  pose proof (Z.mod_pos_bound amount 10 ltac:(lia)).
  destruct (Z.eqb_spec (amount mod 10) 0); simpl; [apply IHn; lia|].
  constructor; [apply IHn; lia|].
  eapply Forall_impl; [apply digit_chunks_ge; lia|]. simpl. intros c Hc.
  rewrite Z.pow_add_r in Hc by lia. change (10 ^ 1) with 10 in Hc.
  pose proof (Z.pow_pos_nonneg 10 k ltac:(lia) Hk). nia.
Qed.

Section DecomposeProofs.
Context (t : Z).

Local Abbreviation loop := (decompose_loop t push_back push_back).

Lemma decompose_loop_zero n order dust h s : loop n 0 order dust h s = (dust, h, s).
Proof. by destruct n. Qed.

Lemma split_digit k a : 0 <= k -> a * 10 ^ k = a mod 10 * 10 ^ k + a / 10 * 10 ^ (k + 1).
Proof.
  intros Hk. rewrite Z.pow_add_r by lia. change (10 ^ 1) with 10.
  pose proof (Z.div_mod a 10 ltac:(lia)) as E. rewrite E at 1. lia.
Qed.

Lemma next_digit_nonneg k a : 0 <= k -> 0 <= a -> 0 <= a / 10 * 10 ^ (k + 1).
Proof.
  intros Hk Ha. apply Z.mul_nonneg_nonneg; [apply Z.div_pos; lia|apply Z.pow_nonneg; lia].
Qed.

(** One iteration with the wrap-around of the machine integers discharged. *)
Lemma decompose_loop_step n k a dust h s :
  0 <= k -> 0 < a -> 0 <= dust -> fits 64 (a * 10 ^ k + dust) ->
  loop (S n) a (u64 (10 ^ k)) dust h s =
    let chunk := a mod 10 * 10 ^ k in
    if dust + chunk <=? t
    then loop n (a / 10) (u64 (10 ^ (k + 1))) (dust + chunk) h s
    else
      let handle := negb h && negb (0 =? dust) in
      let s := if handle then push_back dust s else s in
      let s := if negb (0 =? chunk) then push_back chunk s else s in
      loop n (a / 10) (u64 (10 ^ (k + 1))) dust (h || handle) s.
Proof.
  intros Hk Ha Hd Hfit. cbn [decompose_loop].
  rewrite (proj2 (Z.eqb_neq _ _)) by lia.
  pose proof (Z.pow_pos_nonneg 10 k ltac:(lia) Hk) as Hp.
  pose proof (Z.mod_pos_bound a 10 ltac:(lia)). pose proof (Z.mod_le a 10 ltac:(lia) ltac:(lia)).
  assert (u64 (a mod 10 * u64 (10 ^ k)) = a mod 10 * 10 ^ k) as ->.
  { unfold wrap. rewrite Zmult_mod_idemp_r. apply wrap_small. unfold fits in *. nia. }
  assert (u64 (u64 (10 ^ k) * 10) = u64 (10 ^ (k + 1))) as ->.
  { unfold wrap. by rewrite Zmult_mod_idemp_l, Z.pow_add_r by lia. }
  rewrite (wrap_small 64 (dust + _)) by (unfold fits in *; nia). done.
Qed.

(** After the first chunk the dust is settled and every non-zero digit is a chunk. *)
Lemma decompose_loop_chunks n : forall k a dust h s,
  0 <= k -> 0 <= a -> 0 <= dust <= t -> t < dust + 10 ^ k -> (h = true \/ dust = 0) ->
  fits 64 (a * 10 ^ k + dust) ->
  loop n a (u64 (10 ^ k)) dust h s = (dust, h, s ++ digit_chunks n k a).
Proof.
  induction n; intros k a dust h s Hk Ha Hd Hlt Hh Hfit; [simpl; by rewrite app_nil_r|].
  destruct (Z.eq_dec a 0) as [->|Hnz].
  { rewrite decompose_loop_zero, digit_chunks_zero. by rewrite app_nil_r. }
  rewrite decompose_loop_step by (done || lia). cbv zeta. cbn [digit_chunks].
  pose proof (Z.mod_pos_bound a 10 ltac:(lia)). pose proof (Z.pow_pos_nonneg 10 k ltac:(lia) Hk).
  assert (Hnext : t < dust + 10 ^ (k + 1)) by (rewrite Z.pow_add_r by lia; lia).
  assert (Hfit' : fits 64 (a / 10 * 10 ^ (k + 1) + dust)).
  { rewrite (split_digit k a) in Hfit by done. unfold fits in *.
    pose proof (next_digit_nonneg k a Hk Ha). nia. }
  assert (Hah : negb h && negb (0 =? dust) = false).
  { destruct Hh as [->| ->]; [done|apply andb_false_r]. }
  rewrite Hah, orb_false_r.
  destruct (Z.eqb_spec (a mod 10) 0) as [->|Hdig].
  - rewrite Z.mul_0_l, Z.add_0_r, (proj2 (Z.leb_le _ _)) by lia.
    apply IHn; try lia; [apply Z_div_nonneg_nonneg; lia|done|done].
  - rewrite (proj2 (Z.leb_gt _ _)) by nia. rewrite (proj2 (Z.eqb_neq _ _)) by nia. cbn [negb].
    rewrite IHn; try lia; [|apply Z_div_nonneg_nonneg; lia|done|done].
    unfold push_back. by rewrite <- app_assoc.
Qed.

Lemma decompose_loop_spec n : forall k a dust s,
  0 <= k -> 0 <= a < 10 ^ Z.of_nat n -> 0 <= dust <= t -> dust < 10 ^ k ->
  fits 64 (a * 10 ^ k + dust) ->
  exists dust' h chunks,
    loop n a (u64 (10 ^ k)) dust false s = (dust', h, s ++ (if h : bool then [dust'] else []) ++ chunks) /\
    dust' + sumZ chunks = dust + a * 10 ^ k /\ 0 <= dust' <= t /\
    Forall pretty chunks /\ StronglySorted Z.lt chunks /\ Forall (fun c => t < dust' + c) chunks /\
    (h = true <-> dust' <> 0 /\ chunks <> []).
Proof.
  induction n; intros k a dust s Hk Ha Hd Hdk Hfit.
  { simpl in Ha. assert (a = 0) as -> by lia. exists dust, false, []. simpl. rewrite app_nil_r.
    split_and!; try constructor; naive_solver lia. }
  destruct (Z.eq_dec a 0) as [->|Hnz].
  { exists dust, false, []. rewrite decompose_loop_zero. simpl. rewrite app_nil_r.
    split_and!; try constructor; naive_solver lia. }
  rewrite decompose_loop_step by (done || lia). cbv zeta.
  rewrite Nat2Z.inj_succ, Z.pow_succ_r in Ha by lia.
  pose proof (Z.mod_pos_bound a 10 ltac:(lia)). pose proof (Z.pow_pos_nonneg 10 k ltac:(lia) Hk).
  pose proof (split_digit k a Hk) as Esplit. pose proof (next_digit_nonneg k a Hk ltac:(lia)).
  assert (Hpow : 10 ^ (k + 1) = 10 ^ k * 10) by (rewrite Z.pow_add_r by lia; done).
  assert (Hdiv : 0 <= a / 10 < 10 ^ Z.of_nat n)
    by (split; [apply Z.div_pos; lia|apply Z.div_lt_upper_bound; lia]).
  destruct (Z.leb_spec (dust + a mod 10 * 10 ^ k) t) as [Hle|Hgt].
  - destruct (IHn (k + 1) (a / 10) (dust + a mod 10 * 10 ^ k) s) as (dust' & h & chunks & -> & E & Hr);
      [lia|done|nia|nia|unfold fits in *; lia|].
    exists dust', h, chunks. split_and!; [done|lia|apply Hr..].
  - assert (Hdig : a mod 10 <> 0) by (intros E; rewrite E in Hgt; lia).
    rewrite (proj2 (Z.eqb_neq 0 (a mod 10 * _))) by nia. cbn [negb andb orb].
    exists dust, (negb (0 =? dust)), (a mod 10 * 10 ^ k :: digit_chunks n (k + 1) (a / 10)).
    rewrite decompose_loop_chunks; [|lia|lia|lia|nia| |unfold fits in *; lia].
    2: { destruct (Z.eqb_spec 0 dust); [by right|by left]. }
    pose proof (digit_chunks_ge n (k + 1) (a / 10) ltac:(lia)) as Hge.
    split_and!.
    + unfold push_back. destruct (0 =? dust); simpl; by rewrite <- ?app_assoc.
    + simpl. rewrite digit_chunks_sum by lia. lia.
    + lia. + lia.
    + constructor; [|apply digit_chunks_pretty; lia]. exists (a mod 10), k. lia.
    + constructor; [apply digit_chunks_sorted; lia|].
      eapply Forall_impl; [exact Hge|]. simpl. nia.
    + constructor; [lia|]. eapply Forall_impl; [exact Hge|]. simpl. nia.
    + destruct (Z.eqb_spec 0 dust); simpl; naive_solver lia.
Qed.

End DecomposeProofs.

(** What [decompose_amount_into_digits] hands out, in order. *)
Lemma decomposeAmount_spec amount t pre :
  fits 64 amount -> fits 64 t ->
  exists dust chunks,
    decomposeAmount amount t pre = pre ++ (if dust =? 0 then [] else [dust]) ++ chunks /\
    dust + sumZ chunks = amount /\ 0 <= dust <= t /\
    Forall pretty chunks /\ StronglySorted Z.lt chunks /\ Forall (fun c => t < dust + c) chunks.
Proof.
  intros Ha Ht. unfold decomposeAmount, decompose_amount_into_digits.
  destruct (Z.eqb_spec 0 amount) as [<-|Hnz].
  { exists 0, []. unfold fits in Ht. simpl. rewrite app_nil_r. split_and!; (constructor || lia || done). }
  destruct (decompose_loop_spec t 20 0 amount 0 pre) as (dust & h & chunks & E & Hsum & Hd & Hp & Hs & Hf & Hh).
  1-5: unfold fits in *; simpl in *; lia.
  change (u64 (10 ^ 0)) with 1 in E. rewrite E. exists dust, chunks.
  split_and!; [|lia|lia|lia|done|done|done].
  destruct h; cbn [negb andb].
  - rewrite (proj2 (Z.eqb_neq dust 0)) by tauto. done.
  - destruct (Z.eqb_spec 0 dust) as [<-|]; cbn [negb]; [done|].
    assert (chunks = []) as ->.
    { destruct chunks; [done|]. exfalso. assert (false = true) by (apply Hh; split; [lia|done]). done. }
    rewrite (proj2 (Z.eqb_neq dust 0)) by lia. unfold push_back. by rewrite !app_nil_r.
Qed.

(** ** Sums of amounts: the overflow checks are exact *)

Definition input_amount (i : TransactionInput) : Z :=
  match i with InKey i => in_amount i | InBase _ => 0 end.

Definition total_in (tx : TransactionPrefix) : Z := sumZ (map input_amount (inputs tx)).
Definition total_out (tx : TransactionPrefix) : Z := sumZ (map out_amount (outputs tx)).

(** Every amount of the transaction is a [uint64_t]. *)
Definition amounts_ok (tx : TransactionPrefix) : Prop :=
  Forall (fits 64) (map input_amount (inputs tx)) /\ Forall (fits 64) (map out_amount (outputs tx)).

(** The accumulation both checks perform, on a list of amounts. *)
Fixpoint no_overflow (l : list Z) (money : Z) : bool :=
  match l with
  | [] => true
  | a :: l => if u64 (a + money) <? money then false else no_overflow l (u64 (money + a))
  end.

Lemma checkInputsOverflow_eq tx :
  checkInputsOverflow tx = no_overflow (map input_amount (inputs tx)) 0.
Proof.
  unfold checkInputsOverflow. generalize 0 as money.
  induction (inputs tx) as [|i l IH]; intros money; simpl; [done|].
  change (match i with InBase _ => 0 | InKey i0 => in_amount i0 end) with (input_amount i). by rewrite IH.
Qed.

Lemma checkOutsOverflow_eq tx :
  checkOutsOverflow tx = no_overflow (map out_amount (outputs tx)) 0.
Proof.
  unfold checkOutsOverflow. generalize 0 as money.
  induction (outputs tx) as [|o l IH]; intros money; simpl; [done|by rewrite IH].
Qed.

Lemma no_overflow_spec l money :
  Forall (fits 64) l -> fits 64 money -> no_overflow l money = true <-> money + sumZ l < 2 ^ 64.
Proof.
  intros Hl. revert money. induction Hl as [|a l Ha Hl IH]; intros money Hm; cbn [no_overflow].
  { unfold fits in Hm. simpl. lia. }
  assert (0 <= sumZ l).
  { apply sumZ_nonneg. eapply Forall_impl; [exact Hl|]. unfold fits. lia. }
  change (sumZ (a :: l)) with (a + sumZ l). rewrite (Z.add_comm money a).
  pose proof (wrap_add_carry 64 money a ltac:(lia) Hm Ha) as E. rewrite (Z.add_comm money a) in E.
  pose proof (wrap_fits 64 (a + money) ltac:(lia)) as Hw.
  destruct (Z.ltb_spec (u64 (a + money)) money) as [Hlt|Hge].
  - unfold fits in *. split; [done|lia].
  - rewrite IH by done. lia.
Qed.

(** Sums that do not overflow are exact. *)
Lemma fold_u64_exact {A} (f : A -> Z) l acc :
  Forall (fits 64) (map f l) -> 0 <= acc -> acc + sumZ (map f l) < 2 ^ 64 ->
  fold_left (fun s x => u64 (s + f x)) l acc = acc + sumZ (map f l).
Proof.
  revert acc; induction l as [|x l IH]; intros acc Hf Hacc Hs; simpl in *; [lia|].
  apply Forall_cons in Hf as [Hx Hf].
  assert (0 <= sumZ (map f l)).
  { apply sumZ_nonneg. eapply Forall_impl; [exact Hf|]. unfold fits. lia. }
  rewrite wrap_small by (unfold fits in *; lia). rewrite IH by (unfold fits in *; try done; lia). lia.
Qed.

Lemma getInputAmount_fold tx acc :
  fits 64 acc ->
  fold_left (fun amount input =>
    match input with
    | InKey i => u64 (amount + in_amount i)
    | InBase _ => amount
    end) (inputs tx) acc =
  fold_left (fun s x => u64 (s + input_amount x)) (inputs tx) acc.
Proof.
  revert acc. induction (inputs tx) as [|i l IH]; intros acc Hacc; simpl; [done|].
  destruct i; simpl; [rewrite Z.add_0_r, (wrap_small 64 acc) by done; by apply IH|].
  apply IH, wrap_fits. lia.
Qed.

Lemma get_tx_fee_spec (tx : Transaction) :
  amounts_ok tx -> total_in tx < 2 ^ 64 -> total_out tx < 2 ^ 64 ->
  get_tx_fee tx = if total_out tx <=? total_in tx then Some (total_in tx - total_out tx) else None.
Proof.
  intros [Hi Ho] Hti Hto. unfold get_tx_fee. cbv zeta.
  rewrite getInputAmount_fold by (unfold fits; lia).
  rewrite !fold_u64_exact by (assumption || lia).
  change (sumZ (map input_amount (inputs tx))) with (total_in tx).
  change (sumZ (map out_amount (outputs tx))) with (total_out tx). rewrite !Z.add_0_l.
  destruct (Z.leb_spec (total_out tx) (total_in tx)); simpl; [|done]. f_equal. apply wrap_small.
  assert (0 <= total_out tx).
  { apply sumZ_nonneg. eapply Forall_impl; [exact Ho|]. unfold fits. lia. }
  unfold fits. lia.
Qed.

(** ** Output offsets *)

Lemma offsets_rel_abs_loop p l :
  Forall (fits 32) l ->
  absolute_output_offsets_to_relative_loop p (relativeOutputOffsetsToAbsolute_loop p l) = l.
Proof.
  intros Hl. revert p. induction Hl as [|x l Hx Hl IH]; intros p; simpl; [done|]. rewrite IH. f_equal.
  unfold wrap. rewrite Zminus_mod_idemp_l. replace (x + p - p) with x by lia. by apply wrap_small.
Qed.

Lemma offsets_abs_rel_loop p l :
  Forall (fits 32) l ->
  relativeOutputOffsetsToAbsolute_loop p (absolute_output_offsets_to_relative_loop p l) = l.
Proof.
  intros Hl. revert p. induction Hl as [|x l Hx Hl IH]; intros p; simpl; [done|].
  assert (u32 (u32 (x - p) + p) = x) as ->.
  { unfold wrap. rewrite Zplus_mod_idemp_l. replace (x - p + p) with x by lia. by apply wrap_small. }
  by rewrite IH.
Qed.

(** ** Properties *)

(** [getPenalizedAmount] computes the penalty formula exactly: for a 64-bit
    amount and 32-bit sizes with [c <= 2 m] no assertion fails and the result
    is the amount up to the median, and [floor (amount * c * (2 m - c) / m^2)]
    above it, although the product is formed in 128 bits and divided twice. *)
Theorem getPenalizedAmount_correct amount m c :
  fits 64 amount -> fits 32 m -> fits 32 c -> c <= 2 * m ->
  getPenalizedAmount amount m c =
    Ok (if c <=? m then amount else amount * (c * (2 * m - c)) / (m * m)).
Proof. apply getPenalizedAmount_eq. Qed.

Lemma getPenalizedAmount_correct_witness :
  getPenalizedAmount (2 ^ 64 - 1) 100000 150000 = Ok 13835058055282163711.
Proof.
  rewrite (getPenalizedAmount_correct (2 ^ 64 - 1) 100000 150000); unfold fits; [reflexivity|lia..].
Defined.

(** [decomposeAmount] splits an amount into a dust part, at most the
    threshold and omitted when zero, followed by one chunk per remaining
    non-zero decimal digit, in increasing order; every chunk exceeds the
    threshold once the dust is added, and nothing is lost. *)
Theorem decomposeAmount_correct amount t pre :
  fits 64 amount -> fits 64 t ->
  exists dust chunks,
    decomposeAmount amount t pre = pre ++ (if dust =? 0 then [] else [dust]) ++ chunks /\
    dust + sumZ chunks = amount /\ 0 <= dust <= t /\
    Forall pretty chunks /\ StronglySorted Z.lt chunks /\ Forall (fun c => t < dust + c) chunks.
Proof. apply decomposeAmount_spec. Qed.

Lemma decomposeAmount_correct_witness :
  exists dust chunks,
    [455827; 7000000; 80000000; 300000000; 2000000000; 60000000000] =
      [] ++ (if dust =? 0 then [] else [dust]) ++ chunks /\
    dust + sumZ chunks = 62387455827 /\ 0 <= dust <= 500000 /\
    Forall pretty chunks /\ StronglySorted Z.lt chunks /\ Forall (fun c => 500000 < dust + c) chunks.
Proof.
  change [455827; 7000000; 80000000; 300000000; 2000000000; 60000000000]
    with (decomposeAmount 62387455827 500000 []).
  apply (decomposeAmount_correct 62387455827 500000 []); unfold fits; lia.
Defined.

(** The overflow checks are exact, and behind them the fee is exact:
    [checkInputsOverflow] and [checkOutsOverflow] accept a transaction of 64-bit
    amounts exactly when the integer sums stay below [2^64], and then
    [get_tx_fee] is the integer difference of the sums, absent when the outputs
    exceed the inputs. *)
Theorem overflow_checks_exact (tx : Transaction) :
  amounts_ok tx ->
  (checkInputsOverflow tx = true <-> total_in tx < 2 ^ 64) /\
  (checkOutsOverflow tx = true <-> total_out tx < 2 ^ 64) /\
  (checkInputsOverflow tx = true -> checkOutsOverflow tx = true ->
   get_tx_fee tx = if total_out tx <=? total_in tx then Some (total_in tx - total_out tx) else None).
Proof.
  intros Hok. pose proof Hok as [Hi Ho]. rewrite checkInputsOverflow_eq, checkOutsOverflow_eq.
  rewrite !no_overflow_spec by (done || unfold fits; lia).
  split_and!; [done|done|]. intros ? ?. by apply get_tx_fee_spec.
Qed.

Lemma overflow_checks_exact_witness :
  let tx := mkTransaction (mkTransactionPrefix 1 0
    [InKey (mkKeyInput (2 ^ 64 - 1) [] []); InBase (mkBaseInput 7)]
    [mkTransactionOutput 10 (ToKey (mkKeyOutput []))] []) [] in
  get_tx_fee tx = Some (2 ^ 64 - 11).
Proof.
  intros tx. assert (H : amounts_ok tx) by (split; repeat constructor; simpl; lia).
  apply (overflow_checks_exact tx H); reflexivity.
Defined.

(** The two conversions of output offsets are inverse to each other on
    32-bit offsets, wrap-around included. *)
Theorem output_offsets_roundtrip off :
  Forall (fits 32) off ->
  absolute_output_offsets_to_relative (relativeOutputOffsetsToAbsolute off) = off /\
  relativeOutputOffsetsToAbsolute (absolute_output_offsets_to_relative off) = off.
Proof.
  intros H. destruct H as [|x l Hx Hl]; [done|]. simpl.
  rewrite offsets_rel_abs_loop, offsets_abs_rel_loop by done. done.
Qed.

Lemma output_offsets_roundtrip_witness :
  absolute_output_offsets_to_relative (relativeOutputOffsetsToAbsolute [5; 2 ^ 32 - 1; 3]) = [5; 2 ^ 32 - 1; 3].
Proof. apply (output_offsets_roundtrip [5; 2 ^ 32 - 1; 3]). repeat constructor; unfold fits; lia. Defined.

End FormatUtils.
