(* ===== verification/Difficulty.v ===== *)
(** * Difficulty retargeting

    The linearly weighted moving averages of
    [src/src/cryptonotecore/Difficulty.cpp].  The code works on [int64_t]; an
    intermediate value that leaves the type, and a division by zero, are
    undefined behaviour and end the computation with [UndefinedBehaviour]. *)

From S2P Require Import Prelude.
From S2P Require Import Config.
Import Config.parameters.

Module Difficulty.

(** [clamp (n, lower, upper)] of [Difficulty.h]. *)
Definition clamp (n lower upper : Z) : Z := Z.max lower (Z.min n upper).

(** The weighting loop [for (i = 1; i <= N; i++)], which the three versions
    share up to the clamping of a solve time; returns [(L, sum_3_ST)]. *)
Fixpoint lwma_loop (limit : Z -> Z) (timestamps : list Z) (N : Z) (count : nat) (i L sum_3_ST : Z)
  : outcome (Z * Z) :=
  match count with
  | O => Ok (L, sum_3_ST)
  | S count =>
    let! a := vec_at timestamps i in
    let! b := vec_at timestamps (i - 1) in
    let! d := i64_checked (i64_of_u64 a - i64_of_u64 b) in
    let ST := limit d in
    let! w := i64_checked (ST * i) in
    let! L := i64_checked (L + w) in
    let! sum_3_ST := if N - 3 <? i then i64_checked (sum_3_ST + ST) else Ok sum_3_ST in
    lwma_loop limit timestamps N count (i + 1) L sum_3_ST
  end.

(** [next_D] before it is bounded, and [prev_D]. *)
Definition lwma_estimate (cumulativeDifficulties : list Z) (T N L : Z) : outcome (Z * Z) :=
  let! cN := vec_at cumulativeDifficulties N in
  let! c0 := vec_at cumulativeDifficulties 0 in
  let! n1 := i64_checked (i64_of_u64 (u64 (cN - c0)) * T) in
  let! n2 := i64_checked (n1 * (N + 1)) in
  let! n3 := i64_checked (n2 * 99) in
  let! d := i64_checked (100 * 2 * L) in
  let! next_D := i64_div n3 d in
  let! cN1 := vec_at cumulativeDifficulties (N - 1) in
  Ok (next_D, i64_of_u64 (u64 (cN - cN1))).

(** [(prev_D * percent) / 100]. *)
Definition percent_of (prev_D percent : Z) : outcome Z :=
  let! x := i64_checked (prev_D * percent) in
  i64_div x 100.

Definition nextDifficultyV5 (timestamps cumulativeDifficulties : list Z) : outcome Z :=
  let T := DIFFICULTY_TARGET in
  let N := DIFFICULTY_WINDOW_V3 in
  if Z.of_nat (length timestamps) <? N + 1 then Ok 10000
  else
    let! (L, sum_3_ST) :=
      lwma_loop (fun ST => Z.max (-4 * T) (Z.min ST (6 * T))) timestamps N (Z.to_nat N) 1 0 0 in
    let! (next_D, prev_D) := lwma_estimate cumulativeDifficulties T N L in
    let! lower := percent_of prev_D 67 in
    let! upper := percent_of prev_D 150 in
    let next_D := Z.max lower (Z.min next_D upper) in
    if sum_3_ST <? Z.quot (8 * T) 10
    then let! jump := percent_of prev_D 108 in Ok (u64 (Z.max next_D jump))
    else Ok (u64 next_D).

Definition nextDifficultyV4 (timestamps cumulativeDifficulties : list Z) : outcome Z :=
  let T := DIFFICULTY_TARGET in
  let N := DIFFICULTY_WINDOW_V3 in
  if Z.of_nat (length timestamps) <=? N then Ok 1000
  else
    let! (L, sum_3_ST) :=
      lwma_loop (fun ST => clamp (-6 * T) ST (6 * T)) timestamps N (Z.to_nat N) 1 0 0 in
    let! (next_D, prev_D) := lwma_estimate cumulativeDifficulties T N L in
    let! lower := percent_of prev_D 67 in
    let! upper := percent_of prev_D 150 in
    let next_D := Z.max lower (Z.min next_D upper) in
    if sum_3_ST <? Z.quot (8 * T) 10
    then let! jump := percent_of prev_D 110 in Ok (u64 (Z.max next_D jump))
    else Ok (u64 next_D).

Definition nextDifficultyV3 (timestamps cumulativeDifficulties : list Z) : outcome Z :=
  let T := DIFFICULTY_TARGET in
  let N := DIFFICULTY_WINDOW_V3 in
  let FTL := CRYPTONOTE_BLOCK_FUTURE_TIME_LIMIT_V3 in
  if Z.of_nat (length timestamps) <=? N then Ok 1000
  else
    let! (L, sum_3_ST) :=
      lwma_loop (fun ST => Z.max (- FTL) (Z.min ST (6 * T))) timestamps N (Z.to_nat N) 1 0 0 in
    let! (next_D, prev_D) := lwma_estimate cumulativeDifficulties T N L in
    let! lower := percent_of prev_D 70 in
    let! upper := percent_of prev_D 107 in
    let next_D := Z.max lower (Z.min next_D upper) in
    if sum_3_ST <? Z.quot (8 * T) 10
    then let! jump := percent_of prev_D 110 in Ok (u64 jump)
    else Ok (u64 next_D).

(** ** The value the loop computes *)

Section Loop.
Context (limit : Z -> Z) (timestamps : list Z).

(** The solve time of block [i] of the window. *)
Definition solve_time (i : Z) : Z :=
  limit (timestamps !!! Z.to_nat i - timestamps !!! Z.to_nat (i - 1)).

Fixpoint weighted_sum (count : nat) (i : Z) : Z :=
  match count with
  | O => 0
  | S count => solve_time i * i + weighted_sum count (i + 1)
  end.

Fixpoint recent_sum (N : Z) (count : nat) (i : Z) : Z :=
  match count with
  | O => 0
  | S count => (if N - 3 <? i then solve_time i else 0) + recent_sum N count (i + 1)
  end.

Context (B : Z) (HB : 0 <= B <= 2 ^ 32) (Hlimit : forall d, - B <= limit d <= B).
Context (Hts : Forall (fun t => 0 <= t < 2 ^ 62) timestamps).

Lemma timestamp_at i :
  0 <= i < Z.of_nat (length timestamps) ->
  vec_at timestamps i = Ok (timestamps !!! Z.to_nat i) /\ 0 <= timestamps !!! Z.to_nat i < 2 ^ 62.
Proof.
  intros Hi. destruct (lookup_lt_is_Some_2 timestamps (Z.to_nat i)) as [x Hx]; [lia|].
  rewrite (list_lookup_total_correct _ _ _ Hx). split; [apply vec_at_ok; [lia|done]|].
  exact (Forall_lookup_1 _ _ _ _ Hts Hx).
Qed.

Lemma lwma_loop_eq N count : forall i L s,
  1 <= i -> i + Z.of_nat count <= Z.of_nat (length timestamps) -> i + Z.of_nat count <= 1000 ->
  - (B * (i * i)) <= L <= B * (i * i) -> - (B * i) <= s <= B * i ->
  lwma_loop limit timestamps N count i L s =
    Ok (L + weighted_sum count i, s + recent_sum N count i).
Proof.
  induction count as [|count IH]; intros i L s Hi Hlen Hsmall HL Hs; cbn [lwma_loop weighted_sum recent_sum].
  { by rewrite !Z.add_0_r. }
  destruct (timestamp_at i) as [-> Ha]; [lia|]. destruct (timestamp_at (i - 1)) as [-> Hb]; [lia|].
  cbn [obind]. unfold i64_of_u64. rewrite !(proj2 (Z.ltb_lt _ _)) by lia.
  rewrite i64_checked_ok by (unfold i64_min, i64_max; lia). cbn [obind].
  change (limit (timestamps !!! Z.to_nat i - timestamps !!! Z.to_nat (i - 1))) with (solve_time i).
  assert (Hst : - B <= solve_time i <= B) by apply Hlimit.
  assert (B * (i * i) <= 2 ^ 32 * 1000000) by nia. assert (B * i <= 2 ^ 32 * 1000) by nia.
  assert (- (B * i) <= solve_time i * i <= B * i) by nia.
  rewrite i64_checked_ok by (unfold i64_min, i64_max; lia). cbn [obind].
  rewrite i64_checked_ok by (unfold i64_min, i64_max; lia). cbn [obind].
  destruct (Z.ltb_spec (N - 3) i).
  - rewrite i64_checked_ok by (unfold i64_min, i64_max; lia). cbn [obind].
    rewrite IH by nia. do 2 f_equal; lia.
  - cbn [obind]. rewrite IH by nia. do 2 f_equal; lia.
Qed.

Lemma weighted_sum_bound count : forall i,
  1 <= i -> i + Z.of_nat count <= 1000 -> Z.abs (weighted_sum count i) <= B * 1000 * Z.of_nat count.
Proof.
  induction count as [|count IH]; intros i Hi Hle; cbn [weighted_sum]; [lia|].
  specialize (IH (i + 1) ltac:(lia) ltac:(lia)).
  assert (Hst : - B <= solve_time i <= B) by apply Hlimit.
  assert (- (B * 1000) <= solve_time i * i <= B * 1000) by nia. lia.
Qed.

Lemma weighted_sum_const count c : forall i,
  (forall j, i <= j < i + Z.of_nat count -> solve_time j = c) ->
  2 * weighted_sum count i = c * (Z.of_nat count * (2 * i + Z.of_nat count - 1)).
Proof.
  induction count as [|count IH]; intros i Hc; cbn [weighted_sum]; [lia|].
  rewrite Z.mul_add_distr_l, IH by (intros; apply Hc; lia). rewrite Hc by lia. lia.
Qed.

Lemma recent_sum_const count c N : forall i,
  (forall j, i <= j < i + Z.of_nat count -> solve_time j = c) -> i + Z.of_nat count = N + 1 ->
  (3 <= count)%nat -> recent_sum N count i = 3 * c.
Proof.
  induction count as [|count IH]; intros i Hc HN H3; [lia|]. cbn [recent_sum].
  destruct (decide (3 <= count)%nat).
  - rewrite IH by (lia || (intros; apply Hc; lia)). rewrite (proj2 (Z.ltb_ge _ _)) by lia. lia.
  - destruct count as [|[|[|count]]]; [lia..| |lia]. cbn [recent_sum].
    rewrite !(proj2 (Z.ltb_lt _ _)) by lia. rewrite !Hc by lia. lia.
Qed.

End Loop.

(** ** The estimate and its bounds *)

(** The window of cumulative difficulties a chain of at most [2^44] total work
    per window provides: the work of the last block is non-negative and at most
    that of the window. *)
Definition window_ok (cd : list Z) : Prop :=
  (61 <= length cd)%nat /\ Forall (fits 64) cd /\
  0 <= cd !!! 60%nat - cd !!! 59%nat <= cd !!! 60%nat - cd !!! 0%nat /\
  cd !!! 60%nat - cd !!! 0%nat <= 2 ^ 44.

Definition window_work (cd : list Z) : Z := cd !!! 60%nat - cd !!! 0%nat.
Definition last_work (cd : list Z) : Z := cd !!! 60%nat - cd !!! 59%nat.

Lemma work_at (cd : list Z) i : (i < length cd)%nat -> vec_at cd (Z.of_nat i) = Ok (cd !!! i).
Proof.
  intros Hi. destruct (lookup_lt_is_Some_2 cd i Hi) as [x Hx].
  rewrite (list_lookup_total_correct _ _ _ Hx). apply vec_at_ok; [lia|]. by rewrite Nat2Z.id.
Qed.

Lemma lwma_estimate_eq cd L :
  window_ok cd -> - 2 ^ 50 <= L <= 2 ^ 50 ->
  lwma_estimate cd 60 60 L =
    if L =? 0 then Err (UndefinedBehaviour "division by zero")
    else Ok (Z.quot (window_work cd * 362340) (200 * L), last_work cd).
Proof.
  intros (Hlen & Hf & Hp & Hw) HL. unfold lwma_estimate, window_work, last_work in *.
  pose proof (work_at cd 60 ltac:(lia)) as E60. pose proof (work_at cd 0 ltac:(lia)) as E0.
  pose proof (work_at cd 59 ltac:(lia)) as E59.
  change (Z.of_nat 60) with 60 in E60. change (Z.of_nat 0) with 0 in E0. change (Z.of_nat 59) with (60 - 1) in E59.
  rewrite E60, E0. cbn [obind]. rewrite E59. cbn [obind].
  set (w := cd !!! 60%nat - cd !!! 0%nat) in *. set (p := cd !!! 60%nat - cd !!! 59%nat) in *.
  rewrite !wrap_small by (unfold fits; lia). unfold i64_of_u64. rewrite !(proj2 (Z.ltb_lt _ _)) by lia.
  rewrite i64_checked_ok by (unfold i64_min, i64_max; lia). cbn [obind].
  rewrite i64_checked_ok by (unfold i64_min, i64_max; lia). cbn [obind].
  rewrite i64_checked_ok by (unfold i64_min, i64_max; lia). cbn [obind].
  rewrite i64_checked_ok by (unfold i64_min, i64_max; lia). cbn [obind].
  replace (w * 60 * (60 + 1) * 99) with (w * 362340) by lia.
  change (100 * 2 * L) with (200 * L).
  destruct (Z.eqb_spec L 0) as [->|HL0]; [done|].
  rewrite i64_div_ok by (unfold i64_min, i64_max; lia). done.
Qed.

Lemma percent_of_eq p k : 0 <= p <= 2 ^ 44 -> 0 <= k <= 200 -> percent_of p k = Ok (p * k / 100).
Proof.
  intros Hp Hk. unfold percent_of. rewrite i64_checked_ok by (unfold i64_min, i64_max; nia). cbn [obind].
  rewrite i64_div_ok by (unfold i64_min, i64_max; nia). by rewrite Z.quot_div_nonneg by nia.
Qed.

Lemma wrap_percent p k : 0 <= p <= 2 ^ 44 -> 0 <= k <= 200 -> fits 64 (p * k / 100).
Proof.
  intros Hp Hk. split; [apply Z.div_pos; nia|]. apply Z.div_lt_upper_bound; nia.
Qed.

Definition limitV5 (ST : Z) : Z := Z.max (-4 * DIFFICULTY_TARGET) (Z.min ST (6 * DIFFICULTY_TARGET)).

Lemma percent_le p k k' : 0 <= p -> 0 <= k <= k' -> p * k / 100 <= p * k' / 100.
Proof. intros. apply Z.div_le_mono; nia. Qed.

Lemma nextDifficultyV5_eq ts cd :
  Forall (fun t => 0 <= t < 2 ^ 62) ts -> (61 <= length ts)%nat -> window_ok cd ->
  let L := weighted_sum limitV5 ts 60 1 in
  let p := last_work cd in
  nextDifficultyV5 ts cd =
    if L =? 0 then Err (UndefinedBehaviour "division by zero")
    else
      let d := Z.max (p * 67 / 100)
                 (Z.min (Z.quot (window_work cd * 362340) (200 * L)) (p * 150 / 100)) in
      Ok (if recent_sum limitV5 ts 60 60 1 <? 48 then Z.max d (p * 108 / 100) else d).
Proof.
  intros Hts Hlen Hcd L p. unfold nextDifficultyV5. cbv zeta.
  assert (Hlim : forall d, - 360 <= limitV5 d <= 360)
    by (intros d; unfold limitV5, DIFFICULTY_TARGET; lia).
  change DIFFICULTY_WINDOW_V3 with 60. change (Z.to_nat 60) with 60%nat.
  rewrite (proj2 (Z.ltb_ge _ _)) by lia. fold limitV5.
  change (fun ST => Z.max (-4 * DIFFICULTY_TARGET) (Z.min ST (6 * DIFFICULTY_TARGET))) with limitV5.
  rewrite (lwma_loop_eq limitV5 ts 360 ltac:(lia) Hlim Hts 60 60) by lia.
  cbn [obind]. rewrite !Z.add_0_l. fold L.
  pose proof (weighted_sum_bound limitV5 ts 360 ltac:(lia) Hlim 60 1 ltac:(lia) ltac:(lia)) as HL. fold L in HL.
  change DIFFICULTY_TARGET with 60.
  rewrite lwma_estimate_eq by (done || lia). destruct (L =? 0); [done|]. cbn [obind]. fold p.
  assert (Hp : 0 <= p <= 2 ^ 44) by (destruct Hcd as (_ & _ & ? & ?); unfold p, last_work; lia).
  rewrite !percent_of_eq by lia. cbn [obind]. change (Z.quot (8 * 60) 10) with 48.
  pose proof (wrap_percent p 67 Hp ltac:(lia)). pose proof (wrap_percent p 150 Hp ltac:(lia)).
  pose proof (wrap_percent p 108 Hp ltac:(lia)).
  destruct (recent_sum limitV5 ts 60 60 1 <? 48); rewrite wrap_small by (unfold fits in *; lia); done.
Qed.

(** [nextDifficultyV4] passes the solve time as the lower bound of [clamp]: its
    solve times are limited from below only. *)
Lemma clampV4_no_upper_limit ST : clamp (-6 * DIFFICULTY_TARGET) ST (6 * DIFFICULTY_TARGET) = Z.max ST (-360).
Proof. unfold clamp, DIFFICULTY_TARGET. lia. Qed.

(** A window whose entries grow by [step]. *)
Definition linear (start step : Z) : list Z := map (fun i => start + step * Z.of_nat i) (seq 0 61).

Lemma linear_at start step i : (i < 61)%nat -> linear start step !!! i = start + step * Z.of_nat i.
Proof.
  intros Hi. apply list_lookup_total_correct. unfold linear.
  by rewrite list_lookup_fmap, lookup_seq_lt.
Qed.

Lemma linear_range start step M :
  0 <= start -> 0 <= step -> start + step * 60 < M -> Forall (fun t => 0 <= t < M) (linear start step).
Proof.
  intros Hs Hp HM. apply Forall_forall. intros x Hx.
  apply list_elem_of_In, in_map_iff in Hx as (i & <- & Hi). apply in_seq in Hi. nia.
Qed.

Lemma linear_window_ok start step :
  0 <= start <= 2 ^ 62 -> 0 <= step <= 2 ^ 36 -> window_ok (linear start step).
Proof.
  intros Hs Hp. unfold window_ok. rewrite !linear_at by lia.
  split_and!; [by vm_compute| |lia..]. apply linear_range; lia.
Qed.

(** ** Properties *)

(** C33. [nextDifficultyV5] on a full window of timestamps below [2^62] and of
    cumulative difficulties with at most [2^44] work.  When the weighted sum of
    solve times is zero (all timestamps equal, for instance) it divides by zero.
    Otherwise it returns the weighted average where that lies between 67 and 150
    percent of the last difficulty, and the nearer of the two bounds where it does
    not; when the last three blocks took less than 48 seconds the lower bound is
    108 percent. *)
Theorem nextDifficultyV5_correct ts cd :
  Forall (fun t => 0 <= t < 2 ^ 62) ts -> (61 <= length ts)%nat -> window_ok cd ->
  let L := weighted_sum limitV5 ts 60 1 in
  let average := Z.quot (window_work cd * (60 * 61 * 99)) (100 * 2 * L) in
  let lower := last_work cd * (if recent_sum limitV5 ts 60 60 1 <? 48 then 108 else 67) / 100 in
  let upper := last_work cd * 150 / 100 in
  (L = 0 -> nextDifficultyV5 ts cd = Err (UndefinedBehaviour "division by zero")) /\
  (L <> 0 -> exists d, nextDifficultyV5 ts cd = Ok d /\
    (average <= lower -> d = lower) /\ (lower <= average <= upper -> d = average) /\ (upper <= average -> d = upper)).
Proof.
  intros Hts Hlen Hcd L average lower upper. rewrite nextDifficultyV5_eq by done. fold L.
  change (Z.quot (window_work cd * 362340) (200 * L)) with average.
  assert (Hp : 0 <= last_work cd) by (destruct Hcd as (_ & _ & ? & ?); unfold last_work; lia).
  pose proof (percent_le (last_work cd) 67 108 Hp ltac:(lia)). pose proof (percent_le (last_work cd) 108 150 Hp ltac:(lia)).
  split; intros HL; [by rewrite HL|]. rewrite (proj2 (Z.eqb_neq _ _)) by done. cbv zeta. eexists. split; [done|].
  unfold lower, upper. destruct (recent_sum limitV5 ts 60 60 1 <? 48); lia.
Qed.

(** Blocks every 30 seconds at difficulty 1000: the average is above 150 percent. *)
Lemma nextDifficultyV5_correct_witness : nextDifficultyV5 (linear 1600000000 30) (linear (10 ^ 12) 1000) = Ok 1500.
Proof.
  destruct (nextDifficultyV5_correct (linear 1600000000 30) (linear (10 ^ 12) 1000)) as [_ H].
  - apply linear_range; lia.
  - vm_compute. lia.
  - apply linear_window_ok; lia.
  - destruct H as (d & -> & _ & _ & Hd); [vm_compute; discriminate|]. rewrite Hd; [reflexivity|vm_compute; discriminate].
Defined.

(** At a steady state, blocks exactly on the 60 second target with constant
    difficulty [D], [nextDifficultyV5] returns [floor (99 D / 100)]. *)
Theorem nextDifficultyV5_steady t0 c0 D :
  0 <= t0 <= 2 ^ 40 -> 0 <= c0 <= 2 ^ 62 -> 0 <= D <= 2 ^ 36 ->
  nextDifficultyV5 (linear t0 60) (linear c0 D) = Ok (D * 99 / 100).
Proof.
  intros Ht Hc HD. set (ts := linear t0 60). set (cd := linear c0 D).
  assert (Hst : forall j, 1 <= j < 1 + Z.of_nat 60 -> solve_time limitV5 ts j = 60).
  { intros j Hj. unfold solve_time, ts. rewrite !linear_at, !Z2Nat.id by lia.
    unfold limitV5, DIFFICULTY_TARGET. lia. }
  pose proof (weighted_sum_const limitV5 ts 60 60 1 Hst) as HL.
  pose proof (recent_sum_const limitV5 ts 60 60 60 1 Hst ltac:(lia) ltac:(lia)) as HR.
  rewrite nextDifficultyV5_eq.
  - unfold last_work, window_work, cd. rewrite !linear_at by lia. rewrite HR.
    change (Z.of_nat 60) with 60. change (Z.of_nat 59) with 59. change (Z.of_nat 0) with 0.
    assert (weighted_sum limitV5 ts 60 1 = 109800) as -> by lia. change (109800 =? 0) with false.
    change (3 * 60 <? 48) with false. cbv iota zeta. f_equal.
    replace ((c0 + D * 60 - (c0 + D * 0)) * 362340) with (D * 99 * 219600) by lia.
    replace (200 * 109800) with (100 * 219600) by lia.
    rewrite Z.quot_div_nonneg, Z.div_mul_cancel_r by lia.
    replace (c0 + D * 60 - (c0 + D * 59)) with D by lia.
    pose proof (percent_le D 67 99 ltac:(lia) ltac:(lia)). pose proof (percent_le D 99 150 ltac:(lia) ltac:(lia)). lia.
  - apply linear_range; lia.
  - by vm_compute.
  - apply linear_window_ok; lia.
Qed.

End Difficulty.
