(* ===== verification/Serialization.v ===== *)
(** * Binary serialization

    The binary serializers of
    [src/src/serialization/BinaryInputStreamSerializer.cpp] and
    [BinaryOutputStreamSerializer.cpp], and the [serialize] functions of
    [CryptoNoteSerialization.cpp] for transactions.

    The code has one [serialize(value, serializer)] per type for both
    directions; so has the model: a serializer is a [stream], an input to read
    from or an output that grows, and [ser A] takes the value and the stream to
    the value afterwards and the stream afterwards.  Reading assigns the value,
    writing leaves it. *)

From S2P Require Import Prelude.
From S2P Require Import Varint.
From S2P Require Import Config.
From S2P Require Import Types.
Import Varint.StreamTools Config.parameters Types.Types.

Module Serialization.

(** [In l]: [l] is what is left to read; [Out l]: [l] is what was written. *)
Inductive stream :=
| In (l : list Z)
| Out (l : list Z).

Definition ser (A : Type) := A -> stream -> outcome (A * stream).

Definition is_input (s : stream) : bool :=
  match s with In _ => true | Out _ => false end.

(** ** The serializer's operations *)

(** [operator()] for a [w]-bit unsigned integer. *)
Definition ser_uint (w : Z) : ser Z := fun value s =>
  match s with
  | In l => let! (value, l) := readVarint w l in Ok (value, In l)
  | Out l => Ok (value, Out (writeVarint value l))
  end.

Definition ser_bool : ser bool := fun value s =>
  match s with
  | In l => let! (x, l) := read_uint 8 l in Ok (negb (x =? 0), In l)
  | Out l => Ok (value, Out (write [if value : bool then 1 else 0] l))
  end.

(** [binary(value, size, name)]. *)
Definition ser_binary (size : Z) : ser (list Z) := fun value s =>
  match s with
  | In l => let! (data, l) := read size l in Ok (data, In l)
  | Out l => Ok (value, Out (write value l))
  end.

(** [operator()] for a [std::string].  A merge mining tag longer than
    [MAX_EXTRA_SIZE] is read, a byte at a time, and dropped. *)
Definition ser_string (name : string) : ser (list Z) := fun value s =>
  match s with
  | In l =>
    let! (size, l) := readVarint 64 l in
    if (MAX_EXTRA_SIZE <? size) && (name =? "mm_tag")%string
    then let! (_, l) := read size l in Ok ([], In l)
    else if 0 <? size then let! (data, l) := read size l in Ok (data, In l)
    else Ok ([], In l)
  | Out l => Ok (value, Out (write value (writeVarint (Z.of_nat (length value)) l)))
  end.

Definition beginArray : ser Z := ser_uint 64.

(** [std::vector::resize]. *)
Definition resize {A} (n : nat) (d : A) (l : list A) : list A := take n l ++ repeat d (n - length l).

(** A pass over the items of a container. *)
Fixpoint ser_items {A} (f : ser A) (items : list A) (s : stream) : outcome (list A * stream) :=
  match items with
  | [] => Ok ([], s)
  | a :: items =>
    let! (a, s) := f a s in
    let! (items, s) := ser_items f items s in
    Ok (a :: items, s)
  end.

(** [serializeContainer].  On input the container is resized to the size read;
    the pass over it fails at the end of the stream, so the model resizes to at
    most one item more than there are bytes left. *)
Definition serializeContainer {A} (d : A) (f : ser A) : ser (list A) := fun value s =>
  let! (size, s) := beginArray (Z.of_nat (length value)) s in
  match s with
  | In l =>
    let count := Z.to_nat (Z.min size (Z.of_nat (length l) + 1)) in
    let! (value, s) := ser_items f (resize count d value) s in
    if Z.of_nat count <? size then Err OutOfFuel else Ok (value, s)
  | Out _ => ser_items f value s
  end.

(** ** [CryptoNoteSerialization.cpp] *)

Definition zeros (n : nat) : list Z := repeat 0 n.

(** [serializePod]. *)
Definition serializePod (size : Z) : ser (list Z) := ser_binary size.

Definition ser_PublicKey : ser PublicKey := serializePod 32.
Definition ser_Hash : ser Hash := serializePod 32.
Definition ser_KeyImage : ser KeyImage := serializePod 32.
Definition ser_Signature : ser Signature := serializePod 64.

Definition serializeVarintVector : ser (list Z) := serializeContainer 0 (ser_uint 32).

(** [serializeAsBinary] for a vector of bytes. *)
Definition serializeAsBinary (name : string) : ser (list Z) := fun value s =>
  match s with
  | In _ => let! (blob, s) := ser_string name [] s in Ok (blob, s)
  | Out _ => let! (_, s) := ser_string name value s in Ok (value, s)
  end.

Definition getSignaturesCount (input : TransactionInput) : nat :=
  match input with
  | InBase _ => 0
  | InKey i => length (outputIndexes i)
  end.

Definition ser_BaseInput : ser BaseInput := fun gen s =>
  let! (h, s) := ser_uint 32 (blockIndex gen) s in
  Ok (mkBaseInput h, s).

Definition ser_KeyInput : ser KeyInput := fun key s =>
  let! (a, s) := ser_uint 64 (in_amount key) s in
  let! (o, s) := serializeVarintVector (outputIndexes key) s in
  let! (k, s) := ser_KeyImage (keyImage key) s in
  Ok (mkKeyInput a o k, s).

Definition ser_KeyOutput : ser KeyOutput := fun out s =>
  let! (k, s) := ser_PublicKey (key out) s in
  Ok (mkKeyOutput k, s).

(** [BinaryVariantTagGetter]. *)
Definition input_tag (input : TransactionInput) : Z :=
  match input with
  | InBase _ => 0xff
  | InKey _ => 0x2
  end.

Definition target_tag (t : TransactionOutputTarget) : Z :=
  match t with
  | ToKey _ => 0x2
  end.

(** [getVariantValue]: a fresh value of the type the tag names. *)
Definition getVariantValue_input (tag : Z) (s : stream) : outcome (TransactionInput * stream) :=
  if tag =? 0xff then let! (v, s) := ser_BaseInput (mkBaseInput 0) s in Ok (InBase v, s)
  else if tag =? 0x2 then let! (v, s) := ser_KeyInput (mkKeyInput 0 [] (zeros 32)) s in Ok (InKey v, s)
  else Err (RuntimeError "Unknown variant tag").

Definition getVariantValue_target (tag : Z) (s : stream) : outcome (TransactionOutputTarget * stream) :=
  if tag =? 0x2 then let! (v, s) := ser_KeyOutput (mkKeyOutput (zeros 32)) s in Ok (ToKey v, s)
  else Err (RuntimeError "Unknown variant tag").

Definition ser_TransactionInput : ser TransactionInput := fun input s =>
  match s with
  | Out _ =>
    let! (_, s) := ser_binary 1 [input_tag input] s in
    match input with
    | InBase v => let! (v, s) := ser_BaseInput v s in Ok (InBase v, s)
    | InKey v => let! (v, s) := ser_KeyInput v s in Ok (InKey v, s)
    end
  | In _ =>
    let! (tag, s) := ser_binary 1 [0] s in
    getVariantValue_input (le_to_Z tag) s
  end.

Definition ser_TransactionOutputTarget : ser TransactionOutputTarget := fun output s =>
  match s with
  | Out _ =>
    let! (_, s) := ser_binary 1 [target_tag output] s in
    match output with
    | ToKey v => let! (v, s) := ser_KeyOutput v s in Ok (ToKey v, s)
    end
  | In _ =>
    let! (tag, s) := ser_binary 1 [0] s in
    getVariantValue_target (le_to_Z tag) s
  end.

Definition ser_TransactionOutput : ser TransactionOutput := fun output s =>
  let! (a, s) := ser_uint 64 (out_amount output) s in
  let! (t, s) := ser_TransactionOutputTarget (target output) s in
  Ok (mkTransactionOutput a t, s).

Definition default_input : TransactionInput := InBase (mkBaseInput 0).
Definition default_output : TransactionOutput := mkTransactionOutput 0 (ToKey (mkKeyOutput (zeros 32))).

Definition ser_TransactionPrefix : ser TransactionPrefix := fun txP s =>
  let! (version, s) := ser_uint 8 (version txP) s in
  if (CURRENT_TRANSACTION_VERSION <? version) && is_input s
  then Err (RuntimeError "Wrong transaction version")
  else
    let! (unlockTime, s) := ser_uint 64 (unlockTime txP) s in
    let! (inputs, s) := serializeContainer default_input ser_TransactionInput (inputs txP) s in
    let! (outputs, s) := serializeContainer default_output ser_TransactionOutput (outputs txP) s in
    let! (extra, s) := serializeAsBinary "extra" (extra txP) s in
    Ok (mkTransactionPrefix version unlockTime inputs outputs extra, s).

Definition ser_BaseTransaction : ser BaseTransaction := fun tx s =>
  let! (version, s) := ser_uint 8 (version tx) s in
  let! (unlockTime, s) := ser_uint 64 (unlockTime tx) s in
  let! (inputs, s) := serializeContainer default_input ser_TransactionInput (inputs tx) s in
  let! (outputs, s) := serializeContainer default_output ser_TransactionOutput (outputs tx) s in
  let! (extra, s) := serializeAsBinary "extra" (extra tx) s in
  let! s := if TRANSACTION_VERSION_2 <=? version
            then let! (_, s) := ser_uint 64 0 s in Ok s
            else Ok s in
  Ok (mkBaseTransaction (mkTransactionPrefix version unlockTime inputs outputs extra), s).

(** The loop over the inputs and their signatures in [serialize(Transaction)]. *)
Fixpoint ser_signatures (signaturesNotExpected : bool) (ins : list TransactionInput)
    (sigs : list (list Signature)) (s : stream) : outcome (list (list Signature) * stream) :=
  match ins with
  | [] => Ok (sigs, s)
  | i :: ins =>
    let signatureSize := getSignaturesCount i in
    if signaturesNotExpected then
      if (signatureSize =? 0)%nat then ser_signatures signaturesNotExpected ins sigs s
      else Err (RuntimeError "Serialization error: signatures are not expected")
    else
      match sigs with
      | [] => Err (UndefinedBehaviour "index out of range")
      | sig :: sigs =>
        let! (sig, s) :=
          match s with
          | Out _ =>
            if negb (signatureSize =? length sig)%nat
            then Err (RuntimeError "Serialization error: unexpected signatures size")
            else ser_items ser_Signature sig s
          | In _ => ser_items ser_Signature (repeat (zeros 64) signatureSize) s
          end in
        let! (sigs, s) := ser_signatures signaturesNotExpected ins sigs s in
        Ok (sig :: sigs, s)
      end
  end.

(** [sigSize == 1 && inputs[0].type() == typeid(BaseInput)]. *)
Definition is_base_transaction (ins : list TransactionInput) : bool :=
  match ins with
  | [InBase _] => true
  | _ => false
  end.

Definition is_empty {A} (l : list A) : bool := match l with [] => true | _ => false end.

Definition ser_Transaction : ser Transaction := fun tx s =>
  let! (p, s) := ser_TransactionPrefix (tx_prefix tx) s in
  let sigSize := length (inputs p) in
  let signatures :=
    if is_input s && negb (is_base_transaction (inputs p))
    then resize sigSize [] (signatures tx) else signatures tx in
  let signaturesNotExpected := is_empty signatures in
  if negb signaturesNotExpected && negb (length (inputs p) =? length signatures)%nat
  then Err (RuntimeError "Serialization error: unexpected signatures size")
  else
    let! (signatures, s) := ser_signatures signaturesNotExpected (inputs p) signatures s in
    Ok (mkTransaction p signatures, s).

Definition ser_AccountPublicAddress : ser AccountPublicAddress := fun address s =>
  let! (a, s) := ser_PublicKey (spendPublicKey address) s in
  let! (b, s) := ser_PublicKey (viewPublicKey address) s in
  Ok (mkAccountPublicAddress a b, s).

Definition ser_KeyPair : ser KeyPair := fun keyPair s =>
  let! (a, s) := serializePod 32 (secretKey keyPair) s in
  let! (b, s) := serializePod 32 (publicKey keyPair) s in
  Ok (mkKeyPair b a, s).

(** [serializeBlockHeight] of [SerializationOverloads.cpp]. *)
Definition serializeBlockHeight : ser Z := fun blockHeight s =>
  match s with
  | In _ =>
    let! (height, s) := ser_uint 64 0 s in
    if height =? 2 ^ 64 - 1 then Ok (2 ^ 32 - 1, s)
    else if (2 ^ 32 - 1 <? height) && (height <? 2 ^ 64 - 1)
    then Err (RuntimeError "Deserialization error: wrong value")
    else Ok (u32 height, s)
  | Out _ => ser_uint 32 blockHeight s
  end.

(** ** [SerializationTools.h] *)

Definition toBinaryArray {A} (f : ser A) (object : A) : outcome (list Z) :=
  let! (_, s) := f object (Out []) in
  match s with
  | Out ba => Ok ba
  | In _ => Ok []
  end.

(** The overload that returns [false] on an exception. *)
Definition toBinaryArray_opt {A} (f : ser A) (object : A) : option (list Z) :=
  match toBinaryArray f object with
  | Ok ba => Some ba
  | Err _ => None
  end.

(** [d] is the value-initialised object. *)
Definition fromBinaryArray {A} (f : ser A) (d : A) (binaryArray : list Z) : outcome A :=
  let! (object, s) := f d (In binaryArray) in
  match s with
  | In l =>
    if MemoryInputStream_endOfStream l then Ok object
    else Err (RuntimeError "failed to unpack type")
  | Out _ => Ok object
  end.

Definition fromBinaryArray_opt {A} (f : ser A) (d : A) (binaryArray : list Z) : option A :=
  match fromBinaryArray f d binaryArray with
  | Ok object => Some object
  | Err _ => None
  end.

(** [getObjectBinarySize]: the largest [size_t] when the object cannot be
    written. *)
Definition getObjectBinarySize {A} (f : ser A) (object : A) : Z :=
  match toBinaryArray_opt f object with
  | Some ba => Z.of_nat (length ba)
  | None => 2 ^ 64 - 1
  end.

Definition default_transaction : Transaction :=
  mkTransaction (mkTransactionPrefix 0 0 [] [] []) [].

End Serialization.
