(* ===== verification/SerializationProofs.v ===== *)
(** * Serialization: round trip and canonicity

    [Codec f valid fresh] is the contract of a [serialize] function: a [valid]
    value is written as bytes from which a reader that starts from any [fresh]
    value recovers it and stops behind them; and whatever a reader accepts is a
    valid value that is written as exactly the bytes consumed; and a reader that
    rejects its input does so by an exception.  Instances for the primitive
    operations and combinators for records, containers and
    variants give the contract of the transaction types. *)

From S2P Require Import Prelude.
From S2P Require Import Varint.
From S2P Require Import Config.
From S2P Require Import Types.
From S2P Require Import Serialization.
Import Varint.Varint Varint.StreamTools Config.parameters Types.Types Serialization.Serialization.

(** Takes apart a chain of [let!] that ended in [Ok]. *)
Ltac ok_inv :=
  repeat match goal with
  | H : obind _ _ = Ok _ |- _ => apply obind_Ok in H as (? & ? & H)
  | H : Ok _ = Ok _ |- _ => injection H as H; subst
  | H : (_, _) = (_, _) |- _ => injection H as ? ?; subst
  | p : _ * _ |- _ => destruct p
  | H : Err _ = Ok _ |- _ => discriminate H
  end.

Class Codec {A} (f : ser A) (valid fresh : A -> Prop) : Prop := {
  codec_write a : valid a ->
    exists bs, bytes_ok bs /\ (forall pre, f a (Out pre) = Ok (a, Out (pre ++ bs))) /\
      forall a0 rest, fresh a0 -> bytes_ok rest -> f a0 (In (bs ++ rest)) = Ok (a, In rest);
  codec_read a0 l a s : fresh a0 -> bytes_ok l -> f a0 (In l) = Ok (a, s) ->
    valid a /\ exists bs rest, s = In rest /\ l = bs ++ rest /\
      forall pre, f a (Out pre) = Ok (a, Out (pre ++ bs));
  codec_error a0 l e : fresh a0 -> bytes_ok l -> f a0 (In l) = Err e ->
    exists what, e = RuntimeError what
}.

(** A valid value takes at least one byte. *)
Class NonEmptyCodec {A} (f : ser A) (valid : A -> Prop) : Prop :=
  codec_nonempty a bs : valid a -> f a (Out []) = Ok (a, Out bs) -> bs <> [].

Definition any {A} (_ : A) : Prop := True.

Lemma codec_ext {A} (f g : ser A) valid valid' fresh fresh' :
  (forall a s, f a s = g a s) -> (forall a, valid a <-> valid' a) -> (forall a, fresh' a -> fresh a) ->
  Codec f valid fresh -> Codec g valid' fresh'.
Proof.
  intros Hfg Hv Hfr [Hw Hr He]. split.
  - intros a Ha. apply Hv, Hw in Ha as (bs & Hb & H1 & H2). exists bs. split; [done|]. split.
    + intros pre. by rewrite <- Hfg.
    + intros a0 rest H0 ?. rewrite <- Hfg. by apply H2; [apply Hfr|].
  - intros a0 l a s H0 Hl H. rewrite <- Hfg in H. apply Hr in H as (Ha & bs & rest & ? & ? & H); [|auto..].
    split; [by apply Hv|]. exists bs, rest. split_and!; [done..|]. intros pre. by rewrite <- Hfg.
  - intros a0 l e H0 Hl H. rewrite <- Hfg in H. eauto.
Qed.

(** ** Primitive operations *)

(** Takes apart a chain of [let!] that ended in [Err]. *)
Ltac err_inv :=
  repeat match goal with
  | H : obind _ _ = Err _ |- _ => apply obind_Err in H as [H|(? & ? & H)]
  | p : _ * _ |- _ => destruct p
  | H : Ok _ = Err _ |- _ => discriminate H
  | H : Err _ = Err _ |- _ => injection H as H; subst
  end.

Lemma readVarint_error w l e : 8 <= w <= 64 -> bytes_ok l -> readVarint w l = Err e -> exists what, e = RuntimeError what.
Proof.
  intros Hw Hl H. pose proof (read_varint_agrees w l Hw Hl) as Ha. rewrite H in Ha. destruct e; eauto; done.
Qed.

Lemma read_error n l e : 0 <= n -> read n l = Err e -> exists what, e = RuntimeError what.
Proof. intros Hn. rewrite read_spec by done. case_if; [done|]. intros [= <-]. eauto. Qed.

#[export] Instance codec_uint w : 8 <= w <= 64 -> Codec (ser_uint w) (fits w) any.
Proof.
  intros Hw. split.
  - intros v Hv. assert (fits 64 v) by (apply (fits_mono w); [lia|done]).
    exists (write_varint v). split_and!; [by apply write_varint_bytes| |].
    + intros pre. cbn [ser_uint ser_binary ser_string]. by rewrite writeVarint_eq by (unfold fits in *; lia).
    + intros v0 rest _ Hr. cbn [ser_uint ser_binary ser_string]. rewrite readVarint_encode by done. done.
  - intros v0 l v s _ Hl H. cbn [ser_uint ser_binary ser_string] in H. ok_inv.
    match goal with H : readVarint _ _ = Ok _ |- _ => apply readVarint_inverse in H as [Hv ->]; [|done..] end.
    split; [done|]. eexists _, _; split_and!; [done..|]. intros pre. cbn [ser_uint].
    by rewrite writeVarint_eq by (unfold fits in *; lia).
  - intros v0 l e _ Hl H. cbn [ser_uint] in H. err_inv. eauto using readVarint_error.
Qed.

Lemma ser_uint_out w v pre : fits 64 v -> ser_uint w v (Out pre) = Ok (v, Out (pre ++ write_varint v)).
Proof. intros Hv. cbn [ser_uint ser_binary ser_string]. by rewrite writeVarint_eq by (unfold fits in *; lia). Qed.

#[export] Instance nonempty_uint w : 8 <= w <= 64 -> NonEmptyCodec (ser_uint w) (fits w).
Proof.
  intros Hw v bs Hv H. assert (fits 64 v) by (apply (fits_mono w); [lia|done]).
  rewrite ser_uint_out in H by done. injection H as <-. simpl. intros E.
  pose proof (write_varint_nonempty v ltac:(done)) as Hn. rewrite E in Hn. simpl in Hn. lia.
Qed.

Lemma read_ok size l data rest :
  0 <= size -> read size l = Ok (data, rest) -> l = data ++ rest /\ Z.of_nat (length data) = size.
Proof.
  intros Hs. rewrite read_spec by done. destruct (Z.leb_spec size (Z.of_nat (length l))); [|done].
  intros [= <- <-]. rewrite take_drop, length_take. split; [done|lia].
Qed.

#[export] Instance codec_binary (n : nat) : Codec (ser_binary (Z.of_nat n)) (pod n) any.
Proof.
  split.
  - intros v [Hlen Hb]. exists v. split_and!; [done|done|]. intros v0 rest _ _. cbn [ser_binary].
    rewrite <- Hlen, read_app. done.
  - intros v0 l v s _ Hl H. cbn [ser_uint ser_binary ser_string] in H. ok_inv.
    match goal with H : read _ _ = Ok _ |- _ => apply read_ok in H as [-> Hlen]; [|lia] end.
    apply Forall_app in Hl as [? ?]. split; [split; [lia|done]|]. eauto.
  - intros v0 l e _ Hl H. cbn [ser_binary] in H. err_inv. eapply read_error; [|done]. lia.
Qed.

Lemma nonempty_binary (n : nat) : (0 < n)%nat -> NonEmptyCodec (ser_binary (Z.of_nat n)) (pod n).
Proof. intros Hn v bs [Hlen _] [= <-]. simpl. intros ->. simpl in Hlen. lia. Qed.

Definition valid_blob (l : list Z) : Prop := bytes_ok l /\ fits 64 (Z.of_nat (length l)).

Lemma codec_string name : name <> "mm_tag"%string -> Codec (ser_string name) valid_blob any.
Proof.
  intros Hn. apply String.eqb_neq in Hn. split.
  - intros v [Hb Hlen]. exists (write_varint (Z.of_nat (length v)) ++ v). split_and!.
    + apply Forall_app. split; [by apply write_varint_bytes|done].
    + intros pre. cbn [ser_uint ser_binary ser_string]. unfold write. rewrite writeVarint_eq by lia. by rewrite app_assoc.
    + intros v0 rest _ Hr. cbn [ser_uint ser_binary ser_string]. rewrite <- app_assoc, readVarint_encode; [|lia|done|by apply Forall_app].
      cbn [obind]. rewrite Hn, andb_false_r. case_if.
      * rewrite read_app. done.
      * destruct v; [done|]. simpl in E. lia.
  - intros v0 l v s _ Hl H. cbn [ser_uint ser_binary ser_string] in H. ok_inv.
    match goal with H : readVarint _ _ = Ok _ |- _ => apply readVarint_inverse in H as [Hv ->]; [|lia|done] end.
    rewrite Hn, andb_false_r in H. apply Forall_app in Hl as [_ Hl]. unfold fits in Hv.
    destruct (Z.ltb_spec 0 z) as [Hpos|Hz]; ok_inv.
    + match goal with H : read _ _ = Ok _ |- _ => apply read_ok in H as [-> Hlen]; [|lia] end.
      apply Forall_app in Hl as [? ?]. subst z. split; [done|].
      eexists (_ ++ _), _. split_and!; [done|by rewrite <- app_assoc|]. intros pre. cbn [ser_uint ser_binary ser_string]. unfold write.
      rewrite writeVarint_eq by lia. by rewrite app_assoc.
    + assert (z = 0) as -> by lia. split; [split; [constructor|unfold fits; simpl; lia]|].
      eexists _, _. split_and!; [done|done|]. intros pre. cbn [ser_uint ser_binary ser_string]. unfold write. by rewrite app_nil_r, writeVarint_eq.
  - intros v0 l e _ Hl H. cbn [ser_string] in H. err_inv; [eapply readVarint_error; [| |done]; [lia|done]|].
    match goal with H : readVarint _ _ = Ok _ |- _ => apply readVarint_inverse in H as [Hv ->]; [|lia|done] end.
    unfold fits in Hv. rewrite Hn, andb_false_r in H. case_if_in H; err_inv.
    eapply read_error; [|done]. lia.
Qed.

Lemma codec_serializeAsBinary name : name <> "mm_tag"%string -> Codec (serializeAsBinary name) valid_blob any.
Proof.
  intros Hn. eapply (codec_ext (ser_string name)); [|done|done|by apply codec_string].
  intros a [l|l]; cbn [serializeAsBinary ser_string obind].
  - destruct (readVarint 64 l) as [[size l']|]; cbn [obind]; [|done].
    destruct (read size l') as [[? ?]|]; destruct (_ && _), (0 <? size); done.
  - done.
Qed.


(** ** Combinators *)

Section Combinators.
Context {A B : Type}.

(** Two values in sequence; the second serializer may depend on the first value. *)
Definition ser_dep (f : ser A) (g : A -> ser B) : ser (A * B) := fun p s =>
  let! (a, s) := f p.1 s in
  let! (b, s) := g a p.2 s in
  Ok ((a, b), s).

(** A serializer transported along a pair of conversions. *)
Definition ser_iso (to : A -> B) (from : B -> A) (f : ser A) : ser B := fun b s =>
  let! (a, s) := f (from b) s in
  Ok (to a, s).

Lemma codec_dep (f : ser A) (g : A -> ser B) va fa (vb : A -> B -> Prop) fb :
  Codec f va fa -> (forall a, va a -> Codec (g a) (vb a) fb) ->
  Codec (ser_dep f g) (fun p => va p.1 /\ vb p.1 p.2) (fun p => fa p.1 /\ fb p.2).
Proof.
  intros Hf Hg. split.
  - intros [a b] [Ha Hb]. simpl in *. destruct (Hg a Ha) as [Hgw _ _].
    destruct (codec_write a Ha) as (b1 & Hb1 & Ho1 & Hi1).
    destruct (Hgw b Hb) as (b2 & Hb2 & Ho2 & Hi2).
    exists (b1 ++ b2). split_and!; [by apply Forall_app|..].
    + intros pre. unfold ser_dep. cbn [fst snd]. rewrite Ho1. cbn [obind]. rewrite Ho2. by rewrite app_assoc.
    + intros [a0 b0] rest [? ?] Hr. unfold ser_dep. cbn [fst snd] in *. rewrite <- app_assoc.
      rewrite Hi1; [|done|by apply Forall_app]. cbn [obind]. by rewrite Hi2.
  - intros [a0 b0] l [a b] s [Ha0 Hb0] Hl H. unfold ser_dep in H. cbn [fst snd] in *. ok_inv.
    match goal with H : f _ _ = Ok _ |- _ => apply codec_read in H as (Ha & b1 & r1 & -> & -> & Ho1); [|done..] end.
    apply Forall_app in Hl as [_ Hl]. destruct (Hg a Ha) as [_ Hgr _].
    match goal with H : g _ _ _ = Ok _ |- _ => apply Hgr in H as (Hb & b2 & r2 & -> & -> & Ho2); [|done..] end.
    split; [done|]. exists (b1 ++ b2), r2. split_and!; [done|by rewrite app_assoc|].
    intros pre. unfold ser_dep. cbn [fst snd]. rewrite Ho1. cbn [obind]. rewrite Ho2. by rewrite app_assoc.
  - intros [a0 b0] l e [Ha0 Hb0] Hl H. unfold ser_dep in H. cbn [fst snd] in *. err_inv; [by eapply codec_error|].
    match goal with H : f _ _ = Ok _ |- _ => apply codec_read in H as (Ha & b1 & r1 & -> & -> & Ho1); [|done..] end.
    apply Forall_app in Hl as [_ Hl]. destruct (Hg _ Ha) as [_ _ Hge]. eauto.
Qed.

Lemma codec_iso (to : A -> B) (from : B -> A) f va fa (vb fb : B -> Prop) :
  (forall b, vb b -> to (from b) = b) -> (forall a, va a -> from (to a) = a) ->
  (forall b, vb b -> va (from b)) -> (forall a, va a -> vb (to a)) -> (forall b, fb b -> fa (from b)) ->
  Codec f va fa -> Codec (ser_iso to from f) vb fb.
Proof.
  intros Htf Hft Hv Hv' Hfr Hf. split.
  - intros b Hb. destruct (codec_write (from b) (Hv b Hb)) as (bs & Hbs & Ho & Hi).
    exists bs. split_and!; [done|..].
    + intros pre. unfold ser_iso. rewrite Ho. cbn [obind]. by rewrite Htf.
    + intros b0 rest H0 Hr. unfold ser_iso. rewrite Hi by auto. cbn [obind]. by rewrite Htf.
  - intros b0 l b s H0 Hl H. unfold ser_iso in H. ok_inv.
    match goal with H : f _ _ = Ok _ |- _ => apply codec_read in H as (Ha & b1 & r1 & -> & -> & Ho1); [|auto..] end.
    split; [auto|]. exists b1, r1. split_and!; [done..|]. intros pre. unfold ser_iso. rewrite Hft by done.
    rewrite Ho1. done.
  - intros b0 l e H0 Hl H. unfold ser_iso in H. err_inv. eapply codec_error; [|done..]. auto.
Qed.

End Combinators.

(** ** Containers *)

Section Items.
Context {A : Type} (f : ser A) (valid fresh : A -> Prop) `{!Codec f valid fresh}.

Lemma items_write l : Forall valid l ->
  exists bs, bytes_ok bs /\ (forall pre, ser_items f l (Out pre) = Ok (l, Out (pre ++ bs))) /\
    forall l0 rest, Forall fresh l0 -> length l0 = length l -> bytes_ok rest ->
      ser_items f l0 (In (bs ++ rest)) = Ok (l, In rest).
Proof.
  induction 1 as [|a l Ha Hl (bs & Hbs & Ho & Hi)].
  { exists []. split_and!; [constructor|intros; simpl; by rewrite app_nil_r|].
    intros [|a0 l0] rest _ ? _; done. }
  destruct (codec_write a Ha) as (b1 & Hb1 & Ho1 & Hi1). exists (b1 ++ bs). split_and!.
  - by apply Forall_app.
  - intros pre. cbn [ser_items]. rewrite Ho1. cbn [obind]. rewrite Ho. cbn [obind]. by rewrite app_assoc.
  - intros [|a0 l0] rest Hf Hlen Hr; [done|]. apply Forall_cons in Hf as [Ha0 Hl0]. injection Hlen as Hlen.
    cbn [ser_items]. rewrite <- app_assoc, Hi1; [|done|by apply Forall_app]. cbn [obind].
    by rewrite Hi.
Qed.

Lemma items_read l0 : Forall fresh l0 -> forall l v s, bytes_ok l -> ser_items f l0 (In l) = Ok (v, s) ->
  Forall valid v /\ length v = length l0 /\ exists bs rest, s = In rest /\ l = bs ++ rest /\
    forall pre, ser_items f v (Out pre) = Ok (v, Out (pre ++ bs)).
Proof.
  induction 1 as [|a0 l0 Ha0 Hl0 IH]; intros l v s Hl H; cbn [ser_items] in H; ok_inv.
  { split_and!; [constructor|done|]. exists [], l. split_and!; [done..|]. intros; simpl; by rewrite app_nil_r. }
  match goal with H : f _ _ = Ok _ |- _ => apply codec_read in H as (Ha & b1 & r1 & -> & -> & Ho1); [|done..] end.
  apply Forall_app in Hl as [_ Hl].
  match goal with H : ser_items _ _ _ = Ok _ |- _ => apply IH in H as (Hv & Hlen & b2 & r2 & -> & -> & Ho2); [|done..] end.
  split_and!; [by constructor|simpl; by rewrite Hlen|].
  exists (b1 ++ b2), r2. split_and!; [done|by rewrite app_assoc|].
  intros pre. cbn [ser_items]. rewrite Ho1. cbn [obind]. rewrite Ho2. cbn [obind]. by rewrite app_assoc.
Qed.

Lemma items_error l0 : Forall fresh l0 -> forall l e, bytes_ok l -> ser_items f l0 (In l) = Err e ->
  exists what, e = RuntimeError what.
Proof.
  induction 1 as [|a0 l0 Ha0 Hl0 IH]; intros l e Hl H; cbn [ser_items] in H; [done|].
  err_inv; [by eapply codec_error|].
  match goal with H : f _ _ = Ok _ |- _ => apply codec_read in H as (Ha & b1 & r1 & -> & -> & Ho1); [|done..] end.
  apply Forall_app in Hl as [_ Hl]. by eapply IH.
Qed.

Context `{!NonEmptyCodec f valid}.

Lemma items_length l bs :
  Forall valid l -> (forall pre, ser_items f l (Out pre) = Ok (l, Out (pre ++ bs))) -> (length l <= length bs)%nat.
Proof.
  intros Hl. revert bs. induction Hl as [|a l Ha Hl IH]; intros bs Ho; [simpl; lia|].
  destruct (codec_write a Ha) as (b1 & _ & Ho1 & _).
  destruct (items_write l Hl) as (b2 & _ & Ho2 & _). specialize (IH b2 Ho2).
  specialize (Ho []). cbn [ser_items] in Ho. rewrite Ho1 in Ho. cbn [obind] in Ho. rewrite Ho2 in Ho.
  injection Ho as <-. pose proof (codec_nonempty a b1 Ha (Ho1 [])) as Hne.
  rewrite length_app. destruct b1; [done|]. simpl. lia.
Qed.

Lemma resize_length n (d : A) l : length (resize n d l) = n.
Proof. unfold resize. rewrite length_app, length_take, repeat_length. lia. Qed.

Lemma resize_fresh n (d : A) l : fresh d -> Forall fresh l -> Forall fresh (resize n d l).
Proof.
  intros Hd Hl. unfold resize. apply Forall_app. split; [by apply Forall_take|].
  apply Forall_forall. intros x Hx%list_elem_of_In%repeat_spec. by subst.
Qed.

Definition valid_container (l : list A) : Prop := Forall valid l /\ fits 64 (Z.of_nat (length l)).

Lemma container_out d v pre :
  fits 64 (Z.of_nat (length v)) ->
  serializeContainer d f v (Out pre) = ser_items f v (Out (pre ++ write_varint (Z.of_nat (length v)))).
Proof. intros Hv. unfold serializeContainer, beginArray. by rewrite ser_uint_out. Qed.

#[export] Instance codec_container d :
  fresh d -> Codec (serializeContainer d f) valid_container (Forall fresh).
Proof.
  intros Hd. split.
  - intros v [Hv Hlen]. destruct (items_write v Hv) as (bs & Hbs & Ho & Hi).
    pose proof (items_length v bs Hv Ho) as Hle.
    exists (write_varint (Z.of_nat (length v)) ++ bs). split_and!.
    + apply Forall_app. split; [by apply write_varint_bytes|done].
    + intros pre. rewrite container_out by done. by rewrite Ho, app_assoc.
    + intros v0 rest Hf Hr. unfold serializeContainer, beginArray, ser_uint.
      rewrite <- app_assoc, readVarint_encode; [|lia|done|by apply Forall_app]. cbn [obind].
      rewrite Z.min_l, Nat2Z.id by (rewrite length_app; lia).
      rewrite Hi; [|by apply resize_fresh|by rewrite resize_length|done]. cbn [obind].
      by rewrite (proj2 (Z.ltb_ge _ _)) by lia.
  - intros v0 l v s Hf Hl H. unfold serializeContainer, beginArray, ser_uint in H. ok_inv.
    match goal with H : readVarint _ _ = Ok _ |- _ => apply readVarint_inverse in H as [Hsz ->]; [|lia|done] end.
    apply Forall_app in Hl as [_ Hl]. rename z into size. rename l0 into l.
    match goal with H : (if _ then _ else _) = Ok _ |- _ => case_if_in H; [done|]; ok_inv end.
    match goal with H : ser_items _ _ _ = Ok _ |- _ =>
      apply items_read in H as (Hv & Hlen & bs & rest & -> & -> & Ho); [|by apply resize_fresh|done] end.
    rewrite resize_length in Hlen. unfold fits in Hsz.
    assert (size = Z.of_nat (length v)) as -> by lia.
    split; [by split|]. eexists (_ ++ _), _. split_and!; [done|by rewrite <- app_assoc|].
    intros pre. rewrite container_out by done. by rewrite Ho, app_assoc.
  - intros v0 l e Hf Hl H. unfold serializeContainer, beginArray, ser_uint in H.
    err_inv; [eapply readVarint_error; [| |done]; [lia|done]|]; ok_inv.
    match goal with H : readVarint _ _ = Ok _ |- _ => apply readVarint_inverse in H as [Hsz ->]; [|lia|done] end.
    apply Forall_app in Hl as [_ Hl]. err_inv.
    + eapply items_error; [|exact Hl|exact H]. by apply resize_fresh.
    + match goal with H : ser_items _ _ _ = Ok _ |- _ =>
        apply items_read in H as (Hv & Hlen & bs & rest & -> & -> & Ho); [|by apply resize_fresh|done] end.
      rewrite resize_length in Hlen. pose proof (items_length _ _ Hv Ho). case_if_in H; [|done].
      rewrite length_app in *. unfold fits in Hsz. lia.
Qed.

End Items.

(** ** Records *)

Lemma obind_assoc {A B C} (m : outcome A) (k : A -> outcome B) (h : B -> outcome C) :
  obind (obind m k) h = obind m (fun x => obind (k x) h).
Proof. by destruct m. Qed.

(** Two serializers that perform the same steps. *)
Ltac ser_ext :=
  unfold ser_iso, ser_dep; cbn [fst snd];
  repeat (rewrite ?obind_assoc;
    match goal with
    | |- obind ?m _ = _ => destruct m as [[? ?]|]; cbn [obind fst snd]; [|done]
    end); try done.

Definition valid_BaseInput (i : BaseInput) : Prop := fits 32 (blockIndex i).
Definition valid_offsets : list Z -> Prop := valid_container (fits 32).
Definition valid_KeyInput (i : KeyInput) : Prop :=
  fits 64 (in_amount i) /\ valid_offsets (outputIndexes i) /\ pod 32 (keyImage i).
Definition valid_KeyOutput (o : KeyOutput) : Prop := pod 32 (key o).

Definition valid_input (i : TransactionInput) : Prop :=
  match i with
  | InBase i => valid_BaseInput i
  | InKey i => valid_KeyInput i
  end.

Definition valid_target (t : TransactionOutputTarget) : Prop :=
  match t with
  | ToKey o => valid_KeyOutput o
  end.

Definition valid_output (o : TransactionOutput) : Prop := fits 64 (out_amount o) /\ valid_target (target o).

#[export] Instance codec_BaseInput : Codec ser_BaseInput valid_BaseInput any.
Proof.
  eapply (codec_iso mkBaseInput blockIndex (ser_uint 32) (fits 32) any); try done.
  - by intros [].
  - apply codec_uint. lia.
Qed.

#[export] Instance codec_offsets : Codec serializeVarintVector valid_offsets any.
Proof.
  eapply (codec_ext _ _ _ _ (Forall any)); [done|done| |].
  - intros l _. by apply Forall_true.
  - apply codec_container; [apply codec_uint; lia|apply nonempty_uint; lia|done].
Qed.

Lemma codec_key : Codec (serializePod 32) (pod 32) any.
Proof. exact (codec_binary 32). Qed.

#[export] Instance codec_KeyInput : Codec ser_KeyInput valid_KeyInput any.
Proof.
  eapply (codec_ext
    (ser_iso (fun '(a, (o, k)) => mkKeyInput a o k) (fun i => (in_amount i, (outputIndexes i, keyImage i)))
      (ser_dep (ser_uint 64) (fun _ => ser_dep serializeVarintVector (fun _ => ser_KeyImage))))
    _ valid_KeyInput _ any); [|done|done|].
  - intros i s. unfold ser_KeyInput. ser_ext.
  - eapply codec_iso; [..|eapply codec_dep; [apply codec_uint; lia|intros; eapply codec_dep;
      [apply codec_offsets|intros; apply codec_key]]].
    + by intros [].
    + by intros (? & ? & ?).
    + by intros [].
    + by intros (? & ? & ?).
    + done.
Qed.

#[export] Instance codec_KeyOutput : Codec ser_KeyOutput valid_KeyOutput any.
Proof.
  eapply (codec_iso mkKeyOutput key ser_PublicKey (pod 32) any); try done.
  - by intros [].
  - apply codec_key.
Qed.

(** ** Variants: a tag byte, then the value *)

Lemma ser_tag_in x t l : ser_binary 1 x (In (t :: l)) = Ok ([t], In l).
Proof. unfold ser_binary. change (t :: l) with ([t] ++ l). by rewrite (read_app [t]). Qed.

Lemma ser_tag_read x l d s :
  ser_binary 1 x (In l) = Ok (d, s) -> exists t l', l = t :: l' /\ d = [t] /\ s = In l'.
Proof.
  destruct l as [|t l]; [done|]. rewrite ser_tag_in. intros [= <- <-]. eauto.
Qed.

Lemma ser_tag_error x l e : ser_binary 1 x (In l) = Err e -> exists what, e = RuntimeError what.
Proof. destruct l as [|t l]; [|by rewrite ser_tag_in]. intros [= <-]. eauto. Qed.

Lemma ser_input_base v pre :
  ser_TransactionInput (InBase v) (Out pre) =
    let! (v, s) := ser_BaseInput v (Out (pre ++ [0xff])) in Ok (InBase v, s).
Proof. reflexivity. Qed.

Lemma ser_input_key v pre :
  ser_TransactionInput (InKey v) (Out pre) =
    let! (v, s) := ser_KeyInput v (Out (pre ++ [0x2])) in Ok (InKey v, s).
Proof. reflexivity. Qed.

Lemma ser_input_in a0 t l : ser_TransactionInput a0 (In (t :: l)) = getVariantValue_input t (In l).
Proof.
  unfold ser_TransactionInput. rewrite ser_tag_in. cbn [obind le_to_Z]. by rewrite Z.mul_0_r, Z.add_0_r.
Qed.

Lemma ser_target_key v pre :
  ser_TransactionOutputTarget (ToKey v) (Out pre) =
    let! (v, s) := ser_KeyOutput v (Out (pre ++ [0x2])) in Ok (ToKey v, s).
Proof. reflexivity. Qed.

Lemma ser_target_in a0 t l : ser_TransactionOutputTarget a0 (In (t :: l)) = getVariantValue_target t (In l).
Proof.
  unfold ser_TransactionOutputTarget. rewrite ser_tag_in. cbn [obind le_to_Z]. by rewrite Z.mul_0_r, Z.add_0_r.
Qed.

Lemma byte_tag t bs : 0 <= t < 256 -> bytes_ok bs -> bytes_ok (t :: bs).
Proof. intros. constructor; [unfold is_byte, fits; pow2; lia|done]. Qed.

#[export] Instance codec_TransactionInput : Codec ser_TransactionInput valid_input any.
Proof.
  split.
  - intros [v|v] Hv; cbn [valid_input] in Hv; destruct (codec_write v Hv) as (bs & Hb & Ho & Hi).
    + exists (0xff :: bs). split_and!; [apply byte_tag; [lia|done]|..].
      * intros pre. rewrite ser_input_base, Ho. cbn [obind]. by rewrite <- app_assoc.
      * intros a0 rest _ Hr. cbn [app]. rewrite ser_input_in. unfold getVariantValue_input. simpl. by rewrite Hi.
    + exists (0x2 :: bs). split_and!; [apply byte_tag; [lia|done]|..].
      * intros pre. rewrite ser_input_key, Ho. cbn [obind]. by rewrite <- app_assoc.
      * intros a0 rest _ Hr. cbn [app]. rewrite ser_input_in. unfold getVariantValue_input. simpl. by rewrite Hi.
  - intros a0 [|t l] a s _ Hl H; [done|]. rewrite ser_input_in in H. unfold getVariantValue_input in H.
    apply Forall_cons in Hl as [_ Hl].
    destruct (Z.eqb_spec t 0xff) as [->|]; [|destruct (Z.eqb_spec t 0x2) as [->|]; [|done]]; ok_inv.
    all: match goal with H : _ = Ok _ |- _ => apply codec_read in H as (Hv & bs & rest & -> & -> & Ho); [|done..] end.
    all: split; [done|]; eexists (_ :: bs), rest; split_and!; [done..|]; intros pre.
    + rewrite ser_input_base, Ho. cbn [obind]. by rewrite <- app_assoc.
    + rewrite ser_input_key, Ho. cbn [obind]. by rewrite <- app_assoc.
  - intros a0 [|t l] e _ Hl H; [injection H as <-; eauto|]. rewrite ser_input_in in H.
    unfold getVariantValue_input in H. apply Forall_cons in Hl as [_ Hl].
    do 2 (case_if_in H; [err_inv; by eapply codec_error in H|]). injection H as <-. eauto.
Qed.

#[export] Instance codec_TransactionOutputTarget : Codec ser_TransactionOutputTarget valid_target any.
Proof.
  split.
  - intros [v] Hv; cbn [valid_target] in Hv; destruct (codec_write v Hv) as (bs & Hb & Ho & Hi).
    exists (0x2 :: bs). split_and!; [apply byte_tag; [lia|done]|..].
    + intros pre. rewrite ser_target_key, Ho. cbn [obind]. by rewrite <- app_assoc.
    + intros a0 rest _ Hr. cbn [app]. rewrite ser_target_in. unfold getVariantValue_target. simpl. by rewrite Hi.
  - intros a0 [|t l] a s _ Hl H; [done|]. rewrite ser_target_in in H. unfold getVariantValue_target in H.
    apply Forall_cons in Hl as [_ Hl]. destruct (Z.eqb_spec t 0x2) as [->|]; [|done]. ok_inv.
    match goal with H : _ = Ok _ |- _ => apply codec_read in H as (Hv & bs & rest & -> & -> & Ho); [|done..] end.
    split; [done|]; eexists (_ :: bs), rest; split_and!; [done..|]; intros pre.
    rewrite ser_target_key, Ho. cbn [obind]. by rewrite <- app_assoc.
  - intros a0 [|t l] e _ Hl H; [injection H as <-; eauto|]. rewrite ser_target_in in H.
    unfold getVariantValue_target in H. apply Forall_cons in Hl as [_ Hl].
    case_if_in H; [err_inv; by eapply codec_error in H|]. injection H as <-. eauto.
Qed.

#[export] Instance codec_TransactionOutput : Codec ser_TransactionOutput valid_output any.
Proof.
  eapply (codec_ext
    (ser_iso (fun '(a, t) => mkTransactionOutput a t) (fun o => (out_amount o, target o))
      (ser_dep (ser_uint 64) (fun _ => ser_TransactionOutputTarget))) _ valid_output _ any); [|done|done|].
  - intros o s. unfold ser_TransactionOutput. ser_ext.
  - eapply codec_iso; [..|eapply codec_dep; [apply codec_uint; lia|intros; apply codec_TransactionOutputTarget]].
    + by intros [].
    + by intros (? & ?).
    + by intros [].
    + by intros (? & ?).
    + done.
Qed.

#[export] Instance nonempty_input : NonEmptyCodec ser_TransactionInput valid_input.
Proof.
  intros [v|v] bs Hv H; cbn [valid_input] in Hv; destruct (codec_write v Hv) as (b & _ & Ho & _).
  - rewrite ser_input_base, Ho in H. by injection H as <-.
  - rewrite ser_input_key, Ho in H. by injection H as <-.
Qed.

#[export] Instance nonempty_output : NonEmptyCodec ser_TransactionOutput valid_output.
Proof.
  intros o bs [Ha Ht] H. unfold ser_TransactionOutput in H. rewrite ser_uint_out in H by done.
  cbn [obind] in H. destruct (codec_write (target o) Ht) as (b & _ & Ho & _). rewrite Ho in H.
  injection H as _ <-. pose proof (write_varint_nonempty _ Ha) as Hn. destruct (write_varint _); simpl in *; [lia|done].
Qed.

(** ** Transactions *)

Lemma codec_container_any {A} (d : A) f valid :
  Codec f valid any -> NonEmptyCodec f valid -> Codec (serializeContainer d f) (valid_container valid) any.
Proof.
  intros Hf Hn. eapply (codec_ext _ _ _ _ (Forall any)); [done|done| |by apply codec_container].
  intros l _. by apply Forall_true.
Qed.

(** The version and its check. *)
Definition ser_version : ser Z := fun v s =>
  let! (v, s) := ser_uint 8 v s in
  if (CURRENT_TRANSACTION_VERSION <? v) && is_input s
  then Err (RuntimeError "Wrong transaction version") else Ok (v, s).

Definition valid_version (v : Z) : Prop := 0 <= v <= CURRENT_TRANSACTION_VERSION.

Lemma codec_version : Codec ser_version valid_version any.
Proof.
  pose proof (codec_uint 8 ltac:(lia)) as [Hw Hr He].
  assert (Hv8 : forall v, valid_version v -> fits 8 v)
    by (intros v; unfold valid_version, CURRENT_TRANSACTION_VERSION, TRANSACTION_VERSION_1, fits; lia).
  split.
  - intros v Hv. destruct (Hw v (Hv8 v Hv)) as (bs & Hb & Ho & Hi). exists bs. unfold valid_version in Hv.
    split_and!; [done|..].
    + intros pre. unfold ser_version. rewrite Ho. cbn [obind is_input]. by rewrite andb_false_r.
    + intros v0 rest H0 Hrest. unfold ser_version. rewrite Hi by done. cbn [obind].
      by rewrite (proj2 (Z.ltb_ge _ _)) by lia.
  - intros v0 l v s H0 Hl H. unfold ser_version in H. ok_inv. case_if_in H; [done|]. ok_inv.
    match goal with H : ser_uint _ _ _ = Ok _ |- _ => apply Hr in H as (Hv & bs & rest & -> & -> & Ho); [|done..] end.
    rewrite andb_true_r in E. bool_prop. unfold fits in Hv. split; [split; lia|].
    exists bs, rest. split_and!; [done..|]. intros pre. unfold ser_version. rewrite Ho. cbn [obind is_input].
    by rewrite andb_false_r.
  - intros v0 l e H0 Hl H. unfold ser_version in H. err_inv; [by eapply He|].
    case_if_in H; [|done]. injection H as <-. eauto.
Qed.

Definition valid_prefix (p : TransactionPrefix) : Prop :=
  valid_version (version p) /\ fits 64 (unlockTime p) /\
  valid_container valid_input (inputs p) /\ valid_container valid_output (outputs p) /\ valid_blob (extra p).

Lemma if_input_check {B} (b : bool) s (e : error) (k : outcome B) :
  (if b && is_input s then Err e else k) = obind (if b && is_input s then Err e else Ok tt) (fun _ => k).
Proof. by destruct (b && is_input s). Qed.

#[export] Instance codec_TransactionPrefix : Codec ser_TransactionPrefix valid_prefix any.
Proof.
  eapply (codec_ext
    (ser_iso (fun '(v, (u, (i, (o, e)))) => mkTransactionPrefix v u i o e)
             (fun p => (version p, (unlockTime p, (inputs p, (outputs p, extra p)))))
      (ser_dep ser_version (fun _ => ser_dep (ser_uint 64) (fun _ =>
        ser_dep (serializeContainer default_input ser_TransactionInput) (fun _ =>
        ser_dep (serializeContainer default_output ser_TransactionOutput) (fun _ =>
        serializeAsBinary "extra"))))))
    _ valid_prefix _ any); [|done|done|].
  - intros p s. unfold ser_TransactionPrefix, ser_version. unfold ser_iso, ser_dep; cbn [fst snd].
    rewrite !obind_assoc. destruct (ser_uint 8 (version p) s) as [[v s']|]; cbn [obind]; [|done].
    destruct ((CURRENT_TRANSACTION_VERSION <? v) && is_input s'); [done|]. cbn [obind]. ser_ext.
  - eapply codec_iso; [..|eapply codec_dep; [apply codec_version|intros; eapply codec_dep; [apply codec_uint; lia|
      intros; eapply codec_dep; [by apply codec_container_any; apply _|intros; eapply codec_dep;
      [by apply codec_container_any; apply _|intros; by apply codec_serializeAsBinary]]]]].
    + by intros [].
    + by intros (? & ? & ? & ? & ?).
    + by intros [].
    + by intros (? & ? & ? & ? & ?).
    + done.
Qed.

(** The signature vectors have the shape the inputs prescribe. *)
Definition valid_signatures (ins : list TransactionInput) (sigs : list (list Signature)) : Prop :=
  if is_base_transaction ins then sigs = []
  else map length sigs = map getSignaturesCount ins /\ Forall (Forall (pod 64)) sigs.

Definition valid_transaction (tx : Transaction) : Prop :=
  valid_prefix (tx_prefix tx) /\ valid_signatures (inputs tx) (signatures tx).

#[export] Instance codec_Signature : Codec ser_Signature (pod 64) any.
Proof. exact (codec_binary 64). Qed.

Lemma ser_signatures_write ins : forall sigs,
  map length sigs = map getSignaturesCount ins -> Forall (Forall (pod 64)) sigs ->
  exists bs, bytes_ok bs /\
    (forall pre, ser_signatures false ins sigs (Out pre) = Ok (sigs, Out (pre ++ bs))) /\
    forall sigs0 rest, length sigs0 = length ins -> bytes_ok rest ->
      ser_signatures false ins sigs0 (In (bs ++ rest)) = Ok (sigs, In rest).
Proof.
  induction ins as [|i ins IH]; intros [|sig sigs] Hlen Hpod; try done.
  { exists []. split_and!; [constructor|intros; simpl; by rewrite app_nil_r|]. by intros [|] rest ? _. }
  injection Hlen as Hlen1 Hlen. apply Forall_cons in Hpod as [Hp Hpod].
  destruct (IH sigs Hlen Hpod) as (b2 & Hb2 & Ho2 & Hi2).
  destruct (items_write ser_Signature (pod 64) any sig Hp) as (b1 & Hb1 & Ho1 & Hi1).
  exists (b1 ++ b2). split_and!; [by apply Forall_app|..].
  - intros pre. cbn [ser_signatures]. rewrite <- Hlen1, Nat.eqb_refl. cbn [negb]. rewrite Ho1. cbn [obind].
    rewrite Ho2. cbn [obind]. by rewrite app_assoc.
  - intros [|sig0 sigs0] rest H0 Hr; [done|]. injection H0 as H0. cbn [ser_signatures]. rewrite <- app_assoc.
    rewrite Hi1; [|by apply Forall_true|by rewrite repeat_length|by apply Forall_app]. cbn [obind].
    by rewrite Hi2.
Qed.

Lemma ser_signatures_read ins : forall sigs0 l sigs s, length sigs0 = length ins -> bytes_ok l ->
  ser_signatures false ins sigs0 (In l) = Ok (sigs, s) ->
  (map length sigs = map getSignaturesCount ins /\ Forall (Forall (pod 64)) sigs) /\
  exists bs rest, s = In rest /\ l = bs ++ rest /\
    forall pre, ser_signatures false ins sigs (Out pre) = Ok (sigs, Out (pre ++ bs)).
Proof.
  induction ins as [|i ins IH]; intros [|sig0 sigs0] l sigs s Hlen Hl H; try done; cbn [ser_signatures] in H; ok_inv.
  { split; [done|]. exists [], l. split_and!; [done..|]. intros pre. simpl. by rewrite app_nil_r. }
  injection Hlen as Hlen.
  match goal with H : ser_items _ _ _ = Ok _ |- _ =>
    apply (items_read ser_Signature (pod 64) any) in H as (Hp & Hn & b1 & r1 & -> & -> & Ho1);
      [|by apply Forall_true|done] end.
  apply Forall_app in Hl as [_ Hl]. rewrite repeat_length in Hn.
  match goal with H : ser_signatures _ _ _ _ = Ok _ |- _ =>
    apply IH in H as ((Hs & Hps) & b2 & r2 & -> & -> & Ho2); [|done..] end.
  split; [split; [simpl; by f_equal|by constructor]|].
  exists (b1 ++ b2), r2. split_and!; [done|by rewrite app_assoc|].
  intros pre. cbn [ser_signatures]. rewrite Hn, Nat.eqb_refl. cbn [negb]. rewrite Ho1. cbn [obind].
  rewrite Ho2. cbn [obind]. by rewrite app_assoc.
Qed.

Lemma ser_signatures_error ins : forall sigs0 l e, length sigs0 = length ins -> bytes_ok l ->
  ser_signatures false ins sigs0 (In l) = Err e -> exists what, e = RuntimeError what.
Proof.
  induction ins as [|i ins IH]; intros [|sig0 sigs0] l e Hlen Hl H; try done; cbn [ser_signatures] in H.
  injection Hlen as Hlen. err_inv.
  - eapply (items_error ser_Signature (pod 64) any); [|exact Hl|done]. by apply Forall_true.
  - match goal with H : ser_items _ _ _ = Ok _ |- _ =>
      apply (items_read ser_Signature (pod 64) any) in H as (Hp & Hn & b1 & r1 & -> & -> & Ho1);
        [|by apply Forall_true|done] end.
    apply Forall_app in Hl as [_ Hl]. by eapply IH.
Qed.

(** The part of [serialize(Transaction)] behind the prefix. *)
Definition ser_signature_part (ins : list TransactionInput) : ser (list (list Signature)) := fun sigs s =>
  let sigs := if is_input s && negb (is_base_transaction ins) then resize (length ins) [] sigs else sigs in
  if negb (is_empty sigs) && negb (length ins =? length sigs)%nat
  then Err (RuntimeError "Serialization error: unexpected signatures size")
  else ser_signatures (is_empty sigs) ins sigs s.

Lemma codec_signature_part ins : Codec (ser_signature_part ins) (valid_signatures ins) (fun sigs => sigs = []).
Proof.
  assert (Hcases : (exists i, ins = [InBase i]) \/ ins = [] \/ (is_base_transaction ins = false /\ ins <> [])).
  { destruct ins as [|[] [|]]; naive_solver. }
  destruct Hcases as [[i ->]|[->|[Hb Hne]]].
  1-2: split; [intros sigs Hs; exists []; split_and!; [constructor|..]|..].
  - intros pre. unfold valid_signatures in Hs. simpl in Hs. subst. cbn. by rewrite app_nil_r.
  - intros ? rest -> _. unfold valid_signatures in Hs. simpl in Hs. by subst.
  - intros ? l sigs s -> Hl [= <- <-]. split; [done|]. exists [], l. split_and!; [done..|]. intros; cbn. by rewrite app_nil_r.
  - intros ? l e -> _ H. done.
  - intros pre. destruct Hs as [Hs _]. destruct sigs; [|done]. cbn. by rewrite app_nil_r.
  - intros ? rest -> _. destruct Hs as [Hs _]. by destruct sigs.
  - intros ? l sigs s -> Hl [= <- <-]. split; [done|]. exists [], l. split_and!; [done..|]. intros; cbn. by rewrite app_nil_r.
  - intros ? l e -> _ H. done.
  - unfold ser_signature_part, valid_signatures. rewrite Hb.
    assert (Hem : forall sigs : list (list Signature), length sigs = length ins -> is_empty sigs = false)
      by (intros [|] ?; destruct ins; done).
    assert (Hin : forall s0, s0 = [] ->
      resize (length ins) ([] : list Signature) s0 = repeat [] (length ins)) by (by intros ? ->; destruct ins).
    pose proof (repeat_length ([] : list Signature) (length ins)) as Hrep.
    split.
    + intros sigs [Hs Hp]. assert (Hl : length sigs = length ins) by (rewrite <- (length_map length sigs), Hs; apply length_map).
      destruct (ser_signatures_write ins sigs Hs Hp) as (bs & Hbs & Ho & Hi). exists bs. split_and!; [done|..].
      * intros pre. cbn [is_input andb]. rewrite (Hem sigs Hl), Hl, Nat.eqb_refl. apply Ho.
      * intros s0 rest H0 Hr. cbn [is_input andb negb]. rewrite Hin, Hem, Hrep, Nat.eqb_refl by done. by apply Hi.
    + intros s0 l sigs s H0 Hl H. cbn [is_input andb negb] in H.
      rewrite Hin, Hem, Hrep, Nat.eqb_refl in H by done. cbn [negb andb] in H.
      apply ser_signatures_read in H as [[Hs Hp] H]; [|done..]. split; [done|].
      assert (Hl' : length sigs = length ins) by (rewrite <- (length_map length sigs), Hs; apply length_map).
      destruct H as (bs & rest & ? & ? & Ho). exists bs, rest. split_and!; [done..|]. intros pre.
      cbn [is_input andb]. rewrite (Hem sigs Hl'), Hl', Nat.eqb_refl. apply Ho.
    + intros s0 l e H0 Hl H. cbn [is_input andb negb] in H.
      rewrite Hin, Hem, Hrep, Nat.eqb_refl in H by done. by eapply ser_signatures_error.
Qed.

(** A transaction object into which nothing was read yet. *)
Definition fresh_transaction (tx : Transaction) : Prop := signatures tx = [].

#[export] Instance codec_Transaction : Codec ser_Transaction valid_transaction fresh_transaction.
Proof.
  eapply (codec_ext
    (ser_iso (fun '(p, sg) => mkTransaction p sg) (fun tx => (tx_prefix tx, signatures tx))
      (ser_dep ser_TransactionPrefix (fun p => ser_signature_part (inputs p))))
    _ valid_transaction _ fresh_transaction); [|done|done|].
  - intros tx s. unfold ser_Transaction. unfold ser_iso, ser_dep, ser_signature_part; cbn [fst snd].
    rewrite !obind_assoc. destruct (ser_TransactionPrefix _ s) as [[p s']|]; cbn [obind]; [|done].
    match goal with |- context [if ?b then Err _ else _] => destruct b; [done|] end. rewrite obind_assoc.
    match goal with |- obind ?m _ = _ => destruct m as [[? ?]|]; done end.
  - eapply (codec_iso _ _ _ _ _ valid_transaction fresh_transaction); [..|eapply codec_dep;
      [apply codec_TransactionPrefix|intros; apply codec_signature_part]].
    + by intros [].
    + by intros (? & ?).
    + by intros [].
    + by intros (? & ?).
    + by intros [].
Qed.

(** ** Whole byte arrays *)

Section BinaryArray.
Context {A : Type} (f : ser A) (valid fresh : A -> Prop) `{!Codec f valid fresh} (d : A) (Hd : fresh d).

Lemma toBinaryArray_of_writes a bs :
  (forall pre, f a (Out pre) = Ok (a, Out (pre ++ bs))) -> toBinaryArray f a = Ok bs.
Proof. intros H. unfold toBinaryArray. by rewrite (H []). Qed.

Lemma fromBinaryArray_iff ba a :
  bytes_ok ba -> fromBinaryArray f d ba = Ok a <-> valid a /\ toBinaryArray f a = Ok ba.
Proof.
  intros Hba. unfold fromBinaryArray. split.
  - intros H. ok_inv.
    match goal with H : f _ _ = Ok _ |- _ => apply codec_read in H as (Hv & bs & rest & -> & -> & Ho); [|done..] end.
    destruct rest; [|done]. injection H as <-. split; [done|]. rewrite app_nil_r. by apply toBinaryArray_of_writes.
  - intros [Hv Ht]. destruct (codec_write a Hv) as (bs & _ & Ho & Hi).
    rewrite (toBinaryArray_of_writes a bs Ho) in Ht. injection Ht as ->.
    rewrite <- (app_nil_r ba), Hi; [done|done|constructor].
Qed.

Lemma fromBinaryArray_error ba e :
  bytes_ok ba -> fromBinaryArray f d ba = Err e -> exists what, e = RuntimeError what.
Proof.
  intros Hba H. unfold fromBinaryArray in H. err_inv; [by eapply codec_error|].
  match goal with H : f _ _ = Ok _ |- _ => apply codec_read in H as (Hv & bs & rest & -> & -> & Ho); [|done..] end.
  destruct rest; [done|]. injection H as <-. eauto.
Qed.

Lemma toBinaryArray_valid a : valid a -> exists bs, bytes_ok bs /\ toBinaryArray f a = Ok bs.
Proof.
  intros Hv. destruct (codec_write a Hv) as (bs & Hb & Ho & _). exists bs.
  split; [done|]. by apply toBinaryArray_of_writes.
Qed.

End BinaryArray.

(** ** Properties *)

Definition sample_transaction : Transaction :=
  mkTransaction
    (mkTransactionPrefix 1 40
      [InKey (mkKeyInput 700 [3; 300] (zeros 32)); InKey (mkKeyInput 5 [9] (repeat 255 32))]
      [mkTransactionOutput 600 (ToKey (mkKeyOutput (repeat 7 32)))] [1; 2; 3])
    [[repeat 1 64; repeat 2 64]; [repeat 3 64]].

Lemma sample_transaction_valid : valid_transaction sample_transaction.
Proof.
  assert (Hpod : forall n x, 0 <= x < 256 -> pod n (repeat x n)).
  { intros n x Hx. split; [apply repeat_length|]. apply Forall_forall. intros y Hy%list_elem_of_In%repeat_spec.
    subst. unfold is_byte, fits. pow2. lia. }
  unfold valid_transaction, valid_prefix, valid_container, valid_version, valid_blob, valid_signatures; simpl.
  unfold CURRENT_TRANSACTION_VERSION, TRANSACTION_VERSION_1, fits.
  split_and!; try lia; repeat constructor; simpl; try (unfold is_byte, fits; simpl; lia).
  all: by apply Hpod; lia.
Qed.

(** C13. Transactions on the wire: [fromBinaryArray] returns [tx] on a byte array
    exactly when [tx] is well formed and [toBinaryArray] of [tx] is that array.
    So every well-formed transaction survives the round trip, and a transaction
    has one encoding only. *)
Theorem transaction_wire_bijection ba tx :
  bytes_ok ba ->
  fromBinaryArray ser_Transaction default_transaction ba = Ok tx <->
  valid_transaction tx /\ toBinaryArray ser_Transaction tx = Ok ba.
Proof. intros Hba. by apply (fromBinaryArray_iff _ _ fresh_transaction). Qed.

Lemma transaction_wire_bijection_witness :
  exists ba, toBinaryArray ser_Transaction sample_transaction = Ok ba /\
    fromBinaryArray ser_Transaction default_transaction ba = Ok sample_transaction.
Proof.
  eexists. split; [vm_compute; reflexivity|].
  refine (proj2 (transaction_wire_bijection _ sample_transaction _) _).
  - repeat (constructor; [unfold is_byte, fits; lia|]). constructor.
  - split; [apply sample_transaction_valid|vm_compute; reflexivity].
Defined.

(** Reading a transaction from arbitrary bytes is safe: it succeeds or throws a
    [runtime_error]; it never indexes out of range, and the container sizes it
    reads never make it run past the input. *)
Theorem transaction_parse_safe ba e :
  bytes_ok ba -> fromBinaryArray ser_Transaction default_transaction ba = Err e ->
  exists what, e = RuntimeError what.
Proof. intros Hba. by apply (fromBinaryArray_error _ valid_transaction fresh_transaction). Qed.

Lemma transaction_parse_safe_witness : exists what, RuntimeError "Unknown variant tag" = RuntimeError what.
Proof.
  apply (transaction_parse_safe [1; 0; 1; 7]).
  - repeat (constructor; [unfold is_byte, fits; lia|]). constructor.
  - vm_compute. reflexivity.
Defined.
