(* ===== verification/TransactionExtra.v ===== *)
(** * The extra field of a transaction

    [src/src/common/TransactionExtra.cpp]: writing tagged fields into the
    [extra] bytes and parsing them back through the binary serializer, and the
    merge mining tag of [CryptoNoteSerialization.cpp]. *)

From S2P Require Import Prelude.
From S2P Require Import Varint.
From S2P Require Import StringTools.
From S2P Require Import Config.
From S2P Require Import Types.
From S2P Require Import Serialization.
From S2P Require Import SerializationProofs.
Import Varint.Varint Varint.StreamTools StringTools.StringTools.
Import Types.Types Serialization.Serialization.

Module TransactionExtra.

Definition TX_EXTRA_PADDING_MAX_COUNT : Z := 255.
Definition TX_EXTRA_NONCE_MAX_COUNT : Z := 255.

Definition TX_EXTRA_TAG_PADDING : Z := 0x00.
Definition TX_EXTRA_TAG_PUBKEY : Z := 0x01.
Definition TX_EXTRA_NONCE : Z := 0x02.
Definition TX_EXTRA_MERGE_MINING_TAG : Z := 0x03.
Definition TX_EXTRA_NONCE_PAYMENT_ID : Z := 0x00.

Record TransactionExtraMergeMiningTag := mkMergeMiningTag {
  depth : Z;
  merkleRoot : Hash
}.

(** The [boost::variant] of the four kinds of field. *)
Inductive TransactionExtraField :=
| ExtraPadding (size : Z)
| ExtraPublicKey (publicKey : PublicKey)
| ExtraNonce (nonce : list Z)
| ExtraMergeMiningTag (tag : TransactionExtraMergeMiningTag).

(** ** The merge mining tag: a string that holds the serialized tag *)

Definition doSerialize_tag : ser TransactionExtraMergeMiningTag := fun tag s =>
  let! (d, s) := ser_uint 64 (depth tag) s in
  let! (r, s) := ser_Hash (merkleRoot tag) s in
  Ok (mkMergeMiningTag d r, s).

Definition ser_MergeMiningTag : ser TransactionExtraMergeMiningTag := fun tag s =>
  match s with
  | Out _ =>
    let! field := toBinaryArray doSerialize_tag tag in
    let! (_, s) := ser_string "" field s in
    Ok (tag, s)
  | In _ =>
    let! (field, s) := ser_string "mm_tag" [] s in
    let! (tag, _) := doSerialize_tag tag (In field) in
    Ok (tag, s)
  end.

Definition default_tag : TransactionExtraMergeMiningTag := mkMergeMiningTag 0 (zeros 32).

(** ** Parsing *)

(** The padding loop: the bytes left must be zero and end the field before
    [size] passes the maximum; [None] is [return false]. *)
Fixpoint parse_padding (size : Z) (l : list Z) : option Z :=
  match l with
  | [] => if TX_EXTRA_PADDING_MAX_COUNT <? size then None else Some size
  | b :: l =>
    if TX_EXTRA_PADDING_MAX_COUNT <? size then None
    else if negb (b =? 0) then None
    else parse_padding (size + 1) l
  end.

Record seen_tags := mkSeen {
  seen_tx_extra_tag_padding : bool;
  seen_tx_extra_tag_pubkey : bool;
  seen_tx_extra_nonce : bool;
  seen_tx_extra_merge_mining_tag : bool
}.

Definition nothing_seen : seen_tags := mkSeen false false false false.

(** [read(iss, nonce)] of a length byte and as many bytes. *)
Definition read_nonce (l : list Z) : outcome (list Z * list Z) :=
  let! (size, l) := read_uint 8 l in
  if 0 <? size then read size l else Ok ([], l).

(** The loop of [parseTransactionExtra]: the fields pushed so far and the
    boolean result; an exception of the stream is caught and gives [false].
    Every round takes a byte, so the length of the stream bounds the rounds
    ([parse_loop_fuel]). *)
Fixpoint parse_loop (fuel : nat) (seen : seen_tags) (fields : list TransactionExtraField) (l : list Z)
  : list TransactionExtraField * bool :=
  match fuel with
  | O => (fields, true)
  | S fuel =>
    match l with
    | [] => (fields, true)
    | c :: l =>
      if c =? TX_EXTRA_TAG_PADDING then
        if seen_tx_extra_tag_padding seen then (fields, true)
        else
          match parse_padding 1 l with
          | None => (fields, false)
          | Some size => (fields ++ [ExtraPadding size], true)
          end
      else if c =? TX_EXTRA_TAG_PUBKEY then
        if seen_tx_extra_tag_pubkey seen then (fields, true)
        else
          match ser_PublicKey (zeros 32) (In l) with
          | Ok (k, In l) =>
            parse_loop fuel
              (mkSeen (seen_tx_extra_tag_padding seen) true (seen_tx_extra_nonce seen)
                      (seen_tx_extra_merge_mining_tag seen))
              (fields ++ [ExtraPublicKey k]) l
          | _ => (fields, false)
          end
      else if c =? TX_EXTRA_NONCE then
        if seen_tx_extra_nonce seen then (fields, true)
        else
          match read_nonce l with
          | Ok (n, l) =>
            parse_loop fuel
              (mkSeen (seen_tx_extra_tag_padding seen) (seen_tx_extra_tag_pubkey seen) true
                      (seen_tx_extra_merge_mining_tag seen))
              (fields ++ [ExtraNonce n]) l
          | Err _ => (fields, false)
          end
      else if c =? TX_EXTRA_MERGE_MINING_TAG then
        if seen_tx_extra_merge_mining_tag seen then parse_loop fuel seen fields l
        else
          match ser_MergeMiningTag default_tag (In l) with
          | Ok (t, In l) =>
            parse_loop fuel
              (mkSeen (seen_tx_extra_tag_padding seen) (seen_tx_extra_tag_pubkey seen)
                      (seen_tx_extra_nonce seen) true)
              (fields ++ [ExtraMergeMiningTag t]) l
          | _ => (fields, false)
          end
      else parse_loop fuel seen fields l
    end
  end.

Definition parseTransactionExtra (transactionExtra : list Z) : list TransactionExtraField * bool :=
  parse_loop (length transactionExtra) nothing_seen [] transactionExtra.

(** ** Writing; [None] is [false] *)

Definition addTransactionPublicKeyToExtra (tx_extra : list Z) (tx_pub_key : PublicKey) : list Z :=
  tx_extra ++ TX_EXTRA_TAG_PUBKEY :: tx_pub_key.

Definition addExtraNonceToTransactionExtra (tx_extra extra_nonce : list Z) : option (list Z) :=
  if TX_EXTRA_NONCE_MAX_COUNT <? Z.of_nat (length extra_nonce) then None
  else Some (tx_extra ++ TX_EXTRA_NONCE :: u8 (Z.of_nat (length extra_nonce)) :: extra_nonce).

Definition appendMergeMiningTagToExtra (tx_extra : list Z) (mm_tag : TransactionExtraMergeMiningTag)
  : option (list Z) :=
  match toBinaryArray_opt ser_MergeMiningTag mm_tag with
  | None => None
  | Some blob => Some (tx_extra ++ TX_EXTRA_MERGE_MINING_TAG :: blob)
  end.

(** [ExtraSerializerVisitor]. *)
Definition write_field (tx_extra : list Z) (f : TransactionExtraField) : option (list Z) :=
  match f with
  | ExtraPadding size =>
    if TX_EXTRA_PADDING_MAX_COUNT <? size then None
    else Some (tx_extra ++ repeat 0 (Z.to_nat size))
  | ExtraPublicKey k => Some (addTransactionPublicKeyToExtra tx_extra k)
  | ExtraNonce n => addExtraNonceToTransactionExtra tx_extra n
  | ExtraMergeMiningTag t => appendMergeMiningTagToExtra tx_extra t
  end.

Fixpoint writeTransactionExtra (tx_extra : list Z) (fields : list TransactionExtraField) : option (list Z) :=
  match fields with
  | [] => Some tx_extra
  | f :: fields =>
    match write_field tx_extra f with
    | None => None
    | Some tx_extra => writeTransactionExtra tx_extra fields
    end
  end.

(** ** Lookups *)

(** [findTransactionExtraFieldByType]: the first field of the type. *)
Fixpoint find_public_key (fields : list TransactionExtraField) : option PublicKey :=
  match fields with
  | [] => None
  | ExtraPublicKey k :: _ => Some k
  | _ :: fields => find_public_key fields
  end.

Fixpoint find_nonce (fields : list TransactionExtraField) : option (list Z) :=
  match fields with
  | [] => None
  | ExtraNonce n :: _ => Some n
  | _ :: fields => find_nonce fields
  end.

Fixpoint find_merge_mining_tag (fields : list TransactionExtraField) : option TransactionExtraMergeMiningTag :=
  match fields with
  | [] => None
  | ExtraMergeMiningTag t :: _ => Some t
  | _ :: fields => find_merge_mining_tag fields
  end.

(** The boolean result of the parser is ignored; no key gives the zero key. *)
Definition getTransactionPublicKeyFromExtra (tx_extra : list Z) : PublicKey :=
  match find_public_key (parseTransactionExtra tx_extra).1 with
  | None => zeros 32
  | Some k => k
  end.

Definition getMergeMiningTagFromExtra (tx_extra : list Z) : option TransactionExtraMergeMiningTag :=
  find_merge_mining_tag (parseTransactionExtra tx_extra).1.

Definition setPaymentIdToTransactionExtraNonce (payment_id : Hash) : list Z :=
  TX_EXTRA_NONCE_PAYMENT_ID :: payment_id.

Definition getPaymentIdFromTransactionExtraNonce (extra_nonce : list Z) : option Hash :=
  if negb (32 + 1 =? Z.of_nat (length extra_nonce)) then None
  else
    match extra_nonce with
    | tag :: payment_id => if negb (TX_EXTRA_NONCE_PAYMENT_ID =? tag) then None else Some payment_id
    | [] => None
    end.

Definition parsePaymentId (paymentIdString : list Z) : option Hash := podFromHex 32 paymentIdString.

Definition createTxExtraWithPaymentId (paymentIdString tx_extra : list Z) : option (list Z) :=
  match parsePaymentId paymentIdString with
  | None => None
  | Some paymentIdBin =>
    addExtraNonceToTransactionExtra tx_extra (setPaymentIdToTransactionExtraNonce paymentIdBin)
  end.

Definition getPaymentIdFromTxExtra (tx_extra : list Z) : option Hash :=
  let '(tx_extra_fields, ok) := parseTransactionExtra tx_extra in
  if negb ok then None
  else
    match find_nonce tx_extra_fields with
    | Some extra_nonce => getPaymentIdFromTransactionExtraNonce extra_nonce
    | None => None
    end.

(** ** Round trip *)

Definition valid_tag (t : TransactionExtraMergeMiningTag) : Prop := fits 64 (depth t) /\ pod 32 (merkleRoot t).

#[export] Instance codec_tag : Codec doSerialize_tag valid_tag any.
Proof.
  eapply (codec_ext
    (ser_iso (fun '(d, r) => mkMergeMiningTag d r) (fun t => (depth t, merkleRoot t))
      (ser_dep (ser_uint 64) (fun _ => ser_Hash))) _ valid_tag _ any); [|done|done|].
  - intros t s. unfold doSerialize_tag. ser_ext.
  - eapply codec_iso; [..|eapply codec_dep; [apply codec_uint; lia|intros; apply codec_key]].
    + by intros [].
    + by intros (? & ?).
    + by intros [].
    + by intros (? & ?).
    + done.
Qed.

Lemma doSerialize_tag_out t pre : valid_tag t ->
  doSerialize_tag t (Out pre) = Ok (t, Out (pre ++ write_varint (depth t) ++ merkleRoot t)).
Proof.
  intros [Hd _]. unfold doSerialize_tag. rewrite ser_uint_out by done. destruct t as [d r].
  cbn [obind ser_Hash serializePod ser_binary depth merkleRoot]. unfold write. by rewrite <- app_assoc.
Qed.

(** The tag and its serialized form, length first. *)
Lemma MergeMiningTag_roundtrip t : valid_tag t ->
  exists blob, toBinaryArray_opt ser_MergeMiningTag t = Some blob /\ bytes_ok blob /\
    forall rest, bytes_ok rest -> ser_MergeMiningTag default_tag (In (blob ++ rest)) = Ok (t, In rest).
Proof.
  intros Ht. destruct (codec_write (f := doSerialize_tag) t Ht) as (bs & Hb & Ho & Hi).
  assert (Hto : toBinaryArray doSerialize_tag t = Ok bs) by (by apply toBinaryArray_of_writes).
  assert (Hlen : (1 <= length bs <= 43)%nat).
  { specialize (Ho []). rewrite doSerialize_tag_out in Ho by done. injection Ho as <-.
    destruct Ht as [Hd [Hr _]]. simpl. rewrite length_app, Hr.
    pose proof (write_varint_loop_length 10 (depth t)). unfold write_varint. lia. }
  exists (write_varint (Z.of_nat (length bs)) ++ bs). split_and!.
  - unfold toBinaryArray_opt, toBinaryArray at 1, ser_MergeMiningTag. rewrite Hto. cbn [obind ser_string].
    unfold write. by rewrite writeVarint_eq by lia.
  - apply Forall_app. split; [apply write_varint_bytes; unfold fits; lia|done].
  - intros rest Hr. unfold ser_MergeMiningTag. cbn [ser_string]. rewrite <- app_assoc.
    rewrite readVarint_encode; [|lia|unfold fits; lia|by apply Forall_app]. cbn [obind].
    rewrite (proj2 (Z.ltb_ge _ _)) by (unfold parameters.MAX_EXTRA_SIZE; lia). cbn [andb].
    rewrite (proj2 (Z.ltb_lt _ _)) by lia.
    rewrite read_app. cbn [obind]. rewrite <- (app_nil_r bs), Hi; [done|done|constructor].
Qed.

Definition field_tag (f : TransactionExtraField) : Z :=
  match f with
  | ExtraPadding _ => TX_EXTRA_TAG_PADDING
  | ExtraPublicKey _ => TX_EXTRA_TAG_PUBKEY
  | ExtraNonce _ => TX_EXTRA_NONCE
  | ExtraMergeMiningTag _ => TX_EXTRA_MERGE_MINING_TAG
  end.

Definition valid_field (f : TransactionExtraField) : Prop :=
  match f with
  | ExtraPadding size => 1 <= size <= TX_EXTRA_PADDING_MAX_COUNT
  | ExtraPublicKey k => pod 32 k
  | ExtraNonce n => bytes_ok n /\ Z.of_nat (length n) <= TX_EXTRA_NONCE_MAX_COUNT
  | ExtraMergeMiningTag t => valid_tag t
  end.

Definition was_seen (seen : seen_tags) (f : TransactionExtraField) : bool :=
  match f with
  | ExtraPadding _ => seen_tx_extra_tag_padding seen
  | ExtraPublicKey _ => seen_tx_extra_tag_pubkey seen
  | ExtraNonce _ => seen_tx_extra_nonce seen
  | ExtraMergeMiningTag _ => seen_tx_extra_merge_mining_tag seen
  end.

Definition mark_seen (seen : seen_tags) (f : TransactionExtraField) : seen_tags :=
  let '(mkSeen a b c d) := seen in
  match f with
  | ExtraPadding _ => mkSeen true b c d
  | ExtraPublicKey _ => mkSeen a true c d
  | ExtraNonce _ => mkSeen a b true d
  | ExtraMergeMiningTag _ => mkSeen a b c true
  end.

Definition is_padding (f : TransactionExtraField) : Prop := field_tag f = TX_EXTRA_TAG_PADDING.

Lemma read_nonce_roundtrip n rest :
  bytes_ok n -> Z.of_nat (length n) <= 255 ->
  read_nonce (u8 (Z.of_nat (length n)) :: n ++ rest) = Ok (n, rest).
Proof.
  intros Hn Hlen. rewrite wrap_small by (unfold fits; lia). unfold read_nonce, read_uint.
  change (8 / 8) with (Z.of_nat (length [Z.of_nat (length n)])).
  change (Z.of_nat (length n) :: n ++ rest) with ([Z.of_nat (length n)] ++ n ++ rest) at 1.
  rewrite read_app. cbn [obind le_to_Z]. rewrite Z.mul_0_r, Z.add_0_r.
  destruct n as [|b n]; [done|]. rewrite (proj2 (Z.ltb_lt _ _)) by (simpl; lia). apply read_app.
Qed.

(** One field that is not padding, and the bytes it is written as. *)
Lemma parse_field f : valid_field f -> ~ is_padding f ->
  exists w, (forall pre, write_field pre f = Some (pre ++ w)) /\ (1 <= length w)%nat /\ bytes_ok w /\
    forall fuel seen fields rest, bytes_ok rest -> was_seen seen f = false ->
      parse_loop (S fuel) seen fields (w ++ rest) = parse_loop fuel (mark_seen seen f) (fields ++ [f]) rest.
Proof.
  destruct f as [size|k|n|t]; intros Hv Hp; [done|..].
  - exists (TX_EXTRA_TAG_PUBKEY :: k). split_and!; [done|simpl; lia|apply byte_tag; [done|apply Hv]|]. intros fuel [a b c d] fields rest Hr Hs.
    simpl in Hs. subst. cbn [app parse_loop]. cbn [Z.eqb TX_EXTRA_TAG_PUBKEY TX_EXTRA_TAG_PADDING seen_tx_extra_tag_pubkey].
    unfold ser_PublicKey, serializePod, ser_binary. destruct Hv as [Hlen _].
    change 32 with (Z.of_nat 32). rewrite <- Hlen, read_app. done.
  - destruct Hv as [Hb Hlen]. exists (TX_EXTRA_NONCE :: u8 (Z.of_nat (length n)) :: n).
    split_and!; [|simpl; lia|apply byte_tag; [done|constructor; [apply wrap_fits; lia|done]]|].
    { intros pre. cbn [write_field]. unfold addExtraNonceToTransactionExtra. by rewrite (proj2 (Z.ltb_ge _ _)) by lia. }
    intros fuel [a b c d] fields rest Hr Hs. simpl in Hs. subst. cbn [app parse_loop].
    cbn [Z.eqb TX_EXTRA_NONCE TX_EXTRA_TAG_PUBKEY TX_EXTRA_TAG_PADDING seen_tx_extra_nonce].
    rewrite read_nonce_roundtrip by done. done.
  - destruct (MergeMiningTag_roundtrip t Hv) as (blob & Hw & Hb & Hr).
    exists (TX_EXTRA_MERGE_MINING_TAG :: blob). split_and!; [|simpl; lia|by apply byte_tag|].
    { intros pre. cbn [write_field]. unfold appendMergeMiningTagToExtra. by rewrite Hw. }
    intros fuel [a b c d] fields rest Hrest Hs. simpl in Hs. subst. cbn [app parse_loop].
    cbn [Z.eqb TX_EXTRA_NONCE TX_EXTRA_TAG_PUBKEY TX_EXTRA_TAG_PADDING TX_EXTRA_MERGE_MINING_TAG
         seen_tx_extra_merge_mining_tag].
    rewrite Hr by done. done.
Qed.

Lemma parse_padding_zeros n size :
  1 <= size -> size + Z.of_nat n <= 255 -> parse_padding size (repeat 0 n) = Some (size + Z.of_nat n).
Proof.
  revert size; induction n as [|n IH]; intros size Hs Hle; cbn [repeat parse_padding].
  - unfold TX_EXTRA_PADDING_MAX_COUNT. rewrite (proj2 (Z.ltb_ge _ _)) by lia. f_equal. lia.
  - unfold TX_EXTRA_PADDING_MAX_COUNT at 1. rewrite (proj2 (Z.ltb_ge _ _)) by lia. cbn [Z.eqb negb].
    rewrite IH by lia. f_equal. lia.
Qed.

Lemma was_seen_mark seen f g : field_tag f <> field_tag g -> was_seen (mark_seen seen f) g = was_seen seen g.
Proof. destruct seen, f, g; simpl; intros H; try done; by destruct H. Qed.

(** ** The number of rounds is enough *)

Lemma ser_string_suffix name v0 l v s :
  bytes_ok l -> ser_string name v0 (In l) = Ok (v, s) -> exists w rest, s = In rest /\ l = w ++ rest.
Proof.
  intros Hl H. cbn [ser_string] in H. ok_inv.
  match goal with H : readVarint _ _ = Ok _ |- _ => apply readVarint_inverse in H as [Hv ->]; [|lia|done] end.
  unfold fits in Hv. destruct (_ && _); [|destruct (0 <? z)]; ok_inv.
  1-2: match goal with H : read _ _ = Ok _ |- _ => apply read_ok in H as [-> _]; [|lia] end; rewrite app_assoc; eauto.
  eauto.
Qed.

Lemma ser_MergeMiningTag_suffix t0 l t s :
  bytes_ok l -> ser_MergeMiningTag t0 (In l) = Ok (t, s) -> exists w rest, s = In rest /\ l = w ++ rest.
Proof. intros Hl H. unfold ser_MergeMiningTag in H. ok_inv. by eapply ser_string_suffix. Qed.

Lemma read_nonce_suffix l n rest : bytes_ok l -> read_nonce l = Ok (n, rest) -> exists w, l = w ++ rest.
Proof.
  intros Hl H. unfold read_nonce, read_uint in H. ok_inv.
  match goal with H : read (8 / 8) _ = Ok _ |- _ => apply read_ok in H as [-> Hlen]; [|done] end.
  apply Forall_app in Hl as [Hb _]. pose proof (le_to_Z_bound _ Hb).
  destruct (0 <? _); ok_inv; [|eauto].
  match goal with H : read _ _ = Ok _ |- _ => apply read_ok in H as [-> _]; [|lia] end. rewrite app_assoc. eauto.
Qed.

Lemma parse_loop_fuel n : forall m seen fields l, bytes_ok l -> (length l <= n)%nat -> (length l <= m)%nat ->
  parse_loop n seen fields l = parse_loop m seen fields l.
Proof.
  induction n as [|n IH]; intros m seen fields l Hb Hn Hm.
  { destruct l; [|simpl in *; lia]. by destruct m. }
  destruct l as [|c l]; [by destruct m|]. destruct m as [|m]; [simpl in *; lia|].
  apply Forall_cons in Hb as [_ Hb]. simpl in Hn, Hm. cbn [parse_loop].
  assert (Hrest : forall w rest seen' fields', l = w ++ rest ->
    parse_loop n seen' fields' rest = parse_loop m seen' fields' rest).
  { intros w rest seen' fields' ->. rewrite length_app in *. apply Forall_app in Hb as [_ Hb]. apply IH; [done|lia..]. }
  destruct (c =? TX_EXTRA_TAG_PADDING); [done|].
  destruct (c =? TX_EXTRA_TAG_PUBKEY).
  { destruct (seen_tx_extra_tag_pubkey seen); [done|].
    destruct (ser_PublicKey (zeros 32) (In l)) as [[k [rest|]]|] eqn:E; [|done..].
    apply codec_key in E as (_ & w & rest' & [= <-] & Hl & _); [|done..]. by eapply Hrest. }
  destruct (c =? TX_EXTRA_NONCE).
  { destruct (seen_tx_extra_nonce seen); [done|]. destruct (read_nonce l) as [[k rest]|] eqn:E; [|done].
    apply read_nonce_suffix in E as [w Hl]; [|done]. by eapply Hrest. }
  destruct (c =? TX_EXTRA_MERGE_MINING_TAG); [|by apply (Hrest [])].
  destruct (seen_tx_extra_merge_mining_tag seen); [by apply (Hrest [])|].
  destruct (ser_MergeMiningTag default_tag (In l)) as [[k [rest|]]|] eqn:E; [|done..].
  apply ser_MergeMiningTag_suffix in E as (w & rest' & [= <-] & Hl); [|done]. by eapply Hrest.
Qed.

Definition padding_part (pad : list TransactionExtraField) : Prop :=
  pad = [] \/ exists size, pad = [ExtraPadding size] /\ valid_field (ExtraPadding size).

Lemma parse_padding_part pad : padding_part pad ->
  exists w, (forall pre, writeTransactionExtra pre pad = Some (pre ++ w)) /\ bytes_ok w /\
    forall fuel seen fields, (length w <= fuel)%nat -> (forall f, f ∈ pad -> was_seen seen f = false) ->
      parse_loop fuel seen fields w = (fields ++ pad, true).
Proof.
  intros [->|(size & -> & Hv)].
  { exists []. split_and!; [intros; simpl; by rewrite app_nil_r|constructor|].
    intros [|fuel] seen fields _ _; by rewrite app_nil_r. }
  cbn [valid_field] in Hv. unfold TX_EXTRA_PADDING_MAX_COUNT in Hv.
  exists (repeat 0 (Z.to_nat size)). split_and!.
  - intros pre. cbn [writeTransactionExtra write_field]. unfold TX_EXTRA_PADDING_MAX_COUNT.
    by rewrite (proj2 (Z.ltb_ge _ _)) by lia.
  - apply Forall_forall. intros x Hx%list_elem_of_In%repeat_spec. subst. unfold is_byte, fits. lia.
  - intros fuel seen fields Hf Hs. specialize (Hs (ExtraPadding size) ltac:(by constructor)). simpl in Hs.
    rewrite repeat_length in Hf. destruct fuel as [|fuel]; [lia|].
    replace (Z.to_nat size) with (S (Z.to_nat (size - 1))) by lia. cbn [repeat parse_loop].
    cbn [Z.eqb TX_EXTRA_TAG_PADDING]. rewrite Hs, parse_padding_zeros by lia. do 4 f_equal. lia.
Qed.

Lemma parse_fields pad : padding_part pad -> forall body,
  Forall (fun f => valid_field f /\ ~ is_padding f) body -> NoDup (map field_tag body) ->
  exists w, (forall pre, writeTransactionExtra pre (body ++ pad) = Some (pre ++ w)) /\ bytes_ok w /\
    forall fuel seen fields, (length w <= fuel)%nat ->
      (forall f, f ∈ body ++ pad -> was_seen seen f = false) ->
      parse_loop fuel seen fields w = (fields ++ body ++ pad, true).
Proof.
  intros Hpad body. induction body as [|f body IH]; intros Hv Hnd; [by apply parse_padding_part|].
  apply Forall_cons in Hv as [[Hf Hnp] Hv]. simpl in Hnd. apply NoDup_cons in Hnd as [Hni Hnd].
  destruct (IH Hv Hnd) as (w & Hw & Hb & Hp). destruct (parse_field f Hf Hnp) as (w1 & Hw1 & Hl1 & Hb1 & Hp1).
  exists (w1 ++ w). split_and!.
  - intros pre. cbn [app writeTransactionExtra]. rewrite Hw1, Hw. by rewrite app_assoc.
  - by apply Forall_app.
  - intros fuel seen fields Hfuel Hseen. rewrite length_app in Hfuel. destruct fuel as [|fuel]; [lia|].
    rewrite Hp1; [|done|apply Hseen; by constructor]. rewrite Hp; [by rewrite <- app_assoc|lia|].
    intros g Hg. rewrite was_seen_mark; [apply Hseen; by constructor|]. intros E.
    apply elem_of_app in Hg as [Hg|Hg].
    + apply Hni. rewrite E. by apply list_elem_of_fmap_2.
    + destruct Hpad as [->|(size & -> & _)]; [by apply not_elem_of_nil in Hg|].
      apply list_elem_of_singleton in Hg as ->. by apply Hnp.
Qed.

(** ** Properties *)

(** C36. Extra fields survive the round trip: writing any well-formed fields, at
    most one of each kind and padding only at the end, succeeds, and parsing the
    result returns exactly those fields in order. *)
Theorem extra_roundtrip body pad :
  Forall (fun f => valid_field f /\ ~ is_padding f) body -> NoDup (map field_tag body) -> padding_part pad ->
  exists tx_extra, writeTransactionExtra [] (body ++ pad) = Some tx_extra /\
    parseTransactionExtra tx_extra = (body ++ pad, true).
Proof.
  intros Hv Hnd Hpad. destruct (parse_fields pad Hpad body Hv Hnd) as (w & Hw & _ & Hp).
  exists w. split; [apply Hw|]. apply (Hp _ nothing_seen []); [lia|]. by intros [] _.
Qed.

Lemma extra_roundtrip_witness :
  exists tx_extra,
    writeTransactionExtra [] [ExtraPublicKey (zeros 32); ExtraNonce [5; 6]; ExtraPadding 4] = Some tx_extra /\
    parseTransactionExtra tx_extra = ([ExtraPublicKey (zeros 32); ExtraNonce [5; 6]; ExtraPadding 4], true).
Proof.
  apply (extra_roundtrip [ExtraPublicKey (zeros 32); ExtraNonce [5; 6]] [ExtraPadding 4]).
  - repeat constructor; simpl; try (unfold is_byte, fits, TX_EXTRA_NONCE_MAX_COUNT; simpl; lia); done.
  - apply NoDup_ListNoDup. simpl. repeat constructor; simpl; intuition discriminate.
  - right. exists 4. split; [done|]. unfold valid_field, TX_EXTRA_PADDING_MAX_COUNT. lia.
Defined.

Lemma parsed_id_pod text id : parsePaymentId text = Some id -> pod 32 id.
Proof.
  unfold parsePaymentId, podFromHex, fromHex_buffer_opt. destruct (Z.odd _) eqn:Ho; [done|]. destruct (_ <? _); [done|].
  destruct (fromHex_prefix text) as [d [|]] eqn:Ep; [|done]. destruct (Z.eqb_spec (Z.of_nat (length d)) 32); [|done].
  intros [= <-]. apply fromHex_prefix_pairs, fromHex_pairs_sound in Ep as [Hb _]; [|done]. split; [lia|done].
Qed.

(** A payment id put into the extra field by [createTxExtraWithPaymentId], after a
    transaction public key, is the one [getPaymentIdFromTxExtra] finds, and the
    public key is the one [getTransactionPublicKeyFromExtra] finds. *)
Theorem payment_id_roundtrip k text id :
  pod 32 k -> parsePaymentId text = Some id ->
  exists tx_extra,
    createTxExtraWithPaymentId text (addTransactionPublicKeyToExtra [] k) = Some tx_extra /\
    getPaymentIdFromTxExtra tx_extra = Some id /\ getTransactionPublicKeyFromExtra tx_extra = k.
Proof.
  intros Hk Hid.
  pose proof (parsed_id_pod _ _ Hid) as Hpod.
  assert (Hvn : valid_field (ExtraNonce (setPaymentIdToTransactionExtraNonce id))).
  { destruct Hpod as [Hl Hb]. split; [apply byte_tag; [done|done]|]. simpl. rewrite Hl. done. }
  destruct (parse_fields [] (or_introl eq_refl)
    [ExtraPublicKey k; ExtraNonce (setPaymentIdToTransactionExtraNonce id)]) as (w & Hw & _ & Hp).
  { apply Forall_cons; split; [done|]. apply Forall_cons; split; [done|constructor]. }
  { apply NoDup_ListNoDup. simpl. repeat constructor; simpl; intuition discriminate. }
  exists w. specialize (Hp (length w) nothing_seen [] ltac:(lia) ltac:(by intros [] _)).
  specialize (Hw []). simpl in Hw. unfold addTransactionPublicKeyToExtra in Hw. simpl in Hw.
  unfold createTxExtraWithPaymentId, getPaymentIdFromTxExtra, getTransactionPublicKeyFromExtra, parseTransactionExtra.
  rewrite Hid, Hp. split_and!; [by destruct (addExtraNonceToTransactionExtra _ _)| |done].
  simpl. unfold getPaymentIdFromTransactionExtraNonce. simpl. by rewrite (proj1 Hpod).
Qed.

Lemma payment_id_roundtrip_witness :
  exists tx_extra,
    createTxExtraWithPaymentId (str "00000000000000000000000000000000000000000000000000000000000000ff")
      (addTransactionPublicKeyToExtra [] (zeros 32)) = Some tx_extra /\
    getPaymentIdFromTxExtra tx_extra = Some (zeros 31 ++ [255]) /\
    getTransactionPublicKeyFromExtra tx_extra = zeros 32.
Proof.
  apply (payment_id_roundtrip (zeros 32)
    (str "00000000000000000000000000000000000000000000000000000000000000ff") (zeros 31 ++ [255])).
  - apply podb_spec. reflexivity.
  - reflexivity.
Defined.

End TransactionExtra.
