(* ===== verification/ParseExtra.v ===== *)
(** * The wallets' parser of the extra field

    [src/src/utilities/ParseExtra.cpp].  The code walks iterators over the byte
    vector and moves them by sizes it read from the data; the model keeps an
    iterator as its (signed) position and checks every access: reading outside
    the vector, or copying a range that is not inside it, is
    [UndefinedBehaviour].  Moving an iterator is not checked, only its use. *)

From S2P Require Import Prelude.
From S2P Require Import Varint.
From S2P Require Import StringTools.
From S2P Require Import Config.
From S2P Require Import Types.
Import Varint.Varint StringTools.StringTools Config.Constants Types.Types.

Module ParseExtra.

Record MergedMiningTag := mkMergedMiningTag {
  depth : Z;
  merkleRoot : Hash
}.

Record ParsedExtra := mkParsedExtra {
  transactionPublicKey : PublicKey;
  paymentID : list Z;
  mergedMiningTag : MergedMiningTag;
  extraData : list Z;
  transactionPowNonce : Z
}.

Definition empty_extra : ParsedExtra :=
  mkParsedExtra (repeat 0 32) [] (mkMergedMiningTag 0 (repeat 0 32)) [] 0.

Record seen_fields := mkSeenFields {
  seenPubKey : bool;
  seenNonce : bool;
  seenExtraData : bool;
  seenPaymentID : bool;
  seenMergedMiningTag : bool;
  seenPowNonce : bool
}.

(** The range [[first, last)] of a vector. *)
Definition range (l : list Z) (first last : Z) : outcome (list Z) :=
  if (0 <=? first) && (first <=? last) && (last <=? Z.of_nat (length l))
  then Ok (take (Z.to_nat (last - first)) (drop (Z.to_nat first) l))
  else Err (UndefinedBehaviour "range outside the vector").

(** [read_varint(it, end, value)] of a [size_t]: the code as a [size_t], and the
    value. *)
Definition read_size (l : list Z) (it : Z) : outcome (Z * Z) :=
  let! tail := range l it (Z.of_nat (length l)) in
  let '(code, value) := read_varint 64 tail in
  Ok (u64 code, value).

(** Adding a [size_t] to an iterator moves it by the signed value. *)
Definition advance (it n : Z) : Z := it + i64_of_u64 (u64 n).

(** The loop over the nonce data; returns [advanceIterator] with the fields. *)
Fixpoint nonce_loop (fuel : nat) (nonceData : list Z) (is_ advanceIterator : Z)
    (seen : seen_fields) (parsed : ParsedExtra) : outcome (Z * seen_fields * ParsedExtra) :=
  match fuel with
  | O => Err OutOfFuel
  | S fuel =>
    if is_ =? Z.of_nat (length nonceData) then Ok (advanceIterator, seen, parsed)
    else
      let! s := vec_at nonceData is_ in
      let nElementsRemaining := u64 (Z.of_nat (length nonceData) - is_) in
      if (s =? TX_EXTRA_PAYMENT_ID_IDENTIFIER) && (32 <? nElementsRemaining) && negb (seenPaymentID seen) then
        let! paymentIDHash := range nonceData (is_ + 1) (is_ + 1 + 32) in
        nonce_loop fuel nonceData (is_ + 32 + 1) (u64 (advanceIterator + 1 + 32))
          (mkSeenFields (seenPubKey seen) (seenNonce seen) (seenExtraData seen) true
             (seenMergedMiningTag seen) (seenPowNonce seen))
          (mkParsedExtra (transactionPublicKey parsed) (toHex paymentIDHash) (mergedMiningTag parsed)
             (extraData parsed) (transactionPowNonce parsed))
      else if (s =? TX_EXTRA_ARBITRARY_DATA_IDENTIFIER) && (1 <? nElementsRemaining) && negb (seenExtraData seen) then
        let! (readDataSize, dataSize) := read_size nonceData (is_ + 1) in
        if u64 (1 + readDataSize + dataSize) <=? nElementsRemaining then
          let first := advance (is_ + 1) readDataSize in
          let! data := range nonceData first (advance first dataSize) in
          nonce_loop fuel nonceData (advance is_ (readDataSize + dataSize) + 1)
            (u64 (advanceIterator + 1 + readDataSize + dataSize))
            (mkSeenFields (seenPubKey seen) (seenNonce seen) true (seenPaymentID seen)
               (seenMergedMiningTag seen) (seenPowNonce seen))
            (mkParsedExtra (transactionPublicKey parsed) (paymentID parsed) (mergedMiningTag parsed)
               (extraData parsed ++ data) (transactionPowNonce parsed))
        else nonce_loop fuel nonceData (is_ + 1) advanceIterator seen parsed
      else nonce_loop fuel nonceData (is_ + 1) advanceIterator seen parsed
  end.

(** The main loop; [it] is the position of the iterator. *)
Fixpoint extra_loop (fuel : nat) (extra : list Z) (it : Z) (seen : seen_fields) (parsed : ParsedExtra)
  : outcome ParsedExtra :=
  match fuel with
  | O => Err OutOfFuel
  | S fuel =>
    if negb (it <? Z.of_nat (length extra)) then Ok parsed
    else if seenPubKey seen && seenPaymentID seen && seenMergedMiningTag seen && seenExtraData seen
            && seenPowNonce seen then Ok parsed
    else
      let! c := vec_at extra it in
      let elementsRemaining := u64 (Z.of_nat (length extra) - it) in
      if (c =? TX_EXTRA_PUBKEY_IDENTIFIER) && (32 <? elementsRemaining) && negb (seenPubKey seen) then
        let! k := range extra (it + 1) (it + 1 + 32) in
        extra_loop fuel extra (it + 32 + 1)
          (mkSeenFields true (seenNonce seen) (seenExtraData seen) (seenPaymentID seen)
             (seenMergedMiningTag seen) (seenPowNonce seen))
          (mkParsedExtra k (paymentID parsed) (mergedMiningTag parsed) (extraData parsed)
             (transactionPowNonce parsed))
      else if (c =? TX_EXTRA_NONCE_IDENTIFIER) && (1 <? elementsRemaining) && negb (seenNonce seen) then
        let! (readNonceSize, nonceSize) := read_size extra (it + 1) in
        let! (advanceIterator, seen, parsed) :=
          if u64 (readNonceSize + nonceSize) <? elementsRemaining then
            let first := advance (it + 1) readNonceSize in
            let! nonceData := range extra first (advance first nonceSize) in
            nonce_loop (2 * length nonceData + 4) nonceData 0 readNonceSize seen parsed
          else Ok (readNonceSize, seen, parsed) in
        extra_loop fuel extra (advance it advanceIterator + 1)
          (mkSeenFields (seenPubKey seen) true (seenExtraData seen) (seenPaymentID seen)
             (seenMergedMiningTag seen) (seenPowNonce seen))
          parsed
      else
        let! next :=
          if (c =? TX_EXTRA_MERGE_MINING_IDENTIFIER) && (1 <? elementsRemaining) && negb (seenMergedMiningTag seen)
          then
            let! (readDataSize, dataSize) := read_size extra (it + 1) in
            if (u64 (dataSize + readDataSize) <? elementsRemaining) && (33 <=? dataSize) then
              let! (readDepthSize, d) := read_size extra (advance (it + 1) readDataSize) in
              let dataBegin := advance (advance (it + 1) readDataSize) readDepthSize in
              let! root := range extra dataBegin (dataBegin + 32) in
              Ok (Some (advance it (readDepthSize + 32), mkMergedMiningTag (u8 d) root))
            else Ok None
          else Ok None in
        match next with
        | Some (it, tag) =>
          extra_loop fuel extra (it + 1)
            (mkSeenFields (seenPubKey seen) (seenNonce seen) (seenExtraData seen) (seenPaymentID seen)
               true (seenPowNonce seen))
            (mkParsedExtra (transactionPublicKey parsed) (paymentID parsed) tag (extraData parsed)
               (transactionPowNonce parsed))
        | None =>
          if (c =? TX_EXTRA_TRANSACTION_POW_NONCE_IDENTIFIER) && (8 <? elementsRemaining)
             && negb (seenPowNonce seen) then
            let! tmp := range extra (it + 1) (it + 1 + 8) in
            extra_loop fuel extra (it + 8 + 1)
              (mkSeenFields (seenPubKey seen) (seenNonce seen) (seenExtraData seen) (seenPaymentID seen)
                 (seenMergedMiningTag seen) true)
              (mkParsedExtra (transactionPublicKey parsed) (paymentID parsed) (mergedMiningTag parsed)
                 (extraData parsed) (le_to_Z tmp))
          else extra_loop fuel extra (it + 1) seen parsed
        end
  end.

(** Two rounds per byte and a few more are enough, since the iterator moves
    backwards at most once per kind of field. *)
Definition parseExtra (extra : list Z) : outcome ParsedExtra :=
  extra_loop (2 * length extra + 4) extra 0 (mkSeenFields false false false false false false) empty_extra.

Definition getPaymentIDFromExtra (extra : list Z) : outcome (list Z) :=
  let! parsed := parseExtra extra in Ok (paymentID parsed).

Definition getTransactionPublicKeyFromExtra (extra : list Z) : outcome PublicKey :=
  let! parsed := parseExtra extra in Ok (transactionPublicKey parsed).

Definition getMergedMiningTagFromExtra (extra : list Z) : outcome MergedMiningTag :=
  let! parsed := parseExtra extra in Ok (mergedMiningTag parsed).

Definition getExtraDataFromExtra (extra : list Z) : outcome (list Z) :=
  let! parsed := parseExtra extra in Ok (extraData parsed).

Definition getTransactionPowNonceFromExtra (extra : list Z) : outcome Z :=
  let! parsed := parseExtra extra in Ok (transactionPowNonce parsed).

(** ** Reading at a known position *)

Lemma range_app a b c first last :
  first = Z.of_nat (length a) -> last = first + Z.of_nat (length b) -> range (a ++ b ++ c) first last = Ok b.
Proof.
  intros -> ->. unfold range. rewrite !length_app.
  rewrite !(proj2 (Z.leb_le _ _)) by lia. cbn [andb]. rewrite Nat2Z.id, drop_app_length.
  replace (Z.to_nat _) with (length b) by lia. by rewrite take_app_length.
Qed.

Lemma range_tail a b first last :
  first = Z.of_nat (length a) -> last = Z.of_nat (length (a ++ b)) -> range (a ++ b) first last = Ok b.
Proof. intros -> ->. rewrite <- (app_nil_r b) at 1. apply range_app; [done|]. rewrite length_app. lia. Qed.

Lemma vec_at_app (a : list Z) x c p : p = Z.of_nat (length a) -> vec_at (a ++ x :: c) p = Ok x.
Proof. intros ->. apply vec_at_ok; [lia|]. by rewrite Nat2Z.id, list_lookup_middle. Qed.

Lemma advance_small it n : 0 <= n < 2 ^ 62 -> advance it n = it + n.
Proof.
  intros Hn. unfold advance. rewrite wrap_small by (unfold fits; lia). unfold i64_of_u64.
  by rewrite (proj2 (Z.ltb_lt _ _)) by lia.
Qed.

(** Nonce data that is a payment id. *)
Lemma nonce_loop_payment_id id adv seen parsed :
  length id = 32%nat -> seenPaymentID seen = false ->
  nonce_loop (2 * length (0 :: id) + 4) (0 :: id) 0 adv seen parsed =
    Ok (u64 (adv + 1 + 32),
        mkSeenFields (seenPubKey seen) (seenNonce seen) (seenExtraData seen) true
          (seenMergedMiningTag seen) (seenPowNonce seen),
        mkParsedExtra (transactionPublicKey parsed) (toHex id) (mergedMiningTag parsed) (extraData parsed)
          (transactionPowNonce parsed)).
Proof.
  intros Hid Hs. assert (Hlen : length (0 :: id) = 33%nat) by (simpl; lia).
  rewrite Hlen. change (2 * 33 + 4)%nat with (S (S 68)). generalize 68%nat as fuel. intros fuel.
  cbn [nonce_loop]. rewrite Hlen. change (0 =? Z.of_nat 33) with false.
  change (vec_at (0 :: id) 0) with (@Ok Z 0). cbn [obind]. change (u64 (Z.of_nat 33 - 0)) with 33.
  change ((0 =? TX_EXTRA_PAYMENT_ID_IDENTIFIER) && (32 <? 33)) with true. rewrite Hs. cbn [andb negb].
  assert (range (0 :: id) (0 + 1) (0 + 1 + 32) = Ok id) as ->.
  { change (0 :: id) with ([0] ++ id). apply range_tail; [done|]. simpl. lia. }
  cbn [obind]. change (0 + 32 + 1 =? Z.of_nat 33) with true. done.
Qed.

(** One field at the position of the iterator. *)
Section Steps.
Context (extra : list Z) (Hsize : Z.of_nat (length extra) < 2 ^ 62).

Lemma extra_loop_pubkey fuel pre k rest it seen parsed :
  extra = pre ++ 1 :: k ++ rest -> it = Z.of_nat (length pre) -> length k = 32%nat -> seenPubKey seen = false ->
  extra_loop (S fuel) extra it seen parsed =
    extra_loop fuel extra (it + 33)
      (mkSeenFields true (seenNonce seen) (seenExtraData seen) (seenPaymentID seen)
         (seenMergedMiningTag seen) (seenPowNonce seen))
      (mkParsedExtra k (paymentID parsed) (mergedMiningTag parsed) (extraData parsed) (transactionPowNonce parsed)).
Proof.
  intros E -> Hk Hs. assert (Hlen : Z.of_nat (length extra) = Z.of_nat (length pre) + 33 + Z.of_nat (length rest)).
  { rewrite E, length_app. simpl. rewrite length_app, Hk. lia. }
  cbn [extra_loop]. rewrite (proj2 (Z.ltb_lt _ _)) by lia. cbn [negb]. rewrite Hs. cbn [andb].
  rewrite E at 1. rewrite vec_at_app by done. cbn [obind]. rewrite wrap_small by (unfold fits; lia).
  rewrite (proj2 (Z.ltb_lt 32 _)) by lia. change (1 =? TX_EXTRA_PUBKEY_IDENTIFIER) with true. cbn [andb negb].
  assert (range extra (Z.of_nat (length pre) + 1) (Z.of_nat (length pre) + 1 + 32) = Ok k) as ->.
  { rewrite E. change (1 :: k ++ rest) with ([1] ++ k ++ rest). rewrite app_assoc.
    apply range_app; rewrite ?length_app; simpl; lia. }
  cbn [obind]. f_equal. lia.
Qed.

Lemma extra_loop_payment_id fuel pre id rest it seen parsed :
  extra = pre ++ [2; 33; 0] ++ id ++ rest -> it = Z.of_nat (length pre) -> length id = 32%nat ->
  seenPaymentID seen = false -> seenNonce seen = false ->
  extra_loop (S fuel) extra it seen parsed =
    extra_loop fuel extra (it + 35)
      (mkSeenFields (seenPubKey seen) true (seenExtraData seen) true
         (seenMergedMiningTag seen) (seenPowNonce seen))
      (mkParsedExtra (transactionPublicKey parsed) (toHex id) (mergedMiningTag parsed) (extraData parsed)
         (transactionPowNonce parsed)).
Proof.
  intros E -> Hid Hs Hn. assert (Hlen : Z.of_nat (length extra) = Z.of_nat (length pre) + 35 + Z.of_nat (length rest)).
  { rewrite E, length_app. simpl. rewrite length_app, Hid. lia. }
  cbn [extra_loop]. rewrite (proj2 (Z.ltb_lt _ _)) by lia. cbn [negb].
  rewrite Hs, Hn, andb_false_r. cbn [andb]. rewrite E at 1. cbn [app]. rewrite vec_at_app by done. cbn [obind].
  rewrite (wrap_small 64 (Z.of_nat (length extra) - _)) by (unfold fits; lia).
  change (2 =? TX_EXTRA_PUBKEY_IDENTIFIER) with false. change (2 =? TX_EXTRA_NONCE_IDENTIFIER) with true.
  rewrite (proj2 (Z.ltb_lt 1 _)) by lia. cbn [andb negb].
  assert (read_size extra (Z.of_nat (length pre) + 1) = Ok (1, 33)) as ->.
  { unfold read_size. rewrite E at 1. change ([2; 33; 0] ++ id ++ rest) with ([2] ++ 33 :: 0 :: id ++ rest).
    rewrite app_assoc, range_tail; [done|rewrite length_app; simpl; lia|].
    rewrite E, <- app_assoc. done. }
  cbn [obind]. change (u64 (1 + 33)) with 34. rewrite (proj2 (Z.ltb_lt 34 _)) by lia.
  rewrite !(advance_small _ 1), !(advance_small _ 33) by lia.
  assert (range extra (Z.of_nat (length pre) + 1 + 1) (Z.of_nat (length pre) + 1 + 1 + 33) = Ok (0 :: id)) as ->.
  { rewrite E. change ([2; 33; 0] ++ id ++ rest) with ([2; 33] ++ (0 :: id) ++ rest). rewrite app_assoc.
    apply range_app; rewrite ?length_app; simpl; lia. }
  cbn [obind]. rewrite nonce_loop_payment_id by done. cbn [obind].
  change (u64 (1 + 1 + 32)) with 34. rewrite advance_small by lia. f_equal. lia.
Qed.

Lemma extra_loop_pow fuel pre pow rest it seen parsed :
  extra = pre ++ 4 :: pow ++ rest -> it = Z.of_nat (length pre) -> length pow = 8%nat -> seenPowNonce seen = false ->
  extra_loop (S fuel) extra it seen parsed =
    extra_loop fuel extra (it + 9)
      (mkSeenFields (seenPubKey seen) (seenNonce seen) (seenExtraData seen) (seenPaymentID seen)
         (seenMergedMiningTag seen) true)
      (mkParsedExtra (transactionPublicKey parsed) (paymentID parsed) (mergedMiningTag parsed) (extraData parsed)
         (le_to_Z pow)).
Proof.
  intros E -> Hk Hs. assert (Hlen : Z.of_nat (length extra) = Z.of_nat (length pre) + 9 + Z.of_nat (length rest)).
  { rewrite E, length_app. simpl. rewrite length_app, Hk. lia. }
  cbn [extra_loop]. rewrite (proj2 (Z.ltb_lt _ _)) by lia. cbn [negb]. rewrite Hs, andb_false_r.
  rewrite E at 1. rewrite vec_at_app by done. cbn [obind].
  change (4 =? TX_EXTRA_PUBKEY_IDENTIFIER) with false. change (4 =? TX_EXTRA_NONCE_IDENTIFIER) with false.
  change (4 =? TX_EXTRA_MERGE_MINING_IDENTIFIER) with false.
  change (4 =? TX_EXTRA_TRANSACTION_POW_NONCE_IDENTIFIER) with true. cbn [andb obind].
  rewrite wrap_small by (unfold fits; lia). rewrite (proj2 (Z.ltb_lt 8 _)) by lia. cbn [andb negb].
  assert (range extra (Z.of_nat (length pre) + 1) (Z.of_nat (length pre) + 1 + 8) = Ok pow) as ->.
  { rewrite E. change (4 :: pow ++ rest) with ([4] ++ pow ++ rest). rewrite app_assoc.
    apply range_app; rewrite ?length_app; simpl; lia. }
  cbn [obind]. f_equal. lia.
Qed.

Lemma extra_loop_end fuel it seen parsed :
  it = Z.of_nat (length extra) -> extra_loop (S fuel) extra it seen parsed = Ok parsed.
Proof. intros ->. cbn [extra_loop]. by rewrite Z.ltb_irrefl. Qed.

End Steps.

(** ** Properties *)

(** C37. [parseExtra] reads back the extra field of a transaction with a payment
    id and a proof-of-work nonce: the public key, the id in hexadecimal and the
    little-endian nonce, whatever their bytes. *)
Theorem parseExtra_correct k id pow :
  pod 32 k -> pod 32 id -> pod 8 pow ->
  parseExtra (1 :: k ++ [2; 33; 0] ++ id ++ 4 :: pow) =
    Ok (mkParsedExtra k (toHex id) (mkMergedMiningTag 0 (repeat 0 32)) [] (le_to_Z pow)).
Proof.
  intros [Hk _] [Hid _] [Hpow _]. set (extra := 1 :: k ++ [2; 33; 0] ++ id ++ 4 :: pow).
  assert (Hlen : length extra = 77%nat).
  { unfold extra. rewrite app_comm_cons, !length_app. simpl. rewrite Hk, Hid, Hpow. done. }
  unfold parseExtra. rewrite Hlen. change (2 * 77 + 4)%nat with (S (S (S (S 154)))).
  rewrite (extra_loop_pubkey extra) with (pre := []) (k := k) (rest := [2; 33; 0] ++ id ++ 4 :: pow); try done; [|lia].
  rewrite (extra_loop_payment_id extra) with (pre := 1 :: k) (id := id) (rest := 4 :: pow); try done;
    [|lia|simpl; lia].
  rewrite (extra_loop_pow extra) with (pre := (1 :: k) ++ [2; 33; 0] ++ id) (pow := pow) (rest := []); try done;
    [|lia| |].
  - rewrite extra_loop_end by (rewrite Hlen; done). done.
  - unfold extra. by rewrite app_nil_r, <- !app_assoc.
  - rewrite !length_app. simpl. lia.
Qed.

Lemma parseExtra_correct_witness :
  parseExtra (1 :: repeat 7 32 ++ [2; 33; 0] ++ repeat 9 32 ++ 4 :: [1; 2; 0; 0; 0; 0; 0; 0]) =
    Ok (mkParsedExtra (repeat 7 32) (toHex (repeat 9 32)) (mkMergedMiningTag 0 (repeat 0 32)) [] 513).
Proof.
  apply (parseExtra_correct (repeat 7 32) (repeat 9 32) [1; 2; 0; 0; 0; 0; 0; 0]);
    apply podb_spec; reflexivity.
Defined.

(** [parseExtra] is not safe on arbitrary bytes: the error codes of
    [read_varint] are added to the iterator as sizes. A nonce tag followed by a
    non-canonical length moves the iterator two positions back, before the first
    byte of the vector, where the loop then reads. *)
Theorem parseExtra_reads_outside :
  parseExtra [2; 0x80; 0x00] = Err (UndefinedBehaviour "index out of range") /\
  parseExtra [2; 3; 0x7f; 0x81; 0x00] = Err (UndefinedBehaviour "range outside the vector").
Proof. split; reflexivity. Qed.

End ParseExtra.
