(* ===== verification/Addresses.v ===== *)
(** * Addresses and payment ids

    [src/src/utilities/Addresses.cpp] and the checks of
    [src/src/errors/ValidateParameters.cpp] that concern addresses, payment ids
    and hashes.  An integrated address is an address with a payment id in front of
    its keys.  The hash of the checksum and the check that a key is a point of the
    curve are parameters; an [Error] is its code. *)

From S2P Require Import Prelude.
From S2P Require Import Varint.
From S2P Require Import Base58.
From S2P Require Import StringTools.
From S2P Require Import Config.
From S2P Require Import Types.
From S2P Require Import Serialization.
From S2P Require Import SerializationProofs.
From S2P Require Import TransactionExtra.
Import Varint.Varint Base58.Base58 StringTools.StringTools Config.parameters Types.Types Serialization.Serialization.
Import TransactionExtra.TransactionExtra.

Module Addresses.

Inductive ErrorCode :=
| SUCCESS
| FILENAME_NON_EXISTENT
| INVALID_WALLET_FILENAME
| NOT_A_WALLET_FILE
| WALLET_FILE_CORRUPTED
| WRONG_PASSWORD
| UNSUPPORTED_WALLET_FILE_FORMAT_VERSION
| INVALID_MNEMONIC
| WALLET_FILE_ALREADY_EXISTS
| WILL_OVERFLOW
| ADDRESS_NOT_IN_WALLET
| NOT_ENOUGH_BALANCE
| ADDRESS_WRONG_LENGTH
| ADDRESS_WRONG_PREFIX
| ADDRESS_NOT_BASE58
| ADDRESS_NOT_VALID
| INTEGRATED_ADDRESS_PAYMENT_ID_INVALID
| FEE_TOO_SMALL
| NO_DESTINATIONS_GIVEN
| AMOUNT_IS_ZERO
| FAILED_TO_CREATE_RING_SIGNATURE
| MIXIN_TOO_SMALL
| MIXIN_TOO_BIG
| PAYMENT_ID_WRONG_LENGTH
| PAYMENT_ID_INVALID
| ADDRESS_IS_INTEGRATED
| CONFLICTING_PAYMENT_IDS
| CANT_GET_FAKE_OUTPUTS
| NOT_ENOUGH_FAKE_OUTPUTS
| INVALID_GENERATED_KEYIMAGE
| DAEMON_OFFLINE
| DAEMON_ERROR
| TOO_MANY_INPUTS_TO_FIT_IN_BLOCK
| MNEMONIC_INVALID_WORD
| MNEMONIC_WRONG_LENGTH
| MNEMONIC_INVALID_CHECKSUM
| FULLY_OPTIMIZED
| FUSION_MIXIN_TOO_LARGE
| SUBWALLET_ALREADY_EXISTS
| ILLEGAL_VIEW_WALLET_OPERATION
| ILLEGAL_NON_VIEW_WALLET_OPERATION
| KEYS_NOT_DETERMINISTIC
| CANNOT_DELETE_PRIMARY_ADDRESS
| TX_PRIVATE_KEY_NOT_FOUND
| AMOUNTS_NOT_PRETTY
| UNEXPECTED_FEE
| NEGATIVE_VALUE_GIVEN
| INVALID_KEY_FORMAT
| HASH_WRONG_LENGTH
| HASH_INVALID
| NON_INTEGER_GIVEN
| INVALID_PUBLIC_KEY
| INVALID_PRIVATE_KEY
| INVALID_EXTRA_DATA
| UNKNOWN_ERROR
| DAEMON_STILL_PROCESSING
| OUTPUT_DECOMPOSITION
| PREPARED_TRANSACTION_EXPIRED
| PREPARED_TRANSACTION_NOT_FOUND
| AMOUNT_UGLY
| UNLOCK_TIME_TOO_SMALL.

#[export] Instance ErrorCode_eq_dec : EqDecision ErrorCode.
Proof. solve_decision. Defined.

Definition addressPrefix : list Z := str "Wrkz".
Definition standardAddressLength : Z := 98.
Definition integratedAddressLength : Z := standardAddressLength + (64 * 11) / 8.

(** ** Payment ids and hashes as text *)

(** The regular expression [[a-zA-Z0-9]{64}] on a text of 64 characters. *)
Definition is_alphanumeric (c : Z) : bool :=
  ((97 <=? c) && (c <=? 122)) || ((65 <=? c) && (c <=? 90)) || ((48 <=? c) && (c <=? 57)).

Definition validatePaymentID (paymentID : list Z) : ErrorCode :=
  if is_empty paymentID then SUCCESS
  else if negb (Z.of_nat (length paymentID) =? 64) then PAYMENT_ID_WRONG_LENGTH
  else if negb (forallb is_alphanumeric paymentID) then PAYMENT_ID_INVALID
  else SUCCESS.

Definition validateHash (hash : list Z) : ErrorCode :=
  if negb (Z.of_nat (length hash) =? 64) then HASH_WRONG_LENGTH
  else if negb (forallb is_alphanumeric hash) then HASH_INVALID
  else SUCCESS.

Section Addresses.
Context (cn_fast_hash : list Z -> list Z) (check_key : PublicKey -> bool)
  (secret_key_to_public_key : SecretKey -> PublicKey).

(** ** Addresses *)

Definition default_address : AccountPublicAddress := mkAccountPublicAddress (zeros 32) (zeros 32).

Definition getAccountAddressAsStr (prefix : Z) (adr : AccountPublicAddress) : outcome (list Z) :=
  let ba := match toBinaryArray_opt ser_AccountPublicAddress adr with Some ba => ba | None => [] end in
  encode_addr cn_fast_hash prefix ba.

Definition parseAccountAddressString (text : list Z) : option (Z * AccountPublicAddress) :=
  match decode_addr cn_fast_hash text with
  | None => None
  | Some (prefix, data) =>
    match fromBinaryArray_opt ser_AccountPublicAddress default_address data with
    | None => None
    | Some adr =>
      if check_key (spendPublicKey adr) && check_key (viewPublicKey adr) then Some (prefix, adr) else None
    end
  end.

Definition addressToKeys (address : list Z) : outcome (PublicKey * PublicKey) :=
  match parseAccountAddressString address with
  | None => Err (RuntimeError "Address is not valid!")
  | Some (prefix, parsedAddress) =>
    if negb (prefix =? CRYPTONOTE_PUBLIC_ADDRESS_BASE58_PREFIX) then Err (RuntimeError "Address is not valid!")
    else Ok (spendPublicKey parsedAddress, viewPublicKey parsedAddress)
  end.

Fixpoint addressesToSpendKeys (addresses : list (list Z)) : outcome (list PublicKey) :=
  match addresses with
  | [] => Ok []
  | address :: addresses =>
    let! (spendKey, _) := addressToKeys address in
    let! spendKeys := addressesToSpendKeys addresses in
    Ok (spendKey :: spendKeys)
  end.

Definition publicKeysToAddress (publicSpendKey publicViewKey : PublicKey) : outcome (list Z) :=
  getAccountAddressAsStr CRYPTONOTE_PUBLIC_ADDRESS_BASE58_PREFIX (mkAccountPublicAddress publicSpendKey publicViewKey).

Definition privateKeysToAddress (privateSpendKey privateViewKey : SecretKey) : outcome (list Z) :=
  getAccountAddressAsStr CRYPTONOTE_PUBLIC_ADDRESS_BASE58_PREFIX
    (mkAccountPublicAddress (secret_key_to_public_key privateSpendKey) (secret_key_to_public_key privateViewKey)).

(** [decoded.substr(0, 64)] and [decoded.substr(64)]. *)
Definition split_payment_id (decoded : list Z) : outcome (list Z * list Z) :=
  if (length decoded <? 64)%nat then Err (RuntimeError "std::out_of_range")
  else Ok (take 64 decoded, drop 64 decoded).

(** The address and the payment id.  The keys stay uninitialised when the rest does
    not parse. *)
Definition extractIntegratedAddressData (address : list Z) : outcome (list Z * list Z) :=
  let decoded := match decode_addr cn_fast_hash address with Some (_, decoded) => decoded | None => [] end in
  let! (paymentID, ba) := split_payment_id decoded in
  match fromBinaryArray_opt ser_AccountPublicAddress default_address ba with
  | None => Err (UndefinedBehaviour "uninitialised keys")
  | Some addr =>
    let! actualAddress := getAccountAddressAsStr CRYPTONOTE_PUBLIC_ADDRESS_BASE58_PREFIX addr in
    Ok (actualAddress, paymentID)
  end.

(** ** Validation of addresses *)

(** The part of the loop for an integrated address: an error or the address it
    contains. *)
Definition integrated_part (address : list Z) : outcome (ErrorCode + list Z) :=
  match decode_addr cn_fast_hash address with
  | None => Ok (inl ADDRESS_NOT_BASE58)
  | Some (_, decoded) =>
    let paymentID := take 64 decoded in
    match createTxExtraWithPaymentId paymentID [] with
    | None => Ok (inl INTEGRATED_ADDRESS_PAYMENT_ID_INVALID)
    | Some _ =>
      let! (_, ba) := split_payment_id decoded in
      match fromBinaryArray_opt ser_AccountPublicAddress default_address ba with
      | None => Ok (inl ADDRESS_NOT_VALID)
      | Some addr =>
        let! address := getAccountAddressAsStr CRYPTONOTE_PUBLIC_ADDRESS_BASE58_PREFIX addr in
        Ok (inr address)
      end
    end
  end.

Definition validateAddress (integratedAddressesAllowed : bool) (address : list Z) : outcome ErrorCode :=
  let len := Z.of_nat (length address) in
  if negb (len =? standardAddressLength) && negb (len =? integratedAddressLength) then Ok ADDRESS_WRONG_LENGTH
  else if negb (bool_decide (take (length addressPrefix) address = addressPrefix)) then Ok ADDRESS_WRONG_PREFIX
  else
    let! r :=
      if len =? integratedAddressLength then
        if negb integratedAddressesAllowed then Ok (inl ADDRESS_IS_INTEGRATED) else integrated_part address
      else Ok (inr address) in
    match r with
    | inl error => Ok error
    | inr address =>
      match parseAccountAddressString address with
      | None => Ok ADDRESS_NOT_VALID
      | Some _ => Ok SUCCESS
      end
    end.

Fixpoint validateAddresses (addresses : list (list Z)) (integratedAddressesAllowed : bool) : outcome ErrorCode :=
  match addresses with
  | [] => Ok SUCCESS
  | address :: addresses =>
    let! error := validateAddress integratedAddressesAllowed address in
    if bool_decide (error = SUCCESS) then validateAddresses addresses integratedAddressesAllowed else Ok error
  end.

Fixpoint validateIntegratedAddresses (destinations : list (list Z * Z)) (paymentID : list Z) : outcome ErrorCode :=
  match destinations with
  | [] => Ok SUCCESS
  | (address, _) :: destinations =>
    if negb (Z.of_nat (length address) =? integratedAddressLength) then validateIntegratedAddresses destinations paymentID
    else
      let! (_, extractedPaymentID) := extractIntegratedAddressData address in
      if is_empty paymentID then validateIntegratedAddresses destinations extractedPaymentID
      else if negb (bool_decide (paymentID = extractedPaymentID)) then Ok CONFLICTING_PAYMENT_IDS
      else validateIntegratedAddresses destinations paymentID
  end.

Definition createIntegratedAddress (address paymentID : list Z) : outcome (ErrorCode * list Z) :=
  match validatePaymentID paymentID with
  | SUCCESS =>
    let! error := validateAddresses [address] false in
    if negb (bool_decide (error = SUCCESS)) then Ok (error, [])
    else
      match parseAccountAddressString address with
      | None => Err (UndefinedBehaviour "uninitialised keys")
      | Some (_, addr) =>
        let keys := match toBinaryArray_opt ser_AccountPublicAddress addr with Some ba => ba | None => [] end in
        let! integratedAddress := encode_addr cn_fast_hash CRYPTONOTE_PUBLIC_ADDRESS_BASE58_PREFIX (paymentID ++ keys) in
        Ok (SUCCESS, integratedAddress)
      end
  | error => Ok (error, [])
  end.

End Addresses.

(** ** Keys as bytes *)

Definition valid_address (a : AccountPublicAddress) : Prop := pod 32 (spendPublicKey a) /\ pod 32 (viewPublicKey a).

#[export] Instance codec_AccountPublicAddress : Codec ser_AccountPublicAddress valid_address any.
Proof.
  eapply (codec_ext
    (ser_iso (fun '(a, b) => mkAccountPublicAddress a b) (fun a => (spendPublicKey a, viewPublicKey a))
      (ser_dep ser_PublicKey (fun _ => ser_PublicKey))) _ valid_address _ any); [|done|done|].
  - intros a s. unfold ser_AccountPublicAddress. ser_ext.
  - eapply codec_iso; [..|eapply codec_dep; [apply codec_key|intros; apply codec_key]].
    + by intros [].
    + by intros (? & ?).
    + by intros [].
    + by intros (? & ?).
    + done.
Qed.

Lemma address_bytes spend view : pod 32 spend -> pod 32 view ->
  toBinaryArray_opt ser_AccountPublicAddress (mkAccountPublicAddress spend view) = Some (spend ++ view) /\
  fromBinaryArray_opt ser_AccountPublicAddress default_address (spend ++ view) = Some (mkAccountPublicAddress spend view).
Proof.
  intros Hs Hv. assert (E : toBinaryArray ser_AccountPublicAddress (mkAccountPublicAddress spend view) = Ok (spend ++ view)).
  { reflexivity. }
  unfold toBinaryArray_opt, fromBinaryArray_opt. rewrite E. split; [done|].
  assert (Hb : bytes_ok (spend ++ view)) by (apply Forall_app; split; [apply Hs|apply Hv]).
  rewrite (proj2 (fromBinaryArray_iff ser_AccountPublicAddress valid_address any default_address I (spend ++ view)
    (mkAccountPublicAddress spend view) Hb) (conj (conj Hs Hv) E)). done.
Qed.

(** ** Payment ids *)

Lemma hex_is_alphanumeric c : character_value c <= 15 -> is_byte c /\ is_alphanumeric c = true.
Proof.
  intros H. destruct (is_byte_dec c) as [Hb|Hb]; [|rewrite character_value_outside in H by done; lia]. split; [done|].
  pose proof (byte_cases (fun c => (15 <? character_value c) || is_alphanumeric c) eq_refl c Hb) as E. simpl in E.
  apply orb_true_iff in E as [E%Z.ltb_lt|E]; [lia|done].
Qed.

Lemma fromHex_pairs_chars text : forall d,
  Z.odd (Z.of_nat (length text)) = false -> fromHex_pairs text = Ok d ->
  Forall (fun c => character_value c <= 15) text /\ length text = (2 * length d)%nat.
Proof.
  induction text as [|x|x y text IH] using pair_ind; intros d Hodd H; [by injection H as <-|done|].
  rewrite odd_length_pair in Hodd. cbn [fromHex_pairs] in H.
  apply obind_Ok in H as (vx & Hx & H). apply obind_Ok in H as (vy & Hy & H). apply obind_Ok in H as (rest & Hr & [= <-]).
  apply fromHex_char_Ok in Hx as [Hx _]. apply fromHex_char_Ok in Hy as [Hy _].
  destruct (IH rest Hodd Hr) as [Hf Hl]. split; [by repeat constructor|]. simpl. lia.
Qed.

Lemma payment_id_text text id : parsePaymentId text = Some id ->
  length text = 64%nat /\ bytes_ok text /\ forallb is_alphanumeric text = true.
Proof.
  unfold parsePaymentId, podFromHex, fromHex_buffer_opt. destruct (Z.odd _) eqn:Ho; [done|]. destruct (_ <? _); [done|].
  destruct (fromHex_prefix text) as [d [|]] eqn:Ep; [|done]. destruct (Z.eqb_spec (Z.of_nat (length d)) 32); [|done].
  intros _. apply fromHex_prefix_pairs, fromHex_pairs_chars in Ep as [Hf Hl]; [|done]. split; [lia|]. split.
  - eapply Forall_impl; [exact Hf|]. intros c Hc. by apply hex_is_alphanumeric.
  - apply forallb_forall. intros c Hc%list_elem_of_In. rewrite Forall_forall in Hf. by apply hex_is_alphanumeric, Hf.
Qed.

(** ** Texts of addresses *)

Section Proofs.
Context (cn_fast_hash : list Z -> list Z) (check_key : PublicKey -> bool).
Hypothesis hash_bytes : forall l, bytes_ok (cn_fast_hash l) /\ length (cn_fast_hash l) = 32%nat.

Lemma prefix_letters b3 b4 b5 b6 b7 : bytes_ok [b3; b4; b5; b6; b7] ->
  take 4 (letters 11 (le_to_Z (rev [178; 130; 61; b3; b4; b5; b6; b7]))) = addressPrefix.
Proof.
  intros H. rewrite (letters_take 4 7). change (58 ^ Z.of_nat 7) with 2207984167552.
  assert (E : le_to_Z (rev [178; 130; 61; b3; b4; b5; b6; b7]) / 2207984167552 = 5825635).
  { pose proof (le_to_Z_bound (rev [b3; b4; b5; b6; b7]) ltac:(by apply Forall_rev)) as Hb. cbn [rev app length le_to_Z] in *.
    change (256 ^ Z.of_nat 5) with (2 ^ 40) in Hb. symmetry. apply (Z.div_unique _ _ _
      (b7 + 256 * (b6 + 256 * (b5 + 256 * (b4 + 256 * (b3 + 256 * (61 + 256 * (130 + 256 * (178 + 256 * 0))))))) - 5825635 * 2207984167552)); lia. }
  rewrite E. reflexivity.
Qed.

(** An address text of the network. *)
Lemma encode_addr_text data : bytes_ok data -> (5 <= length data)%nat ->
  exists text, encode_addr cn_fast_hash CRYPTONOTE_PUBLIC_ADDRESS_BASE58_PREFIX data = Ok text /\ bytes_ok text /\
    decode_addr cn_fast_hash text = Some (CRYPTONOTE_PUBLIC_ADDRESS_BASE58_PREFIX, data) /\
    take (length addressPrefix) text = addressPrefix /\
    Z.of_nat (length text) =
      (Z.of_nat (length data) + 7) / 8 * 11 + encoded_block_size ((Z.of_nat (length data) + 7) mod 8).
Proof.
  intros Hb Hl. destruct (decode_encode_addr cn_fast_hash hash_bytes CRYPTONOTE_PUBLIC_ADDRESS_BASE58_PREFIX data)
    as (text & He & Hbt & Hen & Hd); [unfold fits; ground|done|].
  exists text. split_and!; [done|done|done| |].
  all: change (write_varint CRYPTONOTE_PUBLIC_ADDRESS_BASE58_PREFIX) with [178; 130; 61] in Hen.
  all: set (sum := take 4 (cn_fast_hash ([178; 130; 61] ++ data))) in *.
  all: assert (Hs : bytes_ok sum /\ length sum = 4%nat)
    by (subst sum; split; [apply Forall_take, hash_bytes|rewrite length_take; destruct (hash_bytes ([178; 130; 61] ++ data)); lia]).
  all: assert (Hall : bytes_ok ([178; 130; 61] ++ data ++ sum))
    by (repeat (apply Forall_cons; split; [unfold is_byte, fits; lia|]); apply Forall_app; split; [done|apply Hs]).
  - apply encode_head in Hen; [|done|rewrite !length_app; simpl; lia].
    do 5 (destruct data as [|? data]; [simpl in Hl; lia|]).
    change (length addressPrefix) with 4%nat. replace (take 4 text) with (take 4 (take 11 text)) by (by rewrite take_take).
    rewrite Hen. cbn [app take]. apply prefix_letters.
    repeat (apply Forall_cons in Hb as [? Hb]). do 5 (apply Forall_cons; split; [done|]). constructor.
  - apply encode_length in Hen; [|done]. rewrite !length_app, (proj2 Hs) in Hen. rewrite Hen. cbn [length].
    repeat f_equal; lia.
Qed.

(** Two keys on the curve. *)
Definition keys_ok (spend view : PublicKey) : Prop :=
  pod 32 spend /\ pod 32 view /\ check_key spend = true /\ check_key view = true.

Lemma parse_keys spend view text prefix : keys_ok spend view ->
  decode_addr cn_fast_hash text = Some (prefix, spend ++ view) ->
  parseAccountAddressString cn_fast_hash check_key text = Some (prefix, mkAccountPublicAddress spend view).
Proof.
  intros (Hs & Hv & Cs & Cv) H. unfold parseAccountAddressString. rewrite H, (proj2 (address_bytes _ _ Hs Hv)).
  cbn [spendPublicKey viewPublicKey]. by rewrite Cs, Cv.
Qed.

Lemma keys_length spend view : keys_ok spend view -> length (spend ++ view) = 64%nat /\ bytes_ok (spend ++ view).
Proof.
  intros ([Ls Hs] & [Lv Hv] & _). rewrite length_app. split; [lia|]. by apply Forall_app.
Qed.

(** The text of an address without payment id. *)
Lemma standard_address spend view : keys_ok spend view ->
  exists text, publicKeysToAddress cn_fast_hash spend view = Ok text /\ Z.of_nat (length text) = standardAddressLength /\
    take (length addressPrefix) text = addressPrefix /\
    decode_addr cn_fast_hash text = Some (CRYPTONOTE_PUBLIC_ADDRESS_BASE58_PREFIX, spend ++ view).
Proof.
  intros Hk. pose proof Hk as (Hs & Hv & _). destruct (keys_length _ _ Hk) as [Hl Hb].
  destruct (encode_addr_text (spend ++ view) Hb ltac:(lia)) as (text & He & _ & Hd & Hp & Hlen).
  exists text. unfold publicKeysToAddress, getAccountAddressAsStr. rewrite (proj1 (address_bytes _ _ Hs Hv)).
  split_and!; [done|rewrite Hlen, Hl; reflexivity|done|done].
Qed.

Lemma validate_standard text prefix spend view allowed : keys_ok spend view ->
  Z.of_nat (length text) = standardAddressLength -> take (length addressPrefix) text = addressPrefix ->
  decode_addr cn_fast_hash text = Some (prefix, spend ++ view) ->
  validateAddresses cn_fast_hash check_key [text] allowed = Ok SUCCESS.
Proof.
  intros Hk Hl Hp Hd. cbn [validateAddresses]. unfold validateAddress. rewrite Hl, bool_decide_true by done.
  change (standardAddressLength =? standardAddressLength) with true.
  change (standardAddressLength =? integratedAddressLength) with false. cbn [negb andb obind].
  by rewrite (parse_keys _ _ _ _ Hk Hd).
Qed.

(** The text of an address with a payment id. *)
Lemma integrated_address paymentID spend view : keys_ok spend view -> length paymentID = 64%nat -> bytes_ok paymentID ->
  exists text, encode_addr cn_fast_hash CRYPTONOTE_PUBLIC_ADDRESS_BASE58_PREFIX (paymentID ++ spend ++ view) = Ok text /\
    Z.of_nat (length text) = integratedAddressLength /\ take (length addressPrefix) text = addressPrefix /\
    decode_addr cn_fast_hash text = Some (CRYPTONOTE_PUBLIC_ADDRESS_BASE58_PREFIX, paymentID ++ spend ++ view).
Proof.
  intros Hk Hpl Hpb. destruct (keys_length _ _ Hk) as [Hl Hb].
  destruct (encode_addr_text (paymentID ++ spend ++ view)) as (text & He & _ & Hd & Hp & Hlen);
    [by apply Forall_app|rewrite length_app; lia|].
  exists text. split_and!; [done|rewrite Hlen, length_app, Hpl, Hl; reflexivity|done|done].
Qed.

Lemma validatePaymentID_hex text id : parsePaymentId text = Some id -> validatePaymentID text = SUCCESS.
Proof.
  intros (Hl & _ & Ha)%payment_id_text. unfold validatePaymentID. rewrite Hl, Ha. by destruct (is_empty text).
Qed.

Lemma create_integrated paymentID spend view address : keys_ok spend view -> validatePaymentID paymentID = SUCCESS ->
  publicKeysToAddress cn_fast_hash spend view = Ok address ->
  createIntegratedAddress cn_fast_hash check_key address paymentID =
  let! text := encode_addr cn_fast_hash CRYPTONOTE_PUBLIC_ADDRESS_BASE58_PREFIX (paymentID ++ spend ++ view) in
  Ok (SUCCESS, text).
Proof.
  intros Hk Hp Ha. pose proof Hk as (Hs & Hv & _). destruct (standard_address _ _ Hk) as (text & Ht & Hl & Hpre & Hd).
  rewrite Ha in Ht. injection Ht as <-. unfold createIntegratedAddress.
  rewrite Hp, (validate_standard _ _ _ _ _ Hk Hl Hpre Hd). cbn [obind]. rewrite bool_decide_true by done. cbn [negb].
  by rewrite (parse_keys _ _ _ _ Hk Hd), (proj1 (address_bytes _ _ Hs Hv)).
Qed.

Lemma split_integrated (paymentID rest : list Z) : length paymentID = 64%nat ->
  split_payment_id (paymentID ++ rest) = Ok (paymentID, rest) /\ take 64 (paymentID ++ rest) = paymentID.
Proof.
  intros Hl. unfold split_payment_id. rewrite length_app, Hl, take_app_length', drop_app_length' by done. done.
Qed.

Lemma createTxExtra_hex text id : parsePaymentId text = Some id -> pod 32 id -> exists e, createTxExtraWithPaymentId text [] = Some e.
Proof.
  intros H [Hl _]. unfold createTxExtraWithPaymentId. rewrite H. unfold addExtraNonceToTransactionExtra, setPaymentIdToTransactionExtraNonce.
  cbn [length]. rewrite Hl. by eexists.
Qed.

(** ** Properties *)

(** C29. The address of two keys on the curve has the length and the prefix of the
    network, passes [validateAddresses], and gives the two keys back. *)
Theorem address_accepted spend view :
  pod 32 spend -> pod 32 view -> check_key spend = true -> check_key view = true ->
  exists address, publicKeysToAddress cn_fast_hash spend view = Ok address /\
    Z.of_nat (length address) = standardAddressLength /\
    (forall allowed, validateAddresses cn_fast_hash check_key [address] allowed = Ok SUCCESS) /\
    addressToKeys cn_fast_hash check_key address = Ok (spend, view).
Proof.
  intros Hs Hv Cs Cv. assert (Hk : keys_ok spend view) by done.
  destruct (standard_address _ _ Hk) as (text & Ht & Hl & Hp & Hd). exists text. split_and!; [done|done| |].
  - intros allowed. by eapply validate_standard.
  - unfold addressToKeys. by rewrite (parse_keys _ _ _ _ Hk Hd).
Qed.

(** Integrated addresses: from an address of the network and a payment id in
    hexadecimal, [createIntegratedAddress] makes a text of the integrated length
    that passes [validateAddresses] where integrated addresses are allowed and is
    refused as integrated where they are not, and from which
    [extractIntegratedAddressData] recovers the address and the payment id. *)
Theorem integrated_address_roundtrip spend view address paymentID id :
  pod 32 spend -> pod 32 view -> check_key spend = true -> check_key view = true ->
  publicKeysToAddress cn_fast_hash spend view = Ok address -> parsePaymentId paymentID = Some id ->
  exists text, createIntegratedAddress cn_fast_hash check_key address paymentID = Ok (SUCCESS, text) /\
    Z.of_nat (length text) = integratedAddressLength /\
    validateAddresses cn_fast_hash check_key [text] true = Ok SUCCESS /\
    validateAddresses cn_fast_hash check_key [text] false = Ok ADDRESS_IS_INTEGRATED /\
    extractIntegratedAddressData cn_fast_hash text = Ok (address, paymentID).
Proof.
  intros Hs Hv Cs Cv Ha Hid. assert (Hk : keys_ok spend view) by done.
  destruct (payment_id_text _ _ Hid) as (Hpl & Hpb & _).
  destruct (integrated_address paymentID spend view Hk Hpl Hpb) as (text & He & Hl & Hp & Hd).
  destruct (split_integrated paymentID (spend ++ view) Hpl) as [Hsplit Htake].
  destruct (standard_address _ _ Hk) as (address' & Ha' & Hal & Hap & Had). rewrite Ha in Ha'. injection Ha' as <-.
  unfold publicKeysToAddress in Ha.
  exists text. split_and!; [|done| | |].
  - rewrite (create_integrated _ spend view); [by rewrite He|done|by eapply validatePaymentID_hex|done].
  - cbn [validateAddresses]. unfold validateAddress, integrated_part. rewrite Hl, bool_decide_true by done.
    change (integratedAddressLength =? integratedAddressLength) with true. rewrite andb_false_r. cbn [negb].
    rewrite Hd, Htake. destruct (createTxExtra_hex _ _ Hid (parsed_id_pod _ _ Hid)) as [e ->].
    rewrite Hsplit. cbn [obind]. rewrite (proj2 (address_bytes _ _ Hs Hv)), Ha. cbn [obind].
    by rewrite (parse_keys _ _ _ _ Hk Had).
  - cbn [validateAddresses]. unfold validateAddress. rewrite Hl, bool_decide_true by done.
    change (integratedAddressLength =? integratedAddressLength) with true. by rewrite andb_false_r.
  - unfold extractIntegratedAddressData. rewrite Hd, Hsplit. cbn [obind].
    by rewrite (proj2 (address_bytes _ _ Hs Hv)), Ha.
Qed.

(** [validatePaymentID] lets more through than payment ids: without a payment id the
    integrated address is the address itself, and a text of 64 letters that is
    not hexadecimal gives an address that does not validate. *)
Lemma integrated_address_gaps spend view address :
  keys_ok spend view -> publicKeysToAddress cn_fast_hash spend view = Ok address ->
  createIntegratedAddress cn_fast_hash check_key address [] = Ok (SUCCESS, address) /\
  exists text, createIntegratedAddress cn_fast_hash check_key address (repeat 122 64) = Ok (SUCCESS, text) /\
    validateAddresses cn_fast_hash check_key [text] true = Ok INTEGRATED_ADDRESS_PAYMENT_ID_INVALID.
Proof.
  intros Hk Ha. pose proof Hk as (Hs & Hv & _). split.
  - rewrite (create_integrated _ spend view); [|done|done|done]. unfold publicKeysToAddress, getAccountAddressAsStr in Ha.
    rewrite (proj1 (address_bytes _ _ Hs Hv)) in Ha. cbn [app]. by rewrite Ha.
  - destruct (integrated_address (repeat 122 64) spend view Hk) as (text & He & Hl & Hp & Hd);
      [done|apply Forall_forall; intros x Hx%list_elem_of_In%repeat_spec; subst; unfold is_byte, fits; lia|].
    exists text. split; [rewrite (create_integrated _ spend view); [by rewrite He|done|done|done]|].
    cbn [validateAddresses]. unfold validateAddress, integrated_part. rewrite Hl, bool_decide_true by done.
    change (integratedAddressLength =? integratedAddressLength) with true. rewrite andb_false_r. cbn [negb].
    by rewrite Hd, (proj2 (split_integrated (repeat 122 64) (spend ++ view) eq_refl)).
Qed.

End Proofs.

Lemma sample_hash_bytes : forall l : list Z, bytes_ok (repeat 7 32) /\ length (repeat 7 32) = 32%nat.
Proof. intros l. split; [|done]. repeat (constructor; [unfold is_byte, fits; lia|]). constructor. Qed.

Lemma sample_key_pod (x : Z) : 0 <= x < 256 -> pod 32 (repeat x 32).
Proof.
  intros Hx. split; [done|]. apply Forall_forall. intros y Hy%list_elem_of_In%repeat_spec. subst. unfold is_byte, fits. pow2. lia.
Qed.

Lemma address_accepted_witness : exists address,
  publicKeysToAddress (fun _ => repeat 7 32) (repeat 1 32) (repeat 2 32) = Ok address /\
  addressToKeys (fun _ => repeat 7 32) (fun _ => true) address = Ok (repeat 1 32, repeat 2 32).
Proof.
  destruct (address_accepted (fun _ => repeat 7 32) (fun _ => true) sample_hash_bytes (repeat 1 32) (repeat 2 32))
    as (address & H1 & _ & _ & H2); [apply sample_key_pod; lia|apply sample_key_pod; lia|reflexivity|reflexivity|].
  exists address. split; [exact H1|exact H2].
Defined.

Lemma integrated_address_roundtrip_witness : exists address text,
  createIntegratedAddress (fun _ => repeat 7 32) (fun _ => true) address (repeat 97 64) = Ok (SUCCESS, text) /\
  extractIntegratedAddressData (fun _ => repeat 7 32) text = Ok (address, repeat 97 64).
Proof.
  assert (Ha : exists address, publicKeysToAddress (fun _ => repeat 7 32) (repeat 1 32) (repeat 2 32) = Ok address)
    by (eexists; vm_compute; reflexivity).
  destruct Ha as [address Ha]. exists address.
  destruct (integrated_address_roundtrip (fun _ => repeat 7 32) (fun _ => true) sample_hash_bytes (repeat 1 32) (repeat 2 32)
    address (repeat 97 64) (repeat 170 32)) as (text & H1 & _ & _ & _ & H2);
    [apply sample_key_pod; lia|apply sample_key_pod; lia|reflexivity|reflexivity|exact Ha|reflexivity|].
  exists text. split; [exact H1|exact H2].
Defined.

End Addresses.
