(* ===== verification/Mnemonics.v ===== *)
(** * Mnemonic seeds

    [src/src/mnemonics/Mnemonics.cpp] and [CRC32.h]: a private key as 24 words, each
    32 bits as three words, followed by one of them as checksum.  Proved here:
    the table of the CRC is the table of its polynomial, every key has exactly
    one seed in lower case, and what happens to words that are not in lower
    case. *)

From S2P Require Import Prelude.
From S2P Require Import StringTools.
From S2P Require Import Types.
From S2P Require Import Serialization.
From S2P Require Import Addresses.
From S2P Require Import WordList.
Import StringTools.StringTools Types.Types Serialization.Serialization Addresses.Addresses WordList.WordList.

Module CRC32.

Definition table : list Z :=
  [0; 1996959894; 3993919788; 2567524794; 124634137; 1886057615; 3915621685; 2657392035; 249268274;
   2044508324; 3772115230; 2547177864; 162941995; 2125561021; 3887607047; 2428444049; 498536548; 1789927666;
   4089016648; 2227061214; 450548861; 1843258603; 4107580753; 2211677639; 325883990; 1684777152; 4251122042;
   2321926636; 335633487; 1661365465; 4195302755; 2366115317; 997073096; 1281953886; 3579855332; 2724688242;
   1006888145; 1258607687; 3524101629; 2768942443; 901097722; 1119000684; 3686517206; 2898065728; 853044451;
   1172266101; 3705015759; 2882616665; 651767980; 1373503546; 3369554304; 3218104598; 565507253; 1454621731;
   3485111705; 3099436303; 671266974; 1594198024; 3322730930; 2970347812; 795835527; 1483230225; 3244367275;
   3060149565; 1994146192; 31158534; 2563907772; 4023717930; 1907459465; 112637215; 2680153253; 3904427059;
   2013776290; 251722036; 2517215374; 3775830040; 2137656763; 141376813; 2439277719; 3865271297; 1802195444;
   476864866; 2238001368; 4066508878; 1812370925; 453092731; 2181625025; 4111451223; 1706088902; 314042704;
   2344532202; 4240017532; 1658658271; 366619977; 2362670323; 4224994405; 1303535960; 984961486; 2747007092;
   3569037538; 1256170817; 1037604311; 2765210733; 3554079995; 1131014506; 879679996; 2909243462;
   3663771856; 1141124467; 855842277; 2852801631; 3708648649; 1342533948; 654459306; 3188396048; 3373015174;
   1466479909; 544179635; 3110523913; 3462522015; 1591671054; 702138776; 2966460450; 3352799412; 1504918807;
   783551873; 3082640443; 3233442989; 3988292384; 2596254646; 62317068; 1957810842; 3939845945; 2647816111;
   81470997; 1943803523; 3814918930; 2489596804; 225274430; 2053790376; 3826175755; 2466906013; 167816743;
   2097651377; 4027552580; 2265490386; 503444072; 1762050814; 4150417245; 2154129355; 426522225; 1852507879;
   4275313526; 2312317920; 282753626; 1742555852; 4189708143; 2394877945; 397917763; 1622183637; 3604390888;
   2714866558; 953729732; 1340076626; 3518719985; 2797360999; 1068828381; 1219638859; 3624741850;
   2936675148; 906185462; 1090812512; 3747672003; 2825379669; 829329135; 1181335161; 3412177804; 3160834842;
   628085408; 1382605366; 3423369109; 3138078467; 570562233; 1426400815; 3317316542; 2998733608; 733239954;
   1555261956; 3268935591; 3050360625; 752459403; 1541320221; 2607071920; 3965973030; 1969922972; 40735498;
   2617837225; 3943577151; 1913087877; 83908371; 2512341634; 3803740692; 2075208622; 213261112; 2463272603;
   3855990285; 2094854071; 198958881; 2262029012; 4057260610; 1759359992; 534414190; 2176718541; 4139329115;
   1873836001; 414664567; 2282248934; 4279200368; 1711684554; 285281116; 2405801727; 4167216745; 1634467795;
   376229701; 2685067896; 3608007406; 1308918612; 956543938; 2808555105; 3495958263; 1231636301; 1047427035;
   2932959818; 3654703836; 1088359270; 936918000; 2847714899; 3736837829; 1202900863; 817233897; 3183342108;
   3401237130; 1404277552; 615818150; 3134207493; 3453421203; 1423857449; 601450431; 3009837614; 3294710456;
   1567103746; 711928724; 3020668471; 3272380065; 1510334235; 755167117].

(** The index is taken of a [char], which is signed. *)
Fixpoint crc32_loop (input : list Z) (crc : Z) : outcome Z :=
  match input with
  | [] => Ok crc
  | c :: input =>
    let byteIndex := Z.land (Z.lxor (u64 (schar c)) crc) 0xff in
    let! entry := vec_at table byteIndex in
    crc32_loop input (Z.lxor (Z.shiftr crc 8) entry)
  end.

Definition crc32 (input : list Z) : outcome Z :=
  let! crc := crc32_loop input 0xFFFFFFFF in
  Ok (Z.lxor crc 0xFFFFFFFF).

(** ** The polynomial division bit by bit *)

Definition polynomial : Z := 0xEDB88320.

Definition divide_bit (crc : Z) : Z :=
  Z.lxor (Z.shiftr crc 1) (if Z.odd crc then polynomial else 0).

Definition divide_byte (crc : Z) : Z := Nat.iter 8 divide_bit crc.

Definition crc32_bitwise (input : list Z) : Z :=
  Z.lxor (foldl (fun crc c => divide_byte (Z.lxor crc c)) 0xFFFFFFFF input) 0xFFFFFFFF.

Lemma divide_bit_lxor x y : divide_bit (Z.lxor x y) = Z.lxor (divide_bit x) (divide_bit y).
Proof.
  unfold divide_bit. rewrite Z.shiftr_lxor, <- !Z.bit0_odd, Z.lxor_spec, !Z.bit0_odd.
  generalize (Z.shiftr x 1) (Z.shiftr y 1) polynomial. intros a b p.
  destruct (Z.odd x), (Z.odd y); apply Z.bits_inj'; intros n _; rewrite ?Z.lxor_spec, ?Z.bits_0; simpl; rewrite ?Z.lxor_spec, ?Z.bits_0;
    by destruct (Z.testbit a n), (Z.testbit b n), (Z.testbit p n).
Qed.

Lemma divide_byte_lxor x y : divide_byte (Z.lxor x y) = Z.lxor (divide_byte x) (divide_byte y).
Proof. unfold divide_byte. cbn [Nat.iter nat_rect]. by rewrite !divide_bit_lxor. Qed.

Lemma divide_bit_even x : divide_bit (2 * x) = x.
Proof.
  unfold divide_bit. rewrite Z.odd_mul. cbn [Z.odd andb]. rewrite Z.lxor_0_r, Z.shiftr_div_pow2 by lia.
  change (2 ^ 1) with 2. rewrite Z.mul_comm. by apply Z.div_mul.
Qed.

Lemma divide_byte_shift x : divide_byte (256 * x) = x.
Proof.
  unfold divide_byte. cbn [Nat.iter nat_rect].
  replace (256 * x) with (2 * (2 * (2 * (2 * (2 * (2 * (2 * (2 * x)))))))) by lia. by rewrite !divide_bit_even.
Qed.

(** A byte of the division: what is above the low byte is shifted down, the low
    byte is replaced by its table entry. *)
Lemma divide_byte_split x : 0 <= x -> divide_byte x = Z.lxor (Z.shiftr x 8) (divide_byte (Z.land x 255)).
Proof.
  intros Hx. assert (E : x = Z.lxor (256 * Z.shiftr x 8) (Z.land x 255)).
  { change 255 with (Z.ones 8). change 256 with (2 ^ 8). rewrite Z.mul_comm, <- Z.shiftl_mul_pow2 by lia.
    apply Z.bits_inj'. intros n Hn. rewrite Z.lxor_spec, Z.land_spec, Z.shiftl_spec, Z.testbit_ones_nonneg by lia.
    destruct (Z.ltb_spec n 8).
    - by rewrite (Z.testbit_neg_r _ (n - 8)), andb_true_r by lia.
    - rewrite Z.shiftr_spec, andb_false_r, xorb_false_r by lia. f_equal. lia. }
  rewrite E at 1. by rewrite divide_byte_lxor, divide_byte_shift.
Qed.

Lemma table_entry i : 0 <= i < 256 -> vec_at table i = Ok (divide_byte i).
Proof.
  intros Hi. assert (E : table = map (fun n => divide_byte (Z.of_nat n)) (seq 0 256)) by (vm_compute; reflexivity).
  rewrite E. apply vec_at_ok; [lia|]. change (@map nat Z) with (@fmap list _ nat Z).
  rewrite list_lookup_fmap, lookup_seq_lt by lia. simpl. by rewrite Z2Nat.id by lia.
Qed.

Lemma char_index c crc : is_byte c -> Z.land (Z.lxor (u64 (schar c)) crc) 0xff = Z.land (Z.lxor crc c) 255.
Proof.
  intros Hc. assert (E : Z.land (u64 (schar c)) 255 = Z.land c 255).
  { pose proof (byte_cases (fun c => Z.land (u64 (schar c)) 255 =? Z.land c 255) eq_refl c Hc) as H. by apply Z.eqb_eq. }
  apply Z.bits_inj'. intros n Hn. apply (f_equal (fun z => Z.testbit z n)) in E. rewrite !Z.land_spec in *. rewrite !Z.lxor_spec.
  destruct (Z.testbit 255 n); [|by rewrite !andb_false_r]. rewrite !andb_true_r in *. by rewrite E, xorb_comm.
Qed.

Lemma shiftr_lxor_byte crc c : is_byte c -> Z.shiftr (Z.lxor crc c) 8 = Z.shiftr crc 8.
Proof.
  intros Hc. rewrite Z.shiftr_lxor, (Z.shiftr_div_pow2 c), Z.div_small by (unfold is_byte, fits in Hc; lia). apply Z.lxor_0_r.
Qed.

Lemma crc32_loop_bitwise input : bytes_ok input -> forall crc, 0 <= crc ->
  crc32_loop input crc = Ok (foldl (fun crc c => divide_byte (Z.lxor crc c)) crc input).
Proof.
  induction 1 as [|c input Hc _ IH]; intros crc Hcrc; [done|]. cbn [crc32_loop foldl].
  assert (Hx : 0 <= Z.lxor crc c) by (apply Z.lxor_nonneg; unfold is_byte, fits in Hc; lia).
  rewrite (char_index c crc Hc), table_entry
    by (change 255 with (Z.ones 8); rewrite Z.land_ones by lia; apply Z.mod_pos_bound; lia).
  cbn [obind]. rewrite <- (shiftr_lxor_byte crc c Hc), <- divide_byte_split by done. apply IH.
  rewrite divide_byte_split by done. apply Z.lxor_nonneg. split; intros _; [|by apply Z.shiftr_nonneg].
  assert (H : is_byte (Z.land (Z.lxor crc c) 255)).
  { unfold is_byte, fits. change 255 with (Z.ones 8). rewrite Z.land_ones by lia. apply Z.mod_pos_bound. lia. }
  pose proof (byte_cases (fun c => 0 <=? divide_byte c) eq_refl _ H) as Hd. by apply Z.leb_le.
Qed.

(** The table-driven [crc32] is the division by the polynomial of CRC-32, bit by bit. *)
Theorem crc32_correct input : bytes_ok input -> crc32 input = Ok (crc32_bitwise input).
Proof. intros H. unfold crc32. by rewrite crc32_loop_bitwise. Qed.

End CRC32.

Module Mnemonics.

(** ** From words to the key

    The result is an error, with a key that is not initialised, or [SUCCESS] with
    the key. *)

(** [std::find] on the word list, as the distance from its beginning. *)
Fixpoint find_word (words : list (list Z)) (word : list Z) : Z :=
  match words with
  | [] => 0
  | w :: words => if bool_decide (w = word) then 0 else 1 + find_word words word
  end.

Definition wlLen : Z := Z.of_nat (length English).

Definition GetWordIndexes (words : list (list Z)) : list Z := map (find_word English) words.

Definition GetChecksumWord (words : list (list Z)) : outcome (list Z) :=
  let trimmed := concat (map (take 3) words) in
  let! hash := CRC32.crc32 trimmed in
  if (length words =? 0)%nat then Err (UndefinedBehaviour "division by zero")
  else vec_at words (hash mod Z.of_nat (length words)).

Definition HasValidChecksum (words : list (list Z)) : outcome bool :=
  let! checksum := vec_at words (Z.of_nat (length words) - 1) in
  let! derived := GetChecksumWord (take (length words - 1) words) in
  Ok (bool_decide (checksum = derived)).

(** [::tolower] in the locale of the program, which is never set. *)
Definition tolower (c : Z) : Z := if (65 <=? c) && (c <=? 90) then c + 32 else c.

Definition in_word_list (word : list Z) : bool := negb (find_word English (map tolower word) =? wlLen).

(** The product and sums are in [size_t], the result is cast to 32 bits. *)
Definition triple_value (w1 w2 w3 : Z) : Z :=
  u32 (w1 + wlLen * (u64 (u64 (wlLen - w1) + w2) mod wlLen)
       + wlLen * wlLen * (u64 (u64 (wlLen - w2) + w3) mod wlLen)).

(** The loop over [wordIndexes], which stops before the checksum word. *)
Fixpoint key_loop (wordIndexes data : list Z) : outcome (ErrorCode + SecretKey) :=
  match wordIndexes with
  | [] | [_] =>
    if (length data =? 32)%nat then Ok (inr data) else Err (UndefinedBehaviour "bytes of the key")
  | w1 :: w2 :: w3 :: wordIndexes =>
    let val := triple_value w1 w2 w3 in
    if negb (val mod wlLen =? w1) then Ok (inl INVALID_MNEMONIC)
    else key_loop wordIndexes (data ++ Z_to_le 4 val)
  | _ => Err (UndefinedBehaviour "index out of range")
  end.

Definition MnemonicToPrivateKey_words (words : list (list Z)) : outcome (ErrorCode + SecretKey) :=
  if negb (Z.of_nat (length words) =? 25) then Ok (inl MNEMONIC_WRONG_LENGTH)
  else if negb (forallb in_word_list words) then Ok (inl MNEMONIC_INVALID_WORD)
  else
    let! valid := HasValidChecksum words in
    if negb valid then Ok (inl MNEMONIC_INVALID_CHECKSUM)
    else key_loop (GetWordIndexes words) [].

(** [stream >> word] until the end of the text. *)
Fixpoint read_words (text word : list Z) : list (list Z) :=
  match text with
  | [] => if is_empty word then [] else [word]
  | c :: text =>
    if isspace c then if is_empty word then read_words text [] else word :: read_words text []
    else read_words text (word ++ [c])
  end.

Definition MnemonicToPrivateKey (words : list Z) : outcome (ErrorCode + SecretKey) :=
  MnemonicToPrivateKey_words (read_words words []).

(** ** From the key to words *)

Definition value_words (val : Z) : Z * Z * Z :=
  let w1 := val mod wlLen in
  let w2 := u32 (val / wlLen + w1) mod wlLen in
  let w3 := u32 (val / wlLen / wlLen + w2) mod wlLen in
  (w1, w2, w3).

Fixpoint words_loop (privateKey : SecretKey) : outcome (list (list Z)) :=
  match privateKey with
  | b0 :: b1 :: b2 :: b3 :: privateKey =>
    let '(w1, w2, w3) := value_words (le_to_Z [b0; b1; b2; b3]) in
    let! word1 := vec_at English w1 in
    let! word2 := vec_at English w2 in
    let! word3 := vec_at English w3 in
    let! words := words_loop privateKey in
    Ok (word1 :: word2 :: word3 :: words)
  | _ => Ok []
  end.

Fixpoint join_words (words : list (list Z)) : list Z :=
  match words with
  | [] => []
  | [word] => word
  | word :: words => word ++ [32] ++ join_words words
  end.

(** The list [words] when the loops of [PrivateKeyToMnemonic] have ended. *)
Definition seed_words (privateKey : SecretKey) : outcome (list (list Z)) :=
  let! words := words_loop privateKey in
  let! checksum := GetChecksumWord words in
  Ok (words ++ [checksum]).

Definition PrivateKeyToMnemonic (privateKey : SecretKey) : outcome (list Z) :=
  let! words := seed_words privateKey in
  Ok (join_words words).

(** ** The word list *)

(** A word as a number of 12 digits; the list is increasing in it. *)
Definition word_rank (word : list Z) : Z := foldl (fun n c => 256 * n + c) 0 (take 12 (word ++ repeat 0 12)).

Fixpoint increasing (l : list Z) : bool :=
  match l with
  | x :: ((y :: _) as l') => (x <? y) && increasing l'
  | _ => true
  end.

Definition word_ok (word : list Z) : bool := negb (is_empty word) && forallb (fun c => (97 <=? c) && (c <=? 122)) word.

Lemma increasing_NoDup l : increasing l = true -> NoDup l.
Proof.
  intros H. assert (E : forall x m, increasing (x :: m) = true -> Forall (fun y => x < y) m).
  { intros x m. revert x. induction m as [|y m IH]; intros x Hi; [constructor|].
    cbn [increasing] in Hi. apply andb_true_iff in Hi as [Hxy%Z.ltb_lt Hi]. constructor; [done|].
    eapply Forall_impl; [by apply IH|]. simpl. lia. }
  induction l as [|x l IH]; constructor.
  - intros Hx. pose proof (E _ _ H) as F. rewrite Forall_forall in F. specialize (F x Hx). lia.
  - apply IH. destruct l; [done|]. cbn [increasing] in H. by apply andb_true_iff in H as [_ H].
Qed.

Lemma wlLen_eq : wlLen = 1626.
Proof. vm_compute. reflexivity. Qed.

Lemma English_NoDup : NoDup English.
Proof.
  apply (NoDup_fmap_1 word_rank), increasing_NoDup. vm_compute. reflexivity.
Qed.

Lemma English_words : Forall (fun w => word_ok w = true) English.
Proof. apply Forall_forall. intros w Hw%list_elem_of_In. revert w Hw. apply forallb_forall. vm_compute. reflexivity. Qed.

#[local] Opaque English.

Lemma find_word_bound words word : 0 <= find_word words word <= Z.of_nat (length words).
Proof. induction words as [|w words IH]; simpl; [lia|]. case_bool_decide; lia. Qed.

Lemma find_word_at words word i : NoDup words -> words !! i = Some word -> find_word words word = Z.of_nat i.
Proof.
  intros H. revert i. induction H as [|w words Hw H IH]; intros i Hi; [done|]. simpl. destruct i as [|i]; simpl in Hi.
  - injection Hi as ->. by rewrite bool_decide_true.
  - rewrite bool_decide_false, (IH i Hi) by (intros ->; apply Hw; by eapply list_elem_of_lookup_2). lia.
Qed.

Lemma find_word_found words word : find_word words word <> Z.of_nat (length words) ->
  vec_at words (find_word words word) = Ok word.
Proof.
  intros H. apply vec_at_ok; [apply find_word_bound|]. revert H. induction words as [|w words IH]; simpl; [done|].
  case_bool_decide as E; [by subst|]. pose proof (find_word_bound words word). intros Hn.
  replace (Z.to_nat (1 + find_word words word)) with (S (Z.to_nat (find_word words word))) by lia. apply IH. lia.
Qed.

Lemma find_word_in word : word ∈ English -> 0 <= find_word English word < wlLen.
Proof.
  intros [i Hi]%list_elem_of_lookup_1. rewrite (find_word_at _ _ i English_NoDup Hi). unfold wlLen.
  apply lookup_lt_Some in Hi. lia.
Qed.

Lemma English_at i : 0 <= i < wlLen ->
  exists word, vec_at English i = Ok word /\ word ∈ English /\ find_word English word = i.
Proof.
  intros Hi. destruct (lookup_lt_is_Some_2 English (Z.to_nat i)) as [word Hw]; [unfold wlLen in Hi; lia|].
  exists word. split_and!; [apply vec_at_ok; [lia|done]|by eapply list_elem_of_lookup_2|].
  rewrite (find_word_at _ _ _ English_NoDup Hw). lia.
Qed.

Lemma word_of_index i word : word ∈ English -> find_word English word = i -> vec_at English i = Ok word.
Proof. intros Hw <-. apply find_word_found. apply find_word_in in Hw. unfold wlLen in Hw. lia. Qed.

Lemma word_lower word : word ∈ English -> map tolower word = word.
Proof.
  intros Hw. pose proof English_words as H. rewrite Forall_forall in H. specialize (H word Hw).
  apply andb_true_iff in H as [_ H]. clear Hw. induction word as [|c word IH]; [done|]. cbn [forallb map] in *.
  apply andb_true_iff in H as [Hc H]. rewrite IH by done. f_equal. unfold tolower. bool_prop. case_if; [bool_prop; lia|done].
Qed.

Lemma word_in_list word : word ∈ English -> in_word_list word = true.
Proof.
  intros Hw. unfold in_word_list. rewrite word_lower by done. apply find_word_in in Hw. apply negb_true_iff, Z.eqb_neq. lia.
Qed.

(** ** Three words for 32 bits *)

Lemma minus_plus_mod n a b : 0 < n -> (n - a + (b + a) mod n) mod n = b mod n.
Proof.
  intros Hn. rewrite Zplus_mod_idemp_r. replace (n - a + (b + a)) with (b + 1 * n) by lia. by rewrite Z_mod_plus_full.
Qed.

Lemma triple_value_eq w1 w2 w3 : 0 <= w1 < 1626 -> 0 <= w2 < 1626 -> 0 <= w3 < 1626 ->
  triple_value w1 w2 w3 = u32 (w1 + 1626 * ((1626 - w1 + w2) mod 1626) + 1626 * 1626 * ((1626 - w2 + w3) mod 1626)).
Proof.
  intros H1 H2 H3. unfold triple_value. rewrite wlLen_eq.
  rewrite (wrap_small 64 (1626 - w1)), (wrap_small 64 (1626 - w2)) by (unfold fits; pow2; lia).
  by rewrite !(wrap_small 64) by (unfold fits; pow2; lia).
Qed.

Lemma value_words_eq val : fits 32 val ->
  value_words val = (val mod 1626, (val / 1626 + val mod 1626) mod 1626,
    (val / 1626 / 1626 + (val / 1626 + val mod 1626) mod 1626) mod 1626).
Proof.
  intros H. unfold value_words. rewrite wlLen_eq. unfold fits in H. pow2.
  rewrite (wrap_small 32 (val / 1626 + val mod 1626)) by (unfold fits; pow2; Z.div_mod_to_equations; lia).
  by rewrite wrap_small by (unfold fits; pow2; Z.div_mod_to_equations; lia).
Qed.

Lemma value_words_bound val w1 w2 w3 : value_words val = (w1, w2, w3) ->
  0 <= w1 < wlLen /\ 0 <= w2 < wlLen /\ 0 <= w3 < wlLen.
Proof.
  unfold value_words. intros [= <- <- <-]. assert (0 < wlLen) by (rewrite wlLen_eq; lia). split_and!; by apply Z.mod_pos_bound.
Qed.

Lemma triple_of_value val w1 w2 w3 : fits 32 val -> value_words val = (w1, w2, w3) ->
  triple_value w1 w2 w3 = val /\ val mod wlLen = w1.
Proof.
  intros Hv H. destruct (value_words_bound _ _ _ _ H) as (H1 & H2 & H3). rewrite value_words_eq in H by done.
  rewrite wlLen_eq in *. injection H as <- <- <-. split; [|done]. rewrite triple_value_eq by done.
  rewrite !minus_plus_mod by lia.
  unfold fits in Hv. pow2. rewrite wrap_small; [|unfold fits; pow2]; Z.div_mod_to_equations; lia.
Qed.

(** The test of the remainder refuses exactly the triples above 32 bits, so the
    accepted ones are the words of their value. *)
Lemma value_of_triple w1 w2 w3 : 0 <= w1 < wlLen -> 0 <= w2 < wlLen -> 0 <= w3 < wlLen ->
  triple_value w1 w2 w3 mod wlLen = w1 -> value_words (triple_value w1 w2 w3) = (w1, w2, w3).
Proof.
  rewrite wlLen_eq. intros H1 H2 H3. rewrite triple_value_eq by done. set (x := (1626 - w1 + w2) mod 1626).
  set (y := (1626 - w2 + w3) mod 1626). assert (Hx : 0 <= x < 1626) by (apply Z.mod_pos_bound; lia).
  assert (Hy : 0 <= y < 1626) by (apply Z.mod_pos_bound; lia).
  assert (Ex : (x + w1) mod 1626 = w2) by (unfold x; Z.div_mod_to_equations; lia).
  assert (Ey : (y + w2) mod 1626 = w3) by (unfold y; Z.div_mod_to_equations; lia). clearbody x y.
  set (v := w1 + 1626 * x + 1626 * 1626 * y). intros Hm.
  assert (Hv : fits 32 v).
  { unfold fits, wrap in *. pow2. destruct (Z_lt_le_dec v 4294967296) as [|Hge]; [unfold v in *; lia|].
    assert (E : v mod 4294967296 = v - 4294967296) by (unfold v in *; Z.div_mod_to_equations; lia).
    rewrite E in Hm. unfold v in Hm. Z.div_mod_to_equations. lia. }
  rewrite wrap_small by done. rewrite value_words_eq by done.
  assert (E1 : v mod 1626 = w1) by (unfold v; Z.div_mod_to_equations; lia).
  assert (E2 : v / 1626 = x + 1626 * y) by (unfold v; Z.div_mod_to_equations; lia).
  assert (E3 : (x + 1626 * y) / 1626 = y) by (Z.div_mod_to_equations; lia).
  rewrite E1, E2, E3. replace (x + 1626 * y + w1) with (x + w1 + y * 1626) by lia. by rewrite Z_mod_plus_full, Ex, Ey.
Qed.

(** ** The loops *)

Lemma key_loop_step w1 w2 w3 indexes data :
  key_loop (w1 :: w2 :: w3 :: indexes) data =
  if negb (triple_value w1 w2 w3 mod wlLen =? w1) then Ok (inl INVALID_MNEMONIC)
  else key_loop indexes (data ++ Z_to_le 4 (triple_value w1 w2 w3)).
Proof. reflexivity. Qed.

Lemma words_loop_step b0 b1 b2 b3 key w1 w2 w3 word1 word2 word3 words :
  value_words (le_to_Z [b0; b1; b2; b3]) = (w1, w2, w3) ->
  vec_at English w1 = Ok word1 -> vec_at English w2 = Ok word2 -> vec_at English w3 = Ok word3 ->
  words_loop key = Ok words -> words_loop (b0 :: b1 :: b2 :: b3 :: key) = Ok (word1 :: word2 :: word3 :: words).
Proof. intros H H1 H2 H3 H4. cbn [words_loop]. rewrite H, H1. cbn [obind]. rewrite H2. cbn [obind]. by rewrite H3, H4. Qed.

Lemma four_bytes b0 b1 b2 b3 : bytes_ok [b0; b1; b2; b3] ->
  fits 32 (le_to_Z [b0; b1; b2; b3]) /\ Z_to_le 4 (le_to_Z [b0; b1; b2; b3]) = [b0; b1; b2; b3].
Proof. intros H. split; [apply (le_to_Z_bound _ H)|apply (Z_to_le_to_Z _ H)]. Qed.

(** The words of a key give back the key. *)
Lemma words_of_key n : forall key, length key = (4 * n)%nat -> bytes_ok key ->
  exists words, words_loop key = Ok words /\ length words = (3 * n)%nat /\ Forall (fun w => w ∈ English) words /\
    forall indexes data, key_loop (GetWordIndexes words ++ indexes) data = key_loop indexes (data ++ key).
Proof.
  induction n as [|n IH]; intros key Hl Hb.
  { destruct key; [|done]. exists []. split_and!; [done|done|constructor|]. intros. by rewrite app_nil_r. }
  destruct key as [|b0 [|b1 [|b2 [|b3 key]]]]; cbn [length] in Hl; try lia.
  apply (Forall_app _ [b0; b1; b2; b3] key) in Hb as [Hb4 Hb].
  destruct (IH key ltac:(lia) Hb) as (words & Hw & Hwl & Hwe & Hk). destruct (four_bytes _ _ _ _ Hb4) as [Hf Hle].
  destruct (value_words (le_to_Z [b0; b1; b2; b3])) as [[w1 w2] w3] eqn:Ev.
  destruct (value_words_bound _ _ _ _ Ev) as (H1 & H2 & H3). destruct (triple_of_value _ _ _ _ Hf Ev) as [Ht Hm].
  destruct (English_at w1 H1) as (word1 & V1 & I1 & F1). destruct (English_at w2 H2) as (word2 & V2 & I2 & F2).
  destruct (English_at w3 H3) as (word3 & V3 & I3 & F3). exists (word1 :: word2 :: word3 :: words).
  split_and!; [by eapply words_loop_step|simpl; lia|by repeat constructor|]. intros indexes data.
  unfold GetWordIndexes. cbn [map app]. rewrite F1, F2, F3, key_loop_step, Ht, (proj2 (Z.eqb_eq _ _) Hm), Hle. cbn [negb].
  fold (GetWordIndexes words). rewrite Hk. by rewrite <- app_assoc.
Qed.

(** The key of words in lower case gives back the words. *)
Lemma key_of_words n : forall words data key i, length words = (3 * n)%nat -> Forall (fun w => w ∈ English) words ->
  key_loop (GetWordIndexes words ++ [i]) data = Ok (inr key) ->
  length key = 32%nat /\ exists key', key = data ++ key' /\ bytes_ok key' /\ words_loop key' = Ok words.
Proof.
  induction n as [|n IH]; intros words data key i Hl Hw H.
  { destruct words; [|done]. cbn in H. destruct (Nat.eqb_spec (length data) 32); [|done]. injection H as <-.
    split; [done|]. exists []. split_and!; [by rewrite app_nil_r|constructor|done]. }
  destruct words as [|word1 [|word2 [|word3 words]]]; cbn [length] in Hl; try lia.
  inversion Hw as [|? ? I1 Hw1]; subst. inversion Hw1 as [|? ? I2 Hw2]; subst. inversion Hw2 as [|? ? I3 Hw3]; subst.
  unfold GetWordIndexes in H. cbn [map app] in H. fold (GetWordIndexes words) in H. rewrite key_loop_step in H.
  set (w1 := find_word English word1) in *. set (w2 := find_word English word2) in *. set (w3 := find_word English word3) in *.
  destruct (Z.eqb_spec (triple_value w1 w2 w3 mod wlLen) w1) as [Em|]; cbn [negb] in H; [|done].
  apply IH in H as (Hlen & key' & -> & Hb & Hk); [|lia|done]. split; [done|].
  apply value_of_triple in Em; [|by apply find_word_in..]. pose proof (Z_to_le_bytes 4 (triple_value w1 w2 w3)) as Hb4.
  exists (Z_to_le 4 (triple_value w1 w2 w3) ++ key'). split_and!; [by rewrite app_assoc|by apply Forall_app|].
  assert (El : le_to_Z (Z_to_le 4 (triple_value w1 w2 w3)) = triple_value w1 w2 w3).
  { rewrite le_to_Z_to_le. apply Z.mod_small. apply (wrap_fits 32). lia. }
  revert El. generalize (triple_value w1 w2 w3) as v, Em. intros v Ev El. cbn [Z_to_le app]. cbn [Z_to_le] in El.
  eapply words_loop_step; [by rewrite El|by apply word_of_index..|done].
Qed.

(** ** The checksum *)

Lemma word_bytes word : word ∈ English -> bytes_ok word.
Proof.
  intros Hw. pose proof English_words as H. rewrite Forall_forall in H. specialize (H word Hw).
  apply andb_true_iff in H as [_ H]. rewrite forallb_forall in H. apply Forall_forall. intros c Hc%list_elem_of_In.
  specialize (H c Hc). bool_prop. unfold is_byte, fits. pow2. lia.
Qed.

Lemma GetChecksumWord_Ok words : Forall (fun w => w ∈ English) words -> words <> [] ->
  exists word, GetChecksumWord words = Ok word /\ word ∈ words.
Proof.
  intros Hw Hn. unfold GetChecksumWord. rewrite CRC32.crc32_correct.
  - cbn [obind]. destruct words as [|w words]; [done|]. change ((length (w :: words) =? 0)%nat) with false. cbv iota.
    set (m := Z.of_nat (length (w :: words))). assert (Hm : 0 < m) by (unfold m; simpl; lia).
    set (h := CRC32.crc32_bitwise _). pose proof (Z.mod_pos_bound h m Hm) as Hr.
    destruct (lookup_lt_is_Some_2 (w :: words) (Z.to_nat (h mod m))) as [x Hx]; [unfold m in *; lia|].
    exists x. split; [apply vec_at_ok; [lia|done]|by eapply list_elem_of_lookup_2].
  - unfold bytes_ok. rewrite Forall_concat, Forall_map. eapply Forall_impl; [exact Hw|]. intros word Hword. simpl.
    by apply Forall_take, word_bytes.
Qed.

Lemma HasValidChecksum_snoc words word derived : GetChecksumWord words = Ok derived ->
  HasValidChecksum (words ++ [word]) = Ok (bool_decide (word = derived)).
Proof.
  intros H. unfold HasValidChecksum. rewrite length_app, Nat.add_sub. cbn [length].
  rewrite (vec_at_ok _ _ word), take_app_length; [|lia|]. { cbn [obind]. by rewrite H. }
  replace (Z.to_nat (Z.of_nat (length words + 1) - 1)) with (length words) by lia. by rewrite list_lookup_middle.
Qed.

(** ** The text *)

Lemma read_words_word word text acc : forallb (fun c => (97 <=? c) && (c <=? 122)) word = true ->
  read_words (word ++ text) acc = read_words text (acc ++ word).
Proof.
  revert acc. induction word as [|c word IH]; intros acc H; [by rewrite app_nil_r|]. cbn [forallb app read_words] in *.
  apply andb_true_iff in H as [Hc H]. bool_prop. rewrite isspace_false, IH by (done || lia). by rewrite <- app_assoc.
Qed.

Lemma read_join words : Forall (fun w => word_ok w = true) words -> read_words (join_words words) [] = words.
Proof.
  induction 1 as [|word words [Hn Hc]%andb_true_iff Hw IH]; [done|].
  assert (Hne : is_empty word = false) by (by destruct (is_empty word)).
  cbn [join_words]. destruct words as [|w words].
  - rewrite <- (app_nil_r word) at 1. rewrite read_words_word by done. cbn [app read_words]. by rewrite Hne.
  - rewrite read_words_word by done. change (isspace 32) with true. cbn [app read_words]. change (isspace 32) with true.
    cbv iota. by rewrite Hne, IH.
Qed.

(** ** Properties *)

Lemma decode_words words checksum : length words = 24%nat -> Forall (fun w => w ∈ English) words ->
  GetChecksumWord words = Ok checksum -> checksum ∈ English ->
  MnemonicToPrivateKey_words (words ++ [checksum]) = key_loop (GetWordIndexes words ++ [find_word English checksum]) [].
Proof.
  intros Hl Hw Hc Hce. unfold MnemonicToPrivateKey_words. rewrite length_app, Hl. cbn [length].
  change (Z.of_nat (24 + 1) =? 25) with true. cbn [negb].
  assert (Ha : forallb in_word_list (words ++ [checksum]) = true).
  { apply forallb_forall. intros w Hin%list_elem_of_In. apply word_in_list. revert w Hin. apply Forall_forall, Forall_app.
    split; [done|]. by apply Forall_singleton. }
  rewrite Ha, (HasValidChecksum_snoc _ _ _ Hc). cbn [negb obind]. rewrite bool_decide_true by done. cbn [negb].
  unfold GetWordIndexes. by rewrite map_app.
Qed.

Lemma seed_decodes key : pod 32 key ->
  exists words, seed_words key = Ok words /\ length words = 25%nat /\ Forall (fun w => w ∈ English) words /\
    MnemonicToPrivateKey_words words = Ok (inr key).
Proof.
  intros [Hl Hb]. destruct (words_of_key 8 key Hl Hb) as (words & Hw & Hwl & Hwe & Hk).
  destruct (GetChecksumWord_Ok words Hwe) as (checksum & Hc & Hin); [by intros ->|].
  assert (Hce : checksum ∈ English) by (rewrite Forall_forall in Hwe; by apply Hwe).
  exists (words ++ [checksum]). unfold seed_words. rewrite Hw. cbn [obind]. rewrite Hc. cbn [obind].
  split_and!; [done|rewrite length_app, Hwl; done|apply Forall_app; by rewrite Forall_singleton|].
  rewrite (decode_words _ _ Hwl Hwe Hc Hce), Hk. cbn [app key_loop]. by rewrite Hl.
Qed.

Lemma seed_unique words key : Forall (fun w => w ∈ English) words -> MnemonicToPrivateKey_words words = Ok (inr key) ->
  pod 32 key /\ seed_words key = Ok words.
Proof.
  intros Hw H. pose proof H as H'. unfold MnemonicToPrivateKey_words in H'.
  destruct (Z.eqb_spec (Z.of_nat (length words)) 25) as [Hl|]; cbn [negb] in H'; [|done].
  destruct (forallb in_word_list words); cbn [negb] in H'; [|done].
  destruct words as [|checksum words _] using rev_ind; [done|]. rewrite length_app in Hl. cbn [length] in Hl.
  apply Forall_app in Hw as [Hw Hce]. rewrite Forall_singleton in Hce.
  destruct (GetChecksumWord_Ok words Hw) as (derived & Hc & _); [intros ->; simpl in Hl; lia|].
  rewrite (HasValidChecksum_snoc _ _ _ Hc) in H'. cbn [obind] in H'. case_bool_decide as E; cbn [negb] in H'; [subst derived|done].
  rewrite (decode_words words checksum ltac:(lia) Hw Hc Hce) in H.
  apply (key_of_words 8) in H as (Hk & key' & -> & Hb & Hwords); [|lia|done]. cbn [app] in *. split; [by split|].
  unfold seed_words. rewrite Hwords. cbn [obind]. by rewrite Hc.
Qed.

(** C35. Seeds: every private key has a mnemonic of 25 words of the list, reading
    its text gives the key back, and no other 25 words of the list, in lower
    case, give that key. *)
Theorem mnemonic_bijection key : pod 32 key ->
  exists words, PrivateKeyToMnemonic key = Ok (join_words words) /\ length words = 25%nat /\
    MnemonicToPrivateKey (join_words words) = Ok (inr key) /\
    forall words', Forall (fun w => w ∈ English) words' -> MnemonicToPrivateKey_words words' = Ok (inr key) -> words' = words.
Proof.
  intros Hk. destruct (seed_decodes key Hk) as (words & Hs & Hl & Hw & Hd). exists words. split_and!; [|done| |].
  - unfold PrivateKeyToMnemonic. by rewrite Hs.
  - unfold MnemonicToPrivateKey. rewrite read_join; [done|]. pose proof English_words as He. rewrite Forall_forall in He.
    eapply Forall_impl; [exact Hw|]. intros w Hin. by apply He.
  - intros words' Hw' Hd'. destruct (seed_unique _ _ Hw' Hd') as [_ H]. rewrite Hs in H. by injection H.
Qed.

Lemma mnemonic_bijection_witness : exists words,
  PrivateKeyToMnemonic (repeat 7 32) = Ok (join_words words) /\ MnemonicToPrivateKey (join_words words) = Ok (inr (repeat 7 32)).
Proof.
  destruct (mnemonic_bijection (repeat 7 32)) as (words & H1 & _ & H2 & _); [apply sample_key_pod; lia|].
  exists words. split; [exact H1|exact H2].
Defined.

(** A seed with its second word in upper case is accepted and gives another key:
    only the test of membership is on the word in lower case. *)
Lemma mnemonic_upper_case : exists seed key key',
  PrivateKeyToMnemonic key = Ok seed /\ key' <> key /\
  exists seed', map tolower seed' = seed /\ MnemonicToPrivateKey seed' = Ok (inr key').
Proof.
  exists (join_words (repeat (str "abort") 25)), (concat (repeat [5; 0; 0; 0] 8)).
  exists ([27; 238; 241; 0] ++ concat (repeat [5; 0; 0; 0] 7)).
  split_and!; [vm_compute; reflexivity|done|].
  exists (join_words (str "abort" :: str "Abort" :: repeat (str "abort") 23)). split; vm_compute; reflexivity.
Qed.

End Mnemonics.
