(* ===== verification/Block.v ===== *)
(** * Blocks

    The block part of [src/src/serialization/CryptoNoteSerialization.cpp], the
    hashes of [src/src/common/CryptoNoteTools.h], and
    [src/src/cryptonotecore/CachedBlock.cpp] and [CachedTransaction.cpp], whose
    cached values are functions of the block or transaction.  The hash functions
    are parameters. *)

From S2P Require Import Prelude.
From S2P Require Import Varint.
From S2P Require Import TreeHash.
From S2P Require Import Config.
From S2P Require Import Types.
From S2P Require Import Serialization.
From S2P Require Import SerializationProofs.
From S2P Require Import TransactionExtra.
Import Varint.Varint TreeHash.TreeHash Config.parameters Types.Types.
Import Serialization.Serialization TransactionExtra.TransactionExtra.

Module Block.

(** The proof-of-work functions of [HASHING_ALGORITHMS_BY_BLOCK_VERSION]. *)
Inductive hashing_algorithm :=
| cn_slow_hash_v0
| cn_lite_slow_hash_v1
| cn_turtle_lite_slow_hash_v2
| chukwa_slow_hash
| cn_upx.

Definition HASHING_ALGORITHMS_BY_BLOCK_VERSION (version : Z) : option hashing_algorithm :=
  if version =? BLOCK_MAJOR_VERSION_1 then Some cn_slow_hash_v0
  else if version =? BLOCK_MAJOR_VERSION_2 then Some cn_slow_hash_v0
  else if version =? BLOCK_MAJOR_VERSION_3 then Some cn_slow_hash_v0
  else if version =? BLOCK_MAJOR_VERSION_4 then Some cn_lite_slow_hash_v1
  else if version =? BLOCK_MAJOR_VERSION_5 then Some cn_turtle_lite_slow_hash_v2
  else if version =? BLOCK_MAJOR_VERSION_6 then Some chukwa_slow_hash
  else if version =? BLOCK_MAJOR_VERSION_7 then Some cn_upx
  else None.

Section Hashing.
Context (cn_fast_hash : list Z -> Hash) (slow_hash : hashing_algorithm -> list Z -> Hash).

Definition getBinaryArrayHash (binaryArray : list Z) : Hash := cn_fast_hash binaryArray.

(** [getObjectHash(object, hash)]: the hash, and whether the object could be
    written. *)
Definition getObjectHash {A} (f : ser A) (object : A) : Hash * bool :=
  match toBinaryArray_opt f object with
  | None => (zeros 32, false)
  | Some ba => (getBinaryArrayHash ba, true)
  end.

(** [getObjectHash] of a byte array, which is written with its size first. *)
Definition getObjectHash_bytes (object : list Z) : Hash := (getObjectHash (ser_string "") object).1.

(** The constants [getBaseTransactionHash] puts behind the hash of the prefix of
    a version 2 transaction. *)
Definition base_transaction_suffix : list Z :=
  [0xbc; 0x36; 0x78; 0x9e; 0x7a; 0x1e; 0x28; 0x14; 0x36; 0x46; 0x42; 0x29; 0x82; 0x8f; 0x81; 0x7d;
   0x66; 0x12; 0xf7; 0xb4; 0x77; 0xd6; 0x65; 0x91; 0xff; 0x96; 0xa9; 0xe0; 0x64; 0xbc; 0xc9; 0x8a] ++ zeros 32.

Definition getBaseTransactionHash (tx : BaseTransaction) : option Hash :=
  if version tx <? TRANSACTION_VERSION_2 then
    let '(hash, ok) := getObjectHash ser_BaseTransaction tx in
    if ok : bool then Some hash else None
  else
    let '(hash, ok) := getObjectHash ser_TransactionPrefix (base_prefix tx) in
    if ok : bool then Some (getBinaryArrayHash (hash ++ base_transaction_suffix)) else None.

(** ** Serialization *)

(** What a [ParentBlockSerializer] refers to: the parent block, and the time
    stamp and the nonce of the block. *)
Definition parent_state : Type := ParentBlock * Z * Z.

(** [serializer.binary(&nonce, sizeof(nonce), "nonce")]. *)
Definition ser_nonce : ser Z := fun n s =>
  let! (b, s) := ser_binary 4 (Z_to_le 4 n) s in
  Ok (match s with In _ => le_to_Z b | Out _ => n end, s).

Definition ser_hash_branch (what : string) (size : nat) : ser (list Hash) := fun branch s =>
  let! branch :=
    match s with
    | Out _ => if negb (length branch =? size)%nat then Err (RuntimeError what) else Ok branch
    | In _ => Ok (resize size (zeros 32) branch)
    end in
  ser_items ser_Hash branch s.

Definition ser_ParentBlock (hashingSerialization headerOnly : bool) : ser parent_state := fun pbs s =>
  let '(pb, blockTimestamp, blockNonce) := pbs in
  let! (majorV, s) := ser_uint 8 (pb_majorVersion pb) s in
  let! (minorV, s) := ser_uint 8 (pb_minorVersion pb) s in
  let! (time, s) := ser_uint 64 blockTimestamp s in
  let! (prev, s) := ser_Hash (pb_previousBlockHash pb) s in
  let! (n, s) := ser_nonce blockNonce s in
  let! s :=
    if hashingSerialization then
      match getBaseTransactionHash (pb_baseTransaction pb) with
      | None => Err (RuntimeError "Get transaction hash error")
      | Some minerTxHash =>
        let branch := baseTransactionBranch pb in
        let merkleRoot := tree_hash_from_branch cn_fast_hash branch (length branch) minerTxHash None in
        let! (_, s) := ser_Hash merkleRoot s in Ok s
      end
    else Ok s in
  let! (txNum, s) := ser_uint 64 (transactionCount pb) s in
  let count := wrap 16 txNum in
  if count <? 1 then Err (RuntimeError "Wrong transactions number")
  else if headerOnly then
    Ok ((mkParentBlock majorV minorV prev count (baseTransactionBranch pb) (pb_baseTransaction pb)
           (blockchainBranch pb), time, n), s)
  else
    let! branchSize := tree_depth count in
    let! (txBranch, s) :=
      ser_hash_branch "Wrong miner transaction branch size" (Z.to_nat branchSize) (baseTransactionBranch pb) s in
    let! (tx, s) := ser_BaseTransaction (pb_baseTransaction pb) s in
    match getMergeMiningTagFromExtra (extra tx) with
    | None => Err (RuntimeError "Can't get extra merge mining tag")
    | Some mmTag =>
      if 8 * 32 <? depth mmTag then Err (RuntimeError "Wrong merge mining tag depth")
      else
        let! (chainBranch, s) :=
          ser_hash_branch "Blockchain branch size must be equal to merge mining tag depth"
            (Z.to_nat (depth mmTag)) (blockchainBranch pb) s in
        Ok ((mkParentBlock majorV minorV prev count txBranch tx chainBranch, time, n), s)
    end.

Definition serializeBlockHeader : ser BlockHeader := fun header s =>
  let! (majorV, s) := ser_uint 8 (majorVersion header) s in
  if BLOCK_MAJOR_VERSION_7 <? majorV then Err (RuntimeError "Wrong major version")
  else
    let! (minorV, s) := ser_uint 8 (minorVersion header) s in
    if majorV =? BLOCK_MAJOR_VERSION_1 then
      let! (time, s) := ser_uint 64 (timestamp header) s in
      let! (prev, s) := ser_Hash (previousBlockHash header) s in
      let! (n, s) := ser_nonce (nonce header) s in
      Ok (mkBlockHeader majorV minorV n time prev, s)
    else if BLOCK_MAJOR_VERSION_2 <=? majorV then
      let! (prev, s) := ser_Hash (previousBlockHash header) s in
      Ok (mkBlockHeader majorV minorV (nonce header) (timestamp header) prev, s)
    else Err (RuntimeError "Wrong major version").

Definition ser_BlockTemplate : ser BlockTemplate := fun block s =>
  let! (header, s) := serializeBlockHeader (block_header block) s in
  let! (pbs, s) :=
    if BLOCK_MAJOR_VERSION_2 <=? majorVersion header
    then ser_ParentBlock false false (parentBlock block, timestamp header, nonce header) s
    else Ok ((parentBlock block, timestamp header, nonce header), s) in
  let '(parent, time, n) := pbs in
  let header := mkBlockHeader (majorVersion header) (minorVersion header) n time (previousBlockHash header) in
  let! (tx, s) := ser_Transaction (baseTransaction block) s in
  let! (hashes, s) := serializeContainer (zeros 32) ser_Hash (transactionHashes block) s in
  Ok (mkBlockTemplate header parent tx hashes, s).

(** ** [CachedBlock] *)

Definition getTransactionTreeHash (block : BlockTemplate) : outcome Hash :=
  tree_hash cn_fast_hash ((getObjectHash ser_Transaction (baseTransaction block)).1 :: transactionHashes block).

Definition getBlockHashingBinaryArray (block : BlockTemplate) : outcome (list Z) :=
  match toBinaryArray_opt serializeBlockHeader (block_header block) with
  | None => Err (RuntimeError "Can't serialize BlockHeader")
  | Some result =>
    let! treeHash := getTransactionTreeHash block in
    Ok (result ++ treeHash ++ get_varint_data (Z.of_nat (length (transactionHashes block)) + 1))
  end.

Definition parent_of (block : BlockTemplate) : parent_state :=
  (parentBlock block, timestamp block, nonce block).

Definition getParentBlockBinaryArray (block : BlockTemplate) (headerOnly : bool) : outcome (list Z) :=
  match toBinaryArray_opt (ser_ParentBlock false headerOnly) (parent_of block) with
  | None => Err (RuntimeError (if headerOnly then "Can't serialize parent block header."
                               else "Can't serialize parent block."))
  | Some ba => Ok ba
  end.

Definition getParentBlockHashingBinaryArray (block : BlockTemplate) (headerOnly : bool) : outcome (list Z) :=
  match toBinaryArray_opt (ser_ParentBlock true headerOnly) (parent_of block) with
  | None => Err (RuntimeError (if headerOnly then "Can't serialize parent block header for hashing."
                               else "Can't serialize parent block for hashing."))
  | Some ba => Ok ba
  end.

Definition getBlockHash (block : BlockTemplate) : outcome Hash :=
  let! blockBinaryArray := getBlockHashingBinaryArray block in
  let! blockBinaryArray :=
    if BLOCK_MAJOR_VERSION_2 <=? majorVersion block
    then let! p := getParentBlockHashingBinaryArray block false in Ok (blockBinaryArray ++ p)
    else Ok blockBinaryArray in
  Ok (getObjectHash_bytes blockBinaryArray).

Definition getBlockLongHash (block : BlockTemplate) : outcome Hash :=
  let! rawHashingBlock :=
    if majorVersion block =? BLOCK_MAJOR_VERSION_1 then getBlockHashingBinaryArray block
    else getParentBlockHashingBinaryArray block true in
  match HASHING_ALGORITHMS_BY_BLOCK_VERSION (majorVersion block) with
  | Some algorithm => Ok (slow_hash algorithm rawHashingBlock)
  | None => Err (RuntimeError "Unknown block major version.")
  end.

Definition getAuxiliaryBlockHeaderHash (block : BlockTemplate) : outcome Hash :=
  let! ba := getBlockHashingBinaryArray block in
  Ok (getObjectHash_bytes ba).

Definition getBlockIndex (block : BlockTemplate) : Z :=
  match inputs (baseTransaction block) with
  | [InBase i] => blockIndex i
  | _ => 0
  end.

(** ** [CachedTransaction] *)

(** The constructor from bytes: the transaction and the bytes it keeps. *)
Definition CachedTransaction_of_bytes (transactionBinaryArray : list Z) : outcome (Transaction * list Z) :=
  match fromBinaryArray_opt ser_Transaction default_transaction transactionBinaryArray with
  | Some transaction => Ok (transaction, transactionBinaryArray)
  | None =>
    Err (RuntimeError "CachedTransaction::CachedTransaction(BinaryArray&&), deserealization error.")
  end.

Definition getTransactionBinaryArray (transaction : Transaction) : outcome (list Z) :=
  toBinaryArray ser_Transaction transaction.

Definition getTransactionHash (transaction : Transaction) : outcome Hash :=
  let! ba := getTransactionBinaryArray transaction in
  Ok (getBinaryArrayHash ba).

Definition getTransactionPrefixHash (transaction : Transaction) : Hash :=
  (getObjectHash ser_TransactionPrefix (tx_prefix transaction)).1.

(** [getTransactionFee]: a base input ends the loop with zero. *)
Fixpoint fee_loop (ins : list TransactionInput) (summaryInputAmount summaryOutputAmount : Z) : Z :=
  match ins with
  | [] => u64 (summaryInputAmount - summaryOutputAmount)
  | InKey i :: ins => fee_loop ins (u64 (summaryInputAmount + in_amount i)) summaryOutputAmount
  | InBase _ :: _ => 0
  end.

Definition getTransactionAmount (transaction : Transaction) : Z :=
  fold_left (fun a o => u64 (a + out_amount o)) (outputs transaction) 0.

Definition getTransactionFee (transaction : Transaction) : Z :=
  fee_loop (inputs transaction) 0
    (fold_left (fun a o => u64 (a + out_amount o)) (outputs transaction) 0).

End Hashing.

(** ** Round trip of blocks *)

(** The first half of [Codec]: what is written is read back. *)
Definition roundtrips {A} (f : ser A) (valid fresh : A -> Prop) : Prop :=
  forall a, valid a ->
    exists bs, bytes_ok bs /\ (forall pre, f a (Out pre) = Ok (a, Out (pre ++ bs))) /\
      forall a0 rest, fresh a0 -> bytes_ok rest -> f a0 (In (bs ++ rest)) = Ok (a, In rest).

Lemma roundtrips_codec {A} (f : ser A) valid fresh : Codec f valid fresh -> roundtrips f valid fresh.
Proof. intros H a Ha. by apply codec_write. Qed.

(** Names the bytes of a part and the equations for writing and reading them. *)
Ltac part H bs :=
  let Hb := fresh "Hb" in let Ho := fresh "Ho" in let Hi := fresh "Hi" in
  destruct H as (bs & Hb & Ho & Hi).

Lemma bytes_app a b : bytes_ok a -> bytes_ok b -> bytes_ok (a ++ b).
Proof. intros. by apply Forall_app. Qed.

Lemma rt_uint w v : 8 <= w <= 64 -> fits w v ->
  exists bs, bytes_ok bs /\ (forall pre, ser_uint w v (Out pre) = Ok (v, Out (pre ++ bs))) /\
    forall a0 rest, bytes_ok rest -> ser_uint w a0 (In (bs ++ rest)) = Ok (v, In rest).
Proof.
  intros Hw Hv. destruct (codec_uint w Hw) as [Hwr _ _]. destruct (Hwr v Hv) as (bs & ? & ? & Hi).
  exists bs. split_and!; [done..|]. intros. by apply Hi.
Qed.

Lemma rt_pod n v : pod n v ->
  bytes_ok v /\ (forall pre, ser_binary (Z.of_nat n) v (Out pre) = Ok (v, Out (pre ++ v))) /\
    forall a0 rest, ser_binary (Z.of_nat n) a0 (In (v ++ rest)) = Ok (v, In rest).
Proof.
  intros [Hl Hb]. split_and!; [done|done|]. intros a0 rest. cbn [ser_binary]. rewrite <- Hl, Varint.read_app. done.
Qed.

Lemma rt_nonce n : fits 32 n ->
  bytes_ok (Z_to_le 4 n) /\ (forall pre, ser_nonce n (Out pre) = Ok (n, Out (pre ++ Z_to_le 4 n))) /\
    forall a0 rest, ser_nonce a0 (In (Z_to_le 4 n ++ rest)) = Ok (n, In rest).
Proof.
  intros Hn. assert (Hp : pod 4 (Z_to_le 4 n)) by (split; [apply length_Z_to_le|apply Z_to_le_bytes]).
  destruct (rt_pod 4 _ Hp) as (Hb & Ho & Hi). split_and!; [done|..]; intros; unfold ser_nonce.
  - change 4 with (Z.of_nat 4) at 1. by rewrite Ho.
  - change 4 with (Z.of_nat 4) at 1. rewrite Hi. cbn [obind]. rewrite le_to_Z_to_le.
    rewrite Z.mod_small; [done|]. unfold fits in Hn. simpl. lia.
Qed.

Lemma rt_branch what size (branch : list Hash) : length branch = size -> Forall (pod 32) branch ->
  exists bs, bytes_ok bs /\ (forall pre, ser_hash_branch what size branch (Out pre) = Ok (branch, Out (pre ++ bs))) /\
    forall a0 rest, bytes_ok rest -> ser_hash_branch what size a0 (In (bs ++ rest)) = Ok (branch, In rest).
Proof.
  intros Hl Hp. destruct (items_write ser_Hash (pod 32) any (Codec0 := codec_key) branch Hp) as (bs & Hb & Ho & Hi).
  exists bs. split_and!; [done|..].
  - intros pre. unfold ser_hash_branch. rewrite Hl, Nat.eqb_refl. apply Ho.
  - intros a0 rest Hr. unfold ser_hash_branch. cbn [obind]. apply Hi; [|by rewrite resize_length|done].
    by apply Forall_true.
Qed.

Definition valid_base_transaction (tx : BaseTransaction) : Prop :=
  fits 8 (version tx) /\ fits 64 (unlockTime tx) /\ valid_container valid_input (inputs tx) /\
  valid_container valid_output (outputs tx) /\ valid_blob (extra tx).

Lemma rt_base_transaction : roundtrips ser_BaseTransaction valid_base_transaction any.
Proof.
  intros tx (Hv & Hu & Hin & Hout & He).
  part (rt_uint 8 (version tx) ltac:(lia) Hv) b1. part (rt_uint 64 (unlockTime tx) ltac:(lia) Hu) b2.
  part (roundtrips_codec _ _ _ (codec_container_any default_input _ _ codec_TransactionInput nonempty_input) _ Hin) b3.
  part (roundtrips_codec _ _ _ (codec_container_any default_output _ _ codec_TransactionOutput nonempty_output) _ Hout) b4.
  part (roundtrips_codec _ _ _ (codec_serializeAsBinary "extra" ltac:(done)) _ He) b5.
  part (rt_uint 64 0 ltac:(lia) ltac:(unfold fits; lia)) b6.
  exists (b1 ++ b2 ++ b3 ++ b4 ++ b5 ++ (if TRANSACTION_VERSION_2 <=? version tx then b6 else [])).
  assert (Hb7 : bytes_ok (if TRANSACTION_VERSION_2 <=? version tx then b6 else []))
    by (destruct (_ <=? _); [done|constructor]).
  destruct tx as [[v u i o e]]. cbn [base_prefix version unlockTime inputs outputs extra] in *.
  split_and!; [by repeat apply bytes_app|..].
  - intros pre. unfold ser_BaseTransaction. cbn [base_prefix version unlockTime inputs outputs extra].
    rewrite Ho. cbn [obind]. rewrite Ho0. cbn [obind]. rewrite Ho1. cbn [obind]. rewrite Ho2. cbn [obind].
    rewrite Ho3. cbn [obind]. destruct (TRANSACTION_VERSION_2 <=? v); cbn [obind].
    + rewrite Ho4. cbn [obind]. by rewrite <- !app_assoc.
    + by rewrite <- !app_assoc, app_nil_r.
  - intros a0 rest _ Hr. unfold ser_BaseTransaction. rewrite <- !app_assoc.
    rewrite Hi by (by repeat apply bytes_app). cbn [obind]. rewrite Hi0 by (by repeat apply bytes_app). cbn [obind].
    rewrite Hi1 by (by repeat apply bytes_app). cbn [obind]. rewrite Hi2 by (by repeat apply bytes_app). cbn [obind].
    rewrite Hi3 by (by repeat apply bytes_app). cbn [obind]. destruct (TRANSACTION_VERSION_2 <=? v); cbn [obind app].
    + rewrite Hi4 by done. done.
    + done.
Qed.

Definition valid_parent (pb : ParentBlock) : Prop :=
  fits 8 (pb_majorVersion pb) /\ fits 8 (pb_minorVersion pb) /\ pod 32 (pb_previousBlockHash pb) /\
  1 <= transactionCount pb < 2 ^ 16 /\
  length (baseTransactionBranch pb) = Z.to_nat (Z.log2 (transactionCount pb)) /\
  Forall (pod 32) (baseTransactionBranch pb) /\ valid_base_transaction (pb_baseTransaction pb) /\
  exists tag, getMergeMiningTagFromExtra (extra (pb_baseTransaction pb)) = Some tag /\
    depth tag <= 256 /\ length (blockchainBranch pb) = Z.to_nat (depth tag) /\
    Forall (pod 32) (blockchainBranch pb).

Lemma rt_parent h : roundtrips (ser_ParentBlock h false false)
  (fun '(pb, time, n) => valid_parent pb /\ fits 64 time /\ fits 32 n) any.
Proof.
  intros [[pb time] n] (Hpb & Ht & Hn).
  destruct Hpb as (Hma & Hmi & Hprev & Hc & Hlb & Hpb1 & Htx & tag & Htag & Hdep & Hlc & Hpb2).
  part (rt_uint 8 _ ltac:(lia) Hma) b1. part (rt_uint 8 _ ltac:(lia) Hmi) b2. part (rt_uint 64 _ ltac:(lia) Ht) b3.
  destruct (rt_pod 32 _ Hprev) as (Hb2' & Ho2' & Hi2'). destruct (rt_nonce n Hn) as (Hb3' & Ho3' & Hi3').
  part (rt_uint 64 (transactionCount pb) ltac:(lia) ltac:(unfold fits; lia)) b4.
  part (rt_branch "Wrong miner transaction branch size" _ _ Hlb Hpb1) b5. part (rt_base_transaction _ Htx) b6.
  part (rt_branch "Blockchain branch size must be equal to merge mining tag depth" _ _ Hlc Hpb2) b7.
  exists (b1 ++ b2 ++ b3 ++ pb_previousBlockHash pb ++ Z_to_le 4 n ++ b4 ++ b5 ++ b6 ++ b7).
  assert (Hcount : forall A (k : outcome A) (e : error),
    (if wrap 16 (transactionCount pb) <? 1 then Err e else k) = k /\ wrap 16 (transactionCount pb) = transactionCount pb).
  { intros. rewrite wrap_small by (unfold fits; lia). by rewrite (proj2 (Z.ltb_ge _ _)) by lia. }
  destruct pb as [ma mi prev cnt tb tx cb]. cbn [pb_majorVersion pb_minorVersion pb_previousBlockHash transactionCount
    baseTransactionBranch pb_baseTransaction blockchainBranch] in *.
  split_and!; [by repeat apply bytes_app|..].
  - intros pre. unfold ser_ParentBlock. cbn [pb_majorVersion pb_minorVersion pb_previousBlockHash transactionCount
      baseTransactionBranch pb_baseTransaction blockchainBranch].
    rewrite Ho. cbn [obind]. rewrite Ho0. cbn [obind]. rewrite Ho1. cbn [obind].
    unfold ser_Hash, serializePod. rewrite (Ho2' (_ ++ _)). cbn [obind]. rewrite Ho3'. cbn [obind]. rewrite Ho2. cbn [obind].
    rewrite (proj1 (Hcount _ _ _)), (proj2 (Hcount _ (Ok tt) OutOfFuel)). rewrite tree_depth_eq by lia. cbn [obind].
    rewrite Ho3. cbn [obind]. rewrite Ho4. cbn [obind]. rewrite Htag, (proj2 (Z.ltb_ge _ _)) by lia.
    rewrite Ho5. cbn [obind]. by rewrite <- !app_assoc.
  - intros [[pb0 time0] n0] rest _ Hr. unfold ser_ParentBlock. rewrite <- !app_assoc.
    rewrite Hi by (by repeat apply bytes_app). cbn [obind]. rewrite Hi0 by (by repeat apply bytes_app). cbn [obind].
    rewrite Hi1 by (by repeat apply bytes_app). cbn [obind]. unfold ser_Hash, serializePod. rewrite (Hi2' _ _). cbn [obind].
    rewrite Hi3'. cbn [obind]. rewrite Hi2 by (by repeat apply bytes_app). cbn [obind].
    rewrite (proj1 (Hcount _ _ _)), (proj2 (Hcount _ (Ok tt) OutOfFuel)). rewrite tree_depth_eq by lia. cbn [obind].
    rewrite Hi3 by (by repeat apply bytes_app). cbn [obind]. rewrite Hi4; [|done|by repeat apply bytes_app]. cbn [obind].
    rewrite Htag, (proj2 (Z.ltb_ge _ _)) by lia. rewrite Hi5 by done. done.
Qed.

Definition default_parent : ParentBlock :=
  mkParentBlock 0 0 (zeros 32) 0 [] (mkBaseTransaction (mkTransactionPrefix 0 0 [] [] [])) [].

Definition default_block : BlockTemplate :=
  mkBlockTemplate (mkBlockHeader 0 0 0 0 (zeros 32)) default_parent default_transaction [].

Definition valid_header (h : BlockHeader) : Prop :=
  BLOCK_MAJOR_VERSION_1 <= majorVersion h <= BLOCK_MAJOR_VERSION_7 /\ fits 8 (minorVersion h) /\
  fits 32 (nonce h) /\ fits 64 (timestamp h) /\ pod 32 (previousBlockHash h).

(** A block of version 1 has no parent block. *)
Definition valid_block (b : BlockTemplate) : Prop :=
  valid_header b /\
  (if majorVersion b =? BLOCK_MAJOR_VERSION_1 then parentBlock b = default_parent else valid_parent (parentBlock b)) /\
  valid_transaction (baseTransaction b) /\ valid_container (pod 32) (transactionHashes b).

(** The header alone carries the time and the nonce in version 1 only. *)
Lemma rt_header h : valid_header h ->
  exists bs, bytes_ok bs /\ (forall pre, serializeBlockHeader h (Out pre) = Ok (h, Out (pre ++ bs))) /\
    forall h0 rest, bytes_ok rest ->
      serializeBlockHeader h0 (In (bs ++ rest)) =
        Ok (if majorVersion h =? BLOCK_MAJOR_VERSION_1 then h
            else mkBlockHeader (majorVersion h) (minorVersion h) (nonce h0) (timestamp h0) (previousBlockHash h), In rest).
Proof.
  intros (Hma & Hmi & Hn & Ht & Hprev). unfold BLOCK_MAJOR_VERSION_1, BLOCK_MAJOR_VERSION_7 in Hma.
  part (rt_uint 8 (majorVersion h) ltac:(lia) ltac:(unfold fits; lia)) b1. part (rt_uint 8 _ ltac:(lia) Hmi) b2.
  part (rt_uint 64 _ ltac:(lia) Ht) b3. destruct (rt_pod 32 _ Hprev) as (Hb2' & Ho2' & Hi2').
  destruct (rt_nonce _ Hn) as (Hb3' & Ho3' & Hi3').
  exists (b1 ++ b2 ++ (if majorVersion h =? BLOCK_MAJOR_VERSION_1 then b3 ++ previousBlockHash h ++ Z_to_le 4 (nonce h)
                        else previousBlockHash h)).
  destruct h as [ma mi n time prev]. cbn [majorVersion minorVersion nonce timestamp previousBlockHash] in *.
  split_and!; [destruct (ma =? _); by repeat apply bytes_app|..].
  - intros pre. unfold serializeBlockHeader. cbn [majorVersion minorVersion nonce timestamp previousBlockHash].
    rewrite Ho. cbn [obind]. rewrite (proj2 (Z.ltb_ge _ _)) by (unfold BLOCK_MAJOR_VERSION_7; lia). rewrite Ho0. cbn [obind].
    unfold ser_Hash, serializePod. destruct (Z.eqb_spec ma BLOCK_MAJOR_VERSION_1) as [->|Hne].
    + rewrite Ho1. cbn [obind]. rewrite (Ho2' _). cbn [obind]. rewrite Ho3'. cbn [obind]. by rewrite <- !app_assoc.
    + rewrite (proj2 (Z.leb_le _ _)) by (unfold BLOCK_MAJOR_VERSION_1, BLOCK_MAJOR_VERSION_2 in *; lia).
      rewrite (Ho2' _). cbn [obind]. by rewrite <- !app_assoc.
  - intros h0 rest Hr. unfold serializeBlockHeader. rewrite <- !app_assoc.
    rewrite Hi by (destruct (ma =? _); by repeat apply bytes_app). cbn [obind].
    rewrite (proj2 (Z.ltb_ge _ _)) by (unfold BLOCK_MAJOR_VERSION_7; lia). rewrite Hi0 by (destruct (ma =? _); by repeat apply bytes_app). cbn [obind].
    unfold ser_Hash, serializePod. destruct (Z.eqb_spec ma BLOCK_MAJOR_VERSION_1) as [->|Hne].
    + rewrite <- !app_assoc, Hi1 by (by repeat apply bytes_app). cbn [obind]. rewrite (Hi2' _ _). cbn [obind].
      by rewrite Hi3'.
    + rewrite (proj2 (Z.leb_le _ _)) by (unfold BLOCK_MAJOR_VERSION_1, BLOCK_MAJOR_VERSION_2 in *; lia).
      by rewrite (Hi2' _ _).
Qed.

#[export] Instance nonempty_hash : NonEmptyCodec ser_Hash (pod 32).
Proof. apply (nonempty_binary 32). lia. Qed.

Lemma rt_block h b : valid_block b ->
  exists bs, bytes_ok bs /\ (forall pre, ser_BlockTemplate h b (Out pre) = Ok (b, Out (pre ++ bs))) /\
    forall rest, bytes_ok rest -> ser_BlockTemplate h default_block (In (bs ++ rest)) = Ok (b, In rest).
Proof.
  intros (Hh & Hp & Htx & Hhs). part (rt_header _ Hh) b1. destruct Hh as (Hma & Hmi & Hn & Ht & Hprev).
  part (roundtrips_codec _ _ _ codec_Transaction _ Htx) b3.
  part (roundtrips_codec _ _ _ (codec_container_any (zeros 32) ser_Hash (pod 32) codec_key nonempty_hash) _ Hhs) b4.
  unfold BLOCK_MAJOR_VERSION_1, BLOCK_MAJOR_VERSION_7 in Hma.
  destruct b as [[ma mi n time prev] pb tx hs].
  cbn [block_header majorVersion minorVersion nonce timestamp previousBlockHash parentBlock baseTransaction transactionHashes] in *.
  destruct (Z.eqb_spec ma BLOCK_MAJOR_VERSION_1) as [->|Hne].
  - exists (b1 ++ b3 ++ b4). split_and!; [by repeat apply bytes_app|..].
    + intros pre. unfold ser_BlockTemplate. cbn [block_header parentBlock baseTransaction transactionHashes].
      rewrite Ho. cbn [obind majorVersion minorVersion nonce timestamp previousBlockHash].
      change (BLOCK_MAJOR_VERSION_2 <=? BLOCK_MAJOR_VERSION_1) with false. cbn [obind]. rewrite Ho0. cbn [obind]. rewrite Ho1. cbn [obind]. by rewrite <- !app_assoc.
    + intros rest Hr. unfold ser_BlockTemplate. rewrite <- !app_assoc.
      rewrite Hi by (by repeat apply bytes_app). cbn [obind majorVersion minorVersion nonce timestamp previousBlockHash].
      change (BLOCK_MAJOR_VERSION_2 <=? BLOCK_MAJOR_VERSION_1) with false. cbn [obind]. rewrite Hi0; [|done|by repeat apply bytes_app]. cbn [obind]. rewrite Hi1 by done. cbn [obind]. by subst pb.
  - part (rt_parent h (pb, time, n) (conj Hp (conj Ht Hn))) b2.
    assert (Hle : BLOCK_MAJOR_VERSION_2 <=? ma = true).
    { apply Z.leb_le. unfold BLOCK_MAJOR_VERSION_1, BLOCK_MAJOR_VERSION_2 in *. lia. }
    exists (b1 ++ b2 ++ b3 ++ b4). split_and!; [by repeat apply bytes_app|..].
    + intros pre. unfold ser_BlockTemplate. cbn [block_header parentBlock baseTransaction transactionHashes].
      rewrite Ho. cbn [obind majorVersion minorVersion nonce timestamp previousBlockHash]. rewrite Hle, Ho2.
      cbn [obind]. rewrite Ho0. cbn [obind]. rewrite Ho1. cbn [obind]. by rewrite <- !app_assoc.
    + intros rest Hr. unfold ser_BlockTemplate. rewrite <- !app_assoc.
      rewrite Hi by (by repeat apply bytes_app). cbn [obind majorVersion minorVersion nonce timestamp previousBlockHash].
      rewrite Hle, Hi2; [|done|by repeat apply bytes_app]. cbn [obind].
      rewrite Hi0; [|done|by repeat apply bytes_app]. cbn [obind]. rewrite Hi1 by done. done.
Qed.

(** ** Properties *)

Definition sample_base_transaction : Transaction :=
  mkTransaction (mkTransactionPrefix 1 140 [InBase (mkBaseInput 100)]
    [mkTransactionOutput 1000000 (ToKey (mkKeyOutput (repeat 9 32)))] (1 :: repeat 8 32)) [].

(** The merge mining tag of depth 0 in the extra field of the parent. *)
Definition sample_parent : ParentBlock :=
  mkParentBlock 1 0 (zeros 32) 1 []
    (mkBaseTransaction (mkTransactionPrefix 1 0 [InBase (mkBaseInput 0)] [] (3 :: 33 :: 0 :: repeat 5 32))) [].

Definition sample_block : BlockTemplate :=
  mkBlockTemplate (mkBlockHeader 7 0 77 1700000000 (repeat 1 32)) sample_parent sample_base_transaction [repeat 4 32].

(** C32. Blocks on the wire: every well-formed block, of version 1 without and of
    later versions with its merge-mined parent, is written without an exception,
    and reading the bytes into a new block returns it. *)
Theorem block_wire_roundtrip cn_fast_hash b :
  valid_block b ->
  exists ba, bytes_ok ba /\ toBinaryArray (ser_BlockTemplate cn_fast_hash) b = Ok ba /\
    fromBinaryArray (ser_BlockTemplate cn_fast_hash) default_block ba = Ok b.
Proof.
  intros Hb. destruct (rt_block cn_fast_hash b Hb) as (ba & Hba & Ho & Hi). exists ba.
  split_and!; [done|by apply toBinaryArray_of_writes|].
  unfold fromBinaryArray. rewrite <- (app_nil_r ba), Hi by constructor. done.
Qed.

Lemma block_wire_roundtrip_witness :
  exists ba, bytes_ok ba /\ toBinaryArray (ser_BlockTemplate (fun _ => zeros 32)) sample_block = Ok ba /\
    fromBinaryArray (ser_BlockTemplate (fun _ => zeros 32)) default_block ba = Ok sample_block.
Proof.
  apply (block_wire_roundtrip (fun _ => zeros 32) sample_block).
  unfold valid_block, valid_header, valid_parent, valid_transaction, valid_prefix, valid_base_transaction,
    valid_container, valid_version, valid_blob, valid_signatures, BLOCK_MAJOR_VERSION_1, BLOCK_MAJOR_VERSION_7,
    CURRENT_TRANSACTION_VERSION, TRANSACTION_VERSION_1, fits; simpl.
  split_and!; try lia; try (apply podb_spec; reflexivity); try reflexivity.
  all: try (repeat constructor; simpl; unfold is_byte, fits, valid_BaseInput; simpl; lia).
  all: try (repeat constructor; simpl; try lia; apply podb_spec; reflexivity).
  eexists. split; [vm_compute; reflexivity|]. split_and!; simpl; [lia|done|constructor].
Defined.

(** Parsing a block is not injective, unlike parsing a transaction: the
    transaction count of the parent block is read as 64 bits and kept as 16, so
    a count of 1 and a count of [2^16 + 1] give the same block. *)
Theorem block_wire_not_unique cn_fast_hash :
  exists ba1 ba2, ba1 <> ba2 /\
    fromBinaryArray (ser_BlockTemplate cn_fast_hash) default_block ba1 = Ok sample_block /\
    fromBinaryArray (ser_BlockTemplate cn_fast_hash) default_block ba2 = Ok sample_block.
Proof.
  set (front := [7; 0] ++ repeat 1 32 ++ [1; 0; 128; 226; 207; 170; 6] ++ zeros 32 ++ [77; 0; 0; 0]).
  set (back := [1; 0; 1; 255; 0; 0; 35; 3; 33; 0] ++ repeat 5 32 ++
    [1; 140; 1; 1; 255; 100; 1; 192; 132; 61; 2] ++ repeat 9 32 ++ [33; 1] ++ repeat 8 32 ++ [1] ++ repeat 4 32).
  exists (front ++ [1] ++ back), (front ++ [129; 128; 4] ++ back). split_and!; [vm_compute; congruence|..]; vm_compute; reflexivity.
Qed.

End Block.
