(* ===== verification/CurrencyProofs.v ===== *)
(** * Currency rules: properties

    What [Currency.v] models: rewards stay within the money supply and are paid
    out completely, fusion transactions conserve value, amounts survive printing
    and parsing, the difficulty before the LWMA algorithms, and the genesis
    block. *)

From S2P Require Import Prelude.
From S2P Require Import IntUtil.
From S2P Require Import StringTools.
From S2P Require Import TreeHash.
From S2P Require Import Config.
From S2P Require Import Types.
From S2P Require Import FormatUtils.
From S2P Require Import Difficulty.
From S2P Require Import Serialization.
From S2P Require Import SerializationProofs.
From S2P Require Import TransactionExtra.
From S2P Require Import Block.
From S2P Require Import Currency.
Import IntUtil.IntUtil IntUtil.CheckDifficulty StringTools.StringTools TreeHash.TreeHash.
Import Config.parameters Config.Constants Types.Types FormatUtils.FormatUtils Difficulty.Difficulty.
Import Serialization.Serialization TransactionExtra.TransactionExtra Block.Block Currency.Currency.

Module CurrencyProofs.

(** ** Rewards *)

(** Parameters for which the reward arithmetic stays within 64 bits. *)
Definition reward_params (c : Currency) : Prop :=
  0 <= m_moneySupply c < 2 ^ 63 /\ 0 < m_blockGrantedFullRewardZone c < 2 ^ 32.

Definition base_reward (c : Currency) (already height : Z) : Z :=
  if FIXED_REWARD_V1_HEIGHT <=? height then FIXED_REWARD_V1 else (m_moneySupply c - already) / 2 ^ 22.

Definition reward_zone (c : Currency) (v m : Z) : Z := Z.max m (blockGrantedFullRewardZoneByBlockVersion c v).

Definition block_reward (c : Currency) (v m s already fee height : Z) : Z :=
  let M := reward_zone c v m in
  penalized (base_reward c already height) M s
  + (if BLOCK_MAJOR_VERSION_2 <=? v then penalized fee M s else fee).

Lemma penalized_range amount m c :
  0 <= amount -> 0 < m -> c <= 2 * m -> 0 <= penalized amount m c <= amount.
Proof.
  intros Ha Hm Hc. destruct (Z.eq_dec amount 0) as [->|].
  { unfold penalized. destruct (c <=? m); rewrite ?Z.mul_0_l, ?Z.div_0_l by nia; lia. }
  destruct (Z.leb_spec c m) as [Hle|Hlt].
  - unfold penalized. rewrite (proj2 (Z.leb_le _ _)) by done. lia.
  - pose proof (penalized_lt amount m c). lia.
Qed.

Lemma reward_zone_range c v m :
  reward_params c -> fits 32 m -> 0 < reward_zone c v m < 2 ^ 32.
Proof.
  intros [_ Hz] Hm. unfold reward_zone, blockGrantedFullRewardZoneByBlockVersion. unfold fits in Hm.
  repeat case_if; unfold CRYPTONOTE_BLOCK_GRANTED_FULL_REWARD_ZONE_V2, CRYPTONOTE_BLOCK_GRANTED_FULL_REWARD_ZONE_V1; lia.
Qed.

Lemma base_reward_range c already height :
  reward_params c -> 0 <= already <= m_moneySupply c ->
  0 <= base_reward c already height < 2 ^ 62 /\
  (height < FIXED_REWARD_V1_HEIGHT -> already + base_reward c already height <= m_moneySupply c).
Proof.
  intros [Hs _] Ha. unfold base_reward, FIXED_REWARD_V1.
  pose proof (Z.div_pos (m_moneySupply c - already) (2 ^ 22) ltac:(lia) ltac:(lia)).
  pose proof (Z.div_le_upper_bound (m_moneySupply c - already) (2 ^ 22) ((m_moneySupply c - already) / 2) ltac:(lia)).
  pose proof (Z.div_le_upper_bound (m_moneySupply c - already) (2 ^ 22) (m_moneySupply c - already) ltac:(lia)).
  pose proof (Z.div_lt_upper_bound (m_moneySupply c - already) (2 ^ 22) (2 ^ 62) ltac:(lia)).
  case_if; lia.
Qed.

Lemma getBlockReward_eq c v m s already fee height :
  reward_params c -> fits 32 m -> fits 32 s -> 0 <= already <= m_moneySupply c -> 0 <= fee < 2 ^ 62 ->
  getBlockReward c v m s already fee height =
    Ok (if 2 * reward_zone c v m <? s then None
        else Some (block_reward c v m s already fee height, block_reward c v m s already fee height - fee)).
Proof.
  intros Hp Hm Hs Ha Hf. unfold getBlockReward, assert_that.
  rewrite (proj2 (Z.leb_le _ _)) by lia. cbn [obind].
  pose proof (reward_zone_range c v m Hp Hm) as HM. pose proof (base_reward_range c already height Hp Ha) as [HB _].
  fold (reward_zone c v m). unfold block_reward. set (M := reward_zone c v m) in *.
  rewrite (wrap_small 64 (2 * M)) by (unfold fits; lia).
  rewrite (wrap_small 64 (_ - already)) by (destruct Hp; unfold fits; lia).
  change EMISSION_SPEED_FACTOR with 22. rewrite Z.shiftr_div_pow2 by lia. fold (base_reward c already height).
  destruct (Z.ltb_spec (2 * M) s) as [|Hle]; [done|].
  rewrite getPenalizedAmount_eq by (unfold fits in *; lia). cbn [obind].
  pose proof (penalized_range (base_reward c already height) M s ltac:(lia) ltac:(lia) Hle) as HpB.
  pose proof (penalized_range fee M s ltac:(lia) ltac:(lia) Hle) as Hpf.
  assert (Hnum : forall b f, 0 <= b < 2 ^ 62 -> 0 <= f <= fee ->
    Ok (Some (u64 (b + f), i64_of_u64 (u64 (b - u64 (fee - f))))) = Ok (Some (b + f, b + f - fee))).
  { intros b f Hb Hf'. rewrite (wrap_small 64 (fee - f)), (wrap_small 64 (b + f)) by (unfold fits; lia).
    do 3 f_equal. unfold i64_of_u64, wrap. replace (b + f - fee) with (b - (fee - f)) by lia.
    destruct (Z_le_gt_dec (fee - f) b).
    - rewrite Z.mod_small by lia. case_if; lia.
    - replace ((b - (fee - f)) mod 2 ^ 64) with (b - (fee - f) + 2 ^ 64) by (apply Z.mod_unique with (-1); lia).
      case_if; lia. }
  case_if; [rewrite getPenalizedAmount_eq by (unfold fits in *; lia)|]; cbn [obind]; apply Hnum; lia.
Qed.

(** ** The miner transaction pays the reward *)

Lemma merge_last_snoc l a b : merge_last (l ++ [a; b]) = l ++ [u64 (a + b)].
Proof. unfold merge_last. rewrite rev_app_distr. simpl. by rewrite rev_involutive. Qed.

Lemma two_last {A} (l : list A) : (2 <= length l)%nat -> exists f a b, l = f ++ [a; b].
Proof.
  intros H. destruct l as [|x l] using rev_ind; [simpl in H; lia|]. destruct l as [|y l] using rev_ind; [simpl in H; lia|].
  exists l, y, x. by rewrite <- app_assoc.
Qed.

Lemma merge_outs_spec maxOuts : 1 <= maxOuts -> forall fuel l,
  (length l <= fuel)%nat -> Forall (fun a => 0 < a) l -> sumZ l < 2 ^ 64 ->
  Z.of_nat (length (merge_outs fuel maxOuts l)) <= maxOuts /\ sumZ (merge_outs fuel maxOuts l) = sumZ l /\
  Forall (fun a => 0 < a) (merge_outs fuel maxOuts l).
Proof.
  intros Hmax. induction fuel as [|fuel IH]; intros l Hl Hp Hs.
  { destruct l; [|simpl in Hl; lia]. simpl. split_and!; [lia|done|done]. }
  cbn [merge_outs]. destruct (Z.ltb_spec maxOuts (Z.of_nat (length l))) as [Hlt|]; [|done].
  destruct (two_last l) as (f & a & b & ->); [lia|]. rewrite merge_last_snoc.
  rewrite sumZ_app in *. apply Forall_app in Hp as [Hf Hab]. inversion Hab as [|?? Ha Hb']; subst.
  inversion Hb' as [|?? Hb _]; subst. simpl in Hs.
  assert (0 <= sumZ f) by (apply sumZ_nonneg; eapply Forall_impl; [exact Hf|]; simpl; lia).
  rewrite wrap_small by (unfold fits; lia).
  destruct (IH (f ++ [a + b])) as (H1 & H2 & H3).
  - rewrite !length_app in *. simpl in *. lia.
  - apply Forall_app; split; [done|]. constructor; [lia|done].
  - rewrite sumZ_app. simpl. lia.
  - split_and!; [done| |done]. rewrite H2, sumZ_app. simpl. lia.
Qed.

Section MinerTxProofs.
Context (gkd : PublicKey -> SecretKey -> option KeyDerivation)
  (dpk : KeyDerivation -> Z -> PublicKey -> option PublicKey).
Context (view spend : PublicKey) (txkey : KeyPair) (d : KeyDerivation).
Hypothesis gkd_ok : gkd view (secretKey txkey) = Some d.
Hypothesis dpk_ok : forall no, 0 <= no -> dpk d no spend <> None.

Lemma miner_outputs_spec amounts : forall no outs sum,
  0 <= no -> Forall (fun a => 0 < a) amounts -> 0 <= sum -> sum + sumZ amounts < 2 ^ 64 ->
  exists outs', miner_outputs gkd dpk view spend txkey no amounts outs sum = Some (outs ++ outs', sum + sumZ amounts) /\
    map out_amount outs' = amounts /\
    forall P : PublicKey -> Prop, (forall no k, 0 <= no -> dpk d no spend = Some k -> P k) ->
      Forall (fun o => exists k, target o = ToKey (mkKeyOutput k) /\ P k) outs'.
Proof.
  induction amounts as [|a amounts IH]; intros no outs sum Hno Hp Hsum Hlt.
  { exists []. simpl. by rewrite app_nil_r, Z.add_0_r. }
  apply Forall_cons in Hp as [Ha Hp]. simpl in Hlt. cbn [miner_outputs]. rewrite gkd_ok.
  destruct (dpk d no spend) as [k|] eqn:E; [|by destruct (dpk_ok no Hno)].
  assert (0 <= sumZ amounts) by (apply sumZ_nonneg; eapply Forall_impl; [exact Hp|]; simpl; lia).
  rewrite wrap_small by (unfold fits; lia).
  destruct (IH (no + 1) (outs ++ [mkTransactionOutput a (ToKey (mkKeyOutput k))]) (sum + a)) as (o & -> & Ho & Hkeys);
    [lia|done|lia|lia|].
  exists (mkTransactionOutput a (ToKey (mkKeyOutput k)) :: o). simpl. rewrite Ho, <- app_assoc. simpl.
  split_and!; [do 2 f_equal; lia|done|]. intros P HP. constructor; [|by apply Hkeys]. exists k. split; [done|exact (HP no k Hno E)].
Qed.

End MinerTxProofs.

Lemma miner_extra k extraNonce :
  pod 32 k -> bytes_ok extraNonce -> Z.of_nat (length extraNonce) <= TX_EXTRA_NONCE_MAX_COUNT ->
  exists e, (if is_empty extraNonce then Some (addTransactionPublicKeyToExtra [] k)
             else addExtraNonceToTransactionExtra (addTransactionPublicKeyToExtra [] k) extraNonce) = Some e /\
    getTransactionPublicKeyFromExtra e = k.
Proof.
  intros Hk Hb Hl.
  set (body := ExtraPublicKey k :: (if is_empty extraNonce then [] else [ExtraNonce extraNonce])).
  destruct (parse_fields [] (or_introl eq_refl) body) as (w & Hw & _ & Hp).
  { unfold body. destruct (is_empty extraNonce); repeat (apply Forall_cons; split; [done|]); constructor. }
  { unfold body. destruct (is_empty extraNonce); apply NoDup_ListNoDup; simpl; repeat constructor; simpl; intuition discriminate. }
  specialize (Hp (length w) nothing_seen [] ltac:(lia) ltac:(by intros [] _)). specialize (Hw []).
  exists w. unfold body in *. split.
  - destruct (is_empty extraNonce); simpl in Hw; [done|]. by destruct (addExtraNonceToTransactionExtra _ _).
  - unfold getTransactionPublicKeyFromExtra, parseTransactionExtra. rewrite Hp. by destruct (is_empty extraNonce).
Qed.

Lemma decompose_positive amount t :
  fits 64 amount -> fits 64 t ->
  sumZ (decomposeAmount amount t []) = amount /\ Forall (fun a => 0 < a) (decomposeAmount amount t []).
Proof.
  intros Ha Ht. destruct (decomposeAmount_spec amount t [] Ha Ht) as (dust & chunks & -> & Hs & Hd & Hp & _).
  assert (Hc : Forall (fun a => 0 < a) chunks).
  { eapply Forall_impl; [exact Hp|]. intros x (dd & k & Hdd & Hk & ->). simpl.
    pose proof (Z.pow_pos_nonneg 10 k). nia. }
  simpl. destruct (Z.eqb_spec dust 0); simpl; split; try lia; [done|]. constructor; [lia|done].
Qed.

(** ** Fusion transactions *)

Definition fusion_params (c : Currency) : Prop :=
  fits 64 (m_defaultDustThreshold c) /\ 0 <= m_fusionTxMinInOutCountRatio c < 2 ^ 32.

Definition fusion_fee (height : Z) : Z :=
  if (FUSION_FEE_V1_HEIGHT <=? height) && (height <? FUSION_ZERO_FEE_V2_HEIGHT) then FUSION_FEE_V1 else 0.

Lemma fusion_dust_fits c height : fusion_params c -> fits 64 (defaultFusionDustThreshold c height).
Proof. intros [H _]. unfold defaultFusionDustThreshold. case_if; [|done]. unfold fits, DEFAULT_DUST_THRESHOLD_V2. lia. Qed.

Lemma sumZ_permutation l1 l2 : l1 ≡ₚ l2 -> sumZ l1 = sumZ l2.
Proof. induction 1; simpl in *; lia. Qed.

Lemma fusion_sound c ins outs size height :
  fusion_params c -> Forall (fits 64) ins -> sumZ ins < 2 ^ 64 -> fusion_fee height <= sumZ ins ->
  Z.of_nat (length outs) < 2 ^ 32 -> isFusionTransaction_amounts c ins outs size height = true ->
  size <= m_fusionTxMaxSize c /\ m_fusionTxMinInputCount c <= Z.of_nat (length ins) /\
  Z.of_nat (length outs) * m_fusionTxMinInOutCountRatio c <= Z.of_nat (length ins) /\
  Forall (fun a => defaultFusionDustThreshold c height <= a) ins /\
  sumZ outs + fusion_fee height = sumZ ins /\ Sorted Z.le outs /\
  (FUSION_DUST_THRESHOLD_HEIGHT_V2 <= height -> Forall pretty outs).
Proof.
  intros Hc Hins Hsum Hfee Hlen. pose proof (fusion_dust_fits c height Hc) as Hdust. destruct Hc as [_ Hr].
  unfold isFusionTransaction_amounts. repeat (case_if; [done|]).
  rewrite wrap_small in E1 by (unfold fits; nia).
  pose proof (fold_u64_exact (fun x => x) ins 0) as Hf. rewrite map_id in Hf. rewrite Hf by (done || lia).
  set (a := if (FUSION_FEE_V1_HEIGHT <=? height) && _ then _ else _).
  assert (Ha : a = sumZ ins - fusion_fee height).
  { unfold a, fusion_fee in *. destruct ((FUSION_FEE_V1_HEIGHT <=? height) && _); [|lia].
    apply wrap_small. unfold fits, FUSION_FEE_V1 in *. lia. }
  assert (Hfa : fits 64 a). { unfold fits. rewrite Ha. unfold fusion_fee, FUSION_FEE_V1 in *. case_if; lia. }
  intros <-%bool_decide_eq_true_1. split_and!; [done|done|lia|..].
  - apply Forall_forall. intros x Hx%list_elem_of_In. destruct (Z_lt_ge_dec x (defaultFusionDustThreshold c height)) as [Hlt|]; [|lia].
    exfalso. assert (existsb (fun amount => amount <? defaultFusionDustThreshold c height) ins = true); [|congruence].
    apply existsb_exists. exists x. split; [done|]. by apply Z.ltb_lt.
  - rewrite (sumZ_permutation _ _ (merge_sort_Permutation Z.le _)). rewrite (proj1 (decompose_positive _ _ Hfa Hdust)). lia.
  - apply (Sorted_merge_sort Z.le).
  - intros Hh. rewrite (merge_sort_Permutation Z.le _).
    destruct (decomposeAmount_spec a (defaultFusionDustThreshold c height) [] Hfa Hdust) as (dust & chunks & -> & _ & Hd & Hp & _).
    assert (dust = 0) as ->; [|done].
    unfold defaultFusionDustThreshold in Hd. rewrite (proj2 (Z.leb_le _ _)) in Hd by done.
    unfold DEFAULT_DUST_THRESHOLD_V2 in Hd. lia.
Qed.

(** ** The table of denominations *)

Lemma pretty_amounts_eq :
  PRETTY_AMOUNTS = map (fun i => (Z.of_nat i mod 9 + 1) * 10 ^ (Z.of_nat i / 9)) (seq 0 172).
Proof. vm_compute. reflexivity. Qed.

Lemma pretty_amount_at i :
  PRETTY_AMOUNTS !! i =
    if (i <? 172)%nat then Some ((Z.of_nat i mod 9 + 1) * 10 ^ (Z.of_nat i / 9)) else None.
Proof.
  rewrite pretty_amounts_eq, list_lookup_fmap. destruct (Nat.ltb_spec i 172).
  - rewrite lookup_seq_lt by done. done.
  - rewrite lookup_seq_ge by done. done.
Qed.

Lemma lower_bound_found l : StronglySorted Z.lt l -> forall i v, l !! i = Some v -> lower_bound l v = i.
Proof.
  induction 1 as [|x l Hs IH Hx]; intros i v Hi; [done|]. cbn [lower_bound]. destruct i as [|i]; simpl in Hi.
  - injection Hi as ->. by rewrite Z.ltb_irrefl.
  - rewrite (IH i v Hi). rewrite (proj2 (Z.ltb_lt _ _)); [done|].
    rewrite Forall_forall in Hx. apply Hx. by eapply list_elem_of_lookup_2.
Qed.

Lemma pretty_amounts_sorted : StronglySorted Z.lt PRETTY_AMOUNTS.
Proof.
  apply Sorted.Sorted_StronglySorted; [intros x y z; lia|]. unfold PRETTY_AMOUNTS.
  repeat (apply Sorted_cons; [|first [apply HdRel_nil | apply HdRel_cons; reflexivity]]). apply Sorted_nil.
Qed.

(** A denomination below [2 ^ 64] stands in the table where its digits say. *)
Lemma pretty_amount_index d p :
  1 <= d <= 9 -> 0 <= p -> d * 10 ^ p < 2 ^ 64 ->
  p <= 19 /\ lower_bound PRETTY_AMOUNTS (d * 10 ^ p) = Z.to_nat (9 * p + d - 1) /\
  PRETTY_AMOUNTS !! Z.to_nat (9 * p + d - 1) = Some (d * 10 ^ p).
Proof.
  intros Hd Hp Hlt. assert (Hp19 : p <= 19).
  { destruct (Z_le_gt_dec p 19); [done|]. pose proof (Z.pow_le_mono_r 10 20 p ltac:(lia) ltac:(lia)).
    change (10 ^ 20) with 100000000000000000000 in *. nia. }
  assert (Hd19 : p = 19 -> d = 1). { intros ->. change (10 ^ 19) with 10000000000000000000 in Hlt. lia. }
  assert (Hat : PRETTY_AMOUNTS !! Z.to_nat (9 * p + d - 1) = Some (d * 10 ^ p)).
  { rewrite pretty_amount_at. rewrite (proj2 (Nat.ltb_lt _ _)) by (destruct (Z.eq_dec p 19); lia).
    rewrite Z2Nat.id by lia. replace (9 * p + d - 1) with (d - 1 + p * 9) by lia.
    rewrite Z.mod_add, Z.div_add, Z.mod_small, Z.div_small by lia. do 2 f_equal. lia. }
  split_and!; [done| |done]. by apply lower_bound_found; [apply pretty_amounts_sorted|].
Qed.

Lemma fusion_input_spec c amount threshold height p :
  fits 64 amount ->
  isAmountApplicableInFusionTransactionInput c amount threshold height = Some p <->
  defaultFusionDustThreshold c height <= amount < threshold /\
  exists d, 1 <= d <= 9 /\ 0 <= p /\ amount = d * 10 ^ p.
Proof.
  intros Ha. unfold isAmountApplicableInFusionTransactionInput.
  destruct (Z.leb_spec threshold amount); [split; [done|lia]|].
  destruct (Z.ltb_spec amount (defaultFusionDustThreshold c height)); [split; [done|lia]|]. split.
  - set (i := lower_bound PRETTY_AMOUNTS amount). clearbody i.
    destruct (PRETTY_AMOUNTS !! i) as [x|] eqn:Hx; [|done]. destruct (Z.eqb_spec amount x) as [->|]; [|done].
    intros [= <-]. split; [lia|]. rewrite pretty_amount_at in Hx.
    destruct (Nat.ltb_spec i 172) as [Hi|]; [|done]. injection Hx as Hx.
    exists (Z.of_nat i mod 9 + 1). pose proof (Z.mod_pos_bound (Z.of_nat i) 9).
    rewrite (wrap_small 8 (Z.of_nat i / 9)) by (split; [apply Z.div_pos; lia|apply Z.div_lt_upper_bound; lia]).
    pose proof (Z.div_pos (Z.of_nat i) 9). split_and!; lia.
  - intros (_ & d & Hd & Hp & ->). destruct (pretty_amount_index d p Hd Hp) as (Hp19 & Hlb & Hat); [apply Ha|].
    rewrite Hlb, Hat, Z.eqb_refl. cbn [negb]. f_equal. rewrite Z2Nat.id by lia.
    replace (9 * p + d - 1) with (d - 1 + p * 9) by lia. rewrite Z.div_add, Z.div_small, Z.add_0_l by lia.
    apply wrap_small. unfold fits. lia.
Qed.

(** ** Amounts as text *)

Lemma leftTrim_id l : Forall (fun ch => is_whitespace ch = false) l -> leftTrim l = l.
Proof. destruct 1 as [|ch l Hc _]; [done|]. cbn [leftTrim]. by rewrite Hc. Qed.

Lemma trim_id l : Forall (fun ch => is_whitespace ch = false) l -> trim l = l.
Proof.
  intros H. unfold trim, rightTrim. rewrite (leftTrim_id (rev l)) by (by apply List.Forall_rev).
  by rewrite rev_involutive, leftTrim_id.
Qed.

Definition all_digits (l : list Z) : Prop := Forall (fun ch => isdigit ch = true) l.

Lemma digit_char ch : isdigit ch = true -> is_whitespace ch = false /\ ch <> 46.
Proof.
  intros H%isdigit_range. unfold is_whitespace, whitespace. simpl.
  rewrite !(proj2 (Z.eqb_neq _ _)) by lia. split; [done|lia].
Qed.

Lemma parse_point c a b :
  all_digits a -> all_digits b -> a <> [] -> Z.of_nat (length b) = m_numberOfDecimalPlaces c ->
  parseAmount c (a ++ str "." ++ b) = fromString_u64 (a ++ b).
Proof.
  intros Ha Hb Hne Hl. change (str ".") with [46]. unfold parseAmount.
  assert (Hdots : Forall (fun x => x <> 46) a) by (eapply Forall_impl; [exact Ha|]; intros ? H; apply (digit_char _ H)).
  rewrite trim_id.
  2: { apply Forall_app; split; [|cbn [app]; apply Forall_cons; split; [done|]];
       (eapply Forall_impl; [exact Ha || exact Hb|]; intros ? H; apply (digit_char _ H)). }
  cbn [app]. rewrite find_char_app by done.
  replace (Z.of_nat (length (a ++ 46 :: b)) - Z.of_nat (length a) - 1) with (m_numberOfDecimalPlaces c)
    by (rewrite length_app; simpl; lia).
  rewrite Z.sub_diag. change (Z.to_nat 0) with O. cbn [drop_zeros]. cbv beta iota. rewrite Z.ltb_irrefl. cbv beta iota.
  rewrite take_app_length, drop_app_add. change (drop 1 (46 :: b)) with b.
  destruct a as [|x a]; [done|]. cbn [is_empty app].
  replace (forallb isdigit (x :: a ++ b)) with true; [by rewrite Z.ltb_irrefl|].
  symmetry. apply forallb_forall. intros y Hy. apply list_elem_of_In in Hy. revert y Hy. apply Forall_forall.
  by apply (Forall_app_2 _ (x :: a) b).
Qed.

Lemma format_parse c a : 0 <= m_numberOfDecimalPlaces c -> fits 64 a -> parseAmount c (formatAmount c a) = Some a.
Proof.
  intros Hn Ha. unfold formatAmount. set (places := Z.to_nat (m_numberOfDecimalPlaces c)).
  set (s := if (length (to_string a) <? places + 1)%nat then _ else _).
  assert (Hs : all_digits s /\ (places + 1 <= length s)%nat /\ decimal_value s = a).
  { pose proof (to_string_digits a ltac:(unfold fits in Ha; lia)) as Hd. pose proof (to_string_value a Ha) as Hv.
    unfold s. destruct (Nat.ltb_spec (length (to_string a)) (places + 1)) as [Hlt|Hge]; [|done].
    split_and!.
    - apply Forall_app. split; [|done]. apply List.Forall_forall. intros y Hy. by rewrite (repeat_spec _ _ _ Hy).
    - rewrite length_app, repeat_length. lia.
    - rewrite decimal_value_app, decimal_value_zeros, Hv. lia. }
  destruct Hs as (Hd & Hl & Hv). rewrite parse_point.
  - rewrite take_drop, fromString_digits; [|by destruct s; simpl in *; [lia|]|done].
    rewrite Hv. unfold fits in Ha. by rewrite (proj2 (Z.leb_gt _ _)) by lia.
  - by apply Forall_take.
  - by apply Forall_drop.
  - intros H%(f_equal length). rewrite length_take in H. simpl in H. lia.
  - rewrite length_drop. lia.
Qed.

(** ** Difficulty before the LWMA algorithms *)

(** The ends of a sorted list are its extremes. *)
Lemma sorted_ends (l : list Z) lo hi :
  lo ∈ l -> hi ∈ l -> Forall (fun t => lo <= t <= hi) l ->
  vec_at (merge_sort Z.le l) 0 = Ok lo /\
  vec_at (merge_sort Z.le l) (Z.of_nat (length (merge_sort Z.le l)) - 1) = Ok hi.
Proof.
  intros Hlo Hhi Hall. pose proof (merge_sort_Permutation Z.le l) as Hp.
  pose proof (StronglySorted_merge_sort Z.le l) as Hs. set (sl := merge_sort Z.le l) in *. clearbody sl.
  rewrite <- Hp in Hlo, Hhi, Hall. clear Hp l. split.
  - destruct sl as [|x sl]; [by apply not_elem_of_nil in Hlo|]. unfold vec_at. simpl.
    apply StronglySorted_cons in Hs as [Hx _]. apply Forall_cons in Hall as [Hx' _].
    apply elem_of_cons in Hlo as [->|Hlo]; [done|]. rewrite Forall_forall in Hx. specialize (Hx _ Hlo). do 2 f_equal. lia.
  - destruct sl as [|x sl _] using rev_ind; [by apply not_elem_of_nil in Hlo|].
    rewrite length_app. apply vec_at_ok; [simpl; lia|].
    replace (Z.to_nat _) with (length sl + 0)%nat by (simpl; lia). rewrite lookup_app_r by lia.
    rewrite Nat.add_0_r, Nat.sub_diag. simpl. f_equal.
    apply StronglySorted_app in Hs as (Hs & _ & _). apply Forall_app in Hall as [_ Hx]. apply Forall_cons in Hx as [Hx _].
    apply elem_of_app in Hhi as [Hhi|Hhi]; [|by apply list_elem_of_singleton in Hhi].
    specialize (Hs _ _ Hhi (list_elem_of_here _ _)). lia.
Qed.

(** The work over a window that is not cut, times the target, and the time
    between its earliest and its latest block. *)
Lemma work_and_span_eq c (ts cd : list Z) window lo hi w0 w1 :
  fits 64 window -> fits 64 (m_difficultyTarget c) ->
  (2 <= length ts)%nat -> Z.of_nat (length ts) <= window ->
  lo ∈ ts -> hi ∈ ts -> Forall (fun t => lo <= t <= hi) ts -> fits 64 lo -> fits 64 hi ->
  cd !! 0%nat = Some w0 -> cd !! (length ts - 1)%nat = Some w1 -> 0 <= w0 < w1 -> w1 < 2 ^ 64 ->
  let W := (w1 - w0) * m_difficultyTarget c in
  let S := Z.max 1 (hi - lo) in
  work_and_span c ts cd window 0 = Ok (if 2 ^ 64 <? W + S then None else Some (W, S)).
Proof.
  intros Hw Ht Hl Hlw Hlo Hhi Hall Flo Fhi Hc0 Hc1 Hwork Hw1. cbv zeta. unfold work_and_span, difficulty_cut.
  destruct (sorted_ends ts lo hi Hlo Hhi Hall) as [Hfirst Hlast].
  assert (Hls : length (merge_sort Z.le ts) = length ts) by (by rewrite (merge_sort_Permutation Z.le ts)).
  set (sl := merge_sort Z.le ts) in *. clearbody sl. rewrite Hls in *.
  change (u64 (2 * 0)) with 0. rewrite Z.sub_0_r, (wrap_small 64 window) by done. unfold assert_that.
  rewrite (proj2 (Z.leb_le 0 _)) by apply wrap_fits, Z.le_0_1. cbn [obind].
  rewrite (proj2 (Z.leb_le _ window)) by done. cbv beta iota.
  rewrite !(proj2 (Z.leb_le _ _)) by lia. cbn [andb obind]. rewrite Hlast, Hfirst. cbn [obind].
  replace (vec_at cd (Z.of_nat (length ts) - 1)) with (Ok w1).
  2: { symmetry. apply vec_at_ok; [lia|]. rewrite <- Hc1. f_equal. lia. }
  rewrite (vec_at_ok cd 0 w0) by (done || lia). cbn [obind].
  rewrite (Forall_forall _ ts) in Hall. pose proof (Hall _ Hlo) as Hspan.
  unfold fits in *. rewrite (wrap_small 64 (hi - lo)), (wrap_small 64 (w1 - w0)) by (unfold fits; lia).
  rewrite (proj2 (Z.ltb_lt 0 _)) by lia. cbn [obind].
  replace (if hi - lo =? 0 then 1 else hi - lo) with (Z.max 1 (hi - lo)) by (case_if; lia).
  destruct (mul128_eq (w1 - w0) (m_difficultyTarget c)) as (low & high & -> & E & Hlow & Hhigh); [unfold fits; lia..|].
  unfold fits in *. rewrite <- E.
  destruct (Z.eqb_spec high 0) as [->|Hnz]; cbn [negb orb].
  - rewrite Z.mul_0_l, Z.add_0_l. repeat case_if; (done || lia).
  - rewrite (proj2 (Z.ltb_lt _ _)) by nia. done.
Qed.

Definition zawy_params (c : Currency) : Prop :=
  m_difficultyWindow c = DIFFICULTY_WINDOW /\ m_difficultyCut c = DIFFICULTY_CUT /\
  fits 64 (m_difficultyTarget c) /\ m_zawyDifficultyV2 c = 0 /\
  1 <= m_zawyDifficultyBlockVersion c <= BLOCK_MAJOR_VERSION_3.

Lemma nextDifficulty_eq c version blockIndex (ts cd : list Z) lo hi w0 w1 :
  zawy_params c -> BLOCK_MAJOR_VERSION_3 <= version ->
  length ts = length cd -> (2 <= length ts)%nat ->
  let n := Nat.min 17 (length ts) in
  lo ∈ take n ts -> hi ∈ take n ts -> Forall (fun t => lo <= t <= hi) (take n ts) -> fits 64 lo -> fits 64 hi ->
  cd !! 0%nat = Some w0 -> cd !! (n - 1)%nat = Some w1 -> 0 <= w0 < w1 -> w1 < 2 ^ 64 ->
  let W := (w1 - w0) * m_difficultyTarget c in
  let S := Z.max 1 (hi - lo) in
  nextDifficulty c version blockIndex ts cd = Ok (if 2 ^ 64 <? W + S then 0 else W / S).
Proof.
  intros (HW & HC & HT & HZ & HV) Hv Hlen Hl n Hlo Hhi Hall Flo Fhi Hc0 Hc1 Hwork Hw1. cbv zeta.
  unfold nextDifficulty, difficultyWindowByBlockVersion, difficultyCutByBlockVersion.
  rewrite !(proj2 (Z.leb_le BLOCK_MAJOR_VERSION_3 _)) by done. rewrite HW, HC, HZ.
  change (assert_that (2 <=? DIFFICULTY_WINDOW) _) with (@Ok unit tt). cbn [obind].
  set (p := if DIFFICULTY_WINDOW <? _ then _ else _).
  assert (Hp : p = (take n ts, take n cd)).
  { unfold p, DIFFICULTY_WINDOW. destruct (Z.ltb_spec 17 (Z.of_nat (length ts))).
    - unfold resize. change (Z.to_nat 17) with 17%nat. replace n with 17%nat by lia.
      replace (17 - length ts)%nat with 0%nat by lia. replace (17 - length cd)%nat with 0%nat by lia.
      simpl. by rewrite !app_nil_r.
    - rewrite !take_ge by lia. done. }
  rewrite Hp. clear p Hp. rewrite !length_take, <- Hlen, Nat.eqb_refl.
  replace (Nat.min n (length ts)) with n by lia. unfold assert_that at 1. cbn [obind].
  unfold assert_that. rewrite (proj2 (Z.leb_le _ DIFFICULTY_WINDOW)) by (unfold DIFFICULTY_WINDOW; lia). cbn [obind].
  rewrite (proj2 (Nat.leb_gt _ _)) by lia. change DIFFICULTY_CUT with 0.
  assert (Hlt : length (take n ts) = n) by (rewrite length_take; lia).
  rewrite (work_and_span_eq c (take n ts) (take n cd) DIFFICULTY_WINDOW lo hi w0 w1); rewrite ?Hlt;
    try done; try (unfold DIFFICULTY_WINDOW; lia); try (rewrite lookup_take_lt by lia; done).
  cbn [obind]. destruct (_ <? _); [done|]. cbn [Z.eqb negb].
  rewrite (proj2 (Z.leb_le _ _)), (proj2 (Z.eqb_neq _ 0)) by lia. done.
Qed.

(** ** Properties *)

(** C22. The block reward: with the arithmetic in 64 bits, [getBlockReward]
    refuses a block above twice the full-reward zone and otherwise returns the
    penalised base reward plus the fee, penalised too from version 2 on, and as
    emission change exactly the reward minus the fee.  Before the fixed-reward
    height the coins in circulation never exceed the money supply. *)
Theorem block_reward_correct c v m s already fee height :
  reward_params c -> fits 32 m -> fits 32 s -> 0 <= already <= m_moneySupply c -> 0 <= fee < 2 ^ 62 ->
  let M := Z.max m (blockGrantedFullRewardZoneByBlockVersion c v) in
  let B := base_reward c already height in
  (2 * M < s -> getBlockReward c v m s already fee height = Ok None) /\
  (s <= 2 * M -> exists reward,
    getBlockReward c v m s already fee height = Ok (Some (reward, reward - fee)) /\
    reward = penalized B M s + (if 2 <=? v then penalized fee M s else fee) /\ 0 <= reward <= B + fee /\
    (s <= M -> reward = B + fee) /\
    (height < FIXED_REWARD_V1_HEIGHT -> already + (reward - fee) <= m_moneySupply c)).
Proof.
  intros Hp Hm Hs Ha Hf. cbv zeta. rewrite getBlockReward_eq by done. fold (reward_zone c v m).
  pose proof (reward_zone_range c v m Hp Hm) as HM. destruct (base_reward_range c already height Hp Ha) as [HB Hsup].
  split; intros Hle; [by rewrite (proj2 (Z.ltb_lt _ _))|]. rewrite (proj2 (Z.ltb_ge _ _)) by done.
  eexists. split; [done|]. split; [done|]. unfold block_reward, BLOCK_MAJOR_VERSION_2.
  pose proof (penalized_range (base_reward c already height) (reward_zone c v m) s ltac:(lia) ltac:(lia) Hle).
  pose proof (penalized_range fee (reward_zone c v m) s ltac:(lia) ltac:(lia) Hle).
  split_and!; [destruct (2 <=? v); lia..| |destruct (2 <=? v); lia].
  intros Hfull. unfold penalized. rewrite (proj2 (Z.leb_le s _)) by done. destruct (2 <=? v); done.
Qed.

Lemma block_reward_correct_witness :
  exists reward, getBlockReward CurrencyBuilder 7 50000 150000 1000000000000 5000 1000 = Ok (Some (reward, reward - 5000)) /\
    1000000000000 + (reward - 5000) <= MONEY_SUPPLY.
Proof.
  destruct (block_reward_correct CurrencyBuilder 7 50000 150000 1000000000000 5000 1000) as [_ H].
  - ground.
  - ground.
  - ground.
  - ground.
  - ground.
  - destruct (H ltac:(ground)) as (r & H1 & _ & _ & _ & H2). exists r. split; [exact H1|]. apply H2. ground.
Defined.

(** The amounts of the outputs, which depend on the reward only. *)
Definition miner_amounts (c : Currency) (height maxOuts reward : Z) : list Z :=
  let l := decomposeAmount reward (defaultDustThreshold c height) [] in merge_outs (length l) maxOuts l.

Lemma block_reward_fits c v m s already fee height :
  reward_params c -> fits 32 m -> 0 <= already <= m_moneySupply c -> 0 <= fee < 2 ^ 62 -> s <= 2 * reward_zone c v m ->
  fits 64 (block_reward c v m s already fee height).
Proof.
  intros Hp Hm Ha Hf Hle. destruct (base_reward_range c already height Hp Ha) as [HB _]. pose proof (reward_zone_range c v m Hp Hm).
  pose proof (penalized_range (base_reward c already height) (reward_zone c v m) s ltac:(lia) ltac:(lia) Hle).
  pose proof (penalized_range fee (reward_zone c v m) s ltac:(lia) ltac:(lia) Hle).
  unfold fits, block_reward. destruct (_ <=? v); lia.
Qed.

Lemma miner_amounts_spec c v m s already fee height maxOuts :
  reward_params c -> fits 64 (m_defaultDustThreshold c) -> fits 32 m -> 0 <= already <= m_moneySupply c -> 0 <= fee < 2 ^ 62 ->
  s <= 2 * reward_zone c v m -> 1 <= maxOuts ->
  let amounts := miner_amounts c height maxOuts (block_reward c v m s already fee height) in
  Z.of_nat (length amounts) <= maxOuts /\ sumZ amounts = block_reward c v m s already fee height /\ Forall (fun a => 0 < a) amounts.
Proof.
  intros Hp Hdt Hm Ha Hf Hle Hmax. pose proof (block_reward_fits c v m s already fee height Hp Hm Ha Hf Hle) as Hr.
  assert (Ht : fits 64 (defaultDustThreshold c height)).
  { unfold defaultDustThreshold. case_if; [|done]. unfold fits, DEFAULT_DUST_THRESHOLD_V2. lia. }
  destruct (decompose_positive _ _ Hr Ht) as [Hsum Hpos]. cbv zeta. unfold miner_amounts.
  destruct (merge_outs_spec maxOuts Hmax _ _ (Nat.le_refl _) Hpos) as (Hn & Hms & Hmp); [unfold fits in Hr; lia|].
  split_and!; [done| |done]. by rewrite Hms.
Qed.

(** The transaction of a block that is not too large. *)
Lemma constructMinerTx_exact c gkd dpk v height m already s fee view spend txkey extraNonce maxOuts d (P : PublicKey -> Prop) :
  reward_params c -> fits 64 (m_defaultDustThreshold c) -> fits 32 m -> fits 32 s ->
  0 <= already <= m_moneySupply c -> 0 <= fee < 2 ^ 62 -> s <= 2 * reward_zone c v m -> 1 <= maxOuts ->
  pod 32 (publicKey txkey) -> bytes_ok extraNonce -> Z.of_nat (length extraNonce) <= TX_EXTRA_NONCE_MAX_COUNT ->
  gkd view (secretKey txkey) = Some d -> (forall no, 0 <= no -> exists k, dpk d no spend = Some k /\ P k) ->
  exists tx, constructMinerTx c gkd dpk v height m already s fee view spend txkey extraNonce maxOuts = Ok (Some tx) /\
    map out_amount (outputs tx) = miner_amounts c height maxOuts (block_reward c v m s already fee height) /\
    Forall (fun o => exists k, target o = ToKey (mkKeyOutput k) /\ P k) (outputs tx) /\
    tx_prefix tx = mkTransactionPrefix CURRENT_TRANSACTION_VERSION (u32 (height + m_minedMoneyUnlockWindow c))
      [InBase (mkBaseInput height)] (outputs tx) (extra tx) /\ signatures tx = [] /\
    getTransactionPublicKeyFromExtra (extra tx) = publicKey txkey /\
    length (extra tx) = (33 + if is_empty extraNonce then 0 else 2 + length extraNonce)%nat.
Proof.
  intros Hp Hdt Hm Hs Ha Hf Hle Hmax Hk Hb Hl Hgkd Hdpk. unfold constructMinerTx.
  destruct (miner_extra _ _ Hk Hb Hl) as (e & Ee & He). rewrite Ee. rewrite getBlockReward_eq by done.
  rewrite (proj2 (Z.ltb_ge _ _)) by done. cbn [obind]. rewrite (proj2 (Z.leb_le 1 _)) by done. cbn [negb].
  destruct (miner_amounts_spec c v m s already fee height maxOuts) as (Hn & Hsum & Hpos); [done..|].
  pose proof (block_reward_fits c v m s already fee height Hp Hm Ha Hf Hle) as Hr.
  fold (decomposeAmount (block_reward c v m s already fee height) (defaultDustThreshold c height) []).
  fold (miner_amounts c height maxOuts (block_reward c v m s already fee height)).
  destruct (miner_outputs_spec gkd dpk view spend txkey d Hgkd) with (amounts := miner_amounts c height maxOuts (block_reward c v m s already fee height))
    (no := 0) (outs := @nil TransactionOutput) (sum := 0) as (outs & -> & Houts & Hkeys);
    [intros no Hno; destruct (Hdpk no Hno) as (k & -> & _); done|lia|done|lia|unfold fits in Hr; lia|].
  rewrite Z.add_0_l, Hsum, Z.eqb_refl. cbn [negb app]. eexists. split; [done|]. cbn [outputs extra tx_prefix signatures]. split_and!; try done.
  - apply Hkeys. intros no k Hno Hk'. destruct (Hdpk no Hno) as (k' & E & HP). congruence.
  - unfold addTransactionPublicKeyToExtra, addExtraNonceToTransactionExtra in Ee. destruct Hk as [Hk _].
    destruct (is_empty extraNonce); [injection Ee as <-; cbn [app length]; lia|]. case_if_in Ee; [done|]. injection Ee as <-.
    cbn [app length]. rewrite length_app. cbn [length]. lia.
Qed.

(** C23. The miner transaction pays the block reward, exactly: whenever the block
    is not too large, the key derivation works, at least one output is allowed, the
    extra nonce has at most 255 bytes, the coins so far are within the money supply
    and the fee is below [2^62], [constructMinerTx] succeeds with at most [maxOuts] outputs, all positive, that sum up to the reward; its
    only input is the base input of the height, and its extra field announces the
    transaction public key. *)
Theorem miner_tx_pays c gkd dpk v height m already s fee view spend txkey extraNonce maxOuts d :
  reward_params c -> fits 64 (m_defaultDustThreshold c) -> fits 32 m -> fits 32 s ->
  0 <= already <= m_moneySupply c -> 0 <= fee < 2 ^ 62 -> s <= 2 * reward_zone c v m -> 1 <= maxOuts ->
  pod 32 (publicKey txkey) -> bytes_ok extraNonce -> Z.of_nat (length extraNonce) <= TX_EXTRA_NONCE_MAX_COUNT ->
  gkd view (secretKey txkey) = Some d -> (forall no, 0 <= no -> dpk d no spend <> None) ->
  exists tx, constructMinerTx c gkd dpk v height m already s fee view spend txkey extraNonce maxOuts = Ok (Some tx) /\
    total_out tx = block_reward c v m s already fee height /\
    Z.of_nat (length (outputs tx)) <= maxOuts /\ Forall (fun o => 0 < out_amount o) (outputs tx) /\
    inputs tx = [InBase (mkBaseInput height)] /\ getTransactionPublicKeyFromExtra (extra tx) = publicKey txkey.
Proof.
  intros Hp Hdt Hm Hs Ha Hf Hle Hmax Hk Hb Hl Hgkd Hdpk.
  destruct (constructMinerTx_exact c gkd dpk v height m already s fee view spend txkey extraNonce maxOuts d (fun _ => True)
    Hp Hdt Hm Hs Ha Hf Hle Hmax Hk Hb Hl Hgkd) as (tx & E & Houts & _ & Hpre & _ & Hkey & _).
  { intros no Hno. destruct (dpk d no spend) as [k|] eqn:E; [by exists k|by destruct (Hdpk no Hno)]. }
  destruct (miner_amounts_spec c v m s already fee height maxOuts) as (Hn & Hsum & Hpos); [done..|].
  exists tx. unfold total_out. rewrite Houts. split_and!; [done|done| |by rewrite <- Houts, Forall_map in Hpos|by rewrite Hpre|done].
  by rewrite <- Houts, length_map in Hn.
Qed.

Lemma miner_tx_pays_witness :
  exists tx, constructMinerTx CurrencyBuilder (fun v _ => Some v) (fun _ _ s => Some s) 7 500000 0 1000000000000 1000 7
      (zeros 32) (zeros 32) (mkKeyPair (repeat 3 32) (repeat 4 32)) [1; 2; 3] 2 = Ok (Some tx) /\
    total_out tx = 11682517 /\ Z.of_nat (length (outputs tx)) <= 2.
Proof.
  destruct (miner_tx_pays CurrencyBuilder (fun v _ => Some v) (fun _ _ s => Some s) 7 500000 0 1000000000000 1000 7
    (zeros 32) (zeros 32) (mkKeyPair (repeat 3 32) (repeat 4 32)) [1; 2; 3] 2 (zeros 32)) as (tx & H1 & H2 & H3 & _).
  all: [> ground.. | idtac].
  exists tx. split; [exact H1|]. split; [|exact H3]. rewrite H2. vm_compute. reflexivity.
Defined.

(** Fusion transactions conserve value: when [isFusionTransaction] accepts
    64-bit input amounts with a sum below [2^64] that covers the fusion fee, the
    outputs sum up to the inputs minus that fee, are sorted, and are
    denominations with one non-zero digit once the dust threshold is zero; and
    the count and size limits hold. *)
Theorem fusion_conserves c ins outs size height :
  fusion_params c -> Forall (fits 64) ins -> sumZ ins < 2 ^ 64 -> fusion_fee height <= sumZ ins ->
  Z.of_nat (length outs) < 2 ^ 32 -> isFusionTransaction_amounts c ins outs size height = true ->
  size <= m_fusionTxMaxSize c /\ m_fusionTxMinInputCount c <= Z.of_nat (length ins) /\
  Z.of_nat (length outs) * m_fusionTxMinInOutCountRatio c <= Z.of_nat (length ins) /\
  Forall (fun a => defaultFusionDustThreshold c height <= a) ins /\
  sumZ outs + fusion_fee height = sumZ ins /\ Sorted Z.le outs /\
  (FUSION_DUST_THRESHOLD_HEIGHT_V2 <= height -> Forall pretty outs).
Proof. apply fusion_sound. Qed.

Lemma fusion_conserves_witness :
  sumZ [10000; 100000] + fusion_fee 900000 = sumZ (repeat 10000 12).
Proof.
  assert (H : isFusionTransaction_amounts (Currency_move CurrencyBuilder) (repeat 10000 12) [10000; 100000] 5000 900000 = true)
    by (vm_compute; reflexivity).
  pose proof (fusion_conserves (Currency_move CurrencyBuilder) (repeat 10000 12) [10000; 100000] 5000 900000) as F.
  destruct F as (_ & _ & _ & _ & F & _).
  - ground.
  - ground.
  - ground.
  - ground.
  - ground.
  - exact H.
  - exact F.
Defined.

(** The inputs a wallet may fuse: an amount qualifies exactly when it lies
    between the dust threshold and the given threshold and has a single non-zero
    decimal digit, and the power of ten returned is that of its digit. *)
Theorem fusion_input_denominations c amount threshold height p :
  fits 64 amount ->
  isAmountApplicableInFusionTransactionInput c amount threshold height = Some p <->
  defaultFusionDustThreshold c height <= amount < threshold /\
  exists d, 1 <= d <= 9 /\ 0 <= p /\ amount = d * 10 ^ p.
Proof. apply fusion_input_spec. Qed.

(** Amounts as text: parsing what [formatAmount] prints returns the amount,
    for every number of decimal places and every 64-bit amount. *)
Theorem amount_text_roundtrip c a :
  0 <= m_numberOfDecimalPlaces c -> fits 64 a -> parseAmount c (formatAmount c a) = Some a.
Proof. apply format_parse. Qed.

Lemma amount_text_roundtrip_witness :
  formatAmount CurrencyBuilder 1234567 = str "12345.67" /\ parseAmount CurrencyBuilder (str "12345.67") = Some 1234567.
Proof.
  split; [reflexivity|]. change (str "12345.67") with (formatAmount CurrencyBuilder 1234567).
  apply (amount_text_roundtrip CurrencyBuilder 1234567); ground.
Defined.

(** C34. The difficulty before the LWMA algorithms, from block version 3 on, for as
    many timestamps as difficulties, at least two of each, and a positive amount of
    work in the window: no assertion fails, and the next difficulty is the work of
    the first 17 blocks times the target over the time between their earliest and
    latest timestamp, or one second, whatever their order; it is 0 when that
    product plus the time exceeds [2^64]. *)
Theorem nextDifficulty_correct c version blockIndex (ts cd : list Z) lo hi w0 w1 :
  zawy_params c -> BLOCK_MAJOR_VERSION_3 <= version ->
  length ts = length cd -> (2 <= length ts)%nat ->
  let n := Nat.min 17 (length ts) in
  lo ∈ take n ts -> hi ∈ take n ts -> Forall (fun t => lo <= t <= hi) (take n ts) -> fits 64 lo -> fits 64 hi ->
  cd !! 0%nat = Some w0 -> cd !! (n - 1)%nat = Some w1 -> 0 <= w0 < w1 -> w1 < 2 ^ 64 ->
  let W := (w1 - w0) * m_difficultyTarget c in
  let S := Z.max 1 (hi - lo) in
  nextDifficulty c version blockIndex ts cd = Ok (if 2 ^ 64 <? W + S then 0 else W / S).
Proof. apply nextDifficulty_eq. Qed.

Lemma nextDifficulty_correct_witness :
  nextDifficulty CurrencyBuilder 3 50000 [1000; 1130; 1060] [5000; 6000; 7000] = Ok 923.
Proof.
  apply (nextDifficulty_correct CurrencyBuilder 3 50000 [1000; 1130; 1060] [5000; 6000; 7000] 1000 1130 5000 7000).
  all: ground.
Defined.

(** The genesis block hard-coded in the configuration parses; it is a
    well-formed block of version 1 that pays out exactly the genesis reward and
    survives the wire, and with it [CurrencyBuilder::currency] succeeds whatever
    the hash function. *)
Theorem genesis_block_correct cn_fast_hash :
  exists g ba c, generateGenesisBlock = Some g /\
    total_out (baseTransaction g) = GENESIS_BLOCK_REWARD /\ inputs (baseTransaction g) = [InBase (mkBaseInput 0)] /\
    getBlockIndex g = 0 /\ getTransactionPublicKeyFromExtra (extra (baseTransaction g)) <> zeros 32 /\
    toBinaryArray (ser_BlockTemplate cn_fast_hash) g = Ok ba /\
    fromBinaryArray (ser_BlockTemplate cn_fast_hash) default_block ba = Ok g /\
    currency cn_fast_hash CurrencyBuilder = Ok c /\ genesisBlockTemplate c = g.
Proof.
  eexists _, _, _. split; [vm_compute; reflexivity|].
  split_and!; first [vm_compute; reflexivity | vm_compute; discriminate].
Qed.

(** C21. The proof-of-work test of a block, when its hashes can be computed: a
    block of version 1 passes exactly when its long hash times the difficulty is
    below [2^256]; a later block must also carry a merge mining tag whose root is
    the one computed from its header hash along a branch of at most 256 hashes. *)
Theorem proof_of_work_exact c cn_fast_hash slow_hash (block : BlockTemplate) difficulty h aux g :
  (forall a x, pod 32 (slow_hash a x)) -> fits 64 difficulty -> 1 <= majorVersion block ->
  getBlockLongHash cn_fast_hash slow_hash block = Ok h ->
  getAuxiliaryBlockHeaderHash cn_fast_hash block = Ok aux -> genesisBlockHash c cn_fast_hash = Ok g ->
  let branch := blockchainBranch (parentBlock block) in
  checkProofOfWork c cn_fast_hash slow_hash block difficulty = Ok true <->
  le_to_Z h * difficulty < 2 ^ 256 /\
  (majorVersion block = 1 \/
   exists tag, getMergeMiningTagFromExtra (extra (pb_baseTransaction (parentBlock block))) = Some tag /\
     (length branch <= 256)%nat /\
     tree_hash_from_branch cn_fast_hash branch (length branch) aux (Some g) = merkleRoot tag).
Proof.
  intros Hpod Hd Hv Hh Haux Hg. cbv zeta.
  assert (Hp : pod 32 h).
  { unfold getBlockLongHash in Hh. apply obind_Ok in Hh as (raw & _ & Hh).
    destruct (HASHING_ALGORITHMS_BY_BLOCK_VERSION _); [|done]. injection Hh as <-. apply Hpod. }
  unfold checkProofOfWork, checkProofOfWorkV1, checkProofOfWorkV2. rewrite Hh, Haux, Hg. cbn [obind].
  rewrite check_hash_eq by (done || apply Hp). unfold BLOCK_MAJOR_VERSION_1, BLOCK_MAJOR_VERSION_2.
  destruct (Z.eqb_spec (majorVersion block) 1) as [E|Hne].
  { rewrite E. cbn [Z.eqb negb]. destruct (Z.ltb_spec (le_to_Z h * difficulty) (2 ^ 256)); [tauto|].
    split; [done|lia]. }
  rewrite (proj2 (Z.ltb_ge _ _)) by lia.
  destruct (Z.ltb_spec (le_to_Z h * difficulty) (2 ^ 256)); cbn [negb]; [|split; [done|lia]].
  destruct (getMergeMiningTagFromExtra _) as [tag|]; [|naive_solver].
  destruct (Z.ltb_spec (8 * 32) (Z.of_nat (length (blockchainBranch (parentBlock block))))) as [Hlt|Hge].
  { split; [done|]. intros (_ & [?|(t & _ & ? & _)]); lia. }
  case_bool_decide as Hroot.
  - split; [|done]. intros _. split; [done|]. right. exists tag. split_and!; [done|lia|done].
  - split; [done|]. intros (_ & [?|(t & [= <-] & _ & ?)]); done.
Qed.

Lemma proof_of_work_exact_witness :
  checkProofOfWork (with_genesis CurrencyBuilder sample_block) (fun _ => repeat 5 32) (fun _ _ => zeros 32)
    sample_block 1000 = Ok true.
Proof.
  apply (proof_of_work_exact (with_genesis CurrencyBuilder sample_block) (fun _ => repeat 5 32) (fun _ _ => zeros 32)
    sample_block 1000 (zeros 32) (repeat 5 32) (repeat 5 32)).
  all: try ground; try reflexivity.
  split; [ground|]. right. exists (mkMergeMiningTag 0 (repeat 5 32)). ground.
Defined.

End CurrencyProofs.
