(* ===== verification/Checkpoints.v ===== *)
(** * Checkpoints and block versions

    The class [Checkpoints] of [src/src/cryptonotecore/Checkpoints.cpp], with the
    file it loads as a text, and the class [UpgradeManager] of
    [src/src/cryptonotecore/UpgradeManager.cpp] with the detectors of
    [UpgradeDetector.cpp]. *)

From S2P Require Import Prelude.
From S2P Require Import StringTools.
From S2P Require Import Config.
From S2P Require Import Types.
From S2P Require Import Currency.
Import StringTools.StringTools Config.parameters Types.Types Currency.Currency.

Module Checkpoints.

(** The member [points], a [std::map]. *)
Abbreviation Checkpoints := (gmap Z Hash).

(** The map and the result. *)
Definition addCheckpoint (points : Checkpoints) (index : Z) (hash_str : list Z) : Checkpoints * bool :=
  match podFromHex 32 hash_str with
  | None => (points, false)
  | Some h =>
    match points !! index with
    | Some _ => (points, false)
    | None => (<[index := h]> points, true)
    end
  end.

(** [std::getline]: the text up to the delimiter and what follows it; [None] at
    the end of the file. *)
Definition getline (delimiter : Z) (file : list Z) : option (list Z * list Z) :=
  match file with
  | [] => None
  | _ =>
    match find_char file delimiter with
    | Some p => Some (take p file, drop (p + 1) file)
    | None => Some (file, [])
    end
  end.

(** [std::stoull]; [None] stands for either exception. *)
Definition stoull (text : list Z) : option Z := fromString_u64 text.

Fixpoint load_loop (fuel : nat) (points : Checkpoints) (file : list Z) : outcome (Checkpoints * bool) :=
  match fuel with
  | O => Err OutOfFuel
  | S fuel =>
    match getline 44 file with
    | None => Ok (points, true)
    | Some (indexString, file) =>
      match getline 10 file with
      | None => Ok (points, true)
      | Some (hash, file) =>
        match stoull indexString with
        | None => Ok (points, false)
        | Some index =>
          let '(points, added) := addCheckpoint points (u32 index) hash in
          if added : bool then load_loop fuel points file else Ok (points, false)
        end
      end
    end
  end.

(** [file] is the content of the file, [None] when it cannot be opened. *)
Definition loadCheckpointsFromFile (points : Checkpoints) (file : option (list Z)) : outcome (Checkpoints * bool) :=
  match file with
  | None => Ok (points, false)
  | Some file => load_loop (S (length file)) points file
  end.

(** [(--points.end())->first]. *)
Definition greatest_index (points : Checkpoints) : Z := foldr Z.max 0 (map fst (map_to_list points)).

Definition isInCheckpointZone (points : Checkpoints) (index : Z) : bool :=
  negb (bool_decide (points = ∅)) && (index <=? greatest_index points).

(** The result and [isCheckpoint]. *)
Definition checkBlock (points : Checkpoints) (index : Z) (h : Hash) : bool * bool :=
  match points !! index with
  | None => (true, false)
  | Some expected => (bool_decide (expected = h), true)
  end.

(** ** Loading a file *)

Lemma getline_field ch a l : Forall (fun x => x <> ch) a -> getline ch (a ++ ch :: l) = Some (a, l).
Proof.
  intros Ha. unfold getline. rewrite find_char_app by done. destruct (a ++ ch :: l) eqn:E; [by destruct a|].
  rewrite <- E, take_app_length, drop_app_add. done.
Qed.

(** The file the class expects: one line [index,hash] for each checkpoint. *)
Definition checkpoint_line (p : Z * Hash) : list Z := to_string p.1 ++ str "," ++ toHex p.2 ++ [10].

Definition checkpoint_file (l : list (Z * Hash)) : list Z := flat_map checkpoint_line l.

Definition checkpoint_ok (p : Z * Hash) : Prop := fits 32 p.1 /\ pod 32 p.2.

Lemma checkpoint_line_parse p rest :
  checkpoint_ok p ->
  getline 44 (checkpoint_line p ++ rest) = Some (to_string p.1, toHex p.2 ++ 10 :: rest) /\
  getline 10 (toHex p.2 ++ 10 :: rest) = Some (toHex p.2, rest) /\
  stoull (to_string p.1) = Some p.1 /\ podFromHex 32 (toHex p.2) = Some p.2.
Proof.
  destruct p as [i h]. intros [Hi [Hl Hb]]. simpl in *. assert (Hi64 : fits 64 i) by (unfold fits in *; lia).
  pose proof (to_string_digits i ltac:(unfold fits in *; lia)) as Hd. split_and!.
  - unfold checkpoint_line. simpl. rewrite <- !app_assoc. simpl. rewrite <- app_assoc. simpl. apply getline_field.
    eapply Forall_impl; [exact Hd|]. intros x Hx%isdigit_range. lia.
  - apply getline_field. eapply Forall_impl; [apply (toHex_range _ Hb)|]. simpl. lia.
  - unfold stoull. rewrite fromString_digits; [|apply to_string_nonempty; unfold fits in *; lia|done].
    rewrite to_string_value by done. unfold fits in *. by rewrite (proj2 (Z.leb_gt _ _)) by lia.
  - apply podFromHex_toHex; [done|]. by rewrite Hl.
Qed.

Lemma load_loop_lines l : forall fuel points,
  (length l < fuel)%nat -> Forall checkpoint_ok l -> NoDup (map fst l) ->
  (forall i, i ∈ map fst l -> points !! i = None) ->
  load_loop fuel points (checkpoint_file l) = Ok (list_to_map l ∪ points, true).
Proof.
  induction l as [|p l IH]; intros fuel points Hf Hok Hnd Hfresh; (destruct fuel as [|fuel]; [simpl in Hf; lia|]).
  { simpl. by rewrite (left_id_L ∅ (∪)). }
  apply Forall_cons in Hok as [Hp Hok]. simpl in Hnd. apply NoDup_cons in Hnd as [Hni Hnd].
  cbn [checkpoint_file flat_map]. fold (checkpoint_file l). cbn [load_loop].
  destruct (checkpoint_line_parse p (checkpoint_file l) Hp) as (-> & -> & -> & Hpod).
  rewrite wrap_small by apply Hp. unfold addCheckpoint. rewrite Hpod.
  rewrite (Hfresh p.1) by (simpl; apply list_elem_of_here).
  rewrite IH; [|simpl in Hf; lia|done|done|].
  - f_equal. f_equal. destruct p as [i h]. cbn [fst snd] in *. rewrite list_to_map_cons.
    rewrite <- insert_union_l, insert_union_r; [done|]. by apply not_elem_of_list_to_map_1.
  - intros i Hi. rewrite lookup_insert_ne by (intros E; by rewrite E in Hni). apply Hfresh. by apply list_elem_of_further.
Qed.

Lemma foldr_max_spec (l : list Z) i : Forall (fun x => 0 <= x) l -> 0 <= i -> l <> [] ->
  i <= foldr Z.max 0 l <-> exists j, j ∈ l /\ i <= j.
Proof.
  intros Hl Hi Hne. split.
  - intros H. destruct (decide (i = 0)) as [->|].
    { destruct l as [|x l]; [done|]. exists x. apply Forall_cons in Hl as [? _]. split; [apply list_elem_of_here|lia]. }
    clear Hne Hl. induction l as [|x l IH]; simpl in H; [lia|]. destruct (Z_le_gt_dec i x).
    + exists x. split; [apply list_elem_of_here|lia].
    + destruct IH as (j & Hj & ?); [lia|]. exists j. split; [by apply list_elem_of_further|lia].
  - intros (j & Hj & Hij). clear Hne Hl. induction Hj as [j l|j x l Hj IH]; simpl; lia.
Qed.

(** ** Block versions *)

Record SimpleUpgradeDetector := mkDetector { targetVersion : Z; upgradeIndex : Z }.

Definition addMajorBlockVersion (detectors : list SimpleUpgradeDetector) (target height : Z)
  : outcome (list SimpleUpgradeDetector) :=
  let! _ := assert_that
    (match last detectors with None => true | Some d => targetVersion d <? target end)
    "m_upgradeDetectors.empty() || m_upgradeDetectors.back()->targetVersion() < targetVersion" in
  Ok (detectors ++ [mkDetector target height]).

(** The loop runs from the last detector to the first. *)
Fixpoint version_loop (reversed : list SimpleUpgradeDetector) (blockIndex : Z) : Z :=
  match reversed with
  | [] => BLOCK_MAJOR_VERSION_1
  | d :: reversed => if upgradeIndex d <? blockIndex then targetVersion d else version_loop reversed blockIndex
  end.

Definition getBlockMajorVersion (detectors : list SimpleUpgradeDetector) (blockIndex : Z) : Z :=
  version_loop (rev detectors) blockIndex.

(** The constructor of [Core] adds one detector for each version. *)
Definition core_upgrades (c : Currency) : outcome (list SimpleUpgradeDetector) :=
  let! l := addMajorBlockVersion [] BLOCK_MAJOR_VERSION_2 (upgradeHeight c BLOCK_MAJOR_VERSION_2) in
  let! l := addMajorBlockVersion l BLOCK_MAJOR_VERSION_3 (upgradeHeight c BLOCK_MAJOR_VERSION_3) in
  let! l := addMajorBlockVersion l BLOCK_MAJOR_VERSION_4 (upgradeHeight c BLOCK_MAJOR_VERSION_4) in
  let! l := addMajorBlockVersion l BLOCK_MAJOR_VERSION_5 (upgradeHeight c BLOCK_MAJOR_VERSION_5) in
  let! l := addMajorBlockVersion l BLOCK_MAJOR_VERSION_6 (upgradeHeight c BLOCK_MAJOR_VERSION_6) in
  addMajorBlockVersion l BLOCK_MAJOR_VERSION_7 (upgradeHeight c BLOCK_MAJOR_VERSION_7).

(** The upgrade heights of a currency in which every version replaces the one
    before. *)
Definition upgrades_ordered (c : Currency) : Prop :=
  0 <= upgradeHeight c 2 < upgradeHeight c 3 /\ upgradeHeight c 3 < upgradeHeight c 4 /\
  upgradeHeight c 4 < upgradeHeight c 5 /\ upgradeHeight c 5 < upgradeHeight c 6 /\
  upgradeHeight c 6 < upgradeHeight c 7.

(** ** Properties *)

(** Loading a checkpoint file: every list of checkpoints with different
    32-bit indices is read back from the lines [index,hash] that list it.  Then a
    block at a checkpoint passes exactly with the listed hash, any other block
    passes, and the checkpoint zone reaches up to the greatest index. *)
Theorem checkpoints_load l :
  Forall checkpoint_ok l -> NoDup (map fst l) ->
  exists points, loadCheckpointsFromFile ∅ (Some (checkpoint_file l)) = Ok (points, true) /\
    (forall i h h', (i, h) ∈ l -> checkBlock points i h' = (bool_decide (h = h'), true)) /\
    (forall i h', i ∉ map fst l -> checkBlock points i h' = (true, false)) /\
    (forall i, 0 <= i -> isInCheckpointZone points i = true <-> exists p, p ∈ l /\ i <= p.1).
Proof.
  intros Hok Hnd. exists (list_to_map l ∪ ∅). rewrite (right_id_L ∅ (∪)).
  assert (Hpe : map fst (map_to_list (list_to_map l : Checkpoints)) ≡ₚ map fst l).
  { apply (Permutation_map fst). by apply map_to_list_to_map. }
  split_and!.
  - unfold loadCheckpointsFromFile. rewrite load_loop_lines; [by rewrite (right_id_L ∅ (∪))|..|done|done|done].
    assert (Hlen : (length l <= length (checkpoint_file l))%nat); [|lia].
    clear. induction l as [|p l IH]; [simpl; lia|]. cbn [checkpoint_file flat_map length]. fold (checkpoint_file l).
    rewrite length_app. unfold checkpoint_line. rewrite !length_app. simpl. lia.
  - intros i h h' Hi. unfold checkBlock. by rewrite (elem_of_list_to_map_1 l i h).
  - intros i h' Hi. unfold checkBlock. by rewrite not_elem_of_list_to_map_1.
  - intros i Hi. unfold isInCheckpointZone, greatest_index.
    destruct l as [|p0 l0]; [split; [done|intros (p & Hp & _); by apply not_elem_of_nil in Hp]|].
    set (l := p0 :: l0) in *. rewrite bool_decide_false.
    2: { intros E%map_to_list_empty_iff. rewrite E in Hpe. by apply Permutation_nil_l in Hpe. }
    cbn [negb andb]. rewrite Z.leb_le, foldr_max_spec; [|..|done|].
    + setoid_rewrite Hpe. split; [intros (j & Hj & ?)|intros (p & Hp & ?)].
      * apply list_elem_of_fmap in Hj as (p & -> & Hp). by exists p.
      * exists p.1. split; [by apply list_elem_of_fmap_2|done].
    + rewrite Hpe. apply Forall_map. eapply Forall_impl; [exact Hok|]. intros p [Hf _]. unfold fits in Hf. simpl. lia.
    + intros E. rewrite E in Hpe. by apply Permutation_nil_l in Hpe.
Qed.

Lemma checkpoints_load_witness :
  exists points, loadCheckpointsFromFile ∅ (Some (checkpoint_file [(5000, repeat 171 32); (0, repeat 0 32)])) = Ok (points, true) /\
    isInCheckpointZone points 4999 = true.
Proof.
  destruct (checkpoints_load [(5000, repeat 171 32); (0, repeat 0 32)]) as (points & H & _ & _ & Hz).
  - ground.
  - apply (bool_decide_eq_true_1 _). vm_compute. reflexivity.
  - exists points. split; [exact H|]. apply Hz; [lia|]. exists (5000, repeat 171 32).
    split; [apply list_elem_of_here|simpl; lia].
Defined.

(** The version of a block: for a currency with increasing upgrade heights
    [Core] sets the upgrade manager up without a failed assertion, and the
    version of a block is the greatest one whose upgrade height lies below its
    index, so versions never decrease along the chain. *)
Theorem block_version_schedule c :
  upgrades_ordered c ->
  exists l, core_upgrades c = Ok l /\
    (forall i, 1 <= getBlockMajorVersion l i <= 7) /\
    (forall i v, 2 <= v <= 7 -> upgradeHeight c v < i <-> v <= getBlockMajorVersion l i) /\
    (forall i j, i <= j -> getBlockMajorVersion l i <= getBlockMajorVersion l j).
Proof.
  intros (H2 & H3 & H4 & H5 & H6). eexists. split; [reflexivity|].
  unfold getBlockMajorVersion. simpl rev. unfold version_loop. cbn [targetVersion upgradeIndex].
  unfold BLOCK_MAJOR_VERSION_1, BLOCK_MAJOR_VERSION_2, BLOCK_MAJOR_VERSION_3, BLOCK_MAJOR_VERSION_4,
    BLOCK_MAJOR_VERSION_5, BLOCK_MAJOR_VERSION_6, BLOCK_MAJOR_VERSION_7 in *.
  set (h := upgradeHeight c) in *. clearbody h. split_and!.
  - intros i. repeat case_if; lia.
  - intros i v Hv. each_below v 8%nat; try lia; repeat case_if; lia.
  - intros i j Hij. repeat case_if; lia.
Qed.

Lemma block_version_schedule_witness :
  exists l, core_upgrades CurrencyBuilder = Ok l /\ 7 <= getBlockMajorVersion l 3000000.
Proof.
  destruct (block_version_schedule CurrencyBuilder) as (l & H & _ & Hv & _).
  - ground.
  - exists l. split; [exact H|]. apply (Hv 3000000 7); ground.
Defined.

End Checkpoints.
