(* ===== verification/ValidateTransaction.v ===== *)
(** * Validation of a transaction

    The class [ValidateTransaction] of
    [src/src/cryptonotecore/ValidateTransaction.cpp], with [Mixins.h] and the
    validator state of [TransactionValidatiorState.cpp].  The members that the
    checks write are a record passed from check to check.  The chain is seen
    through the class [IBlockchainCache]; the curve operations are parameters.

    The ring signatures are checked by a thread pool.  An interleaving of the
    jobs and of the loop that collects their results is a list of events, and
    the checks run against any such list. *)

From S2P Require Import Prelude.
From S2P Require Import IntUtil.
From S2P Require Import StringTools.
From S2P Require Import Config.
From S2P Require Import Types.
From S2P Require Import Utilities.
From S2P Require Import FormatUtils.
From S2P Require Import Serialization.
From S2P Require Import Block.
From S2P Require Import Currency.
From S2P Require Import Checkpoints.
Import IntUtil.CheckDifficulty StringTools.StringTools Config.parameters Types.Types Utilities.Utilities.
Import FormatUtils.FormatUtils Serialization.Serialization Block.Block Currency.Currency Checkpoints.Checkpoints.

Module ValidateTransaction.

Inductive TransactionValidationError :=
| VALIDATION_SUCCESS
| EMPTY_INPUTS
| INPUT_UNKNOWN_TYPE
| INPUT_EMPTY_OUTPUT_USAGE
| INPUT_INVALID_DOMAIN_KEYIMAGES
| INPUT_IDENTICAL_KEYIMAGES
| INPUT_IDENTICAL_OUTPUT_INDEXES
| INPUT_KEYIMAGE_ALREADY_SPENT
| INPUT_INVALID_GLOBAL_INDEX
| INPUT_SPEND_LOCKED_OUT
| INPUT_INVALID_SIGNATURES
| INPUT_WRONG_SIGNATURES_COUNT
| INPUTS_AMOUNT_OVERFLOW
| INPUT_WRONG_COUNT
| INPUT_UNEXPECTED_TYPE
| BASE_INPUT_WRONG_BLOCK_INDEX
| OUTPUT_ZERO_AMOUNT
| OUTPUT_INVALID_KEY
| OUTPUT_INVALID_REQUIRED_SIGNATURES_COUNT
| OUTPUT_UNKNOWN_TYPE
| OUTPUTS_AMOUNT_OVERFLOW
| WRONG_AMOUNT
| WRONG_TRANSACTION_UNLOCK_TIME
| INVALID_MIXIN
| EXTRA_TOO_LARGE
| BASE_INVALID_SIGNATURES_COUNT
| INPUT_INVALID_SIGNATURES_COUNT
| OUTPUT_AMOUNT_TOO_LARGE
| EXCESSIVE_OUTPUTS
| WRONG_FEE
| SIZE_TOO_LARGE
| POW_INVALID
| UNLOCK_TIME_TOO_SMALL.

#[export] Instance TransactionValidationError_eq_dec : EqDecision TransactionValidationError.
Proof. solve_decision. Defined.

(** ** What the validator sees of the rest of the node *)

Inductive ExtractOutputKeysResult := SUCCESS | INVALID_GLOBAL_INDEX | OUTPUT_LOCKED.

Class IBlockchainCache (C : Type) := {
  checkIfSpent : C -> KeyImage -> Z -> outcome bool;
  extractKeyOutputKeys : C -> Z -> Z -> list Z -> outcome (ExtractOutputKeysResult * list PublicKey)
}.

Record crypto_ops := mkCryptoOps {
  check_key : PublicKey -> bool;
  scalarmultKey : KeyImage -> KeyImage -> KeyImage;
  checkRingSignature : Hash -> KeyImage -> list PublicKey -> list Signature -> bool;
  cn_upx : list Z -> Hash;
  fast_hash : list Z -> Hash
}.

(** ** The state of the validator *)

Record TransactionValidationResult := mkResult {
  errorCode : TransactionValidationError;
  errorMessage : list Z;
  valid : bool;
  result_fee : Z;
  result_isFusionTransaction : bool
}.

(** [spentKeyImages] is the [TransactionValidatorState], shared with the caller. *)
Record state := mkState {
  spentKeyImages : gset KeyImage;
  m_validationResult : TransactionValidationResult;
  m_sumOfInputs : Z;
  m_sumOfOutputs : Z
}.

Definition initial_result : TransactionValidationResult := mkResult VALIDATION_SUCCESS [] false 0 false.

Definition initial (spent : gset KeyImage) : state := mkState spent initial_result 0 0.

Definition setTransactionValidationResult (code : TransactionValidationError) (message : list Z) (s : state) : state :=
  let r := m_validationResult s in
  mkState (spentKeyImages s) (mkResult code message (valid r) (result_fee r) (result_isFusionTransaction r))
    (m_sumOfInputs s) (m_sumOfOutputs s).

Definition set_valid (s : state) : state :=
  let r := m_validationResult s in
  mkState (spentKeyImages s)
    (mkResult (errorCode r) (errorMessage r) true (result_fee r) (result_isFusionTransaction r))
    (m_sumOfInputs s) (m_sumOfOutputs s).

Definition set_fee (fee : Z) (s : state) : state :=
  let r := m_validationResult s in
  mkState (spentKeyImages s)
    (mkResult (errorCode r) (errorMessage r) (valid r) fee (result_isFusionTransaction r))
    (m_sumOfInputs s) (m_sumOfOutputs s).

(** A check returns its verdict and the state it leaves. *)
Definition check := state -> outcome (bool * state).

Definition pass (s : state) : outcome (bool * state) := Ok (true, s).

Definition reject (code : TransactionValidationError) (message : string) (s : state) : outcome (bool * state) :=
  Ok (false, setTransactionValidationResult code (str message) s).

Arguments reject code message%_string s.

(** [if (!first()) return m_validationResult;] and then [second]. *)
Definition and_then (first second : check) : check := fun s =>
  let! (ok, s) := first s in
  if ok : bool then second s else Ok (false, s).

(** ** The validator state of a pool or a block *)

Definition mergeStates (destination source : gset KeyImage) : gset KeyImage := destination ∪ source.

Definition hasIntersections (destination source : gset KeyImage) : bool :=
  existsb (fun ki => bool_decide (ki ∈ destination)) (elements source).

Fixpoint excludeFromState (spent : gset KeyImage) (ins : list TransactionInput) : outcome (gset KeyImage) :=
  match ins with
  | [] => Ok spent
  | InKey i :: ins =>
    let! _ := assert_that (bool_decide (keyImage i ∈ spent)) "state.spentKeyImages.count(in.keyImage) > 0" in
    excludeFromState (spent ∖ {[ keyImage i ]}) ins
  | InBase _ :: _ => Err (AssertFailed "false")
  end.

(** ** Mixins of a transaction *)

(** The largest ring of the transaction, at least 1. *)
Definition ring_size (transaction : Transaction) : Z :=
  fold_left (fun ringSize input =>
    match input with
    | InKey i =>
      let currentRingSize := Z.of_nat (length (outputIndexes i)) in
      if ringSize <? currentRingSize then currentRingSize else ringSize
    | InBase _ => ringSize
    end) (inputs transaction) 1.

(** [Mixins::validate]: [None] is success, otherwise the error text. *)
Definition Mixins_validate (fast_hash : list Z -> Hash) (transaction : Transaction) (binaryArray : list Z) (height : Z)
  : option (list Z) :=
  let '(minMixin, maxMixin, _) := getMixinAllowableRange height in
  let mixin := ring_size transaction - 1 in
  let head := str "Transaction " ++ toHex (fast_hash binaryArray) ++
              str " is not valid. Reason: transaction mixin is too " in
  if maxMixin <? mixin then
    Some (head ++ str "large (" ++ to_string mixin ++ str "). Maximum mixin allowed is " ++ to_string maxMixin)
  else if mixin <? minMixin then
    Some (head ++ str "small (" ++ to_string mixin ++ str "). Minimum mixin allowed is " ++ to_string minMixin)
  else None.

Section Validate.
Context {C : Type} `{!IBlockchainCache C} (ops : crypto_ops).

Record context := mkContext {
  m_transaction : Transaction;
  m_binaryArray : list Z;
  m_currency : Currency;
  m_checkpoints : Checkpoints;
  m_blockchainCache : C;
  m_blockHeight : Z;
  m_blockSizeMedian : Z;
  m_blockTimestamp : Z;
  m_isPoolTransaction : bool
}.

Context (ctx : context).

Definition tx_size : Z := Z.of_nat (length (m_binaryArray ctx)).

(** ** Size, inputs, outputs *)

Definition validateTransactionSize : check := fun s =>
  let maxTransactionSize := u64 (m_blockSizeMedian ctx * 2 - m_minerTxBlobReservedSize (m_currency ctx)) in
  if maxTransactionSize <? tx_size then reject SIZE_TOO_LARGE "Transaction is too large (in bytes)" s
  else pass s.

Definition KEY_IMAGE_I : KeyImage := 1 :: repeat 0 31.
Definition KEY_IMAGE_L : KeyImage :=
  [0xed; 0xd3; 0xf5; 0x5c; 0x1a; 0x63; 0x12; 0x58; 0xd6; 0x9c; 0xf7; 0xa2; 0xde; 0xf9; 0xde; 0x14] ++
  repeat 0 15 ++ [0x10].

Definition insert_spent (ki : KeyImage) (s : state) : state :=
  mkState ({[ ki ]} ∪ spentKeyImages s) (m_validationResult s) (m_sumOfInputs s) (m_sumOfOutputs s).

(** The loop over the inputs; [ki] holds the key images seen so far. *)
Fixpoint inputs_loop (ins : list TransactionInput) (ki : gset KeyImage) (sumOfInputs : Z) (s : state)
  : outcome (bool * state) :=
  match ins with
  | [] => Ok (true, mkState (spentKeyImages s) (m_validationResult s) sumOfInputs (m_sumOfOutputs s))
  | InBase _ :: _ => reject INPUT_UNKNOWN_TYPE "Transaction input has an unknown input type" s
  | InKey i :: ins =>
    let amount := in_amount i in
    if bool_decide (keyImage i ∈ ki)
    then reject INPUT_IDENTICAL_KEYIMAGES "Transaction contains identical key images" s
    else if is_empty (outputIndexes i)
    then reject INPUT_EMPTY_OUTPUT_USAGE "Transaction contains no output indexes" s
    else if negb (bool_decide (scalarmultKey ops (keyImage i) KEY_IMAGE_L = KEY_IMAGE_I))
    then reject INPUT_INVALID_DOMAIN_KEYIMAGES "Transaction contains key images in an invalid domain" s
    else if existsb (Z.eqb 0) (tail (outputIndexes i))
    then reject INPUT_IDENTICAL_OUTPUT_INDEXES "Transaction contains identical output indexes" s
    else if bool_decide (keyImage i ∈ spentKeyImages s)
    then reject INPUT_KEYIMAGE_ALREADY_SPENT "Transaction contains key image that has already been spent" s
    else
      let s := insert_spent (keyImage i) s in
      if 2 ^ 64 - 1 - amount <? sumOfInputs
      then reject INPUTS_AMOUNT_OVERFLOW "Transaction inputs will overflow" s
      else inputs_loop ins ({[ keyImage i ]} ∪ ki) (u64 (sumOfInputs + amount)) s
  end.

Definition validateTransactionInputs : check := fun s =>
  if is_empty (inputs (m_transaction ctx)) then reject EMPTY_INPUTS "Transaction has no inputs" s
  else inputs_loop (inputs (m_transaction ctx)) ∅ 0 s.

Fixpoint outputs_loop (outs : list TransactionOutput) (sumOfOutputs : Z) (s : state) : outcome (bool * state) :=
  match outs with
  | [] => Ok (true, mkState (spentKeyImages s) (m_validationResult s) (m_sumOfInputs s) sumOfOutputs)
  | output :: outs =>
    if out_amount output =? 0
    then reject OUTPUT_ZERO_AMOUNT "Transaction has an output amount of zero" s
    else if (MAX_OUTPUT_SIZE_HEIGHT <=? m_blockHeight ctx) && (MAX_OUTPUT_SIZE_NODE <? out_amount output)
    then reject OUTPUT_AMOUNT_TOO_LARGE "Transaction has a too large output amount" s
    else
      match target output with
      | ToKey o =>
        if negb (check_key ops (key o))
        then reject OUTPUT_INVALID_KEY "Transaction output has an invalid output key" s
        else if 2 ^ 64 - 1 - out_amount output <? sumOfOutputs
        then reject OUTPUTS_AMOUNT_OVERFLOW "Transaction outputs will overflow" s
        else outputs_loop outs (u64 (sumOfOutputs + out_amount output)) s
      end
  end.

Definition validateTransactionOutputs : check := outputs_loop (outputs (m_transaction ctx)) 0.

(** ** Fee, extra, counts *)

Definition is_fusion : outcome bool :=
  isFusionTransaction_size (m_currency ctx) (m_transaction ctx) tx_size (u32 (m_blockHeight ctx)).

(** The branches on the height, in the order of the source. *)
Definition valid_fee (isFusion : bool) (fee : Z) : outcome bool :=
  let height := m_blockHeight ctx in
  if isFusion then
    Ok (if (FUSION_FEE_V1_HEIGHT <=? height) && (height <? FUSION_ZERO_FEE_V2_HEIGHT)
        then FUSION_FEE_V1 <=? fee else true)
  else if MINIMUM_FEE_PER_BYTE_V1_HEIGHT <=? height then
    let! minFee := getMinimumTransactionFee tx_size height in
    Ok (minFee <=? fee)
  else if MINIMUM_FEE_V1_HEIGHT + 1 <? height then Ok (MINIMUM_FEE_V1 <=? fee)
  else if height <=? MINIMUM_FEE_V1_HEIGHT + 1 then Ok (MINIMUM_FEE <=? fee)
  else if m_isPoolTransaction ctx then Ok (MINIMUM_FEE_V1 <=? fee)
  else Ok (negb (fee =? 0)).

Definition validateTransactionFee : check := fun s =>
  if m_sumOfInputs s =? 0 then Err (RuntimeError
    "Error! You must call validateTransactionInputs() and validateTransactionOutputs() before calling validateTransactionFee()!")
  else if m_sumOfInputs s <? m_sumOfOutputs s
  then reject WRONG_AMOUNT "Sum of outputs is greater than sum of inputs" s
  else
    let fee := u64 (m_sumOfInputs s - m_sumOfOutputs s) in
    let! isFusion := is_fusion in
    let! validFee := valid_fee isFusion fee in
    if negb validFee
    then reject WRONG_FEE "Transaction fee is below minimum fee and is not a fusion transaction" s
    else Ok (true, set_fee fee s).

Definition validateTransactionExtra : check := fun s =>
  let heightToEnforce := MAX_EXTRA_SIZE_V2_HEIGHT + CRYPTONOTE_MINED_MONEY_UNLOCK_WINDOW in
  if (m_isPoolTransaction ctx || (heightToEnforce <=? m_blockHeight ctx)) &&
     (MAX_EXTRA_SIZE_V2 <=? Z.of_nat (length (extra (m_transaction ctx))))
  then reject EXTRA_TOO_LARGE "Transaction extra is too large" s
  else pass s.

Definition validateInputOutputRatio : check := fun s =>
  if (m_isPoolTransaction ctx || (NORMAL_TX_MAX_OUTPUT_COUNT_V1_HEIGHT <=? m_blockHeight ctx)) &&
     (NORMAL_TX_MAX_OUTPUT_COUNT_V1 <? Z.of_nat (length (outputs (m_transaction ctx))))
  then reject EXCESSIVE_OUTPUTS "Transaction has excessive outputs. Reduce the number of payees." s
  else pass s.

(** ** Mixins *)

(** Outside the pool the same test is made a second time. *)
Definition validateTransactionMixin : check := fun s =>
  match Mixins_validate (fast_hash ops) (m_transaction ctx) (m_binaryArray ctx) (m_blockHeight ctx) with
  | None => pass s
  | Some err =>
    if m_isPoolTransaction ctx then Ok (false, setTransactionValidationResult INVALID_MIXIN err s)
    else
      match Mixins_validate (fast_hash ops) (m_transaction ctx) (m_binaryArray ctx) (m_blockHeight ctx) with
      | None => pass s
      | Some err => Ok (false, setTransactionValidationResult INVALID_MIXIN err s)
      end
  end.

(** ** Proof of work of the transaction *)

Definition pow_difficulty (isFusion : bool) : Z :=
  let height := m_blockHeight ctx in
  let txInputSize := Z.of_nat (length (inputs (m_transaction ctx))) in
  let txOutputSize := Z.of_nat (length (outputs (m_transaction ctx))) in
  if (TRANSACTION_POW_HEIGHT <=? height) && (height <=? TRANSACTION_POW_HEIGHT_DYN_V1)
  then if isFusion then FUSION_TRANSACTION_POW_DIFFICULTY else TRANSACTION_POW_DIFFICULTY
  else if TRANSACTION_POW_HEIGHT_DYN_V1 <? height
  then if isFusion then FUSION_TRANSACTION_POW_DIFFICULTY_V2
       else u64 (TRANSACTION_POW_DIFFICULTY_DYN_V1
              + (txInputSize + txOutputSize * MULTIPLIER_TRANSACTION_POW_DIFFICULTY_FACTORED_OUT_V1)
                * MULTIPLIER_TRANSACTION_POW_DIFFICULTY_PER_IO_V1)
  else TRANSACTION_POW_DIFFICULTY_DYN_V1.

Definition validateTransactionPoW : check := fun s =>
  let! isFusion := is_fusion in
  if m_blockHeight ctx <? TRANSACTION_POW_HEIGHT then pass s
  else
    let! data := toBinaryArray ser_TransactionPrefix (tx_prefix (m_transaction ctx)) in
    let hash := cn_upx ops data in
    if check_hash hash (pow_difficulty isFusion) then pass s
    else if (TRANSACTION_POW_PASS_WITH_FEE_HEIGHT <=? m_blockHeight ctx) &&
            (negb isFusion && (TRANSACTION_POW_PASS_WITH_FEE <=? u64 (m_sumOfInputs s - m_sumOfOutputs s)))
    then pass s
    else reject POW_INVALID "Transaction has a too weak proof of work" s.

(** ** Unlock time *)

Definition validateTransactionUnlockTime : check := fun s =>
  let height := m_blockHeight ctx in
  let unlock := unlockTime (m_transaction ctx) in
  if height <=? UNLOCK_TIME_HEIGHT then pass s
  else
    let ok :=
      if CRYPTONOTE_MAX_BLOCK_NUMBER <? unlock
      then u64 (m_blockTimestamp ctx + MINIMUM_UNLOCK_TIME_BLOCKS * DIFFICULTY_TARGET) <=? unlock
      else u64 (height + MINIMUM_UNLOCK_TIME_BLOCKS) <=? unlock in
    if ok then pass s else reject UNLOCK_TIME_TOO_SMALL "Transaction has a too small unlock time" s.

(** ** Ring signatures, checked in parallel *)

(** The body of a job: [None] when the input is valid, else what the job
    reports.  [signatures[inputIndex]] is not checked. *)
Definition check_input (inputIndex : nat) (input : TransactionInput)
  : outcome (option (TransactionValidationError * list Z)) :=
  match input with
  | InBase _ => Err (RuntimeError "boost::bad_get")
  | InKey i =>
    let height := u32 (m_blockHeight ctx) in
    let! spent := checkIfSpent (m_blockchainCache ctx) (keyImage i) height in
    if spent : bool
    then Ok (Some (INPUT_KEYIMAGE_ALREADY_SPENT, str "Transaction contains key image that has already been spent"))
    else if is_empty (outputIndexes i) then Err (UndefinedBehaviour "index out of range")
    else
      let globalIndexes := relativeOutputOffsetsToAbsolute (outputIndexes i) in
      let! (result, outputKeys) :=
        extractKeyOutputKeys (m_blockchainCache ctx) (in_amount i) height globalIndexes in
      match result with
      | INVALID_GLOBAL_INDEX =>
        Ok (Some (INPUT_INVALID_GLOBAL_INDEX, str "Transaction contains invalid global indexes"))
      | OUTPUT_LOCKED =>
        Ok (Some (INPUT_SPEND_LOCKED_OUT, str "Transaction includes an input which is still locked"))
      | SUCCESS =>
        let! sigs := vec_at (signatures (m_transaction ctx)) (Z.of_nat inputIndex) in
        if (m_isPoolTransaction ctx || (TRANSACTION_SIGNATURE_COUNT_VALIDATION_HEIGHT <=? m_blockHeight ctx)) &&
           negb (length outputKeys =? length sigs)%nat
        then Ok (Some (INPUT_INVALID_SIGNATURES_COUNT, str "Transaction has an invalid number of signatures"))
        else
          let prefixHash := getTransactionPrefixHash (fast_hash ops) (m_transaction ctx) in
          if negb (checkRingSignature ops prefixHash (keyImage i) outputKeys sigs)
          then Ok (Some (INPUT_INVALID_SIGNATURES, str "Transaction contains invalid signatures"))
          else Ok None
      end
  end.

Definition is_base (input : TransactionInput) : bool :=
  match input with
  | InBase _ => true
  | InKey _ => false
  end.

(** A worker takes up a job and reads the cancellation flag; it finishes the
    job; the validating thread takes the result of the next job. *)
Inductive event := Start (i : nat) | Finish (i : nat) | Collect.

Record jobs := mkJobs {
  started : gmap nat bool;
  finished : gmap nat (outcome bool);
  collected : nat;
  cancelValidation : bool;
  all_valid : bool;
  jobs_state : state
}.

Definition initial_jobs (s : state) : jobs := mkJobs ∅ ∅ 0 false true s.

(** [None] when the event cannot happen.  Collecting the result of a job that
    threw throws. *)
Definition exec (ins : list TransactionInput) (e : event) (j : jobs) : option (outcome jobs) :=
  match e with
  | Start i =>
    if bool_decide (i < length ins)%nat && bool_decide (started j !! i = None)
    then Some (Ok (mkJobs (<[i := cancelValidation j]> (started j)) (finished j) (collected j)
                     (cancelValidation j) (all_valid j) (jobs_state j)))
    else None
  | Finish i =>
    match started j !! i, finished j !! i, ins !! i with
    | Some cancelled, None, Some input =>
      let '(r, s) :=
        if cancelled && negb (is_base input) then (Ok false, jobs_state j)
        else match check_input i input with
             | Err e => (Err e, jobs_state j)
             | Ok None => (Ok true, jobs_state j)
             | Ok (Some (code, message)) =>
               (Ok false, setTransactionValidationResult code message (jobs_state j))
             end in
      Some (Ok (mkJobs (started j) (<[i := r]> (finished j)) (collected j)
                  (cancelValidation j) (all_valid j) s))
    | _, _, _ => None
    end
  | Collect =>
    match finished j !! collected j with
    | None => None
    | Some (Err e) => Some (Err e)
    | Some (Ok r) =>
      Some (Ok (mkJobs (started j) (finished j) (S (collected j))
                  (cancelValidation j || negb r) (all_valid j && r) (jobs_state j)))
    end
  end.

Fixpoint run (ins : list TransactionInput) (schedule : list event) (j : jobs) : outcome jobs :=
  match schedule with
  | [] => Ok j
  | e :: schedule =>
    match exec ins e j with
    | None => Err (Unmodelled "event not enabled")
    | Some r => let! j := r in run ins schedule j
    end
  end.

Definition validateTransactionInputsExpensive (schedule : list event) : check := fun s =>
  if isInCheckpointZone (m_checkpoints ctx) (u32 (m_blockHeight ctx + 1)) then pass s
  else
    let ins := inputs (m_transaction ctx) in
    let! j := run ins schedule (initial_jobs s) in
    if (collected j =? length ins)%nat then Ok (all_valid j, jobs_state j)
    else Err (Unmodelled "schedule not complete").

(** ** The whole validation *)

Definition succeed : check := fun s =>
  Ok (true, setTransactionValidationResult VALIDATION_SUCCESS [] (set_valid s)).

Definition validate (schedule : list event) : check :=
  and_then validateTransactionSize (
  and_then validateTransactionInputs (
  and_then validateTransactionOutputs (
  and_then validateTransactionFee (
  and_then validateTransactionExtra (
  and_then validateTransactionUnlockTime (
  and_then validateInputOutputRatio (
  and_then validateTransactionMixin (
  and_then validateTransactionPoW (
  and_then (validateTransactionInputsExpensive schedule)
  succeed))))))))).

Definition revalidateAfterHeightChange : check :=
  and_then validateTransactionSize (
  and_then validateTransactionExtra (
  and_then validateTransactionMixin (
  and_then validateTransactionInputs (
  and_then validateTransactionOutputs (
  and_then validateTransactionUnlockTime (
  and_then validateTransactionFee (
  and_then (fun s =>
    if (TRANSACTION_POW_HEIGHT <=? m_blockHeight ctx) && (m_blockHeight ctx <=? TRANSACTION_POW_HEIGHT + 100)
    then validateTransactionPoW s else pass s)
  succeed))))))).

End Validate.

Arguments context C : clear implicits.

End ValidateTransaction.
