(* ===== verification/ValidateProofs.v ===== *)
(** * Validation of a transaction: properties

    The validator of [ValidateTransaction.v] implements an abstract
    specification: each check decides a condition on the transaction and the
    chain, the parallel part does so under every interleaving, and the whole
    validation accepts exactly the transactions that satisfy all conditions. *)

From S2P Require Import Prelude.
From S2P Require Import IntUtil.
From S2P Require Import Config.
From S2P Require Import Types.
From S2P Require Import Utilities.
From S2P Require Import FormatUtils.
From S2P Require Import Serialization.
From S2P Require Import SerializationProofs.
From S2P Require Import Block.
From S2P Require Import Currency.
From S2P Require Import Checkpoints.
From S2P Require Import ValidateTransaction.
Import IntUtil.CheckDifficulty Config.parameters Types.Types Utilities.Utilities.
Import FormatUtils.FormatUtils Serialization.Serialization Block.Block Currency.Currency Checkpoints.Checkpoints.
Import ValidateTransaction.ValidateTransaction.

Module ValidateProofs.

(** ** Checks that decide a condition *)

(** A state in which no verdict has been reached. *)
Definition undecided (s : state) : Prop := valid (m_validationResult s) = false.

(** The state of a rejected transaction. *)
Definition rejected (s : state) : Prop :=
  errorCode (m_validationResult s) <> VALIDATION_SUCCESS /\ valid (m_validationResult s) = false.

(** Whenever [f] returns, it returns whether [P] holds; when it does, the state
    becomes [u s], and otherwise the transaction is rejected. *)
Definition decides (f : check) (pre P : state -> Prop) (u : state -> state) : Prop :=
  forall s b s', pre s -> undecided s -> f s = Ok (b, s') ->
  if b : bool then P s /\ s' = u s else ~ P s /\ rejected s'.

Lemma decides_and_then f g pre pre' P Q u v :
  decides f pre P u -> (forall s, pre s -> P s -> undecided s -> pre' (u s) /\ undecided (u s)) ->
  decides g pre' Q v ->
  decides (and_then f g) pre (fun s => P s /\ Q (u s)) (fun s => v (u s)).
Proof.
  intros Hf Hpre Hg s b s' Hs Hund H. unfold and_then in H. apply obind_Ok in H as ([ok s1] & H1 & H).
  specialize (Hf s ok s1 Hs Hund H1). destruct ok.
  - destruct Hf as [HP ->]. destruct (Hpre s Hs HP Hund) as [Hp1 Hu1]. specialize (Hg (u s) b s' Hp1 Hu1 H). destruct b; tauto.
  - injection H as <- <-. tauto.
Qed.

(** A check that leaves the state alone, before others. *)
Lemma decides_guard f g pre (P Q : Prop) v :
  decides f pre (fun _ => P) (fun s => s) -> decides g pre (fun _ => Q) v ->
  decides (and_then f g) pre (fun _ => P /\ Q) v.
Proof. intros Hf Hg. exact (decides_and_then f g pre pre (fun _ => P) (fun _ => Q) _ v Hf (fun s Hs _ Hu => conj Hs Hu) Hg). Qed.

(** A check that only looks. *)
Lemma decides_reject (c : bool) code message (P : Prop) f :
  (forall s, f s = if c then reject code message s else pass s) ->
  code <> VALIDATION_SUCCESS -> (c = false <-> P) ->
  decides f (fun _ => True) (fun _ => P) (fun s => s).
Proof.
  intros Hf Hc HP s b s' _ Hund H. rewrite Hf in H. destruct c.
  - injection H as <- <-. split; [intros H%HP; done|]. by split.
  - injection H as <- <-. split; [by apply HP|done].
Qed.

Lemma rejected_set code message s : code <> VALIDATION_SUCCESS -> undecided s ->
  rejected (setTransactionValidationResult code message s).
Proof. by split. Qed.

Lemma valid_amounts (transaction : Transaction) : valid_transaction transaction -> amounts_ok transaction.
Proof.
  intros [(_ & _ & [Hi _] & [Ho _] & _) _]. split; apply Forall_map.
  - eapply Forall_impl; [exact Hi|]. intros [i|i]; [intros _; simpl; unfold fits; lia|intros (? & _); done].
  - eapply Forall_impl; [exact Ho|]. by intros o [? _].
Qed.

(** The key images of inputs. *)
Definition key_images (ins : list TransactionInput) : list KeyImage :=
  omap (fun i => match i with InKey i => Some (keyImage i) | InBase _ => None end) ins.

Section Checks.
Context {C : Type} `{!IBlockchainCache C} (ops : crypto_ops) (ctx : context C).
Local Abbreviation tx := (m_transaction ctx).
Local Abbreviation height := (m_blockHeight ctx).
Local Abbreviation pool := (m_isPoolTransaction ctx).

(** ** Inputs *)

(** What is asked of one input, the amounts apart. *)
Definition input_ok (i : KeyInput) : Prop :=
  outputIndexes i <> [] /\ scalarmultKey ops (keyImage i) KEY_IMAGE_L = KEY_IMAGE_I /\
  0 ∉ tail (outputIndexes i).

(** The inputs spend distinct key images that are not in [spent]. *)
Definition inputs_ok (ins : list TransactionInput) (spent : gset KeyImage) (sum : Z) : Prop :=
  exists kis, ins = map InKey kis /\ Forall input_ok kis /\ NoDup (map keyImage kis) /\
    Forall (fun i => keyImage i ∉ spent) kis /\ sum + sumZ (map in_amount kis) < 2 ^ 64.

Definition after_inputs (ins : list TransactionInput) (sum : Z) (s : state) : state :=
  mkState (list_to_set (key_images ins) ∪ spentKeyImages s)
    (m_validationResult s) (sum + sumZ (map input_amount ins)) (m_sumOfOutputs s).

Lemma existsb_zero l : existsb (Z.eqb 0) l = false <-> 0 ∉ l.
Proof.
  rewrite <- not_true_iff_false, existsb_exists, list_elem_of_In. split; intros H H'; apply H.
  - exists 0. by rewrite Z.eqb_refl.
  - destruct H' as (x & Hx & ->%Z.eqb_eq). done.
Qed.

Definition amount_fits (i : TransactionInput) : Prop := fits 64 (input_amount i).

Lemma inputs_ok_cons i ins spent sum :
  Forall amount_fits ins ->
  inputs_ok (InKey i :: ins) spent sum <->
  input_ok i /\ keyImage i ∉ spent /\ sum + in_amount i < 2 ^ 64 /\
  inputs_ok ins ({[ keyImage i ]} ∪ spent) (sum + in_amount i).
Proof.
  intros Hfit. split.
  - intros (kis & E & Hok & Hnd & Hs & Hsum). destruct kis as [|i' kis]; [done|]. injection E as <- ->.
    apply Forall_cons in Hok as [Hi Hok]. apply Forall_cons in Hs as [Hi' Hs].
    simpl in Hnd, Hsum. apply NoDup_cons in Hnd as [Hni Hnd].
    assert (0 <= sumZ (map in_amount kis)).
    { apply sumZ_nonneg. apply Forall_map. rewrite Forall_map in Hfit. eapply Forall_impl; [exact Hfit|].
      intros k [? _]. done. }
    split_and!; [done|done|lia|]. exists kis. split_and!; [done|done|done| |lia].
    apply Forall_forall. intros k Hk. rewrite Forall_forall in Hs. specialize (Hs k Hk).
    assert (keyImage k <> keyImage i); [|set_solver]. intros E. apply Hni. rewrite <- E. by apply list_elem_of_fmap_2.
  - intros (Hi & Hni & Hsum & kis & -> & Hok & Hnd & Hs & Hsum'). exists (i :: kis). split_and!; [done| | | |simpl; lia].
    + by apply Forall_cons.
    + simpl. apply NoDup_cons. split; [|done]. intros (k & E & Hk)%list_elem_of_fmap.
      rewrite Forall_forall in Hs. specialize (Hs k Hk). set_solver.
    + apply Forall_cons. split; [done|]. eapply Forall_impl; [exact Hs|]. intros k Hk. set_solver.
Qed.

Lemma inputs_ok_base i ins spent sum : ~ inputs_ok (InBase i :: ins) spent sum.
Proof. intros (kis & E & _). by destruct kis. Qed.

Lemma inputs_loop_spec ins : forall ki sum s b s',
  ki ⊆ spentKeyImages s -> undecided s -> 0 <= sum < 2 ^ 64 -> Forall amount_fits ins ->
  inputs_loop ops ins ki sum s = Ok (b, s') ->
  if b : bool then inputs_ok ins (spentKeyImages s) sum /\ s' = after_inputs ins sum s
  else ~ inputs_ok ins (spentKeyImages s) sum /\ rejected s'.
Proof.
  induction ins as [|[i|i] ins IH]; intros ki sum s b s' Hki Hund Hsum Hfit H; cbn [inputs_loop] in H.
  { injection H as <- <-. split.
    - exists []. split_and!; [done|constructor|constructor|constructor|simpl; lia].
    - unfold after_inputs. simpl. rewrite (left_id_L ∅ (∪)), Z.add_0_r. done. }
  { injection H as <- <-. split; [apply inputs_ok_base|by apply rejected_set]. }
  apply Forall_cons in Hfit as [Hi Hfit]. pose proof (inputs_ok_cons i ins (spentKeyImages s) sum Hfit) as Hcons.
  unfold amount_fits, fits in Hi. simpl in Hi.
  repeat match type of H with
  | (if ?c then reject _ _ _ else _) = _ =>
      let E := fresh "E" in destruct c eqn:E;
      [injection H as <- <-; split; [rewrite Hcons|by apply rejected_set]|]
  end.
  all: repeat match goal with
  | E : bool_decide _ = true |- _ => apply bool_decide_eq_true_1 in E
  | E : bool_decide _ = false |- _ => apply bool_decide_eq_false_1 in E
  | E : negb _ = true |- _ => apply negb_true_iff in E
  | E : negb _ = false |- _ => apply negb_false_iff in E
  end; bool_prop.
  - intros (_ & Hni & _). set_solver.
  - intros ((Hne & _) & _). by destruct (outputIndexes i).
  - intros ((_ & Hd & _) & _). done.
  - intros ((_ & _ & Hz) & _). apply existsb_zero in Hz. congruence.
  - intros (_ & Hni & _). done.
  - intros (_ & _ & Hlt & _). lia.
  - rewrite wrap_small in H by (unfold fits; lia).
    apply IH in H; [|simpl; set_solver|done|lia|done]. simpl in H. destruct b.
    + destruct H as [Hok ->]. split.
      * apply Hcons. split_and!; [|done|lia|done]. split_and!; [by destruct (outputIndexes i)|done|by apply existsb_zero].
      * unfold after_inputs. simpl. f_equal; [set_solver|lia].
    + destruct H as [Hok Hr]. split; [|done]. by intros (_ & _ & _ & Hin)%Hcons.
Qed.

Lemma inputs_decide :
  Forall amount_fits (inputs tx) ->
  decides (validateTransactionInputs ops ctx) (fun _ => True)
    (fun s => inputs tx <> [] /\ inputs_ok (inputs tx) (spentKeyImages s) 0) (after_inputs (inputs tx) 0).
Proof.
  intros Hfit s b s' _ Hund H. unfold validateTransactionInputs in H.
  destruct (inputs tx) as [|i ins] eqn:E; cbn [is_empty] in H.
  - injection H as <- <-. split; [tauto|by apply rejected_set].
  - apply inputs_loop_spec in H; [|set_solver|done|lia|by rewrite <- E in Hfit; rewrite E in Hfit].
    destruct b; [|tauto]. split; [|apply H]. split; [done|apply H].
Qed.

(** ** Outputs *)

Definition output_ok (o : TransactionOutput) : Prop :=
  out_amount o <> 0 /\ (MAX_OUTPUT_SIZE_HEIGHT <= height -> out_amount o <= MAX_OUTPUT_SIZE_NODE) /\
  match target o with ToKey k => check_key ops (key k) = true end.

Definition outputs_ok (outs : list TransactionOutput) (sum : Z) : Prop :=
  Forall output_ok outs /\ sum + sumZ (map out_amount outs) < 2 ^ 64.

Definition after_outputs (sum : Z) (s : state) : state :=
  mkState (spentKeyImages s) (m_validationResult s) (m_sumOfInputs s) sum.

Lemma outputs_ok_cons o outs sum :
  Forall (fun o => fits 64 (out_amount o)) outs ->
  outputs_ok (o :: outs) sum <->
  output_ok o /\ sum + out_amount o < 2 ^ 64 /\ outputs_ok outs (sum + out_amount o).
Proof.
  intros Hfit. assert (0 <= sumZ (map out_amount outs)).
  { apply sumZ_nonneg, Forall_map. eapply Forall_impl; [exact Hfit|]. unfold fits. simpl. lia. }
  unfold outputs_ok. rewrite Forall_cons. simpl sumZ. rewrite Z.add_assoc. split; [|tauto].
  intros [[Ho Hok] Hlt]. split_and!; [done|lia|done|done].
Qed.

Lemma outputs_loop_spec outs : forall sum s b s',
  undecided s -> 0 <= sum < 2 ^ 64 -> Forall (fun o => fits 64 (out_amount o)) outs ->
  outputs_loop ops ctx outs sum s = Ok (b, s') ->
  if b : bool then outputs_ok outs sum /\ s' = after_outputs (sum + sumZ (map out_amount outs)) s
  else ~ outputs_ok outs sum /\ rejected s'.
Proof.
  induction outs as [|o outs IH]; intros sum s b s' Hund Hsum Hfit H; cbn [outputs_loop] in H.
  { injection H as <- <-. simpl. rewrite Z.add_0_r. split; [|done]. split; [constructor|simpl; lia]. }
  apply Forall_cons in Hfit as [Ho Hfit]. pose proof (outputs_ok_cons o outs sum Hfit) as Hcons.
  unfold output_ok in Hcons. unfold fits in Ho. destruct (target o) as [k].
  case_if_in H; [injection H as <- <-; split; [rewrite Hcons; tauto|by apply rejected_set]|].
  case_if_in H; [injection H as <- <-; split; [rewrite Hcons; lia|by apply rejected_set]|].
  destruct (check_key ops (key k)) eqn:Ek; cbn [negb] in H.
  2: { injection H as <- <-. split; [rewrite Hcons; naive_solver|by apply rejected_set]. }
  case_if_in H; [injection H as <- <-; split; [rewrite Hcons; lia|by apply rejected_set]|].
  rewrite wrap_small in H by (unfold fits; lia). apply IH in H; [|done|lia|done]. destruct b.
  - destruct H as [Hok ->]. split; [|simpl; f_equal; lia]. apply Hcons. split_and!; [done| |done|lia|done].
    apply andb_false_iff in E0 as [E0|E0]; bool_prop; lia.
  - destruct H as [Hno Hr]. split; [|done]. by intros (_ & _ & Hok)%Hcons.
Qed.

Lemma outputs_decide :
  Forall (fun o => fits 64 (out_amount o)) (outputs tx) ->
  decides (validateTransactionOutputs ops ctx) (fun _ => True)
    (fun _ => outputs_ok (outputs tx) 0) (after_outputs (total_out tx)).
Proof. intros Hfit s b s' _ Hund H. by apply outputs_loop_spec in H. Qed.

(** ** The checks that only look *)

Definition size_ok : Prop :=
  tx_size ctx <= m_blockSizeMedian ctx * 2 - m_minerTxBlobReservedSize (m_currency ctx).

Lemma size_decide :
  0 <= m_blockSizeMedian ctx * 2 - m_minerTxBlobReservedSize (m_currency ctx) < 2 ^ 64 ->
  decides (validateTransactionSize ctx) (fun _ => True) (fun _ => size_ok) (fun s => s).
Proof.
  intros Hm. eapply decides_reject; [done|done|]. rewrite wrap_small by done. apply Z.ltb_ge.
Qed.

Definition extra_ok : Prop :=
  pool = true \/ MAX_EXTRA_SIZE_V2_HEIGHT + CRYPTONOTE_MINED_MONEY_UNLOCK_WINDOW <= height ->
  Z.of_nat (length (extra tx)) < MAX_EXTRA_SIZE_V2.

Lemma guarded_test (b : bool) (x y u v : Z) :
  (b || (x <=? y)) && (u <=? v) = false <-> (b = true \/ x <= y -> v < u).
Proof.
  rewrite andb_false_iff, orb_false_iff, !Z.leb_gt. destruct b; intuition (try lia; try discriminate).
Qed.

Lemma extra_decide :
  decides (validateTransactionExtra ctx) (fun _ => True) (fun _ => extra_ok) (fun s => s).
Proof. eapply decides_reject; [done|done|]. apply guarded_test. Qed.

Definition ratio_ok : Prop :=
  pool = true \/ NORMAL_TX_MAX_OUTPUT_COUNT_V1_HEIGHT <= height ->
  Z.of_nat (length (outputs tx)) <= NORMAL_TX_MAX_OUTPUT_COUNT_V1.

Lemma ratio_decide :
  decides (validateInputOutputRatio ctx) (fun _ => True) (fun _ => ratio_ok) (fun s => s).
Proof.
  eapply decides_reject; [done|done|]. unfold ratio_ok.
  rewrite Z.ltb_antisym, andb_false_iff, negb_false_iff, orb_false_iff, Z.leb_gt, Z.leb_le.
  destruct pool; intuition (try lia; try discriminate).
Qed.

Definition mixin_ok : Prop :=
  let '(minMixin, maxMixin, _) := getMixinAllowableRange height in minMixin <= ring_size tx - 1 <= maxMixin.

Lemma mixin_decide :
  decides (validateTransactionMixin ops ctx) (fun _ => True) (fun _ => mixin_ok) (fun s => s).
Proof.
  intros s b s' _ Hund H. unfold validateTransactionMixin in H.
  assert (Hm : Mixins_validate (fast_hash ops) tx (m_binaryArray ctx) height = None <-> mixin_ok).
  { unfold Mixins_validate, mixin_ok. destruct (getMixinAllowableRange height) as [[lo hi] d]. repeat case_if.
    all: split; [done || lia|done || lia]. }
  destruct (Mixins_validate (fast_hash ops) tx (m_binaryArray ctx) height) as [err|].
  - destruct pool; injection H as <- <-; (split; [intros Hok%Hm; done|by apply rejected_set]).
  - injection H as <- <-. split; [by apply Hm|done].
Qed.

Definition unlock_ok : Prop :=
  UNLOCK_TIME_HEIGHT < height ->
  if CRYPTONOTE_MAX_BLOCK_NUMBER <? unlockTime tx
  then u64 (m_blockTimestamp ctx + MINIMUM_UNLOCK_TIME_BLOCKS * DIFFICULTY_TARGET) <= unlockTime tx
  else u64 (height + MINIMUM_UNLOCK_TIME_BLOCKS) <= unlockTime tx.

Lemma unlock_decide :
  decides (validateTransactionUnlockTime ctx) (fun _ => True) (fun _ => unlock_ok) (fun s => s).
Proof.
  intros s b s' _ Hund H. unfold validateTransactionUnlockTime in H. unfold unlock_ok. case_if_in H.
  { injection H as <- <-. split; [lia|done]. }
  destruct (CRYPTONOTE_MAX_BLOCK_NUMBER <? unlockTime tx); case_if_in H; injection H as <- <-;
    (split; [lia|(done || by apply rejected_set)]).
Qed.

(** ** Fee and proof of work *)

(** The sums have been stored. *)
Definition summed (s : state) : Prop :=
  m_sumOfInputs s = total_in tx /\ m_sumOfOutputs s = total_out tx /\
  0 <= total_in tx < 2 ^ 64 /\ 0 <= total_out tx < 2 ^ 64.

Definition fee_ok : Prop :=
  total_out tx <= total_in tx /\
  exists f, is_fusion ctx = Ok f /\ valid_fee ctx f (total_in tx - total_out tx) = Ok true.

Lemma fee_decide :
  decides (validateTransactionFee ctx) summed (fun _ => fee_ok) (set_fee (total_in tx - total_out tx)).
Proof.
  intros s b s' (Hi & Ho & Ri & Ro) Hund H. unfold validateTransactionFee in H. rewrite Hi, Ho in H.
  case_if_in H; [done|]. unfold fee_ok. case_if_in H.
  { injection H as <- <-. split; [lia|by apply rejected_set]. }
  rewrite wrap_small in H by (unfold fits; lia).
  apply obind_Ok in H as (f & Hf & H). apply obind_Ok in H as (v & Hv & H). destruct v; cbn [negb] in H.
  - injection H as <- <-. split; [|done]. split; [lia|]. by exists f.
  - injection H as <- <-. split; [|by apply rejected_set]. intros [_ (f' & Hf' & Hv')]. congruence.
Qed.

Definition pow_ok : Prop :=
  height < TRANSACTION_POW_HEIGHT \/
  exists f data, is_fusion ctx = Ok f /\ toBinaryArray ser_TransactionPrefix (tx_prefix tx) = Ok data /\
    (check_hash (cn_upx ops data) (pow_difficulty ctx f) = true \/
     TRANSACTION_POW_PASS_WITH_FEE_HEIGHT <= height /\ f = false /\
     TRANSACTION_POW_PASS_WITH_FEE <= total_in tx - total_out tx).

Definition summed_fee (s : state) : Prop := summed s /\ total_out tx <= total_in tx.

Lemma pow_decide :
  decides (validateTransactionPoW ops ctx) summed_fee (fun _ => pow_ok) (fun s => s).
Proof.
  intros s b s' [(Hi & Ho & Ri & Ro) Hle] Hund H. unfold validateTransactionPoW in H. rewrite Hi, Ho in H.
  apply obind_Ok in H as (f & Hf & H). unfold pow_ok. case_if_in H.
  { injection H as <- <-. split; [lia|done]. }
  apply obind_Ok in H as (data & Hd & H). rewrite wrap_small in H by (unfold fits; lia).
  destruct (check_hash (cn_upx ops data) (pow_difficulty ctx f)) eqn:Ec.
  { injection H as <- <-. split; [|done]. right. exists f, data. tauto. }
  destruct (_ && _) eqn:E' in H.
  - injection H as <- <-. split; [|done]. right. exists f, data. bool_prop. split_and!; [done|done|]. right.
    by destruct f.
  - injection H as <- <-. split; [|by apply rejected_set].
    intros [|(f' & data' & Hf' & Hd' & [Hc|(Hh & -> & Hfee)])]; [lia| |]; assert (data' = data) as -> by congruence.
    + congruence.
    + assert (f = false) as -> by congruence. rewrite !(proj2 (Z.leb_le _ _)) in E' by done. done.
Qed.

(** ** Ring signatures *)

(** The ring of input [i] exists on the chain, is unlocked, was not spent, and
    its signatures check. *)
Definition signed (i : nat) (input : TransactionInput) : Prop :=
  exists k keys sigs, input = InKey k /\ outputIndexes k <> [] /\
    checkIfSpent (m_blockchainCache ctx) (keyImage k) (u32 height) = Ok false /\
    extractKeyOutputKeys (m_blockchainCache ctx) (in_amount k) (u32 height)
      (relativeOutputOffsetsToAbsolute (outputIndexes k)) = Ok (SUCCESS, keys) /\
    signatures tx !! i = Some sigs /\
    (pool = true \/ TRANSACTION_SIGNATURE_COUNT_VALIDATION_HEIGHT <= height -> length keys = length sigs) /\
    checkRingSignature ops (getTransactionPrefixHash (fast_hash ops) tx) (keyImage k) keys sigs = true.

Lemma count_test (b : bool) (x y : Z) (m n : nat) :
  (b || (x <=? y)) && negb (m =? n)%nat = false <-> (b = true \/ x <= y -> m = n).
Proof.
  rewrite andb_false_iff, orb_false_iff, negb_false_iff, Z.leb_gt, Nat.eqb_eq.
  destruct b; intuition (try lia; try discriminate).
Qed.

Lemma check_input_ok i input : check_input ops ctx i input = Ok None <-> signed i input.
Proof.
  unfold check_input, signed. destruct input as [k|k]; [split; [done|intros (? & ? & ? & ? & _); done]|].
  split.
  - intros (spent & Es & H)%obind_Ok. destruct spent; [done|]. destruct (is_empty (outputIndexes k)) eqn:Ee; [done|].
    apply obind_Ok in H as ([[| |] keys] & Ek & H); [|done|done]. apply obind_Ok in H as (sigs & Hs & H).
    destruct (_ && _) eqn:Ec in H; [done|]. destruct (checkRingSignature _ _ _ _ _) eqn:Er; [|done].
    exists k, keys, sigs. rewrite count_test in Ec. split_and!; try done.
    + by destruct (outputIndexes k).
    + unfold vec_at in Hs. destruct (_ <? _); [done|]. rewrite Nat2Z.id in Hs.
      destruct (signatures tx !! i) as [x|] eqn:Ex; [|done]. by injection Hs as ->.
  - intros (k' & keys & sigs & [= <-] & Hne & -> & -> & Hs & Hc & Hr).
    cbn [obind]. destruct (outputIndexes k); [done|]. cbn [is_empty].
    rewrite (vec_at_ok _ _ sigs) by (rewrite ?Nat2Z.id; done || lia). cbn [obind].
    rewrite (proj2 (count_test _ _ _ _ _)) by done. by rewrite Hr.
Qed.

Lemma check_input_code i input code message :
  check_input ops ctx i input = Ok (Some (code, message)) -> code <> VALIDATION_SUCCESS.
Proof.
  unfold check_input. destruct input as [k|k]; [done|]. intros (spent & _ & H)%obind_Ok.
  destruct spent; [by injection H as <- _|]. destruct (is_empty _); [done|].
  apply obind_Ok in H as ([[| |] keys] & _ & H); [|by injection H as <- _..].
  apply obind_Ok in H as (sigs & _ & H). destruct (_ && _) in H; [by injection H as <- _|].
  destruct (negb _) in H; [by injection H as <- _|done].
Qed.

(** ** Interleavings of the jobs *)

Section Jobs.
Context (ins : list TransactionInput) (s0 : state).
Hypothesis s0_undecided : undecided s0.

(** Job [i] ran to its end and found its input invalid. *)
Definition failed (j : jobs) (i : nat) : Prop :=
  started j !! i = Some false /\ finished j !! i = Some (Ok false).

Definition reports (i : nat) (code : TransactionValidationError) (message : list Z) : Prop :=
  exists input, ins !! i = Some input /\ check_input ops ctx i input = Ok (Some (code, message)).

Definition job_result (r : outcome (option (TransactionValidationError * list Z))) : outcome bool :=
  match r with Ok None => Ok true | Ok (Some _) => Ok false | Err e => Err e end.

(** A cancelled job gives up, or throws when its input is not a key input. *)
Definition cancelled_result (i : nat) (input : TransactionInput) (r : outcome bool) : Prop :=
  r = Ok false \/ is_base input = true /\ r = job_result (check_input ops ctx i input).

Lemma base_throws i input : is_base input = true -> exists e, job_result (check_input ops ctx i input) = Err e.
Proof. destruct input; [by eexists|done]. Qed.

(** What holds of every reachable state of the jobs. *)
Record inv (j : jobs) : Prop := mkInv {
  inv_started : forall i c, started j !! i = Some c -> (i < length ins)%nat /\ (c = true -> cancelValidation j = true);
  inv_finished : forall i r, finished j !! i = Some r -> exists input, ins !! i = Some input /\
    (started j !! i = Some true /\ cancelled_result i input r \/
     started j !! i = Some false /\ r = job_result (check_input ops ctx i input));
  inv_cancel : cancelValidation j = negb (all_valid j);
  inv_valid : all_valid j = true -> forall i, (i < collected j)%nat -> finished j !! i = Some (Ok true);
  inv_invalid : all_valid j = false -> exists i, failed j i;
  inv_collected : (collected j <= length ins)%nat;
  inv_collected_finished : forall i, (i < collected j)%nat -> is_Some (finished j !! i);
  inv_state :
    (forall i, ~ failed j i) /\ jobs_state j = s0 \/
    exists i code message, reports i code message /\ jobs_state j = setTransactionValidationResult code message s0
}.

Lemma inv_initial : inv (initial_jobs s0).
Proof.
  split; cbn [initial_jobs started finished collected cancelValidation all_valid jobs_state]; try done; try lia.
  left. split; [|done]. intros i [H _]. done.
Qed.

Lemma inv_start i j j' : inv j -> exec ops ctx ins (Start i) j = Some (Ok j') -> inv j'.
Proof.
  intros [Hst Hfin Hc Hv Hi Hn Hcf Hs] H. cbn [exec] in H. case_bool_decide as Hlt; [|done]. case_bool_decide as Hnone; [|done].
  injection H as <-. split; cbn [started finished collected cancelValidation all_valid jobs_state]; try done.
  - intros i' c. rewrite lookup_insert_Some. intros [[<- <-]|[Hne Hi']]; [done|by apply Hst].
  - intros i' r Hr. destruct (Hfin i' r Hr) as (input & Hin & Hcase). exists input. split; [done|].
    assert (i <> i') by (intros <-; rewrite Hnone in Hcase; naive_solver).
    rewrite lookup_insert_ne by done. done.
  - intros Hf. destruct (Hi Hf) as (i' & Hs1 & Hs2). exists i'. split; cbn [started finished]; [|done].
    rewrite lookup_insert_ne; [done|]. intros <-. congruence.
  - destruct Hs as [[Hno Hs]|Hs]; [left|by right]. split; [|done]. intros i' [H1 H2]. cbn [started finished] in *.
    apply (Hno i'). split; [|done]. destruct (decide (i = i')) as [<-|Hne]; [|by rewrite lookup_insert_ne in H1].
    destruct (Hfin i _ H2) as (input & _ & [[E _]|[E _]]); congruence.
Qed.

(** Writing the result of job [i], which was not finished. *)
Lemma inv_write i r st j :
  inv j -> finished j !! i = None ->
  (exists input, ins !! i = Some input /\
    (started j !! i = Some true /\ cancelled_result i input r \/
     started j !! i = Some false /\ r = job_result (check_input ops ctx i input))) ->
  (st = jobs_state j /\ ~ (started j !! i = Some false /\ r = Ok false) \/
   exists code message, reports i code message /\ st = setTransactionValidationResult code message (jobs_state j)) ->
  inv (mkJobs (started j) (<[i := r]> (finished j)) (collected j) (cancelValidation j) (all_valid j) st).
Proof.
  intros [Hst Hfin Hc Hv Hi Hn Hcf Hs] Hnone Hr Hst'.
  assert (Hkeep : forall i' x, finished j !! i' = Some x -> <[i := r]> (finished j) !! i' = Some x).
  { intros i' x Hx. rewrite lookup_insert_ne; [done|]. intros <-. congruence. }
  split; cbn [started finished collected cancelValidation all_valid jobs_state]; try done.
  - intros i' x. rewrite lookup_insert_Some. intros [[<- <-]|[_ Hx]]; [done|by apply Hfin].
  - intros Hall i' Hi'. apply Hkeep. by apply Hv.
  - intros Hf. destruct (Hi Hf) as (i' & H1 & H2). exists i'. split; [done|]. cbn [finished]. by apply Hkeep.
  - intros i' Hi'. destruct (Hcf i' Hi') as [x Hx]. exists x. by apply Hkeep.
  - destruct Hst' as [[-> Hnf]|(code & message & Hrep & ->)].
    + destruct Hs as [[Hno Hs]|Hs]; [left|by right]. split; [|done]. intros i' [H1 H2]. cbn [started finished] in *.
      rewrite lookup_insert_Some in H2. destruct H2 as [[<- ->]|[_ H2]]; [by apply Hnf|]. by apply (Hno i').
    + right. exists i, code, message. split; [done|]. destruct Hs as [[_ ->]|(i' & c' & m' & _ & ->)]; done.
Qed.

Lemma inv_finish i j j' : inv j -> exec ops ctx ins (Finish i) j = Some (Ok j') -> inv j'.
Proof.
  intros Hinv H. cbn [exec] in H. destruct (started j !! i) as [c|] eqn:Es; [|done].
  destruct (finished j !! i) eqn:Ef; [done|]. destruct (ins !! i) as [input|] eqn:Ei; [|done].
  destruct (c && negb (is_base input)) eqn:Ecb; [injection H as <-|].
  { apply andb_true_iff in Ecb as [-> _]. apply inv_write; [done|done|exists input; unfold cancelled_result; tauto|].
    left. split; [done|]. intros [E _]. congruence. }
  assert (Hcase : forall r, r = job_result (check_input ops ctx i input) ->
    started j !! i = Some true /\ cancelled_result i input r \/
    started j !! i = Some false /\ r = job_result (check_input ops ctx i input)).
  { intros r ->. destruct c; [left|by right]. split; [done|]. right. by destruct (is_base input). }
  destruct (check_input ops ctx i input) as [[[code message]|]|e] eqn:Ec; injection H as <-;
    (apply inv_write; [done|done|exists input; rewrite Ec; split; [done|by apply Hcase]|]).
  - right. exists code, message. split; [by exists input|done].
  - left. split; [done|]. by intros [_ E].
  - left. split; [done|]. by intros [_ E].
Qed.

Lemma inv_collect j j' : inv j -> exec ops ctx ins Collect j = Some (Ok j') -> inv j'.
Proof.
  intros [Hst Hfin Hc Hv Hi Hn Hcf Hs] H. cbn [exec] in H. destruct (finished j !! collected j) as [[r|]|] eqn:Er; [|done|done].
  injection H as <-. destruct (Hfin _ _ Er) as (input & Hin & Hcase).
  split; cbn [started finished collected cancelValidation all_valid jobs_state]; try done.
  - intros i c Hi'. destruct (Hst i c Hi') as [? Hcc]. split; [done|]. intros Ec. by rewrite Hcc.
  - rewrite Hc. by destruct (all_valid j), r.
  - intros [Ha ->]%andb_true_iff i Hi'. destruct (decide (i = collected j)) as [->|]; [done|]. apply Hv; [done|lia].
  - intros [Ha|Ha]%andb_false_iff; [by apply Hi|]. subst r.
    destruct Hcase as [[E _]|[E _]]; [|by exists (collected j)].
    apply Hi. destruct (Hst _ _ E) as [_ Hcc]. specialize (Hcc eq_refl). rewrite Hc in Hcc. by apply negb_true_iff in Hcc.
  - apply lookup_lt_Some in Hin. lia.
  - intros i Hi'. destruct (decide (i = collected j)) as [->|]; [by exists (Ok r)|]. apply Hcf. lia.
Qed.

Lemma inv_run schedule : forall j j', inv j -> run ops ctx ins schedule j = Ok j' -> inv j'.
Proof.
  induction schedule as [|e schedule IH]; intros j j' Hj H; cbn [run] in H; [by injection H as <-|].
  destruct (exec ops ctx ins e j) as [r|] eqn:Ee; [|done]. apply obind_Ok in H as (j1 & -> & H). apply (IH j1); [|done].
  destruct e; [by eapply inv_start|by eapply inv_finish|by eapply inv_collect].
Qed.

Definition all_signed : Prop := forall i input, ins !! i = Some input -> signed i input.

(** When everything has been collected, the verdict does not depend on the order
    in which the jobs ran. *)
Lemma run_verdict schedule j :
  run ops ctx ins schedule (initial_jobs s0) = Ok j -> collected j = length ins ->
  if all_valid j then all_signed /\ jobs_state j = s0
  else ~ all_signed /\ exists i code message, reports i code message /\
    jobs_state j = setTransactionValidationResult code message s0.
Proof.
  intros H Hn. apply inv_run in H as [Hst Hfin Hc Hv Hi _ _ Hs]; [|apply inv_initial].
  destruct (all_valid j) eqn:Ha.
  - assert (Hall : all_signed).
    { intros i input Hin. pose proof (lookup_lt_Some _ _ _ Hin). specialize (Hv eq_refl i ltac:(lia)).
      destruct (Hfin _ _ Hv) as (input' & Hin' & [[_ [E|[Hb E]]]|[_ E]]);
        [done|destruct (base_throws i input' Hb); congruence|]. assert (input' = input) as -> by congruence.
      apply check_input_ok. by destruct (check_input ops ctx i input) as [[[]|]|]. }
    split; [done|]. destruct Hs as [[_ Hs]|(i & code & message & (input & Hin & Hch) & _)]; [done|].
    specialize (Hall i input Hin). apply check_input_ok in Hall. congruence.
  - destruct (Hi eq_refl) as (i & H1 & H2). split.
    + intros Hall. destruct (Hfin _ _ H2) as (input & Hin & [[E _]|[_ E]]); [congruence|].
      specialize (Hall i input Hin). apply check_input_ok in Hall. by rewrite Hall in E.
    + destruct Hs as [[Hno _]|Hs]; [by destruct (Hno i)|done].
Qed.

(** ** Every schedule can be completed, in [3 n] events *)

Definition no_throw : Prop := forall i input, ins !! i = Some input -> exists r, check_input ops ctx i input = Ok r.

Definition steps (j : jobs) : nat := (size (started j) + size (finished j) + collected j)%nat.

Lemma exec_steps e j j' : exec ops ctx ins e j = Some (Ok j') -> steps j' = S (steps j).
Proof.
  unfold steps. destruct e as [i|i|]; cbn [exec]; intros H.
  - case_bool_decide; [|done]. case_bool_decide as E; [|done]. injection H as <-.
    cbn [started finished collected]. rewrite map_size_insert_None by done. lia.
  - destruct (started j !! i) as [c|]; [|done]. destruct (finished j !! i) eqn:E; [done|]. destruct (ins !! i); [|done].
    destruct (c && _); [|destruct (check_input _ _ _ _) as [[[]|]|]]; injection H as <-;
      cbn [started finished collected]; rewrite map_size_insert_None by done; lia.
  - destruct (finished j !! collected j) as [[]|]; [|done|done]. injection H as <-. cbn [started finished collected]. lia.
Qed.

(** A map whose keys are below [n] has at most [n] entries. *)
Lemma size_below {A} (m : gmap nat A) n : (forall i x, m !! i = Some x -> (i < n)%nat) -> (size m <= n)%nat.
Proof.
  intros H. rewrite <- size_dom. transitivity (size (set_seq 0 n : gset nat)).
  - apply subseteq_size. intros i [x Hx]%elem_of_dom. apply elem_of_set_seq. specialize (H i x Hx). lia.
  - by rewrite size_set_seq.
Qed.

Lemma steps_bound j : inv j -> (steps j <= 3 * length ins)%nat.
Proof.
  intros [Hst Hfin _ _ _ Hn _ _]. unfold steps.
  pose proof (size_below (started j) (length ins) (fun i c Hi => proj1 (Hst i c Hi))).
  pose proof (size_below (finished j) (length ins)) as Hf. unshelve epose proof (Hf _) as Hf'.
  { intros i r Hr. destruct (Hfin i r Hr) as (input & Hin & _). by eapply lookup_lt_Some. }
  lia.
Qed.

Lemma exec_progress j :
  inv j -> no_throw -> (collected j < length ins)%nat -> exists e j', exec ops ctx ins e j = Some (Ok j').
Proof.
  intros [_ Hfin _ _ _ _ _ _] Hnt Hlt. destruct (lookup_lt_is_Some_2 ins _ Hlt) as [input Hin].
  destruct (finished j !! collected j) as [r|] eqn:Er.
  - exists Collect. cbn [exec]. rewrite Er. destruct (Hfin _ _ Er) as (input' & Hin' & Hcase).
    destruct (Hnt _ _ Hin') as [x Hx]. unfold cancelled_result in Hcase. rewrite Hx in Hcase. destruct r as [b|e]; [by eexists|].
    destruct x as [[]|]; naive_solver.
  - destruct (started j !! collected j) as [cancelled|] eqn:Es.
    + exists (Finish (collected j)). cbn [exec]. rewrite Es, Er, Hin. by destruct (if cancelled && _ then _ else _); eexists.
    + exists (Start (collected j)). cbn [exec]. rewrite !bool_decide_true by done. by eexists.
Qed.

Lemma run_app l1 l2 j : run ops ctx ins (l1 ++ l2) j = let! j := run ops ctx ins l1 j in run ops ctx ins l2 j.
Proof.
  revert j. induction l1 as [|e l1 IH]; intros j; [done|]. cbn [app run].
  destruct (exec ops ctx ins e j) as [[j1|]|]; cbn [obind]; [apply IH|done|done].
Qed.

Lemma run_steps l : forall j j', run ops ctx ins l j = Ok j' -> steps j' = (length l + steps j)%nat.
Proof.
  induction l as [|e l IH]; intros j j' H; cbn [run] in H; [by injection H as <-|].
  destruct (exec ops ctx ins e j) as [r|] eqn:Ee; [|done]. apply obind_Ok in H as (j1 & -> & H).
  rewrite (IH _ _ H), (exec_steps _ _ _ Ee). simpl. lia.
Qed.

Lemma run_completes n : forall j, inv j -> no_throw -> (3 * length ins - steps j <= n)%nat ->
  exists l j', run ops ctx ins l j = Ok j' /\ collected j' = length ins.
Proof.
  induction n as [|n IH]; intros j Hj Hnt Hn; pose proof (steps_bound j Hj) as Hb.
  all: destruct (decide (collected j = length ins)) as [|Hne]; [by exists [], j|].
  all: destruct (exec_progress j Hj Hnt) as (e & j1 & He); [pose proof (inv_collected j Hj); lia|].
  all: assert (Hj1 : inv j1) by (destruct e; [by eapply inv_start|by eapply inv_finish|by eapply inv_collect]).
  all: pose proof (exec_steps _ _ _ He) as Hs; pose proof (steps_bound j1 Hj1) as Hb1.
  - lia.
  - destruct (IH j1 Hj1 Hnt) as (l & j' & Hr & Hc); [lia|]. exists (e :: l), j'. cbn [run]. by rewrite He.
Qed.

End Jobs.

(** ** The specification of an acceptable transaction *)

Definition accepted (spent : gset KeyImage) : Prop :=
  size_ok /\ inputs tx <> [] /\ inputs_ok (inputs tx) spent 0 /\ outputs_ok (outputs tx) 0 /\ fee_ok /\
  extra_ok /\ unlock_ok /\ ratio_ok /\ mixin_ok /\ pow_ok /\
  (isInCheckpointZone (m_checkpoints ctx) (u32 (height + 1)) = true \/ all_signed (inputs tx)).

Lemma expensive_decide schedule :
  decides (validateTransactionInputsExpensive ops ctx schedule) (fun _ => True)
    (fun _ => isInCheckpointZone (m_checkpoints ctx) (u32 (height + 1)) = true \/ all_signed (inputs tx)) (fun s => s).
Proof.
  intros s b s' _ Hund H. unfold validateTransactionInputsExpensive in H.
  destruct (isInCheckpointZone _ _); [injection H as <- <-; tauto|]. apply obind_Ok in H as (j & Hj & H).
  destruct (Nat.eqb_spec (collected j) (length (inputs tx))) as [Hn|]; [|done]. injection H as <- <-.
  apply run_verdict in Hj; [|done]. destruct (all_valid j).
  - split; [tauto|apply Hj].
  - destruct Hj as [Hno (i & code & message & (input & _ & Hc) & ->)]. split; [naive_solver|].
    apply rejected_set; [by eapply check_input_code|done].
Qed.

Lemma decides_weaken f pre pre' P u : decides f pre P u -> (forall s, pre' s -> pre s) -> decides f pre' P u.
Proof. intros Hf H s b s' Hs. apply Hf. by apply H. Qed.

Definition any_state (s : state) : Prop := True.
Definition in_summed (s : state) : Prop := m_sumOfInputs s = total_in tx /\ 0 <= total_in tx < 2 ^ 64.

Lemma after_inputs_summed s :
  Forall amount_fits (inputs tx) -> inputs_ok (inputs tx) (spentKeyImages s) 0 ->
  in_summed (after_inputs (inputs tx) 0 s).
Proof.
  intros Hfit (kis & E & _ & _ & _ & Hlt). unfold in_summed. cbn [after_inputs m_sumOfInputs].
  assert (Ht : total_in tx = sumZ (map in_amount kis)) by (unfold total_in; by rewrite E, map_map).
  split; [unfold total_in; lia|]. rewrite Ht. split; [|lia]. rewrite <- Ht. unfold total_in.
  apply sumZ_nonneg, Forall_map. eapply Forall_impl; [exact Hfit|]. intros i [? _]. done.
Qed.

(** The state after an accepted transaction. *)
Definition after_accept (s : state) : state :=
  setTransactionValidationResult VALIDATION_SUCCESS []
    (set_valid (set_fee (total_in tx - total_out tx) (after_outputs (total_out tx) (after_inputs (inputs tx) 0 s)))).

Definition reserved_ok : Prop :=
  0 <= m_blockSizeMedian ctx * 2 - m_minerTxBlobReservedSize (m_currency ctx) < 2 ^ 64.

(** The seven checks that follow the sums. *)
Definition rest_ok : Prop :=
  fee_ok /\ extra_ok /\ unlock_ok /\ ratio_ok /\ mixin_ok /\ pow_ok /\
  (isInCheckpointZone (m_checkpoints ctx) (u32 (height + 1)) = true \/ all_signed (inputs tx)) /\ True.

Definition rest_checks (schedule : list event) : check :=
  and_then (validateTransactionFee ctx) (
  and_then (validateTransactionExtra ctx) (
  and_then (validateTransactionUnlockTime ctx) (
  and_then (validateInputOutputRatio ctx) (
  and_then (validateTransactionMixin ops ctx) (
  and_then (validateTransactionPoW ops ctx) (
  and_then (validateTransactionInputsExpensive ops ctx schedule) succeed)))))).

Lemma rest_decide schedule :
  decides (rest_checks schedule) summed (fun _ => rest_ok)
    (fun s => setTransactionValidationResult VALIDATION_SUCCESS [] (set_valid (set_fee (total_in tx - total_out tx) s))).
Proof.
  refine (decides_and_then _ _ _ summed_fee (fun _ => fee_ok) (fun _ => _) _
    (fun s => setTransactionValidationResult VALIDATION_SUCCESS [] (set_valid s)) fee_decide _ _).
  { intros s Hs [Hle _] Hund. split; [by split|done]. }
  apply decides_guard; [eapply decides_weaken; [apply extra_decide|done]|].
  apply decides_guard; [eapply decides_weaken; [apply unlock_decide|done]|].
  apply decides_guard; [eapply decides_weaken; [apply ratio_decide|done]|].
  apply decides_guard; [eapply decides_weaken; [apply mixin_decide|done]|].
  apply decides_guard; [apply pow_decide|].
  apply decides_guard; [eapply decides_weaken; [apply expensive_decide|done]|].
  intros s b s' _ _ H. by injection H as <- <-.
Qed.

Lemma sums_decide schedule :
  Forall amount_fits (inputs tx) -> Forall (fun o => fits 64 (out_amount o)) (outputs tx) ->
  decides (and_then (validateTransactionInputs ops ctx) (and_then (validateTransactionOutputs ops ctx) (rest_checks schedule)))
    any_state
    (fun s => (inputs tx <> [] /\ inputs_ok (inputs tx) (spentKeyImages s) 0) /\ outputs_ok (outputs tx) 0 /\ rest_ok)
    after_accept.
Proof.
  intros Hfi Hfo.
  refine (decides_and_then _ _ _ in_summed (fun s => inputs tx <> [] /\ inputs_ok (inputs tx) (spentKeyImages s) 0)
    (fun _ => outputs_ok (outputs tx) 0 /\ rest_ok) _
    (fun s => setTransactionValidationResult VALIDATION_SUCCESS []
      (set_valid (set_fee (total_in tx - total_out tx) (after_outputs (total_out tx) s)))) (inputs_decide Hfi) _ _).
  { intros s1 _ [_ Hok] Hu. split; [by apply after_inputs_summed|done]. }
  refine (decides_and_then _ _ _ summed (fun _ => outputs_ok (outputs tx) 0) (fun _ => rest_ok) _ _
    (decides_weaken _ _ _ _ _ (outputs_decide Hfo) _) _ (rest_decide schedule)); [done|].
  intros s1 [Hs1 Hr] [_ Hlt] Hu. split; [|done]. unfold total_out in *.
  split_and!; [done|done|lia|lia| |].
  - apply sumZ_nonneg, Forall_map. eapply Forall_impl; [exact Hfo|]. unfold fits. simpl. lia.
  - unfold total_out. lia.
Qed.

Lemma validate_decide schedule :
  amounts_ok tx -> reserved_ok ->
  decides (validate ops ctx schedule) any_state (fun s => accepted (spentKeyImages s)) after_accept.
Proof.
  intros [Hin Hout] Hres s b s' Hs Hund H. rewrite Forall_map in Hin. rewrite Forall_map in Hout.
  pose proof (decides_and_then _ _ _ any_state _ _ _ _ (size_decide Hres) (fun s _ _ Hu => conj I Hu)
    (sums_decide schedule Hin Hout) s b s' I Hund H) as Hall.
  unfold accepted. unfold rest_ok in Hall. destruct b; simpl in Hall; intuition.
Qed.

(** ** Validation returns *)

(** The transaction was read from the byte array it comes with. *)
Definition received : Prop :=
  bytes_ok (m_binaryArray ctx) /\ Z.of_nat (length (m_binaryArray ctx)) < 2 ^ 40 /\
  fromBinaryArray ser_Transaction default_transaction (m_binaryArray ctx) = Ok tx /\ 2 <= height.

Lemma received_valid : received ->
  valid_transaction tx /\ toBinaryArray ser_Transaction tx = Ok (m_binaryArray ctx).
Proof. intros (Hb & _ & H & _). by apply (fromBinaryArray_iff _ _ fresh_transaction) in H. Qed.

Lemma received_amounts : received -> amounts_ok tx.
Proof. intros [Hv _]%received_valid. by apply valid_amounts. Qed.

Lemma received_fusion : received -> exists f, is_fusion ctx = Ok f.
Proof.
  intros [_ Ht]%received_valid. unfold is_fusion, isFusionTransaction_size, getObjectBinarySize, toBinaryArray_opt.
  rewrite Ht. unfold tx_size. rewrite Z.eqb_refl. by eexists.
Qed.

Lemma received_fee f fee : received -> exists v, valid_fee ctx f fee = Ok v.
Proof.
  intros (_ & Hs & _ & Hh). unfold valid_fee. destruct f; [by eexists|]. case_if.
  - destruct (minimum_fee_cases (tx_size ctx) height) as (m & -> & _); [unfold tx_size; lia|done|by eexists].
  - repeat case_if; by eexists.
Qed.

Definition can_return (f : list event -> check) (s : state) : Prop := exists schedule b s', f schedule s = Ok (b, s').

Lemma can_return_then f g s :
  (exists b s', f s = Ok (b, s')) -> (forall s', f s = Ok (true, s') -> can_return g s') ->
  can_return (fun schedule => and_then f (g schedule)) s.
Proof.
  intros (b & s' & Hf) Hg. destruct b.
  - destruct (Hg s' Hf) as (schedule & b & s'' & H). exists schedule, b, s''. unfold and_then. by rewrite Hf.
  - exists [], false, s'. unfold and_then. by rewrite Hf.
Qed.

Lemma inputs_loop_returns ins : forall ki sum s, exists b s', inputs_loop ops ins ki sum s = Ok (b, s').
Proof.
  induction ins as [|[i|i] ins IH]; intros ki sum s; cbn [inputs_loop]; [by do 2 eexists..|].
  repeat (case_if; [by do 2 eexists|]). apply IH.
Qed.

Lemma outputs_loop_returns outs : forall sum s, exists b s', outputs_loop ops ctx outs sum s = Ok (b, s').
Proof.
  induction outs as [|[a [o]] outs IH]; intros sum s; cbn [outputs_loop target]; [by do 2 eexists|].
  repeat (case_if; [by do 2 eexists|]). apply IH.
Qed.

Lemma outputs_loop_sums outs : forall sum s s', outputs_loop ops ctx outs sum s = Ok (true, s') ->
  m_sumOfInputs s' = m_sumOfInputs s.
Proof.
  induction outs as [|[a [o]] outs IH]; intros sum s s' H; cbn [outputs_loop target] in H; [by injection H as <-|].
  repeat (case_if_in H; [done|]). by apply IH in H.
Qed.

Lemma fee_returns s : received -> m_sumOfInputs s <> 0 -> exists b s', validateTransactionFee ctx s = Ok (b, s').
Proof.
  intros Hr Hs. unfold validateTransactionFee. rewrite (proj2 (Z.eqb_neq _ _)) by done. case_if; [by do 2 eexists|].
  destruct (received_fusion Hr) as [f ->]. cbn [obind].
  destruct (received_fee f (u64 (m_sumOfInputs s - m_sumOfOutputs s)) Hr) as [v ->]. cbn [obind].
  by destruct v; do 2 eexists.
Qed.

Lemma pow_returns s : received -> exists b s', validateTransactionPoW ops ctx s = Ok (b, s').
Proof.
  intros Hr. unfold validateTransactionPoW. destruct (received_fusion Hr) as [f ->]. cbn [obind].
  case_if; [by do 2 eexists|]. destruct (received_valid Hr) as [[Hp _] _].
  destruct (toBinaryArray_valid _ _ _ (tx_prefix tx) Hp) as (data & _ & ->). cbn [obind].
  by repeat (case_if; [by do 2 eexists|]); do 2 eexists.
Qed.

(** The chain answers the two questions of the jobs about every input. *)
Definition chain_answers : Prop := forall k, InKey k ∈ inputs tx ->
  (exists b, checkIfSpent (m_blockchainCache ctx) (keyImage k) (u32 height) = Ok b) /\
  exists r, extractKeyOutputKeys (m_blockchainCache ctx) (in_amount k) (u32 height)
    (relativeOutputOffsetsToAbsolute (outputIndexes k)) = Ok r.

(** The jobs index the signatures within bounds, since the inputs are key inputs
    with rings and the parser made one signature vector per input. *)
Lemma received_no_throw spent : received -> chain_answers -> inputs_ok (inputs tx) spent 0 -> no_throw (inputs tx).
Proof.
  intros [[_ Hsig] _]%received_valid Ha (kis & E & Hok & _) i input Hin. rewrite E in Hin, Hsig.
  apply list_lookup_fmap_Some in Hin as (k & -> & Hk).
  assert (Hne : outputIndexes k <> []) by (rewrite Forall_forall in Hok; apply (Hok k); by eapply list_elem_of_lookup_2).
  assert (Hlt : (i < length (signatures tx))%nat).
  { unfold valid_signatures in Hsig. destruct kis as [|k0 kis]; [done|]. cbn [is_base_transaction map] in Hsig.
    destruct Hsig as [Hl _]. apply (f_equal length) in Hl. rewrite !length_map in Hl. rewrite Hl.
    apply lookup_lt_Some in Hk. simpl in *. rewrite ?length_map, ?length_fmap. lia. }
  destruct (Ha k) as [[spent' Es] [[r keys] Ek]]; [rewrite E; apply list_elem_of_fmap; exists k; by eauto using list_elem_of_lookup_2|].
  unfold check_input. rewrite Es. cbn [obind]. case_if; [by eexists|].
  destruct (outputIndexes k) as [|o os] eqn:Eo; [done|]. cbn [is_empty]. rewrite Ek. cbn [obind].
  destruct r; [|by eexists..].
  destruct (lookup_lt_is_Some_2 _ _ Hlt) as [sigs Hs]. rewrite (vec_at_ok _ _ sigs) by (rewrite ?Nat2Z.id; done || lia). cbn [obind].
  repeat (case_if; [by eexists|]). by eexists.
Qed.

Lemma expensive_can_return s : no_throw (inputs tx) ->
  can_return (fun schedule => and_then (validateTransactionInputsExpensive ops ctx schedule) succeed) s.
Proof.
  intros Hnt. destruct (run_completes (inputs tx) s _ _ (inv_initial _ _) Hnt (le_n _)) as (l & j & Hr & Hc).
  exists l. unfold and_then, validateTransactionInputsExpensive. case_if; [by do 2 eexists|].
  rewrite Hr. cbn [obind]. rewrite Hc, Nat.eqb_refl. cbn [obind]. by destruct (all_valid j); do 2 eexists.
Qed.

Lemma mixin_returns s : exists b s', validateTransactionMixin ops ctx s = Ok (b, s').
Proof. unfold validateTransactionMixin. repeat (case_match; try by do 2 eexists). Qed.

Lemma rest_can_return s : received -> no_throw (inputs tx) -> m_sumOfInputs s <> 0 -> can_return rest_checks s.
Proof.
  intros Hr Hnt Hs. unfold rest_checks.
  apply can_return_then; [by apply fee_returns|]. intros s1 _.
  apply can_return_then; [unfold validateTransactionExtra; case_if; by do 2 eexists|]. intros s2 _.
  apply can_return_then; [unfold validateTransactionUnlockTime; repeat case_if; by do 2 eexists|]. intros s3 _.
  apply can_return_then; [unfold validateInputOutputRatio; case_if; by do 2 eexists|]. intros s4 _.
  apply can_return_then; [apply mixin_returns|]. intros s5 _.
  apply can_return_then; [by apply pow_returns|]. intros s6 _. by apply expensive_can_return.
Qed.

Lemma validate_can_return spent : received -> chain_answers -> 0 < total_in tx -> can_return (validate ops ctx) (initial spent).
Proof.
  intros Hr Ha Hpos. pose proof (proj1 (received_amounts Hr)) as Hin. rewrite Forall_map in Hin.
  apply can_return_then; [unfold validateTransactionSize; case_if; by do 2 eexists|]. intros s1 H1.
  assert (s1 = initial spent) as -> by (unfold validateTransactionSize in H1; case_if_in H1; [done|by injection H1]).
  apply can_return_then; [unfold validateTransactionInputs; case_if; [by do 2 eexists|apply inputs_loop_returns]|].
  intros s2 H2. apply (inputs_decide Hin) in H2 as [[_ Hok] ->]; [|done..].
  apply can_return_then; [apply outputs_loop_returns|]. intros s3 H3%outputs_loop_sums.
  apply rest_can_return; [done|by eapply received_no_throw|]. rewrite H3.
  rewrite (proj1 (after_inputs_summed _ Hin Hok)). lia.
Qed.

(** A transaction that spends nothing is not accepted: the fee check throws. *)
Lemma validate_positive schedule spent s' :
  amounts_ok tx -> validate ops ctx schedule (initial spent) = Ok (true, s') -> 0 < total_in tx.
Proof.
  intros [Hin _] H. rewrite Forall_map in Hin. unfold validate, and_then in H.
  apply obind_Ok in H as ([b1 s1] & H1 & H). destruct b1; [|done].
  assert (s1 = initial spent) as -> by (unfold validateTransactionSize in H1; case_if_in H1; [done|by injection H1]).
  apply obind_Ok in H as ([b2 s2] & H2 & H). destruct b2; [|done]. apply (inputs_decide Hin) in H2 as [[_ Hok] ->]; [|done..].
  apply obind_Ok in H as ([b3 s3] & H3 & H). destruct b3; [|done]. apply outputs_loop_sums in H3.
  destruct (after_inputs_summed _ Hin Hok) as [Hs Hr]. rewrite Hs in H3.
  apply obind_Ok in H as ([b4 s4] & H4 & _). unfold validateTransactionFee in H4. rewrite H3 in H4.
  case_if_in H4; [done|]. lia.
Qed.

Lemma returns_then f g s :
  (exists b s', f s = Ok (b, s')) -> (forall s', f s = Ok (true, s') -> exists b s'', g s' = Ok (b, s'')) ->
  exists b s', and_then f g s = Ok (b, s').
Proof.
  intros Hf Hg. destruct (can_return_then f (fun _ => g) s Hf) as (_ & b & s' & H); [|by exists b, s'].
  intros s' (b & s'' & H)%Hg. by exists [], b, s''.
Qed.

(** A check that passes leaves the state alone. *)
Lemma looks_true f s s' :
  (forall s, f s = pass s \/ exists s'', f s = Ok (false, s'')) -> f s = Ok (true, s') -> s' = s.
Proof. intros Hf H. destruct (Hf s) as [E|(s'' & E)]; rewrite E in H; by injection H. Qed.

Lemma revalidate_returns : received -> 0 < total_in tx ->
  exists b s', revalidateAfterHeightChange ops ctx (initial ∅) = Ok (b, s').
Proof.
  intros Hr Hpos. pose proof (proj1 (received_amounts Hr)) as Hin. rewrite Forall_map in Hin.
  unfold revalidateAfterHeightChange.
  apply returns_then; [unfold validateTransactionSize; case_if; by do 2 eexists|]. intros s1 H1.
  apply looks_true in H1 as ->; [|intros s; unfold validateTransactionSize; case_if; [right; by eexists|by left]].
  apply returns_then; [unfold validateTransactionExtra; case_if; by do 2 eexists|]. intros s2 H2.
  apply looks_true in H2 as ->; [|intros s; unfold validateTransactionExtra; case_if; [right; by eexists|by left]].
  apply returns_then; [apply mixin_returns|]. intros s3 H3.
  apply looks_true in H3 as ->; [|intros s; unfold validateTransactionMixin; repeat case_match; first [by left|right; by eexists]].
  apply returns_then; [unfold validateTransactionInputs; case_if; [by do 2 eexists|apply inputs_loop_returns]|].
  intros s4 H4. apply (inputs_decide Hin) in H4 as [[_ Hok] ->]; [|done..].
  apply returns_then; [apply outputs_loop_returns|]. intros s5 H5%outputs_loop_sums.
  apply returns_then; [unfold validateTransactionUnlockTime; repeat case_if; by do 2 eexists|]. intros s6 H6.
  apply looks_true in H6 as ->; [|intros s; unfold validateTransactionUnlockTime; repeat case_if; first [by left|right; by eexists]].
  apply returns_then; [apply fee_returns; [done|]; rewrite H5, (proj1 (after_inputs_summed _ Hin Hok)); lia|]. intros s7 _.
  apply returns_then; [case_if; [by apply pow_returns|by do 2 eexists]|]. intros s8 _. by do 2 eexists.
Qed.

(** ** Key images *)

(** Checks that spend no key image: the last one, and one before others. *)
Definition spent_kept (f : check) : Prop := forall s b s', undecided s -> f s = Ok (b, s') ->
  if b : bool then spentKeyImages s' = spentKeyImages s else errorCode (m_validationResult s') <> VALIDATION_SUCCESS.

Definition spends_nothing (f : check) : Prop := forall s b s', undecided s -> f s = Ok (b, s') ->
  if b : bool then undecided s' /\ spentKeyImages s' = spentKeyImages s else errorCode (m_validationResult s') <> VALIDATION_SUCCESS.

Lemma spent_kept_then f g : spends_nothing f -> spent_kept g -> spent_kept (and_then f g).
Proof.
  intros Hf Hg s b s' Hund H. unfold and_then in H. apply obind_Ok in H as ([[] s1] & H1 & H); apply Hf in H1; try done.
  - destruct H1 as [Hu E]. apply Hg in H; [|done]. destruct b; [|done]. by rewrite <- E.
  - by injection H as <- <-.
Qed.

Lemma outputs_spend_nothing outs : forall sum, spends_nothing (outputs_loop ops ctx outs sum).
Proof.
  induction outs as [|o outs IH]; intros sum s b s' Hund H; cbn [outputs_loop] in H; [by injection H as <- <-|].
  repeat (case_if_in H; [by injection H as <- <-|]). destruct (target o).
  repeat (case_if_in H; [by injection H as <- <-|]). by apply IH in H.
Qed.

Lemma expensive_spends_nothing schedule : spends_nothing (validateTransactionInputsExpensive ops ctx schedule).
Proof. intros s b s' Hund H. apply expensive_decide in H; [|done|done]. destruct b; [|apply H]. by destruct H as [_ ->]. Qed.

Lemma fee_spends_nothing : spends_nothing (validateTransactionFee ctx).
Proof.
  intros s b s' Hund H. unfold validateTransactionFee in H. case_if_in H; [done|]. case_if_in H; [by injection H as <- <-|].
  apply obind_Ok in H as (f & _ & H). apply obind_Ok in H as (v & _ & H). case_if_in H; by injection H as <- <-.
Qed.

Lemma pow_spends_nothing : spends_nothing (validateTransactionPoW ops ctx).
Proof.
  intros s b s' Hund H. unfold validateTransactionPoW in H. apply obind_Ok in H as (f & _ & H).
  case_if_in H; [by injection H as <- <-|]. apply obind_Ok in H as (data & _ & H). repeat case_if_in H; by injection H as <- <-.
Qed.

Lemma mixin_spends_nothing : spends_nothing (validateTransactionMixin ops ctx).
Proof.
  intros s b s' Hund H. unfold validateTransactionMixin in H.
  destruct (Mixins_validate _ _ _ _); [case_if_in H|]; by injection H as <- <-.
Qed.

Lemma looks_spend_nothing f : (forall s, f s = pass s \/ exists code message, code <> VALIDATION_SUCCESS /\ f s = reject code message s) ->
  spends_nothing f.
Proof. intros Hf s b s' Hund H. destruct (Hf s) as [E|(code & message & Hc & E)]; rewrite E in H; by injection H as <- <-. Qed.

Lemma inputs_loop_images ins : forall ki sum s b s', undecided s -> inputs_loop ops ins ki sum s = Ok (b, s') ->
  if b : bool then
    undecided s' /\ NoDup (key_images ins) /\ (forall k, k ∈ key_images ins -> k ∉ spentKeyImages s) /\
    spentKeyImages s' = list_to_set (key_images ins) ∪ spentKeyImages s
  else errorCode (m_validationResult s') <> VALIDATION_SUCCESS.
Proof.
  induction ins as [|[i|i] ins IH]; intros ki sum s b s' Hund H; cbn [inputs_loop] in H.
  - injection H as <- <-. split_and!; [done|constructor|by intros k ?%elem_of_nil|set_solver].
  - by injection H as <- <-.
  - do 4 (case_if_in H; [by injection H as <- <-|]).
    destruct (bool_decide_reflect (keyImage i ∈ spentKeyImages s)) as [Hin|Hin]; [by injection H as <- <-|].
    cbv zeta in H. case_if_in H; [by injection H as <- <-|]. apply IH in H; [|done]. destruct b; [|done].
    destruct H as (Hu & Hnd & Hni & ->). cbn [insert_spent spentKeyImages] in *.
    change (key_images (InKey i :: ins)) with (keyImage i :: key_images ins). split_and!; [done| | |set_solver].
    + apply NoDup_cons. split; [|done]. intros Hk. specialize (Hni _ Hk). set_solver.
    + intros k [->|Hk]%elem_of_cons; [done|]. specialize (Hni k Hk). set_solver.
Qed.

(** An accepted transaction spends its own key images, once each. *)
Lemma validate_images schedule spent b s' :
  validate ops ctx schedule (initial spent) = Ok (b, s') -> errorCode (m_validationResult s') = VALIDATION_SUCCESS ->
  NoDup (key_images (inputs tx)) /\ (forall k, k ∈ key_images (inputs tx) -> k ∉ spent) /\
  spentKeyImages s' = list_to_set (key_images (inputs tx)) ∪ spent.
Proof.
  intros H Hcode. unfold validate in H. unfold and_then at 1 in H. apply obind_Ok in H as ([b1 s1] & H1 & H).
  assert (H1' : if b1 : bool then s1 = initial spent else errorCode (m_validationResult s1) <> VALIDATION_SUCCESS).
  { unfold validateTransactionSize in H1. case_if_in H1; by injection H1 as <- <-. }
  destruct b1; [subst s1|by injection H as <- <-]. unfold and_then at 1 in H. apply obind_Ok in H as ([b2 s2] & H2 & H).
  assert (H2' : if b2 : bool then undecided s2 /\ NoDup (key_images (inputs tx)) /\ (forall k, k ∈ key_images (inputs tx) -> k ∉ spent) /\
      spentKeyImages s2 = list_to_set (key_images (inputs tx)) ∪ spent else errorCode (m_validationResult s2) <> VALIDATION_SUCCESS).
  { unfold validateTransactionInputs in H2. case_if_in H2; [by injection H2 as <- <-|]. by apply inputs_loop_images in H2. }
  destruct b2; [|by injection H as <- <-]. destruct H2' as (Hu & Hnd & Hni & <-). split; [done|]. split; [done|].
  enough (Hrest : spent_kept (and_then (validateTransactionOutputs ops ctx) (rest_checks schedule))).
  { specialize (Hrest s2 b s' Hu H). by destruct b. }
  repeat apply spent_kept_then; auto using expensive_spends_nothing, fee_spends_nothing, pow_spends_nothing, mixin_spends_nothing.
  - apply outputs_spend_nothing.
  - apply looks_spend_nothing. intros s. unfold validateTransactionExtra. case_if; [right; eexists _, _; split; [|reflexivity]; done|by left].
  - apply looks_spend_nothing. intros s. unfold validateTransactionUnlockTime. repeat case_if; first [by left|right; eexists _, _; split; [|reflexivity]; done].
  - apply looks_spend_nothing. intros s. unfold validateInputOutputRatio. case_if; [right; eexists _, _; split; [|reflexivity]; done|by left].
  - intros s c s1 _ H'. by injection H' as <- <-.
Qed.

(** An accepted transaction pays the difference of its sums. *)
Lemma validate_fee schedule spent b s' :
  amounts_ok tx -> validate ops ctx schedule (initial spent) = Ok (b, s') -> errorCode (m_validationResult s') = VALIDATION_SUCCESS ->
  result_fee (m_validationResult s') = total_in tx - total_out tx /\ 0 <= total_out tx <= total_in tx /\ total_in tx < 2 ^ 64.
Proof.
  intros [Hin Hout] H Hcode. rewrite Forall_map in Hin. rewrite Forall_map in Hout. unfold validate in H. unfold and_then at 1 in H.
  apply obind_Ok in H as ([b1 s1] & H1 & H).
  assert (H1' : if b1 : bool then s1 = initial spent else errorCode (m_validationResult s1) <> VALIDATION_SUCCESS).
  { unfold validateTransactionSize in H1. case_if_in H1; by injection H1 as <- <-. }
  destruct b1; [subst s1|by injection H as <- <-]. apply (sums_decide schedule Hin Hout) in H; [|done..].
  destruct b; [|by destruct H as [_ [? _]]]. destruct H as [((_ & Hok) & _ & (Hle & _) & _) ->]. split; [done|].
  destruct (after_inputs_summed _ Hin Hok) as [_ Hr]. split; [|lia]. split; [|done].
  apply sumZ_nonneg, Forall_map. eapply Forall_impl; [exact Hout|]. unfold fits. simpl. lia.
Qed.

End Checks.

(** ** A chain and a transaction *)

#[local] Instance sample_chain : IBlockchainCache (gset KeyImage) := {
  checkIfSpent chain keyImage _ := Ok (bool_decide (keyImage ∈ chain));
  extractKeyOutputKeys _ _ _ indexes := Ok (SUCCESS, map (fun _ => zeros 32) indexes)
}.

Definition sample_ops : crypto_ops :=
  mkCryptoOps (fun _ => true) (fun _ _ => KEY_IMAGE_I) (fun _ _ keys sigs => (length keys =? length sigs)%nat)
    (fun _ => zeros 32) (fun _ => zeros 32).

Definition sample_bytes : list Z :=
  match toBinaryArray ser_Transaction sample_transaction with Ok ba => ba | Err _ => [] end.

Definition sample_context (chain : gset KeyImage) : context (gset KeyImage) :=
  mkContext sample_transaction sample_bytes (Currency_move CurrencyBuilder) ∅ chain 100 100000 0 true.

Definition sample_schedule : list event := [Start 0; Start 1; Finish 1; Finish 0; Collect; Collect]%nat.

Lemma sample_received chain : received (sample_context chain).
Proof.
  assert (H : toBinaryArray ser_Transaction sample_transaction = Ok sample_bytes) by (vm_compute; reflexivity).
  destruct (toBinaryArray_valid _ _ _ _ sample_transaction_valid) as (ba & Hba & E).
  assert (ba = sample_bytes) as -> by congruence. split; [done|]. split; [ground|]. split; [|by simpl].
  apply (fromBinaryArray_iff _ _ fresh_transaction); [done|done|]. split; [apply sample_transaction_valid|done].
Qed.

Lemma sample_no_throw chain : no_throw sample_ops (sample_context chain) (inputs sample_transaction).
Proof.
  intros [|[|i]] input H; [injection H as <-..|done];
    unfold check_input; cbn [checkIfSpent sample_chain obind]; case_if; first [by eexists|vm_compute; by eexists].
Qed.

(** ** Properties *)

(** C1. [ValidateTransaction::validate] implements the specification of an
    acceptable transaction, at heights from 2 on, for transactions below [2^40]
    bytes and where twice the median block size, less the space reserved for the
    miner, is a 64-bit number.  For a transaction read from the wire that spends a
    positive amount it returns, whatever the chain answers, if it does; under every
    interleaving of the signature jobs it accepts exactly the transactions that
    meet all eleven conditions of [accepted]; the result is marked valid and
    without error code exactly then; and an accepted transaction pays the
    difference of its sums as fee and adds its key images to the spent ones. *)
Theorem validate_refines {C} `{!IBlockchainCache C} ops (ctx : context C) spent :
  received ctx -> reserved_ok ctx ->
  (chain_answers ctx -> 0 < total_in (m_transaction ctx) ->
   exists schedule b s', validate ops ctx schedule (initial spent) = Ok (b, s')) /\
  forall schedule b s', validate ops ctx schedule (initial spent) = Ok (b, s') ->
    (b = true <-> accepted ops ctx spent) /\ valid (m_validationResult s') = b /\
    (errorCode (m_validationResult s') = VALIDATION_SUCCESS <-> b = true) /\
    (b = true ->
     result_fee (m_validationResult s') = total_in (m_transaction ctx) - total_out (m_transaction ctx) /\
     spentKeyImages s' = spentKeyImages (after_inputs (inputs (m_transaction ctx)) 0 (initial spent))).
Proof.
  intros Hr Hres. split; [by apply validate_can_return|]. intros schedule b s' H.
  apply (validate_decide ops ctx schedule) in H; [|by apply received_amounts|done|done|done]. destruct b.
  - destruct H as [Hacc ->]. done.
  - destruct H as [Hno [Hcode Hv]]. done.
Qed.

Lemma validate_refines_witness :
  accepted sample_ops (sample_context ∅) ∅ /\ ~ accepted sample_ops (sample_context ∅) {[ zeros 32 ]}.
Proof.
  assert (Hres : reserved_ok (sample_context ∅)) by (unfold reserved_ok; ground). split.
  - destruct (validate_refines sample_ops (sample_context ∅) ∅ (sample_received ∅) Hres) as [_ H].
    eapply (H sample_schedule true); [vm_compute; reflexivity|done].
  - destruct (validate_refines sample_ops (sample_context ∅) {[ zeros 32 ]} (sample_received ∅) Hres) as [_ H].
    intros Hacc. eapply (H [] false) in Hacc; [done|vm_compute; reflexivity].
Defined.

(** C12. The verdict on the ring signatures does not depend on how the worker
    threads and the collecting thread interleave: any two complete runs agree,
    and they agree with the specification that every input is signed and
    unspent.  When the verdict is negative the error reported belongs to an
    input that fails. *)
Theorem signature_jobs_deterministic {C} `{!IBlockchainCache C} ops (ctx : context C) ins s schedule1 schedule2 j1 j2 :
  run ops ctx ins schedule1 (initial_jobs s) = Ok j1 -> collected j1 = length ins ->
  run ops ctx ins schedule2 (initial_jobs s) = Ok j2 -> collected j2 = length ins ->
  all_valid j1 = all_valid j2 /\ (all_valid j1 = true <-> all_signed ops ctx ins) /\
  (all_valid j1 = false -> exists i input code message,
     ins !! i = Some input /\ check_input ops ctx i input = Ok (Some (code, message)) /\
     jobs_state j1 = setTransactionValidationResult code message s).
Proof.
  intros H1 C1 H2 C2. apply run_verdict in H1; [|done]. apply run_verdict in H2; [|done].
  destruct (all_valid j1), (all_valid j2); try tauto.
  - split_and!; [done|tauto|done].
  - destruct H1 as [Hno (i & code & message & (input & Hin & Hc) & Hs)]. split_and!; [done|split; [done|tauto]|].
    intros _. by exists i, input, code, message.
Qed.

Lemma signature_jobs_deterministic_witness : exists j1 j2,
  run sample_ops (sample_context {[ zeros 32 ]}) (inputs sample_transaction)
    [Start 0; Finish 0; Collect; Start 1; Finish 1; Collect]%nat (initial_jobs (initial ∅)) = Ok j1 /\
  run sample_ops (sample_context {[ zeros 32 ]}) (inputs sample_transaction) sample_schedule (initial_jobs (initial ∅)) = Ok j2 /\
  all_valid j1 = false /\ all_valid j1 = all_valid j2.
Proof.
  assert (H1 : exists j, run sample_ops (sample_context {[ zeros 32 ]}) (inputs sample_transaction)
      [Start 0; Finish 0; Collect; Start 1; Finish 1; Collect]%nat (initial_jobs (initial ∅)) = Ok j /\
      collected j = 2%nat /\ all_valid j = false) by (eexists; split; [vm_compute; reflexivity|by split]).
  assert (H2 : exists j, run sample_ops (sample_context {[ zeros 32 ]}) (inputs sample_transaction)
      sample_schedule (initial_jobs (initial ∅)) = Ok j /\ collected j = 2%nat)
    by (eexists; split; [vm_compute; reflexivity|done]).
  destruct H1 as (j1 & H1 & C1 & V1). destruct H2 as (j2 & H2 & C2). exists j1, j2. split; [exact H1|]. split; [exact H2|]. split; [exact V1|].
  exact (proj1 (signature_jobs_deterministic sample_ops (sample_context {[ zeros 32 ]}) _ _ _ _ j1 j2 H1 C1 H2 C2)).
Defined.

(** C25. The parallel check terminates and never gets stuck: if no job throws,
    every run has at most three events per input, and every partial run can be
    continued until all results are collected. *)
Theorem signature_jobs_complete {C} `{!IBlockchainCache C} ops (ctx : context C) ins s schedule j :
  no_throw ops ctx ins -> run ops ctx ins schedule (initial_jobs s) = Ok j ->
  (length schedule <= 3 * length ins)%nat /\
  exists rest j', run ops ctx ins (schedule ++ rest) (initial_jobs s) = Ok j' /\ collected j' = length ins.
Proof.
  intros Hnt H. pose proof H as Hinv. apply (inv_run ops ctx ins s) in Hinv; [|apply inv_initial].
  pose proof (run_steps _ _ _ _ _ _ H) as Hs. pose proof (steps_bound _ _ _ _ _ Hinv) as Hb. split; [lia|].
  destruct (run_completes _ _ _ _ _ j Hinv Hnt (le_n _)) as (rest & j' & Hr & Hc).
  exists rest, j'. rewrite run_app, H. by split.
Qed.

Lemma signature_jobs_complete_witness :
  exists rest j', run sample_ops (sample_context ∅) (inputs sample_transaction)
    ([Start 1; Finish 1]%nat ++ rest) (initial_jobs (initial ∅)) = Ok j' /\ collected j' = 2%nat.
Proof.
  assert (H : exists j, run sample_ops (sample_context ∅) (inputs sample_transaction)
    [Start 1; Finish 1]%nat (initial_jobs (initial ∅)) = Ok j) by (eexists; vm_compute; reflexivity).
  destruct H as [j H]. exact (proj2 (signature_jobs_complete _ _ _ _ _ j (sample_no_throw ∅) H)).
Defined.

End ValidateProofs.
