(* ===== verification/TransactionPool.v ===== *)
(** * The transaction pool

    [src/src/cryptonotecore/TransactionPool.cpp] and the wrapper of
    [TransactionPoolCleaner.cpp] that expires old transactions.  The container
    with three indices is the list of its elements in the order of the cost
    index; the hash index looks elements up by hash, and the payment-id index,
    whose order is not specified, gives a set.  The clock is an argument. *)

From S2P Require Import Prelude.
From S2P Require Import IntUtil.
From S2P Require Import Config.
From S2P Require Import Types.
From S2P Require Import Serialization.
From S2P Require Import TransactionExtra.
From S2P Require Import Block.
From S2P Require Import ValidateTransaction.
Import IntUtil.IntUtil Config.parameters Types.Types Serialization.Serialization.
Import TransactionExtra.TransactionExtra Block.Block ValidateTransaction.ValidateTransaction.

Module TransactionPool.

(** A transaction with the bytes it was read from or written to. *)
Record CachedTransaction := mkCached {
  getTransaction : Transaction;
  binaryArray : list Z
}.

Definition binary_size (t : CachedTransaction) : Z := Z.of_nat (length (binaryArray t)).

Record PendingTransactionInfo := mkPending {
  receiveTime : Z;
  cachedTransaction : CachedTransaction;
  paymentId : option Hash
}.

(** ** Priority *)

(** [std::numeric_limits<double>::max()]. *)
Definition DBL_MAX : Z := 2 ^ 1024 - 2 ^ 971.

(** The quotient of the counts is taken on integers. *)
Definition inputOutputRatio (t : Transaction) : Z :=
  if (length (outputs t) =? 0)%nat then DBL_MAX
  else Z.of_nat (length (inputs t)) / Z.of_nat (length (outputs t)).

Definition TransactionPriorityComparator (lhs rhs : PendingTransactionInfo) : bool :=
  let left := cachedTransaction lhs in
  let right := cachedTransaction rhs in
  let '(lhs_lo, lhs_hi) := mul128 (getTransactionFee (getTransaction left)) (binary_size right) in
  let '(rhs_lo, rhs_hi) := mul128 (getTransactionFee (getTransaction right)) (binary_size left) in
  let rightHandSideMoreProfitable := (rhs_hi <? lhs_hi) || ((lhs_hi =? rhs_hi) && (rhs_lo <? lhs_lo)) in
  let leftHandSideMoreProfitable := (lhs_hi <? rhs_hi) || ((lhs_hi =? rhs_hi) && (lhs_lo <? rhs_lo)) in
  if rightHandSideMoreProfitable then true
  else if leftHandSideMoreProfitable then false
  else
    let leftAmount := getTransactionAmount (getTransaction left) in
    let rightAmount := getTransactionAmount (getTransaction right) in
    if rightAmount <? leftAmount then true
    else if leftAmount <? rightAmount then false
    else
      let leftInputOutputRatio := inputOutputRatio (getTransaction left) in
      let rightInputOutputRatio := inputOutputRatio (getTransaction right) in
      if rightInputOutputRatio <? leftInputOutputRatio then true
      else if leftInputOutputRatio <? rightInputOutputRatio then false
      else if binary_size left <? binary_size right then true
      else if binary_size right <? binary_size left then false
      else if receiveTime lhs <? receiveTime rhs then true
      else if receiveTime rhs <? receiveTime lhs then false
      else true.

(** The ordered index puts an element before the first one it is preferred to. *)
Fixpoint cost_insert (p : PendingTransactionInfo) (l : list PendingTransactionInfo) : list PendingTransactionInfo :=
  match l with
  | [] => [p]
  | q :: l' => if TransactionPriorityComparator p q then p :: l else q :: cost_insert p l'
  end.

(** ** The pool *)

Record TransactionPool := mkPool {
  transactions : list PendingTransactionInfo;
  poolState : gset KeyImage
}.

Definition empty_pool : TransactionPool := mkPool [] ∅.

Section Pool.
Context (cn_fast_hash : list Z -> Hash).

Definition hash_of (t : CachedTransaction) : Hash := getBinaryArrayHash cn_fast_hash (binaryArray t).

Definition pending_hash (p : PendingTransactionInfo) : Hash := hash_of (cachedTransaction p).

(** [transactionHashIndex.find]. *)
Definition find_hash (hash : Hash) (pool : TransactionPool) : option PendingTransactionInfo :=
  find (fun p => bool_decide (pending_hash p = hash)) (transactions pool).

Definition checkIfTransactionPresent (hash : Hash) (pool : TransactionPool) : bool :=
  match find_hash hash pool with
  | Some _ => true
  | None => false
  end.

Definition pushTransaction (now : Z) (transaction : CachedTransaction) (transactionState : gset KeyImage)
    (pool : TransactionPool) : bool * TransactionPool :=
  let pendingTx := mkPending (u64 now) transaction (getPaymentIdFromTxExtra (extra (getTransaction transaction))) in
  if checkIfTransactionPresent (pending_hash pendingTx) pool then (false, pool)
  else if hasIntersections (poolState pool) transactionState then (false, pool)
  else (true, mkPool (cost_insert pendingTx (transactions pool)) (mergeStates (poolState pool) transactionState)).

Definition tryGetTransaction (hash : Hash) (pool : TransactionPool) : option CachedTransaction :=
  cachedTransaction <$> find_hash hash pool.

Definition pool_getTransaction (hash : Hash) (pool : TransactionPool) : outcome CachedTransaction :=
  match find_hash hash pool with
  | Some p => Ok (cachedTransaction p)
  | None => Err (AssertFailed "it != transactionHashIndex.end()")
  end.

(** [transactionHashIndex.erase(it)]. *)
Fixpoint erase_hash (hash : Hash) (l : list PendingTransactionInfo) : list PendingTransactionInfo :=
  match l with
  | [] => []
  | p :: l => if bool_decide (pending_hash p = hash) then l else p :: erase_hash hash l
  end.

Definition removeTransaction (hash : Hash) (pool : TransactionPool) : outcome (bool * TransactionPool) :=
  match find_hash hash pool with
  | None => Ok (false, pool)
  | Some p =>
    let! poolState := excludeFromState (poolState pool) (inputs (getTransaction (cachedTransaction p))) in
    Ok (true, mkPool (erase_hash hash (transactions pool)) poolState)
  end.

Definition fee_of (p : PendingTransactionInfo) : Z := getTransactionFee (getTransaction (cachedTransaction p)).

Definition getFusionTransactionCount (pool : TransactionPool) : Z :=
  Z.of_nat (length (filter (fun p => fee_of p = 0) (transactions pool))).

Definition getTransactionCount (pool : TransactionPool) : Z := Z.of_nat (length (transactions pool)).

Definition getTransactionHashes (pool : TransactionPool) : list Hash := map pending_hash (transactions pool).

Definition getPoolTransactions (pool : TransactionPool) : list CachedTransaction :=
  map cachedTransaction (transactions pool).

Definition getPoolTransactionsForBlockTemplate (pool : TransactionPool)
  : list CachedTransaction * list CachedTransaction :=
  (map cachedTransaction (filter (fun p => fee_of p <> 0) (transactions pool)),
   map cachedTransaction (filter (fun p => fee_of p = 0) (transactions pool))).

Definition getTransactionReceiveTime (hash : Hash) (pool : TransactionPool) : outcome Z :=
  match find_hash hash pool with
  | Some p => Ok (receiveTime p)
  | None => Err (AssertFailed "it != transactionHashIndex.end()")
  end.

Definition getTransactionHashesByPaymentId (id : Hash) (pool : TransactionPool) : gset Hash :=
  list_to_set (map pending_hash (filter (fun p => paymentId p = Some id) (transactions pool))).

Fixpoint remove_all (hashes : list Hash) (pool : TransactionPool) : outcome TransactionPool :=
  match hashes with
  | [] => Ok pool
  | hash :: hashes =>
    let! (_, pool) := removeTransaction hash pool in
    remove_all hashes pool
  end.

Definition flush (pool : TransactionPool) : outcome TransactionPool :=
  remove_all (getTransactionHashes pool) pool.

(** ** The wrapper that forgets old transactions *)

Record TransactionPoolCleanWrapper := mkWrapper {
  transactionPool : TransactionPool;
  recentlyDeletedTransactions : gmap Hash Z;
  timeout : Z
}.

Definition set_pool (pool : TransactionPool) (w : TransactionPoolCleanWrapper) : TransactionPoolCleanWrapper :=
  mkWrapper pool (recentlyDeletedTransactions w) (timeout w).

Definition isTransactionRecentlyDeleted (hash : Hash) (w : TransactionPoolCleanWrapper) : bool :=
  match recentlyDeletedTransactions w !! hash with
  | Some time => timeout w <=? time
  | None => false
  end.

Definition wrapper_pushTransaction (now : Z) (tx : CachedTransaction) (transactionState : gset KeyImage)
    (w : TransactionPoolCleanWrapper) : bool * TransactionPoolCleanWrapper :=
  if isTransactionRecentlyDeleted (hash_of tx) w then (false, w)
  else
    let '(ok, pool) := pushTransaction now tx transactionState (transactionPool w) in
    (ok, set_pool pool w).

(** [recentlyDeletedTransactions.emplace] and [removeTransaction]; [emplace] keeps
    an entry that is there. *)
Definition delete_transaction (hash : Hash) (currentTime : Z) (w : TransactionPoolCleanWrapper)
  : outcome TransactionPoolCleanWrapper :=
  let deleted :=
    match recentlyDeletedTransactions w !! hash with
    | Some _ => recentlyDeletedTransactions w
    | None => <[hash := currentTime]> (recentlyDeletedTransactions w)
    end in
  let! (_, pool) := removeTransaction hash (transactionPool w) in
  Ok (mkWrapper pool deleted (timeout w)).

Fixpoint clean_loop (hashes : list Hash) (currentTime height : Z) (deletedTransactions : list Hash)
    (w : TransactionPoolCleanWrapper) : outcome (list Hash * TransactionPoolCleanWrapper) :=
  match hashes with
  | [] => Ok (deletedTransactions, w)
  | hash :: hashes =>
    let! received := getTransactionReceiveTime hash (transactionPool w) in
    let transactionAge := u64 (currentTime - received) in
    let! (deletedTransactions, w) :=
      if timeout w <=? transactionAge
      then let! w := delete_transaction hash currentTime w in Ok (deletedTransactions ++ [hash], w)
      else Ok (deletedTransactions, w) in
    let! transaction := pool_getTransaction hash (transactionPool w) in
    let! (deletedTransactions, w) :=
      match Mixins_validate cn_fast_hash (getTransaction transaction) (binaryArray transaction) height with
      | Some _ => let! w := delete_transaction hash currentTime w in Ok (deletedTransactions ++ [hash], w)
      | None => Ok (deletedTransactions, w)
      end in
    clean_loop hashes currentTime height deletedTransactions w
  end.

Definition cleanRecentlyDeletedTransactions (currentTime : Z) (w : TransactionPoolCleanWrapper)
  : TransactionPoolCleanWrapper :=
  mkWrapper (transactionPool w)
    (filter (fun entry => u64 (currentTime - entry.2) < timeout w) (recentlyDeletedTransactions w)) (timeout w).

Definition clean (currentTime height : Z) (w : TransactionPoolCleanWrapper)
  : outcome (list Hash * TransactionPoolCleanWrapper) :=
  let! (deletedTransactions, w) :=
    clean_loop (getTransactionHashes (transactionPool w)) currentTime height [] w in
  Ok (deletedTransactions, cleanRecentlyDeletedTransactions currentTime w).

End Pool.

End TransactionPool.
