(* ===== verification/CorePool.v ===== *)
(** * The node's use of its transaction pool

    The methods of [src/src/cryptonotecore/Core.cpp] that fill and prune the pool
    and that select transactions for a block template.  What they read of the
    rest of the node is the record [node]; messages to observers and log lines
    are left out. *)

From S2P Require Import Prelude.
From S2P Require Import Config.
From S2P Require Import Types.
From S2P Require Import Serialization.
From S2P Require Import Block.
From S2P Require Import Currency.
From S2P Require Import Checkpoints.
From S2P Require Import ValidateTransaction.
From S2P Require Import TransactionPool.
Import Config.parameters Types.Types Serialization.Serialization Block.Block Currency.Currency Checkpoints.Checkpoints.
Import ValidateTransaction.ValidateTransaction TransactionPool.TransactionPool.

Module CorePool.

Section Core.
Context {C : Type} `{!IBlockchainCache C}.

(** [main_chain] is [chainsLeaves[0]], [last_timestamp] its
    [getLastTimestamps(1)[0]], which is out of range while there is only the genesis
    block, [isTransactionInChain] the search of the chains. *)
Record node := mkNode {
  node_ops : crypto_ops;
  node_currency : Currency;
  node_checkpoints : Checkpoints;
  main_chain : C;
  getTopBlockIndex : Z;
  blockMedianSize : Z;
  last_timestamp : outcome Z;
  isTransactionInChain : Hash -> outcome bool
}.

Context (n : node).
Local Abbreviation cn_fast_hash := (fast_hash (node_ops n)).

(** ** Adding a transaction *)

(** The error texts of the methods; [ErrCode] is the text of a validation error. *)
Inductive pool_error := ErrText (text : string) | ErrCode (code : TransactionValidationError).

(** The result and the validator state that the validation leaves. *)
Definition validateTransaction (schedule : list event) (t : CachedTransaction) (validatorState : gset KeyImage)
    (blockIndex blockTimestamp : Z) (isPoolTransaction : bool)
  : outcome (TransactionValidationResult * gset KeyImage) :=
  let ctx := mkContext (getTransaction t) (binaryArray t) (node_currency n) (node_checkpoints n) (main_chain n)
               blockIndex (blockMedianSize n) blockTimestamp isPoolTransaction in
  let! (_, s) := validate (node_ops n) ctx schedule (initial validatorState) in
  Ok (m_validationResult s, spentKeyImages s).

(** The last two arguments of the validation are in the order of the call. *)
Definition isTransactionValidForPool (schedule : list event) (t : CachedTransaction) (validatorState : gset KeyImage)
    (w : TransactionPoolCleanWrapper) : outcome (option pool_error * gset KeyImage) :=
  if (getTransactionFee (getTransaction t) =? 0) &&
     (FUSION_TX_MAX_POOL_COUNT <=? getFusionTransactionCount (transactionPool w))
  then Ok (Some (ErrText "Pool already contains the maximum amount of fusion transactions"), validatorState)
  else
    let! lastTimestamp := last_timestamp n in
    let! (r, validatorState) :=
      validateTransaction schedule t validatorState (getTopBlockIndex n) 1 (negb (lastTimestamp =? 0)) in
    if bool_decide (errorCode r = VALIDATION_SUCCESS) then Ok (None, validatorState)
    else Ok (Some (ErrCode (errorCode r)), validatorState).

Definition addTransactionToPool_cached (schedule : list event) (now : Z) (t : CachedTransaction)
    (w : TransactionPoolCleanWrapper) : outcome (option pool_error * TransactionPoolCleanWrapper) :=
  if checkIfTransactionPresent cn_fast_hash (hash_of cn_fast_hash t) (transactionPool w)
  then Ok (Some (ErrText "Transaction already exists in pool"), w)
  else
    let! (err, validatorState) := isTransactionValidForPool schedule t ∅ w in
    match err with
    | Some _ => Ok (err, w)
    | None =>
      let '(ok, w) := wrapper_pushTransaction cn_fast_hash now t validatorState w in
      if ok : bool then Ok (None, w) else Ok (Some (ErrText "Transaction already exists in pool"), w)
    end.

Definition addTransactionToPool (schedule : list event) (now : Z) (transactionBinaryArray : list Z)
    (w : TransactionPoolCleanWrapper) : outcome (option pool_error * TransactionPoolCleanWrapper) :=
  match fromBinaryArray_opt ser_Transaction default_transaction transactionBinaryArray with
  | None => Ok (Some (ErrText "Could not deserialize transaction"), w)
  | Some transaction =>
    let! ba := getTransactionBinaryArray transaction in
    addTransactionToPool_cached schedule now (mkCached transaction ba) w
  end.

(** ** Pruning after a block *)

Fixpoint extractSpentOutputs (ins : list TransactionInput) (spent : gset KeyImage) : outcome (gset KeyImage) :=
  match ins with
  | [] => Ok spent
  | InKey i :: ins =>
    let! _ := assert_that (bool_decide (keyImage i ∉ spent)) "r" in
    extractSpentOutputs ins ({[ keyImage i ]} ∪ spent)
  | InBase _ :: _ => Err (AssertFailed "false")
  end.

Definition getMaximumTransactionAllowedSize (blockSizeMedian : Z) : outcome Z :=
  let! _ := assert_that (m_minerTxBlobReservedSize (node_currency n) <? u64 (blockSizeMedian * 2))
              "blockSizeMedian * 2 > currency.minerTxBlobReservedSize()" in
  Ok (u64 (blockSizeMedian * 2 - m_minerTxBlobReservedSize (node_currency n))).

Fixpoint prune_loop (poolHashes : list Hash) (maxTransactionSize : Z) (blockTransactionsState : gset KeyImage)
    (pool : TransactionPool) : outcome TransactionPool :=
  match poolHashes with
  | [] => Ok pool
  | poolTxHash :: poolHashes =>
    match tryGetTransaction cn_fast_hash poolTxHash pool with
    | None => prune_loop poolHashes maxTransactionSize blockTransactionsState pool
    | Some poolTx =>
      let! poolTxState := extractSpentOutputs (inputs (getTransaction poolTx)) ∅ in
      let! inChain := isTransactionInChain n poolTxHash in
      let isValid :=
        if inChain : bool then false
        else
          match Mixins_validate cn_fast_hash (getTransaction poolTx) (binaryArray poolTx) (getTopBlockIndex n) with
          | Some _ => false
          | None =>
            if maxTransactionSize <? binary_size poolTx then false
            else negb (hasIntersections blockTransactionsState poolTxState)
          end in
      if isValid then prune_loop poolHashes maxTransactionSize blockTransactionsState pool
      else
        let! (_, pool) := removeTransaction cn_fast_hash poolTxHash pool in
        prune_loop poolHashes maxTransactionSize blockTransactionsState pool
    end
  end.

Definition checkAndRemoveInvalidPoolTransactions (blockTransactionsState : gset KeyImage)
    (w : TransactionPoolCleanWrapper) : outcome TransactionPoolCleanWrapper :=
  let! maxTransactionSize := getMaximumTransactionAllowedSize (blockMedianSize n) in
  let! pool := prune_loop (getTransactionHashes cn_fast_hash (transactionPool w)) maxTransactionSize
                 blockTransactionsState (transactionPool w) in
  Ok (set_pool pool w).

(** ** Block templates *)

(** The checker keeps what it inserted before it met a spent key image. *)
Fixpoint haveSpentInputs (ins : list TransactionInput) (alreadySpentKeyImages : gset KeyImage)
  : bool * gset KeyImage :=
  match ins with
  | [] => (false, alreadySpentKeyImages)
  | InKey i :: ins =>
    if bool_decide (keyImage i ∈ alreadySpentKeyImages) then (true, alreadySpentKeyImages)
    else haveSpentInputs ins ({[ keyImage i ]} ∪ alreadySpentKeyImages)
  | InBase _ :: ins => haveSpentInputs ins alreadySpentKeyImages
  end.

(** The chain is not looked at, the source passes a null pointer. *)
Definition validateBlockTemplateTransaction (t : CachedTransaction) (blockHeight : Z) : outcome bool :=
  let! lastTimestamp := last_timestamp n in
  let ctx := mkContext (C := unit) (getTransaction t) (binaryArray t) (node_currency n) (node_checkpoints n) tt
               blockHeight (blockMedianSize n) lastTimestamp true in
  let! (_, s) := revalidateAfterHeightChange (node_ops n) ctx (initial ∅) in
  Ok (valid (m_validationResult s)).

Record template := mkTemplate {
  transactionHashes : list Hash;
  transactionsSize : Z;
  template_fee : Z;
  alreadySpent : gset KeyImage;
  template_pool : TransactionPool
}.

Definition addTransactionToBlockTemplate (maxTotalSize height : Z) (transaction : CachedTransaction) (t : template)
  : outcome template :=
  if maxTotalSize <? u64 (transactionsSize t + binary_size transaction) then Ok t
  else
    let! ok := validateBlockTemplateTransaction transaction height in
    if negb ok then
      let! (_, pool) := removeTransaction cn_fast_hash (hash_of cn_fast_hash transaction) (template_pool t) in
      Ok (mkTemplate (transactionHashes t) (transactionsSize t) (template_fee t) (alreadySpent t) pool)
    else
      let '(spent, images) := haveSpentInputs (inputs (getTransaction transaction)) (alreadySpent t) in
      if spent then
        Ok (mkTemplate (transactionHashes t) (transactionsSize t) (template_fee t) images (template_pool t))
      else
        Ok (mkTemplate (transactionHashes t ++ [hash_of cn_fast_hash transaction])
              (u64 (transactionsSize t + binary_size transaction))
              (u64 (template_fee t + getTransactionFee (getTransaction transaction))) images (template_pool t)).

Fixpoint fill_loop (maxTotalSize height : Z) (l : list CachedTransaction) (t : template) : outcome template :=
  match l with
  | [] => Ok t
  | transaction :: l =>
    let! t := addTransactionToBlockTemplate maxTotalSize height transaction t in
    fill_loop maxTotalSize height l t
  end.

(** The hashes are appended to those of the block. *)
Definition fillBlockTemplate (hashes : list Hash) (medianSize maxCumulativeSize height : Z)
    (pool : TransactionPool) : outcome template :=
  let maxTotalSize := u64 (125 * medianSize) / 100 in
  let maxTotalSize := u64 (Z.min maxTotalSize maxCumulativeSize - m_minerTxBlobReservedSize (node_currency n)) in
  let '(regularTransactions, fusionTransactions) := getPoolTransactionsForBlockTemplate pool in
  let! t := fill_loop maxTotalSize height regularTransactions (mkTemplate hashes 0 0 ∅ pool) in
  fill_loop maxTotalSize height fusionTransactions t.

End Core.

Arguments node C : clear implicits.

End CorePool.
