(* ===== verification/PoolProofs.v ===== *)
(** * The transaction pool is consistent

    The priority comparator is a total preorder, so the cost index is sorted; the
    operations of the pool keep its hashes and key images distinct and its
    validator state equal to the key images of its transactions; the node's
    methods keep all of this and the limit on fusion transactions, and block
    templates built from such a pool are free of double spends. *)

From S2P Require Import Prelude.
From S2P Require Import IntUtil.
From S2P Require Import Config.
From S2P Require Import Types.
From S2P Require Import FormatUtils.
From S2P Require Import Serialization.
From S2P Require Import SerializationProofs.
From S2P Require Import Block.
From S2P Require Import Currency.
From S2P Require Import ValidateTransaction.
From S2P Require Import ValidateProofs.
From S2P Require Import TransactionPool.
From S2P Require Import CorePool.
From Stdlib Require Import Sorting.Sorted.
Import IntUtil.IntUtil Config.parameters Types.Types FormatUtils.FormatUtils Serialization.Serialization Block.Block.
Import Currency.Currency ValidateTransaction.ValidateTransaction ValidateProofs.ValidateProofs.
Import TransactionPool.TransactionPool CorePool.CorePool.

Module PoolProofs.

(** ** Lexicographic orders *)

(** A three-way comparison that ranks the elements of [D]; [Gt] is preferred. *)
Record ranking {A} (D : A -> Prop) (c : A -> A -> comparison) : Prop := mkRanking {
  ranking_opp : forall x y, D x -> D y -> c y x = CompOpp (c x y);
  ranking_trans : forall x y z, D x -> D y -> D z -> c x y <> Lt -> c y z <> Lt -> c x z <> Lt
}.

Record preorder {A} (D : A -> Prop) (r : A -> A -> bool) : Prop := mkPreorder {
  preorder_total : forall x y, D x -> D y -> r x y = false -> r y x = true;
  preorder_trans : forall x y z, D x -> D y -> D z -> r x y = true -> r y z = true -> r x z = true
}.

Definition lex {A} (c : A -> A -> comparison) (r : A -> A -> bool) (x y : A) : bool :=
  match c x y with
  | Gt => true
  | Lt => false
  | Eq => r x y
  end.

Lemma lex_preorder {A} D c (r : A -> A -> bool) : ranking D c -> preorder D r -> preorder D (lex c r).
Proof.
  intros [Hopp Htr] [Htot Hr]. split.
  - intros x y Hx Hy. unfold lex. rewrite (Hopp x y Hx Hy). destruct (c x y); simpl; [by apply Htot|done|done].
  - intros x y z Hx Hy Hz. unfold lex. pose proof (Htr x y z Hx Hy Hz) as Hxyz.
    pose proof (Htr z x y Hz Hx Hy) as Hzxy. pose proof (Htr y z x Hy Hz Hx) as Hyzx.
    rewrite (Hopp x z Hx Hz), (Hopp y z Hy Hz) in Hzxy. rewrite (Hopp x z Hx Hz), (Hopp x y Hx Hy) in Hyzx.
    specialize (Hr x y z Hx Hy Hz). clear Hopp Htr Htot. intros H1 H2.
    destruct (c x y), (c y z), (c x z); cbn [CompOpp] in *; try done; try (by apply Hr);
      exfalso; first [by apply Hxyz|by apply Hzxy|by apply Hyzx].
Qed.

Lemma ranking_by {A} (D : A -> Prop) (f : A -> Z) : ranking D (fun x y => f x ?= f y).
Proof.
  split; intros.
  - by rewrite Z.compare_antisym.
  - rewrite Z.compare_lt_iff in *. lia.
Qed.

Lemma ranking_rev {A} (D : A -> Prop) c : ranking D c -> ranking D (fun x y : A => c y x).
Proof. intros [Hopp Htr]. split; [eauto|]. intros x y z Hx Hy Hz Hxy Hyz. by apply (Htr z y x). Qed.

(** ** The priority of a transaction *)

Local Abbreviation size_of p := (binary_size (cachedTransaction p)).
Local Abbreviation tx_of p := (getTransaction (cachedTransaction p)).

(** What the comparison of the products needs. *)
Definition measurable (p : PendingTransactionInfo) : Prop := 0 < size_of p < 2 ^ 64.

Lemma fee_loop_fits ins : forall a b, fits 64 (fee_loop ins a b).
Proof.
  induction ins as [|[i|i] ins IH]; intros a b; cbn [fee_loop]; [apply wrap_fits; lia|unfold fits; lia|apply IH].
Qed.

Lemma fee_fits p : fits 64 (fee_of p).
Proof. apply fee_loop_fits. Qed.

Definition profit (p q : PendingTransactionInfo) : comparison := fee_of p * size_of q ?= fee_of q * size_of p.

Lemma profit_ranking : ranking measurable profit.
Proof.
  split; unfold profit.
  - intros x y _ _. by rewrite Z.compare_antisym.
  - intros x y z Hx Hy Hz. rewrite !Z.compare_lt_iff, !Z.nlt_ge. intros H1 H2. unfold measurable in *.
    assert (fee_of z * size_of x * size_of y <= fee_of x * size_of z * size_of y) by nia. nia.
Qed.

(** The order the pool uses: fee per byte, amount, ratio of inputs to outputs,
    then the smaller and the older transaction. *)
Definition priority : PendingTransactionInfo -> PendingTransactionInfo -> bool :=
  lex profit (lex (fun p q => getTransactionAmount (tx_of p) ?= getTransactionAmount (tx_of q))
    (lex (fun p q => inputOutputRatio (tx_of p) ?= inputOutputRatio (tx_of q))
      (lex (fun p q => size_of q ?= size_of p)
        (lex (fun p q => receiveTime q ?= receiveTime p) (fun _ _ => true))))).

Lemma priority_preorder : preorder measurable priority.
Proof.
  repeat (apply lex_preorder; [first [apply profit_ranking|apply ranking_by|
    apply (ranking_rev _ (fun p q : PendingTransactionInfo => size_of p ?= size_of q)), ranking_by|
    apply (ranking_rev _ (fun p q => receiveTime p ?= receiveTime q)), ranking_by]|]).
  by split.
Qed.

Lemma if_compare {A} x y (a b c : A) :
  (if y <? x then a else if x <? y then b else c) = match x ?= y with Gt => a | Lt => b | Eq => c end.
Proof. destruct (Z.compare_spec x y); repeat case_if; (done || lia). Qed.

Lemma two_words_compare a b c d : fits 64 a -> fits 64 b -> fits 64 c -> fits 64 d ->
  ((c <? a) || ((a =? c) && (d <? b)) = true <-> c * 2 ^ 64 + d < a * 2 ^ 64 + b).
Proof.
  unfold fits. intros. rewrite orb_true_iff, andb_true_iff, !Z.ltb_lt, Z.eqb_eq. lia.
Qed.

Lemma comparator_priority p q : measurable p -> measurable q -> TransactionPriorityComparator p q = priority p q.
Proof.
  intros [Hp1 Hp2] [Hq1 Hq2]. unfold TransactionPriorityComparator, priority.
  destruct (mul128_eq (fee_of p) (size_of q) (fee_fits p)) as (l1 & h1 & E1 & V1 & F1 & G1); [unfold fits; lia|].
  destruct (mul128_eq (fee_of q) (size_of p) (fee_fits q)) as (l2 & h2 & E2 & V2 & F2 & G2); [unfold fits; lia|].
  unfold fee_of in E1, E2. rewrite E1, E2.
  pose proof (two_words_compare h1 l1 h2 l2 G1 F1 G2 F2) as Hgt. pose proof (two_words_compare h2 l2 h1 l1 G2 F2 G1 F1) as Hlt.
  rewrite (Z.eqb_sym h2 h1) in Hlt. rewrite V1, V2 in Hgt. rewrite V1, V2 in Hlt.
  unfold lex at 1, profit. destruct (Z.compare_spec (fee_of p * size_of q) (fee_of q * size_of p)) as [E|E|E].
  - destruct (_ || _) in Hgt |- *; [lia|]. destruct (_ || _) in Hlt |- *; [lia|]. rewrite !if_compare. done.
  - destruct (_ || _) in Hgt |- *; [lia|]. by rewrite (proj2 Hlt).
  - by rewrite (proj2 Hgt).
Qed.

(** ** The cost index *)

Definition sorted (l : list PendingTransactionInfo) : Prop := StronglySorted (fun p q => priority p q = true) l.

Lemma cost_insert_perm p l : cost_insert p l ≡ₚ p :: l.
Proof.
  induction l as [|q l IH]; cbn [cost_insert]; [done|]. destruct (TransactionPriorityComparator p q); [done|].
  rewrite IH. apply Permutation_swap.
Qed.

Lemma cost_insert_sorted p l :
  measurable p -> Forall measurable l -> sorted l -> sorted (cost_insert p l).
Proof.
  intros Hp. induction l as [|q l IH]; intros Hl Hs; cbn [cost_insert]; [by repeat constructor|].
  apply Forall_cons in Hl as [Hq Hl]. apply StronglySorted_inv in Hs as [Hs Hqs].
  destruct priority_preorder as [Htot Htr]. rewrite comparator_priority by done. destruct (priority p q) eqn:E.
  - constructor; [by constructor|]. constructor; [done|]. rewrite Forall_forall in Hqs, Hl |- *. intros x Hx.
    apply (Htr p q x); auto.
  - constructor; [by apply IH|]. rewrite cost_insert_perm. constructor; [by apply Htot|done].
Qed.

Lemma sorted_app_remove l1 p l2 : sorted (l1 ++ p :: l2) -> sorted (l1 ++ l2).
Proof.
  unfold sorted. induction l1 as [|q l1 IH]; cbn [app]; intros H; apply StronglySorted_inv in H as [H Hq]; [done|].
  constructor; [by apply IH|]. rewrite Forall_app, Forall_cons in Hq. rewrite Forall_app. tauto.
Qed.

Lemma filter_other {A} `{EqDecision A} (h : A) (l : list A) : h ∉ l -> filter (fun x => x <> h) l = l.
Proof.
  induction l as [|x l IH]; intros H; [done|]. apply not_elem_of_cons in H as [Hx Hl].
  rewrite filter_cons_True by done. by rewrite IH.
Qed.

(** ** Key images *)

Definition key_inputs (ins : list TransactionInput) : Prop := Forall (fun i => is_base i = false) ins.

Lemma excludeFromState_ok ins : forall spent, key_inputs ins -> NoDup (key_images ins) ->
  list_to_set (key_images ins) ⊆ spent ->
  excludeFromState spent ins = Ok (spent ∖ list_to_set (key_images ins)).
Proof.
  unfold key_images. induction ins as [|[i|i] ins IH]; intros spent Hk Hnd Hsub; cbn [excludeFromState omap list_omap] in *.
  - cbn [list_to_set]. by rewrite difference_empty_L.
  - by apply Forall_cons in Hk as [? _].
  - apply Forall_cons in Hk as [_ Hk]. apply NoDup_cons in Hnd as [Hni Hnd]. cbn [list_to_set] in *.
    rewrite bool_decide_true by set_solver. cbn [assert_that obind].
    rewrite IH; [f_equal; by rewrite difference_difference_l_L|done|done|]. apply (not_elem_of_list_to_set (C := gset KeyImage)) in Hni.
    set_solver.
Qed.

Lemma hasIntersections_false s1 s2 : hasIntersections s1 s2 = false <-> s1 ## s2.
Proof.
  unfold hasIntersections. rewrite <- not_true_iff_false, existsb_exists. split.
  - intros H x H1 H2. apply H. exists x. rewrite bool_decide_true by done. split; [|done].
    by apply list_elem_of_In, elem_of_elements.
  - intros H (x & H1%list_elem_of_In%elem_of_elements & H2%bool_decide_eq_true). by apply (H x).
Qed.

(** ** Consistency of the pool *)

Section Pool.
Context (cn_fast_hash : list Z -> Hash).
Local Abbreviation hash p := (pending_hash cn_fast_hash p).
Local Abbreviation images p := (key_images (inputs (tx_of p))).

(** Of one transaction in the pool. *)
Record pending_ok (t : CachedTransaction) : Prop := mkPendingOk {
  pending_size : 0 < binary_size t < 2 ^ 40;
  pending_keys : key_inputs (inputs (getTransaction t));
  pending_images : NoDup (key_images (inputs (getTransaction t)));
  pending_bytes : bytes_ok (binaryArray t);
  pending_read : fromBinaryArray ser_Transaction default_transaction (binaryArray t) = Ok (getTransaction t);
  pending_positive : 0 < total_in (getTransaction t)
}.

Record consistent (pool : TransactionPool) : Prop := mkConsistent {
  consistent_ok : Forall (fun p => pending_ok (cachedTransaction p)) (transactions pool);
  consistent_hashes : NoDup (getTransactionHashes cn_fast_hash pool);
  consistent_images : NoDup (flat_map (fun p => images p) (transactions pool));
  consistent_state : poolState pool = list_to_set (flat_map (fun p => images p) (transactions pool));
  consistent_sorted : sorted (transactions pool)
}.

Lemma consistent_empty : consistent empty_pool.
Proof. split; by repeat constructor. Qed.

Lemma find_hash_Some h pool p :
  find_hash cn_fast_hash h pool = Some p -> hash p = h /\ exists l1 l2,
    transactions pool = l1 ++ p :: l2 /\ erase_hash cn_fast_hash h (transactions pool) = l1 ++ l2.
Proof.
  unfold find_hash. induction (transactions pool) as [|q l IH]; [done|]. cbn [find erase_hash].
  case_bool_decide as Hq.
  - intros [= <-]. split; [done|]. by exists [], l.
  - intros (Hh & l1 & l2 & -> & E)%IH. split; [done|]. exists (q :: l1), l2. split; [done|]. cbn. by rewrite <- E.
Qed.

Lemma find_hash_None h pool :
  find_hash cn_fast_hash h pool = None <-> h ∉ getTransactionHashes cn_fast_hash pool.
Proof.
  unfold find_hash, getTransactionHashes. induction (transactions pool) as [|q l IH]; cbn [find map].
  - split; [intros _; apply not_elem_of_nil|done].
  - rewrite not_elem_of_cons. case_bool_decide; [naive_solver|]. rewrite IH. naive_solver.
Qed.

Lemma push_consistent now t spent pool :
  consistent pool -> spent = list_to_set (key_images (inputs (getTransaction t))) -> pending_ok t ->
  consistent (pushTransaction cn_fast_hash now t spent pool).2.
Proof.
  intros Hc -> Ht. unfold pushTransaction, checkIfTransactionPresent.
  destruct (find_hash _ _ _) eqn:Ef; [done|]. destruct (hasIntersections _ _) eqn:Ei; [done|].
  apply find_hash_None in Ef. apply hasIntersections_false in Ei. destruct Hc as [Hok Hh Hi Hst Hso]. rewrite Hst in Ei.
  assert (Hms : Forall measurable (transactions pool)) by (eapply Forall_impl; [exact Hok|intros p [? _ _ _ _ _]; unfold measurable; lia]).
  split; cbn [snd transactions poolState]; unfold getTransactionHashes.
  - rewrite cost_insert_perm. by constructor.
  - cbn [transactions]. rewrite cost_insert_perm. cbn [map]. by apply NoDup_cons.
  - rewrite cost_insert_perm. cbn [flat_map]. apply NoDup_app. split_and!; [apply Ht| |done].
    intros x Hx Hx'. apply (Ei x); by apply elem_of_list_to_set.
  - rewrite cost_insert_perm. cbn [flat_map cachedTransaction]. rewrite list_to_set_app_L, Hst.
    apply (comm_L (∪)).
  - apply cost_insert_sorted; [|done|done]. destruct Ht as [? _ _ _ _ _]. unfold measurable. cbn [cachedTransaction]. lia.
Qed.

(** Removing a transaction never fails, and removes exactly it. *)
Lemma remove_consistent h pool : consistent pool ->
  exists b pool', removeTransaction cn_fast_hash h pool = Ok (b, pool') /\ consistent pool' /\
    getTransactionHashes cn_fast_hash pool' = filter (fun x => x <> h) (getTransactionHashes cn_fast_hash pool) /\
    transactions pool' ⊆+ transactions pool.
Proof.
  intros Hc. unfold removeTransaction. destruct (find_hash cn_fast_hash h pool) as [p|] eqn:Ef.
  - apply find_hash_Some in Ef as (Hh & l1 & l2 & El & Ee). destruct Hc as [Hok Hnd Hi Hst Hso].
    unfold getTransactionHashes in Hnd. rewrite El in Hok, Hnd, Hi, Hst, Hso. rewrite <- Permutation_middle in Hok, Hi, Hst.
    apply Forall_cons in Hok as [[_ Hk _ _ _ _] Hok]. cbn [flat_map] in Hi, Hst. apply NoDup_app in Hi as (Hi1 & Hi12 & Hi2).
    rewrite list_to_set_app_L in Hst.
    rewrite excludeFromState_ok; [|done|done|rewrite Hst; set_solver]. cbn [obind]. eexists _, _. split; [done|].
    rewrite map_app in Hnd. cbn [map] in Hnd. rewrite <- Permutation_middle in Hnd. apply NoDup_cons in Hnd as [Hni Hnd].
    rewrite Ee. split_and!; cbn [transactions poolState].
    + split; cbn [transactions poolState]; [done|unfold getTransactionHashes; cbn [transactions]; by rewrite map_app|done| |by eapply sorted_app_remove].
      rewrite Hst, difference_union_distr_l_L, difference_diag_L, (left_id_L ∅ (∪)).
      apply difference_disjoint_L. intros x H2 H1. rewrite elem_of_list_to_set in H1, H2. by apply (Hi12 x).
    + unfold getTransactionHashes. cbn [transactions]. rewrite El, !map_app, filter_app. cbn [map].
      rewrite filter_cons_False by (intros H; by apply H). rewrite not_elem_of_app in Hni.
      subst h. by rewrite !filter_other by tauto.
    + rewrite El. apply submseteq_app; [done|by apply submseteq_cons].
  - exists false, pool. apply find_hash_None in Ef. split_and!; [done|done| |done].
    by rewrite filter_other.
Qed.

Lemma remove_all_consistent hashes : forall pool, consistent pool ->
  exists pool', remove_all cn_fast_hash hashes pool = Ok pool' /\ consistent pool' /\
    forall x, x ∈ getTransactionHashes cn_fast_hash pool' <-> x ∈ getTransactionHashes cn_fast_hash pool /\ x ∉ hashes.
Proof.
  induction hashes as [|h hashes IH]; intros pool Hc; cbn [remove_all].
  - exists pool. split_and!; [done|done|]. intros x. rewrite elem_of_nil. tauto.
  - destruct (remove_consistent h pool Hc) as (b & pool1 & -> & Hc1 & Hh1 & _). cbn [obind].
    destruct (IH pool1 Hc1) as (pool' & -> & Hc' & Hh'). exists pool'. split_and!; [done|done|].
    intros x. rewrite Hh', Hh1, list_elem_of_filter, not_elem_of_cons. tauto.
Qed.

Lemma flush_empties pool : consistent pool -> exists pool', flush cn_fast_hash pool = Ok pool' /\
  consistent pool' /\ transactions pool' = [].
Proof.
  intros Hc. destruct (remove_all_consistent (getTransactionHashes cn_fast_hash pool) pool Hc) as (pool' & H & Hc' & Hh).
  exists pool'. split_and!; [done|done|]. unfold getTransactionHashes in Hh at 1.
  destruct (transactions pool') as [|p l]; [done|]. destruct (Hh (hash p)) as [Hh1 _]. cbn [map] in Hh1.
  destruct Hh1 as [? []]; [apply list_elem_of_here|done].
Qed.

(** ** Operations that only take transactions out *)

Definition smaller (pool pool' : TransactionPool) : Prop :=
  consistent pool' /\ transactions pool' ⊆+ transactions pool.

Lemma smaller_refl pool : consistent pool -> smaller pool pool.
Proof. by split. Qed.

Lemma smaller_trans pool1 pool2 pool3 : smaller pool1 pool2 -> smaller pool2 pool3 -> smaller pool1 pool3.
Proof. intros [_ H1] [H2 H3]. split; [done|]. by etrans. Qed.

Lemma remove_smaller h pool b pool' :
  consistent pool -> removeTransaction cn_fast_hash h pool = Ok (b, pool') -> smaller pool pool'.
Proof.
  intros Hc H. destruct (remove_consistent h pool Hc) as (b1 & pool1 & E & Hc1 & _ & Hs).
  rewrite E in H. by injection H as <- <-.
Qed.

Lemma remove_all_smaller hashes : forall pool pool',
  consistent pool -> remove_all cn_fast_hash hashes pool = Ok pool' -> smaller pool pool'.
Proof.
  induction hashes as [|h hashes IH]; intros pool pool' Hc H; cbn [remove_all] in H.
  - injection H as <-. by apply smaller_refl.
  - apply obind_Ok in H as ([b pool1] & H1 & H). apply remove_smaller in H1; [|done].
    eapply smaller_trans; [exact H1|]. apply IH; [apply H1|done].
Qed.

Lemma delete_smaller h now w w' :
  consistent (transactionPool w) -> delete_transaction cn_fast_hash h now w = Ok w' ->
  smaller (transactionPool w) (transactionPool w') /\ timeout w' = timeout w.
Proof.
  intros Hc H. unfold delete_transaction in H. apply obind_Ok in H as ([b pool] & H1 & H). injection H as <-.
  split; [|done]. by eapply remove_smaller.
Qed.

Lemma clean_loop_smaller hashes now height : forall deleted w deleted' w',
  consistent (transactionPool w) -> clean_loop cn_fast_hash hashes now height deleted w = Ok (deleted', w') ->
  smaller (transactionPool w) (transactionPool w').
Proof.
  induction hashes as [|h hashes IH]; intros deleted w deleted' w' Hc H; cbn [clean_loop] in H.
  { injection H as <- <-. by apply smaller_refl. }
  apply obind_Ok in H as (received & _ & H). apply obind_Ok in H as ([d1 w1] & H1 & H).
  apply obind_Ok in H as (t & _ & H). apply obind_Ok in H as ([d2 w2] & H2 & H).
  assert (S1 : smaller (transactionPool w) (transactionPool w1)).
  { case_if_in H1; [apply obind_Ok in H1 as (w0 & H0 & [= <- <-]); by apply delete_smaller in H0 as [? _]|].
    injection H1 as <- <-. by apply smaller_refl. }
  assert (S2 : smaller (transactionPool w1) (transactionPool w2)).
  { destruct (Mixins_validate _ _ _ _).
    - apply obind_Ok in H2 as (w0 & H0 & [= <- <-]). apply delete_smaller in H0 as [? _]; [done|apply S1].
    - injection H2 as <- <-. apply smaller_refl, S1. }
  eapply smaller_trans; [exact S1|]. eapply smaller_trans; [exact S2|]. eapply IH; [apply S2|exact H].
Qed.

(** ** When cleaning succeeds *)

Definition expired (now : Z) (w : TransactionPoolCleanWrapper) (p : PendingTransactionInfo) : Prop :=
  timeout w <= u64 (now - receiveTime p).

Lemma find_hash_elem pool p : consistent pool -> p ∈ transactions pool -> find_hash cn_fast_hash (hash p) pool = Some p.
Proof.
  intros [_ Hnd _ _ _]. unfold find_hash. unfold getTransactionHashes in Hnd.
  induction (transactions pool) as [|q l IH]; [by intros ?%not_elem_of_nil|]. cbn [map find] in *.
  apply NoDup_cons in Hnd as [Hq Hnd]. intros [<-|Hp]%elem_of_cons; [by rewrite bool_decide_true|].
  rewrite bool_decide_false; [by apply IH|]. intros E. apply Hq. rewrite E. by apply list_elem_of_fmap_2.
Qed.

Lemma hash_lookup h pool : consistent pool -> h ∈ getTransactionHashes cn_fast_hash pool ->
  exists p, p ∈ transactions pool /\ hash p = h /\ find_hash cn_fast_hash h pool = Some p.
Proof.
  intros Hc (p & -> & Hp)%list_elem_of_fmap. exists p. split_and!; [done|done|by apply find_hash_elem].
Qed.

Lemma delete_returns h now w : consistent (transactionPool w) ->
  exists w', delete_transaction cn_fast_hash h now w = Ok w' /\ consistent (transactionPool w') /\ timeout w' = timeout w /\
    (forall x, x ∈ getTransactionHashes cn_fast_hash (transactionPool w') <->
               x <> h /\ x ∈ getTransactionHashes cn_fast_hash (transactionPool w)) /\
    transactions (transactionPool w') ⊆+ transactions (transactionPool w).
Proof.
  intros Hc. unfold delete_transaction. destruct (remove_consistent h _ Hc) as (b & pool & -> & Hc' & Hh & Hs). cbn [obind].
  eexists. split; [done|]. cbn [transactionPool timeout]. split_and!; [done|done| |done].
  intros x. by rewrite Hh, list_elem_of_filter.
Qed.

Lemma clean_loop_fails hashes now height : forall deleted w,
  consistent (transactionPool w) -> NoDup hashes ->
  (forall h, h ∈ hashes -> h ∈ getTransactionHashes cn_fast_hash (transactionPool w)) ->
  (exists p, p ∈ transactions (transactionPool w) /\ hash p ∈ hashes /\ expired now w p) ->
  clean_loop cn_fast_hash hashes now height deleted w = Err (AssertFailed "it != transactionHashIndex.end()").
Proof.
  induction hashes as [|h hashes IH]; intros deleted w Hc Hnd Hsub (p & Hp & Hin & Hex); [by apply elem_of_nil in Hin|].
  apply NoDup_cons in Hnd as [Hh Hnd]. cbn [clean_loop].
  destruct (hash_lookup h _ Hc (Hsub h (list_elem_of_here _ _))) as (q & Hq & Eq & Ef).
  unfold getTransactionReceiveTime. rewrite Ef. cbn [obind]. case_if.
  - destruct (delete_returns h now w Hc) as (w1 & -> & Hc1 & _ & Hh1 & _). cbn [obind]. unfold pool_getTransaction.
    rewrite (proj2 (find_hash_None h _)); [done|]. rewrite Hh1. tauto.
  - cbn [obind]. unfold pool_getTransaction. rewrite Ef. cbn [obind].
    assert (Hne : hash p <> h).
    { intros Eh. rewrite <- Eh, find_hash_elem in Ef by done. injection Ef as ->. unfold expired in Hex. lia. }
    apply elem_of_cons in Hin as [?|Hin]; [done|].
    destruct (Mixins_validate _ _ _ _).
    + destruct (delete_returns h now w Hc) as (w1 & -> & Hc1 & Ht1 & Hh1 & Hs1). cbn [obind]. apply IH; [done|done| |].
      * intros x Hx. apply Hh1. split; [by intros ->|]. apply Hsub. by apply list_elem_of_further.
      * assert (Hp1 : hash p ∈ getTransactionHashes cn_fast_hash (transactionPool w1)).
        { apply Hh1. split; [done|]. by apply list_elem_of_fmap_2. }
        apply list_elem_of_fmap in Hp1 as (p1 & E1 & Hp1). exists p. split_and!; [|done|unfold expired in *; congruence].
        assert (Hp2 : p1 ∈ transactions (transactionPool w)) by (by eapply elem_of_submseteq).
        apply find_hash_elem in Hp, Hp2; [|done..]. congruence.
    + cbn [obind]. apply IH; [done|done| |by exists p]. intros x Hx. apply Hsub. by apply list_elem_of_further.
Qed.

Lemma clean_loop_returns hashes now height : forall deleted w,
  consistent (transactionPool w) -> NoDup hashes ->
  (forall h, h ∈ hashes -> h ∈ getTransactionHashes cn_fast_hash (transactionPool w)) ->
  (forall p, p ∈ transactions (transactionPool w) -> ~ expired now w p) ->
  exists r, clean_loop cn_fast_hash hashes now height deleted w = Ok r.
Proof.
  induction hashes as [|h hashes IH]; intros deleted w Hc Hnd Hsub Hno; [by eexists|].
  apply NoDup_cons in Hnd as [Hh Hnd]. cbn [clean_loop].
  destruct (hash_lookup h _ Hc (Hsub h (list_elem_of_here _ _))) as (q & Hq & Eq & Ef).
  unfold getTransactionReceiveTime. rewrite Ef. cbn [obind]. pose proof (Hno q Hq) as Hq'. unfold expired in Hq'.
  rewrite (proj2 (Z.leb_gt _ _)) by lia. cbn [obind]. unfold pool_getTransaction. rewrite Ef. cbn [obind].
  destruct (Mixins_validate _ _ _ _).
  - destruct (delete_returns h now w Hc) as (w1 & -> & Hc1 & Ht1 & Hh1 & Hs1). cbn [obind]. apply IH; [done|done| |].
    + intros x Hx. apply Hh1. split; [by intros ->|]. apply Hsub. by apply list_elem_of_further.
    + intros p Hp. unfold expired. rewrite Ht1. apply Hno. by eapply elem_of_submseteq.
  - cbn [obind]. apply IH; [done|done| |done]. intros x Hx. apply Hsub. by apply list_elem_of_further.
Qed.

End Pool.

(** ** The node's methods *)

Definition fusion_limited (pool : TransactionPool) : Prop :=
  getFusionTransactionCount pool <= FUSION_TX_MAX_POOL_COUNT.

Lemma fusion_perm pool l : transactions pool ≡ₚ l ->
  getFusionTransactionCount pool = Z.of_nat (length (filter (fun p => fee_of p = 0) l)).
Proof. intros H. unfold getFusionTransactionCount. by rewrite H. Qed.

Lemma fusion_smaller pool pool' : transactions pool' ⊆+ transactions pool -> fusion_limited pool -> fusion_limited pool'.
Proof.
  intros (k & Hk)%submseteq_Permutation. unfold fusion_limited. rewrite (fusion_perm pool _ Hk), filter_app, length_app.
  unfold getFusionTransactionCount. lia.
Qed.

(** What holds of the pool of a running node. *)
Definition invariant (cn_fast_hash : list Z -> Hash) (w : TransactionPoolCleanWrapper) : Prop :=
  consistent cn_fast_hash (transactionPool w) /\ fusion_limited (transactionPool w).

Lemma invariant_smaller cn_fast_hash w w' :
  invariant cn_fast_hash w -> smaller cn_fast_hash (transactionPool w) (transactionPool w') -> invariant cn_fast_hash w'.
Proof. intros [_ Hf] [Hc Hs]. split; [done|]. by eapply fusion_smaller. Qed.

Section Node.
Context {C : Type} `{!IBlockchainCache C} (n : node C).
Local Abbreviation cn_fast_hash := (fast_hash (node_ops n)).
Local Abbreviation reserved := (m_minerTxBlobReservedSize (node_currency n)).

(** A median that leaves room for the miner transaction, as
    [getMaximumTransactionAllowedSize] asserts. *)
Definition node_ok : Prop :=
  reserved < blockMedianSize n * 2 < 2 ^ 40 /\ 0 <= reserved /\ forall h, exists b, isTransactionInChain n h = Ok b.

Lemma accepted_pending ops (ctx : context C) spent :
  bytes_ok (m_binaryArray ctx) -> Z.of_nat (length (m_binaryArray ctx)) < 2 ^ 40 ->
  fromBinaryArray ser_Transaction default_transaction (m_binaryArray ctx) = Ok (m_transaction ctx) ->
  0 < total_in (m_transaction ctx) -> accepted ops ctx spent ->
  pending_ok (mkCached (m_transaction ctx) (m_binaryArray ctx)).
Proof.
  intros Hb Hlen Hread Hpos (_ & _ & (kis & E & _ & Hnd & _) & _).
  assert (Hki : key_images (map InKey kis) = map keyImage kis).
  { clear. unfold key_images. induction kis as [|k kis IH]; [done|]. cbn [map omap list_omap]. by f_equal. }
  split; cbn [getTransaction binaryArray binary_size]; [split; [|done]|rewrite E; by apply Forall_map, Forall_true|
    by rewrite E, Hki|done|done|done].
  unfold binary_size. cbn [binaryArray]. destruct (m_binaryArray ctx); [done|]. cbn [length]. lia.
Qed.

(** What a transaction that may enter the pool is like. *)
Lemma valid_for_pool schedule tx ba w spent :
  node_ok -> bytes_ok ba ->
  fromBinaryArray ser_Transaction default_transaction ba = Ok tx ->
  isTransactionValidForPool n schedule (mkCached tx ba) ∅ w = Ok (None, spent) ->
  pending_ok (mkCached tx ba) /\ spent = list_to_set (key_images (inputs tx)) /\
  (getTransactionFee tx = 0 -> getFusionTransactionCount (transactionPool w) < FUSION_TX_MAX_POOL_COUNT).
Proof.
  intros (Hn1 & Hn2 & _) Hb Er H. pose proof Er as [Hv _]%(fromBinaryArray_iff _ _ fresh_transaction); [|done..].
  unfold isTransactionValidForPool in H. cbn [getTransaction] in H. destruct (_ && _) eqn:Efull; [done|].
  apply obind_Ok in H as (lastTimestamp & _ & H). apply obind_Ok in H as ([res sp] & Hval & Hres). case_bool_decide as Hcode; [|done]. injection Hres as ->.
  unfold validateTransaction in Hval. apply obind_Ok in Hval as ([b s] & Hval & Hs). injection Hs as <- <-.
  cbn [getTransaction binaryArray] in Hval. set (ctx := mkContext tx ba _ _ _ _ _ _ _) in Hval.
  pose proof Hval as Hd. apply (validate_decide (node_ops n) ctx schedule) in Hd;
    [|by apply valid_amounts|unfold reserved_ok; cbn; lia|done|done].
  destruct b; [|destruct Hd as [_ [Hcode' _]]; done]. destruct Hd as [Hacc ->].
  apply validate_positive in Hval; [|by apply valid_amounts]. split_and!.
  - apply (accepted_pending (node_ops n) ctx ∅ Hb); [|done..]. destruct Hacc as [Hsize _]. unfold size_ok, tx_size in Hsize. cbn in Hsize. cbn. lia.
  - cbn. by rewrite (right_id_L ∅ (∪)).
  - intros Hfee. rewrite Hfee in Efull. apply andb_false_iff in Efull as [?|E%Z.leb_gt]; done.
Qed.

Lemma push_limited now t spent pool :
  fusion_limited pool ->
  (getTransactionFee (getTransaction t) = 0 -> getFusionTransactionCount pool < FUSION_TX_MAX_POOL_COUNT) ->
  fusion_limited (pushTransaction cn_fast_hash now t spent pool).2.
Proof.
  intros Hf Ht. unfold pushTransaction. do 2 (case_if; [done|]). unfold fusion_limited.
  rewrite (fusion_perm _ (_ :: transactions pool)) by apply cost_insert_perm.
  unfold getFusionTransactionCount in *. rewrite filter_cons. unfold fee_of at 1. cbn [cachedTransaction].
  unfold fusion_limited, getFusionTransactionCount in Hf. case_decide as Efee; [|done]. specialize (Ht Efee). cbn [length]. lia.
Qed.

Lemma add_invariant schedule now ba w r w' :
  node_ok -> bytes_ok ba -> invariant cn_fast_hash w ->
  addTransactionToPool n schedule now ba w = Ok (r, w') -> invariant cn_fast_hash w'.
Proof.
  intros Hn Hb [Hc Hf] H. unfold addTransactionToPool, fromBinaryArray_opt in H.
  destruct (fromBinaryArray ser_Transaction default_transaction ba) as [tx|] eqn:Er; [|injection H as <- <-; done].
  pose proof Er as [_ Ht]%(fromBinaryArray_iff _ _ fresh_transaction); [|done..].
  unfold getTransactionBinaryArray in H. rewrite Ht in H. cbn [obind] in H. unfold addTransactionToPool_cached in H.
  case_if_in H; [injection H as <- <-; done|]. apply obind_Ok in H as ([err spent] & Hval & H).
  destruct err; [injection H as <- <-; done|]. apply valid_for_pool in Hval as (Hpend & Hspent & Hfee); [|done..].
  unfold wrapper_pushTransaction in H. destruct (isTransactionRecentlyDeleted _ _); [injection H as <- <-; done|].
  pose proof (push_consistent cn_fast_hash now (mkCached tx ba) spent _ Hc Hspent Hpend) as Hc'.
  pose proof (push_limited now (mkCached tx ba) spent _ Hf Hfee) as Hf'.
  destruct (pushTransaction _ _ _ _ _) as [ok pool]. destruct ok; injection H as <- <-; done.
Qed.

(** ** Pruning *)

Lemma extractSpentOutputs_ok ins : forall spent, key_inputs ins -> NoDup (key_images ins) ->
  list_to_set (key_images ins) ## spent -> exists r, extractSpentOutputs ins spent = Ok r.
Proof.
  unfold key_images. induction ins as [|[i|i] ins IH]; intros spent Hk Hnd Hd; cbn [extractSpentOutputs omap list_omap] in *;
    [by eexists|by apply Forall_cons in Hk as [? _]|].
  apply Forall_cons in Hk as [_ Hk]. apply NoDup_cons in Hnd as [Hni Hnd]. cbn [list_to_set] in Hd.
  apply (not_elem_of_list_to_set (C := gset KeyImage)) in Hni.
  rewrite bool_decide_true by set_solver. cbn [assert_that obind]. apply IH; [done|done|set_solver].
Qed.

Lemma prune_returns hashes max spent : (forall h, exists b, isTransactionInChain n h = Ok b) -> forall pool, consistent cn_fast_hash pool ->
  exists pool', prune_loop n hashes max spent pool = Ok pool' /\ smaller cn_fast_hash pool pool'.
Proof.
  intros Hchain. induction hashes as [|h hashes IH]; intros pool Hc; cbn [prune_loop].
  { exists pool. split; [done|]. by apply smaller_refl. }
  unfold tryGetTransaction. destruct (find_hash _ h pool) as [p|] eqn:Ef; cbn [fmap option_fmap option_map]; [|by apply IH].
  assert (Hp : p ∈ transactions pool).
  { apply find_hash_Some in Ef as (_ & l1 & l2 & -> & _). apply elem_of_app. right. apply list_elem_of_here. }
  pose proof (consistent_ok _ _ Hc) as Hok. rewrite Forall_forall in Hok. destruct (Hok p Hp) as [_ Hk Hnd _ _ _].
  destruct (extractSpentOutputs_ok _ ∅ Hk Hnd) as [st ->]; [set_solver|]. cbn [obind]. destruct (Hchain h) as [b' ->]. cbn [obind]. case_if; [by apply IH|].
  destruct (remove_consistent cn_fast_hash h pool Hc) as (b & pool1 & Hrm & Hc1 & _ & Hs1). rewrite Hrm. cbn [obind].
  destruct (IH pool1 Hc1) as (pool' & -> & Hs). exists pool'. split; [done|]. by eapply smaller_trans.
Qed.

Lemma prune_invariant spent w : node_ok -> invariant cn_fast_hash w ->
  exists w', checkAndRemoveInvalidPoolTransactions n spent w = Ok w' /\ invariant cn_fast_hash w'.
Proof.
  intros (Hn1 & Hn2 & Hn3) [Hc Hf]. unfold checkAndRemoveInvalidPoolTransactions, getMaximumTransactionAllowedSize.
  rewrite (wrap_small 64 (blockMedianSize n * 2)) by (unfold fits; lia).
  rewrite (proj2 (Z.ltb_lt _ _)) by lia. cbn [assert_that obind].
  edestruct prune_returns as (pool & -> & Hs); [exact Hn3|exact Hc|]. cbn [obind]. eexists. split; [done|].
  by eapply invariant_smaller.
Qed.

(** ** Block templates *)

Local Abbreviation tx_images t := (key_images (inputs (getTransaction t))).

Definition still_valid (height : Z) (t : CachedTransaction) : bool :=
  match validateBlockTemplateTransaction n t height with
  | Ok b => b
  | Err _ => false
  end.

(** The transactions a template takes, in order: those that are still valid and
    fit into what is left of [max]. *)
Fixpoint greedy (max height used : Z) (l : list CachedTransaction) : list CachedTransaction :=
  match l with
  | [] => []
  | t :: l =>
    if (used + binary_size t <=? max) && still_valid height t
    then t :: greedy max height (used + binary_size t) l else greedy max height used l
  end.

Lemma greedy_sublist max height l : forall used, sublist (greedy max height used l) l.
Proof.
  induction l as [|t l IH]; intros used; cbn [greedy]; [constructor|]. destruct (_ && _); by constructor.
Qed.

Lemma sublist_flat_map {A B} (f : A -> list B) l1 l2 : sublist l1 l2 -> sublist (flat_map f l1) (flat_map f l2).
Proof.
  induction 1 as [|x l1 l2 _ IH|x l1 l2 _ IH]; cbn [flat_map]; [constructor|by apply sublist_app|].
  by apply sublist_inserts_l.
Qed.

(** The chain has a block besides the genesis block. *)
Definition timed : Prop := exists timestamp, last_timestamp n = Ok timestamp.

Lemma still_valid_eq height t : timed -> 2 <= height -> pending_ok t ->
  validateBlockTemplateTransaction n t height = Ok (still_valid height t).
Proof.
  intros [timestamp Ht] Hh [Hs _ _ Hb Hr Hpos]. unfold still_valid, validateBlockTemplateTransaction. rewrite Ht. cbn [obind].
  match goal with |- context [revalidateAfterHeightChange ?ops ?ctx] => destruct (revalidate_returns ops ctx) as (b & s & ->) end;
    [|done|done]. unfold received. cbn. unfold binary_size in Hs. split_and!; [done|lia|done|done].
Qed.

Lemma haveSpentInputs_fresh ins : forall spent, NoDup (key_images ins) -> list_to_set (key_images ins) ## spent ->
  haveSpentInputs ins spent = (false, list_to_set (key_images ins) ∪ spent).
Proof.
  unfold key_images. induction ins as [|[i|i] ins IH]; intros spent Hnd Hd; cbn [haveSpentInputs omap list_omap] in *.
  - cbn [list_to_set]. by rewrite (left_id_L ∅ (∪)).
  - by apply IH.
  - apply NoDup_cons in Hnd as [Hni Hnd]. cbn [list_to_set] in *. rewrite bool_decide_false by set_solver.
    apply (not_elem_of_list_to_set (C := gset KeyImage)) in Hni. rewrite IH; [f_equal; set_solver|done|set_solver].
Qed.

(** What the template loop adds. *)
Record added (t : template) (max : Z) (chosen : list CachedTransaction) (t' : template) : Prop := mkAdded {
  added_hashes : transactionHashes t' = transactionHashes t ++ map (hash_of cn_fast_hash) chosen;
  added_size : transactionsSize t' = transactionsSize t + sumZ (map binary_size chosen);
  added_bound : transactionsSize t' <= max;
  added_fee : template_fee t' = u64 (template_fee t + sumZ (map (fun t => getTransactionFee (getTransaction t)) chosen));
  added_pool : smaller cn_fast_hash (template_pool t) (template_pool t')
}.

Lemma fill_loop_greedy max height l : timed -> forall t,
  2 <= height -> 0 <= max <= 2 ^ 63 -> Forall pending_ok l -> NoDup (flat_map (fun t => tx_images t) l) ->
  list_to_set (flat_map (fun t => tx_images t) l) ## alreadySpent t ->
  consistent cn_fast_hash (template_pool t) -> 0 <= transactionsSize t <= max -> fits 64 (template_fee t) ->
  exists t', fill_loop n max height l t = Ok t' /\ added t max (greedy max height (transactionsSize t) l) t'.
Proof.
  intros Ht. induction l as [|x l IH]; intros t Hh Hm Hok Hnd Hd Hc Hs Hfee; cbn [fill_loop greedy].
  { exists t. split; [done|]. split; unfold sumZ; cbn [map foldr]; [by rewrite app_nil_r|lia|lia|rewrite Z.add_0_r; by rewrite wrap_small|by apply smaller_refl]. }
  apply Forall_cons in Hok as [Hx Hok]. cbn [flat_map] in Hnd, Hd. apply NoDup_app in Hnd as (Hnx & Hxl & Hnl).
  rewrite list_to_set_app_L in Hd. pose proof (pending_size x Hx) as Hsx.
  unfold addTransactionToBlockTemplate. rewrite (wrap_small 64 (transactionsSize t + _)) by (unfold fits; lia).
  rewrite Z.ltb_antisym. destruct (transactionsSize t + binary_size x <=? max) eqn:Efit; bool_prop; cbn [negb andb].
  2: { cbn [obind]. apply IH; [done|done|done|done|set_solver|done|done|done]. }
  rewrite still_valid_eq by done. cbn [obind]. destruct (still_valid height x) eqn:Ev; cbn [negb].
  2: { destruct (remove_consistent cn_fast_hash (hash_of cn_fast_hash x) _ Hc) as (b & pool & Hrm & Hc1 & _ & Hs1).
    rewrite Hrm. cbn [obind].
    destruct (IH (mkTemplate (transactionHashes t) (transactionsSize t) (template_fee t) (alreadySpent t) pool))
      as (t' & Ht' & [H1 H2 H3 H4 H5]); [done|done|done|done|cbn; set_solver|done|done|done|].
    exists t'. split; [exact Ht'|]. split; [done|done|done|done|].
    eapply smaller_trans; [split; [exact Hc1|exact Hs1]|exact H5]. }
  rewrite haveSpentInputs_fresh; [|done|set_solver]. cbn [obind].
  destruct (IH (mkTemplate (transactionHashes t ++ [hash_of cn_fast_hash x]) (transactionsSize t + binary_size x)
    (u64 (template_fee t + getTransactionFee (getTransaction x))) (list_to_set (tx_images x) ∪ alreadySpent t) (template_pool t)))
    as (t' & Ht' & [H1 H2 H3 H4 H5]); [done|done|done|done| | | | |exists t'; split; [exact Ht'|]].
  - cbn [alreadySpent]. intros y Hy1 Hy2. rewrite elem_of_union in Hy2. destruct Hy2 as [Hy2|Hy2]; [|set_solver].
    rewrite elem_of_list_to_set in Hy1, Hy2. by apply (Hxl y).
  - done.
  - cbn [transactionsSize]. lia.
  - cbn [template_fee]. apply wrap_fits. lia.
  - cbn [transactionHashes transactionsSize template_fee template_pool] in *. unfold sumZ in *. split; unfold sumZ; cbn [map foldr]; [by rewrite H1, <- app_assoc|lia|done| |done].
    rewrite H4. unfold u64, wrap. rewrite Zplus_mod_idemp_l. f_equal. lia.
Qed.

Lemma fill_loop_app max height l1 l2 t :
  fill_loop n max height (l1 ++ l2) t = let! t := fill_loop n max height l1 t in fill_loop n max height l2 t.
Proof.
  revert t. induction l1 as [|x l1 IH]; intros t; [done|]. cbn [app fill_loop].
  destruct (addTransactionToBlockTemplate _ _ _ _ _) as [t1|]; cbn [obind]; [apply IH|done].
Qed.

Lemma fill_loop_smaller max height l : forall t t', consistent cn_fast_hash (template_pool t) ->
  fill_loop n max height l t = Ok t' -> smaller cn_fast_hash (template_pool t) (template_pool t').
Proof.
  induction l as [|x l IH]; intros t t' Hc H; cbn [fill_loop] in H; [injection H as <-; by apply smaller_refl|].
  apply obind_Ok in H as (t1 & H1 & H).
  assert (S1 : smaller cn_fast_hash (template_pool t) (template_pool t1)).
  { unfold addTransactionToBlockTemplate in H1. case_if_in H1; [injection H1 as <-; by apply smaller_refl|].
    apply obind_Ok in H1 as (ok & _ & H1). destruct ok; cbn [negb] in H1.
    - destruct (haveSpentInputs _ _) as [[] images]; injection H1 as <-; by apply smaller_refl.
    - apply obind_Ok in H1 as ([b pool] & Hrm & [= <-]). by eapply remove_smaller. }
  eapply smaller_trans; [exact S1|]. eapply IH; [apply S1|exact H].
Qed.

(** The transactions offered for a template, in the order they are tried. *)
Definition offered (pool : TransactionPool) : list CachedTransaction :=
  (getPoolTransactionsForBlockTemplate pool).1 ++ (getPoolTransactionsForBlockTemplate pool).2.

Lemma offered_perm pool : offered pool ≡ₚ map cachedTransaction (transactions pool).
Proof.
  unfold offered, getPoolTransactionsForBlockTemplate. cbn [fst snd]. rewrite <- map_app. apply Permutation_map.
  rewrite (Permutation_app_comm (filter _ _)). etrans; [|apply (filter_app_complement (fun p => fee_of p = 0))].
  apply Permutation_app_head, reflexive_eq, list_filter_iff. done.
Qed.

Lemma fillBlockTemplate_offered hashes medianSize maxCumulativeSize height pool :
  fillBlockTemplate n hashes medianSize maxCumulativeSize height pool =
  fill_loop n (u64 (Z.min (u64 (125 * medianSize) / 100) maxCumulativeSize - reserved)) height (offered pool)
    (mkTemplate hashes 0 0 ∅ pool).
Proof. unfold offered. by rewrite fill_loop_app. Qed.

End Node.

(** ** The life of a pool *)

(** What the node does to its pool; the chain, its height and its rules may
    change between the steps. *)
Inductive step (cn_fast_hash : list Z -> Hash) (w : TransactionPoolCleanWrapper) : TransactionPoolCleanWrapper -> Prop :=
| step_add {C} `{!IBlockchainCache C} (n : node C) schedule now ba r w' :
    fast_hash (node_ops n) = cn_fast_hash -> node_ok n -> bytes_ok ba ->
    addTransactionToPool n schedule now ba w = Ok (r, w') -> step cn_fast_hash w w'
| step_remove h b pool :
    removeTransaction cn_fast_hash h (transactionPool w) = Ok (b, pool) -> step cn_fast_hash w (set_pool pool w)
| step_flush pool :
    flush cn_fast_hash (transactionPool w) = Ok pool -> step cn_fast_hash w (set_pool pool w)
| step_prune {C} `{!IBlockchainCache C} (n : node C) spent w' :
    fast_hash (node_ops n) = cn_fast_hash -> node_ok n ->
    checkAndRemoveInvalidPoolTransactions n spent w = Ok w' -> step cn_fast_hash w w'
| step_template {C} `{!IBlockchainCache C} (n : node C) hashes medianSize maxCumulativeSize height t :
    fast_hash (node_ops n) = cn_fast_hash ->
    fillBlockTemplate n hashes medianSize maxCumulativeSize height (transactionPool w) = Ok t ->
    step cn_fast_hash w (set_pool (template_pool t) w)
| step_clean now height deleted w' :
    clean cn_fast_hash now height w = Ok (deleted, w') -> step cn_fast_hash w w'.

Lemma step_invariant cn_fast_hash w w' : step cn_fast_hash w w' -> invariant cn_fast_hash w -> invariant cn_fast_hash w'.
Proof.
  intros H Hw. destruct H as [C ? n schedule now ba r w' <- Hn Hb H|h b pool H|pool H|C ? n spent w' <- Hn H|
    C ? n hashes median maxc height t <- H|now height deleted w' H].
  - by eapply add_invariant.
  - eapply invariant_smaller; [exact Hw|]. eapply remove_smaller; [apply Hw|exact H].
  - eapply invariant_smaller; [exact Hw|]. eapply remove_all_smaller; [apply Hw|exact H].
  - destruct (prune_invariant n spent w Hn Hw) as (w1 & E & H1). congruence.
  - eapply invariant_smaller; [exact Hw|]. rewrite fillBlockTemplate_offered in H.
    apply fill_loop_smaller in H; [done|apply Hw].
  - unfold clean in H. apply obind_Ok in H as ([d w1] & H & [= <- <-]).
    eapply invariant_smaller; [exact Hw|]. by apply clean_loop_smaller in H; [|apply Hw].
Qed.

Lemma steps_invariant cn_fast_hash w w' :
  rtc (step cn_fast_hash) w w' -> invariant cn_fast_hash w -> invariant cn_fast_hash w'.
Proof. induction 1 as [|w1 w2 w3 H _ IH]; [done|]. intros H1. by apply IH, (step_invariant _ w1). Qed.

(** What a template takes from a consistent pool. *)
Lemma fill_template_greedy {C} `{!IBlockchainCache C} (n : node C) hashes medianSize maxCumulativeSize height w :
  invariant (fast_hash (node_ops n)) w -> timed n -> 2 <= height -> 0 <= medianSize < 2 ^ 50 ->
  m_minerTxBlobReservedSize (node_currency n) <= Z.min (125 * medianSize / 100) maxCumulativeSize ->
  0 <= m_minerTxBlobReservedSize (node_currency n) ->
  exists t, fillBlockTemplate n hashes medianSize maxCumulativeSize height (transactionPool w) = Ok t /\
    let max := Z.min (125 * medianSize / 100) maxCumulativeSize - m_minerTxBlobReservedSize (node_currency n) in
    let chosen := greedy n max height 0 (offered (transactionPool w)) in
    transactionHashes t = hashes ++ map (hash_of (fast_hash (node_ops n))) chosen /\
    NoDup (flat_map (fun t => key_images (inputs (getTransaction t))) chosen) /\
    transactionsSize t = sumZ (map binary_size chosen) /\ transactionsSize t <= max /\
    template_fee t = u64 (sumZ (map (fun t => getTransactionFee (getTransaction t)) chosen)) /\
    smaller (fast_hash (node_ops n)) (transactionPool w) (template_pool t).
Proof.
  intros [Hc Hf] Ht Hh Hm Hr Hr0. rewrite fillBlockTemplate_offered, (wrap_small 64 (125 * medianSize)) by (unfold fits; lia).
  assert (Hmax : 0 <= Z.min (125 * medianSize / 100) maxCumulativeSize - m_minerTxBlobReservedSize (node_currency n) <= 2 ^ 63).
  { pose proof (Z.div_le_upper_bound (125 * medianSize) 100 (2 ^ 60)). lia. }
  rewrite wrap_small by (unfold fits; lia). pose proof (offered_perm (transactionPool w)) as Hperm.
  assert (Hi : NoDup (flat_map (fun t => key_images (inputs (getTransaction t))) (offered (transactionPool w)))).
  { rewrite Hperm, flat_map_concat_map, map_map, <- flat_map_concat_map. apply (consistent_images _ _ Hc). }
  destruct (fill_loop_greedy n _ height (offered (transactionPool w)) Ht (mkTemplate hashes 0 0 ∅ (transactionPool w)) Hh Hmax)
    as (t & -> & [H1 H2 H3 H4 H5]); [|done|cbn; set_solver|done|cbn; lia|cbn; unfold fits; lia|].
  { rewrite Hperm, Forall_map. exact (consistent_ok _ _ Hc). }
  exists t. split; [done|]. cbn [transactionHashes transactionsSize template_fee] in *. split_and!; [done| |done|done|done|done].
  eapply sublist_NoDup; [exact Hi|]. apply sublist_flat_map, greedy_sublist.
Qed.

(** ** A node with a pool *)

#[local] Existing Instance sample_chain.

Definition sample_node (height timestamp : Z) : node (gset KeyImage) :=
  mkNode sample_ops (Currency_move CurrencyBuilder) ∅ ∅ height 100000 (Ok timestamp) (fun _ => Ok false).

Definition sample_hash : list Z -> Hash := fast_hash sample_ops.

Definition sample_wrapper : TransactionPoolCleanWrapper := mkWrapper empty_pool ∅ 86400.

Definition sample_pending : PendingTransactionInfo :=
  mkPending 1000 (mkCached sample_transaction sample_bytes) (TransactionExtra.TransactionExtra.getPaymentIdFromTxExtra [1; 2; 3]).

(** The pool after the sample transaction arrived. *)
Definition sample_pool : TransactionPool := mkPool [sample_pending] {[ zeros 32; repeat 255 32 ]}.

Definition sample_filled : TransactionPoolCleanWrapper := mkWrapper sample_pool ∅ 86400.

Lemma sample_node_ok height timestamp : node_ok (sample_node height timestamp).
Proof. unfold node_ok. split_and!; [ground|ground|ground|by exists false]. Qed.

Lemma sample_step : step sample_hash sample_wrapper sample_filled.
Proof.
  destruct (sample_received ∅) as (Hb & Hl & _). cbn [m_binaryArray sample_context] in Hb, Hl.
  apply (step_add _ _ (sample_node 100 1) sample_schedule 1000 sample_bytes None);
    [done|apply sample_node_ok|done|vm_compute; reflexivity].
Qed.

Lemma empty_invariant cn_fast_hash timeout : invariant cn_fast_hash (mkWrapper empty_pool ∅ timeout).
Proof. split; [apply consistent_empty|]. unfold fusion_limited. ground. Qed.

Lemma sample_invariant : invariant sample_hash sample_filled.
Proof. eapply step_invariant; [exact sample_step|apply empty_invariant]. Qed.

(** ** Properties *)

(** C5. The pool stays consistent for as long as the node runs: after any
    sequence of additions, removals, flushes, prunings, block templates and
    cleanings, no two transactions in the pool have the same hash or spend the
    same key image, the pool's validator state is exactly the set of their key
    images, the cost index is sorted by priority, and at most 60 transactions
    are without fee. *)
Theorem pool_invariant cn_fast_hash timeout w :
  rtc (step cn_fast_hash) (mkWrapper empty_pool ∅ timeout) w ->
  NoDup (getTransactionHashes cn_fast_hash (transactionPool w)) /\
  NoDup (flat_map (fun p => key_images (inputs (getTransaction (cachedTransaction p)))) (transactions (transactionPool w))) /\
  poolState (transactionPool w) = list_to_set
    (flat_map (fun p => key_images (inputs (getTransaction (cachedTransaction p)))) (transactions (transactionPool w))) /\
  sorted (transactions (transactionPool w)) /\
  getFusionTransactionCount (transactionPool w) <= FUSION_TX_MAX_POOL_COUNT.
Proof.
  intros [[_ Hh Hi Hs Ho] Hf]%steps_invariant; [done|apply empty_invariant].
Qed.

Lemma pool_invariant_witness : sorted (transactions sample_pool) /\ getTransactionCount sample_pool = 1.
Proof.
  split; [|reflexivity].
  exact (proj1 (proj2 (proj2 (proj2 (pool_invariant sample_hash 86400 sample_filled (rtc_once _ _ sample_step)))))).
Defined.

(** C27. Removal is safe and exact on a consistent pool: [removeTransaction] never
    runs into an assertion, it removes the transaction with the given hash and no
    other, and [flush] leaves an empty pool that has no key image marked as
    spent. *)
Theorem pool_removal_exact cn_fast_hash w :
  invariant cn_fast_hash w ->
  (forall h, exists b pool, removeTransaction cn_fast_hash h (transactionPool w) = Ok (b, pool) /\
     invariant cn_fast_hash (set_pool pool w) /\
     getTransactionHashes cn_fast_hash pool =
       filter (fun x => x <> h) (getTransactionHashes cn_fast_hash (transactionPool w))) /\
  flush cn_fast_hash (transactionPool w) = Ok empty_pool.
Proof.
  intros Hw. pose proof Hw as [Hc Hf]. split.
  - intros h. destruct (remove_consistent cn_fast_hash h _ Hc) as (b & pool & E & Hc' & Hh & Hs).
    exists b, pool. split_and!; [done| |done]. by eapply invariant_smaller.
  - destruct (flush_empties cn_fast_hash _ Hc) as ([txs st] & -> & [_ _ _ Hst _] & Ht). cbn in Hst, Ht. by subst.
Qed.

Lemma pool_removal_exact_witness : flush sample_hash sample_pool = Ok empty_pool.
Proof. exact (proj2 (pool_removal_exact sample_hash sample_filled sample_invariant)). Defined.

(** C38. Expiry is broken: [clean] returns exactly when no transaction of the pool
    has reached its life time.  As soon as one has, [clean] deletes it and then
    asks the pool for it, which fails an assertion. *)
Theorem clean_fails_on_expiry cn_fast_hash now height w :
  invariant cn_fast_hash w ->
  ((exists r, clean cn_fast_hash now height w = Ok r) <->
   forall p, p ∈ transactions (transactionPool w) -> u64 (now - receiveTime p) < timeout w) /\
  forall p, p ∈ transactions (transactionPool w) -> timeout w <= u64 (now - receiveTime p) ->
    clean cn_fast_hash now height w = Err (AssertFailed "it != transactionHashIndex.end()").
Proof.
  intros [Hc _]. assert (Hfail : forall p, p ∈ transactions (transactionPool w) -> timeout w <= u64 (now - receiveTime p) ->
    clean cn_fast_hash now height w = Err (AssertFailed "it != transactionHashIndex.end()")).
  { intros p Hp Hex. unfold clean. rewrite clean_loop_fails; [done|done|by apply consistent_hashes|done|].
    exists p. split_and!; [done|by apply list_elem_of_fmap_2|done]. }
  split; [split|exact Hfail].
  - intros [r Hr] p Hp. apply Z.nle_gt. intros Hex. rewrite (Hfail p Hp Hex) in Hr. done.
  - intros Hno. destruct (clean_loop_returns cn_fast_hash (getTransactionHashes cn_fast_hash (transactionPool w)) now height [] w)
      as [[d w'] E]; [done|by apply consistent_hashes|done|intros p Hp Hex; specialize (Hno p Hp); unfold expired in Hex; lia|].
    unfold clean. rewrite E. by eexists.
Qed.

Lemma clean_fails_on_expiry_witness :
  clean sample_hash 200000 100 sample_filled = Err (AssertFailed "it != transactionHashIndex.end()").
Proof.
  apply (proj2 (clean_fails_on_expiry sample_hash 200000 100 sample_filled sample_invariant) sample_pending).
  - apply list_elem_of_here.
  - ground.
Defined.

(** C8. Block templates: from a consistent pool [fillBlockTemplate] returns, and it
    takes exactly the greedy selection from the fee-paying transactions by
    priority followed by the others: those that are still valid at the height
    and fit into the remaining size, provided that the chain has a block besides
    the genesis block, whose time is asked for, that the height is at least 2, the
    median size below [2^50], and the space reserved for the miner within the size
    of the block.  The selection spends no key image twice, its size is within the
    limit, and the fee is the sum of the fees modulo [2^64]. *)
Theorem block_template_greedy {C} `{!IBlockchainCache C} (n : node C) hashes medianSize maxCumulativeSize height w :
  invariant (fast_hash (node_ops n)) w -> timed n -> 2 <= height -> 0 <= medianSize < 2 ^ 50 ->
  m_minerTxBlobReservedSize (node_currency n) <= Z.min (125 * medianSize / 100) maxCumulativeSize ->
  0 <= m_minerTxBlobReservedSize (node_currency n) ->
  exists t, fillBlockTemplate n hashes medianSize maxCumulativeSize height (transactionPool w) = Ok t /\
    let max := Z.min (125 * medianSize / 100) maxCumulativeSize - m_minerTxBlobReservedSize (node_currency n) in
    let chosen := greedy n max height 0 (offered (transactionPool w)) in
    transactionHashes t = hashes ++ map (hash_of (fast_hash (node_ops n))) chosen /\
    NoDup (flat_map (fun t => key_images (inputs (getTransaction t))) chosen) /\
    transactionsSize t = sumZ (map binary_size chosen) /\ transactionsSize t <= max /\
    template_fee t = u64 (sumZ (map (fun t => getTransactionFee (getTransaction t)) chosen)).
Proof.
  intros Hw Ht Hh Hm Hr Hr0. destruct (fill_template_greedy n hashes medianSize maxCumulativeSize height w Hw Ht Hh Hm Hr Hr0)
    as (t & E & H1 & H2 & H3 & H4 & H5 & _). by exists t.
Qed.

Lemma block_template_greedy_witness :
  exists t, fillBlockTemplate (sample_node 100 1) [] 100000 200000 101 sample_pool = Ok t /\
    NoDup (flat_map (fun t => key_images (inputs (getTransaction t)))
      (greedy (sample_node 100 1) (124400) 101 0 (offered sample_pool))).
Proof.
  destruct (block_template_greedy (sample_node 100 1) [] 100000 200000 101 sample_filled sample_invariant)
    as (t & H & _ & Hnd & _); [by exists 1|lia|lia|ground|ground|]. exists t. split; [exact H|exact Hnd].
Defined.

(** C39. The timestamp of the chain does not reach the validation of pool
    transactions, because two arguments of the call are exchanged: the verdict is
    the same for any two last timestamps other than zero, and a transaction is admitted to the
    pool that the validator rejects, when it is given the timestamp, for a lock
    that has long expired. *)
Theorem pool_ignores_timestamp :
  (forall C (H : IBlockchainCache C) ops currency checkpoints chain top median ts1 ts2 in_chain schedule t spent w,
     ts1 <> 0 -> ts2 <> 0 ->
     isTransactionValidForPool (mkNode ops currency checkpoints chain top median (Ok ts1) in_chain) schedule t spent w =
     isTransactionValidForPool (mkNode ops currency checkpoints chain top median (Ok ts2) in_chain) schedule t spent w) /\
  exists (n : node (gset KeyImage)) timestamp schedule t w spent r spent',
    last_timestamp n = Ok timestamp /\ isTransactionValidForPool n schedule t ∅ w = Ok (None, spent) /\
    validateTransaction n schedule t ∅ (getTopBlockIndex n) timestamp true = Ok (r, spent') /\
    errorCode r = UNLOCK_TIME_TOO_SMALL.
Proof.
  split.
  - intros. unfold isTransactionValidForPool. cbn [last_timestamp obind].
    by rewrite (proj2 (Z.eqb_neq ts1 0)), (proj2 (Z.eqb_neq ts2 0)) by done.
  - pose (tx := mkTransaction (mkTransactionPrefix 1 500000001 [InKey (mkKeyInput 100000 [3; 3] (zeros 32))]
      [mkTransactionOutput 600 (ToKey (mkKeyOutput (repeat 7 32)))] []) [[repeat 1 64; repeat 2 64]]).
    pose (ba := match toBinaryArray ser_Transaction tx with Ok ba => ba | Err _ => [] end).
    exists (sample_node 2500000 1700000000), 1700000000, [Start 0; Finish 0; Collect]%nat, (mkCached tx ba), sample_wrapper.
    do 3 eexists. split; [reflexivity|]. split_and!; vm_compute; reflexivity.
Qed.

End PoolProofs.
