(* ===== verification/BlockchainCache.v ===== *)
(** * The blockchain cache

    [src/src/cryptonotecore/BlockchainCache.cpp] with the storage of
    [BlockchainStorage.cpp] and [MemoryBlockchainStorage.cpp].  A cache holds a
    segment of consecutive blocks; what is below the segment it asks of its
    parent.  A chain is here the list of a cache and its ancestors, and
    [parent->f] is [f] on the tail of the list; the pointers between caches are
    in [CoreChain].  The hashed indexes of a container are maps, the order of
    their elements is that of insertion.  The clock is an argument.  Saving to
    a file is not modelled. *)

From S2P Require Import Prelude.
From S2P Require Import Config.
From S2P Require Import Types.
From S2P Require Import Serialization.
From S2P Require Import TransactionExtra.
From S2P Require Import Block.
From S2P Require Import Currency.
From S2P Require Import Checkpoints.
From S2P Require Import ValidateTransaction.
From S2P Require Import TransactionPool.
Import Config.parameters Types.Types Serialization.Serialization TransactionExtra.TransactionExtra.
Import Currency.Currency Checkpoints.Checkpoints ValidateTransaction.ValidateTransaction.
Import (hints) TransactionPool.TransactionPool.

Module BlockchainCache.

(** ** Data *)

Record RawBlock := mkRawBlock {
  raw_block : BinaryArray;
  raw_transactions : list BinaryArray
}.

Record PackedOutIndex := mkPacked {
  poi_blockIndex : Z;
  poi_transactionIndex : Z;
  poi_outputIndex : Z
}.

Record CachedTransactionInfo := mkTransactionInfo {
  ti_blockIndex : Z;
  ti_transactionIndex : Z;
  ti_transactionHash : Hash;
  ti_unlockTime : Z;
  ti_outputs : list TransactionOutputTarget;
  ti_globalIndexes : list Z
}.

Record CachedBlockInfo := mkBlockInfo {
  bi_blockHash : Hash;
  bi_timestamp : Z;
  bi_cumulativeDifficulty : Z;
  bi_alreadyGeneratedCoins : Z;
  bi_alreadyGeneratedTransactions : Z;
  bi_blockSize : Z
}.

Record OutputGlobalIndexesForAmount := mkGlobalIndexes {
  og_startIndex : Z;
  og_outputs : list PackedOutIndex
}.

Record PushedBlockInfo := mkPushedBlockInfo {
  pushed_rawBlock : RawBlock;
  pushed_validatorState : gset KeyImage;
  pushed_blockSize : Z;
  pushed_generatedCoins : Z;
  pushed_blockDifficulty : Z
}.

(** The members of a cache, without [parent] and [children].  [spentImages] gives
    the block of a key image, [paymentIds] the payment id of a transaction. *)
Record segment := mkSegment {
  startIndex : Z;
  transactions : list CachedTransactionInfo;
  spentImages : gmap KeyImage Z;
  blockInfos : list CachedBlockInfo;
  keyOutputsGlobalIndexes : gmap Z OutputGlobalIndexesForAmount;
  paymentIds : gmap Hash Hash;
  storage : list RawBlock
}.

Abbreviation chain := (list segment).

Definition empty_segment (start : Z) : segment := mkSegment start [] ∅ [] ∅ ∅ [].

Definition set_transactions (l : list CachedTransactionInfo) (s : segment) : segment :=
  mkSegment (startIndex s) l (spentImages s) (blockInfos s) (keyOutputsGlobalIndexes s) (paymentIds s) (storage s).
Definition set_spentImages (m : gmap KeyImage Z) (s : segment) : segment :=
  mkSegment (startIndex s) (transactions s) m (blockInfos s) (keyOutputsGlobalIndexes s) (paymentIds s) (storage s).
Definition set_blockInfos (l : list CachedBlockInfo) (s : segment) : segment :=
  mkSegment (startIndex s) (transactions s) (spentImages s) l (keyOutputsGlobalIndexes s) (paymentIds s) (storage s).
Definition set_globalIndexes (m : gmap Z OutputGlobalIndexesForAmount) (s : segment) : segment :=
  mkSegment (startIndex s) (transactions s) (spentImages s) (blockInfos s) m (paymentIds s) (storage s).
Definition set_paymentIds (m : gmap Hash Hash) (s : segment) : segment :=
  mkSegment (startIndex s) (transactions s) (spentImages s) (blockInfos s) (keyOutputsGlobalIndexes s) m (storage s).
Definition set_storage (l : list RawBlock) (s : segment) : segment :=
  mkSegment (startIndex s) (transactions s) (spentImages s) (blockInfos s) (keyOutputsGlobalIndexes s) (paymentIds s) l.

(** [std::lower_bound] on a range whose elements below the bound come first. *)
Fixpoint lower_bound_by {A} (below : A -> bool) (l : list A) : nat :=
  match l with
  | [] => 0
  | x :: l => if below x then S (lower_bound_by below l) else 0
  end.

(** [std::lower_bound] by halving, on a range that need not be ordered: [first] and
    [len] are the position and the length of the part that is left. *)
Fixpoint lower_bound_loop {A} (fuel : nat) (below : A -> bool) (l : list A) (first len : nat) : nat :=
  match fuel with
  | O => first
  | S fuel =>
    if (len =? 0)%nat then first
    else
      let half := Nat.div2 len in
      match l !! (first + half)%nat with
      | None => first
      | Some x =>
        if below x then lower_bound_loop fuel below l (first + half + 1) (len - half - 1)
        else lower_bound_loop fuel below l first half
      end
  end.

Definition lower_bound_search {A} (below : A -> bool) (l : list A) : nat := lower_bound_loop (length l) below l 0 (length l).

(** [at] of a random access index, which checks the index. *)
Definition checked_at {A} (l : list A) (i : Z) : outcome A :=
  if i <? 0 then Err (RuntimeError "std::out_of_range")
  else match l !! Z.to_nat i with
       | Some x => Ok x
       | None => Err (RuntimeError "std::out_of_range")
       end.

Definition null_parent {A} : outcome A := Err (UndefinedBehaviour "null parent").

Definition assert_parent (parents : chain) : outcome unit :=
  assert_that (negb (is_empty parents)) "parent != nullptr".

(** ** The storage *)

Definition storage_getBlockByIndex (blocks : list RawBlock) (index : Z) : outcome RawBlock :=
  if u32 (Z.of_nat (length blocks)) <=? index
  then Err (RuntimeError "MemoryBlockchainStorage, index < blockCount!")
  else vec_at blocks index.

Definition storage_getBlockCount (blocks : list RawBlock) : Z := u32 (Z.of_nat (length blocks)).

Definition splitStorage (blocks : list RawBlock) (splitIndex : Z) : outcome (list RawBlock * list RawBlock) :=
  let! _ := assert_that (0 <? splitIndex) "splitIndex > 0" in
  let! _ := assert_that (splitIndex <? Z.of_nat (length blocks)) "splitIndex < blocks.size()" in
  Ok (take (Z.to_nat splitIndex) blocks, drop (Z.to_nat splitIndex) blocks).

(** ** Queries on the segment *)

Definition getBlockCount (s : segment) : Z := u32 (Z.of_nat (length (blockInfos s))).

Definition hasBlock (s : segment) (blockHash : Hash) : bool :=
  existsb (fun b => bool_decide (bi_blockHash b = blockHash)) (blockInfos s).

Definition getBlockIndex (s : segment) (blockHash : Hash) : outcome Z :=
  match list_find (fun b => bi_blockHash b = blockHash) (blockInfos s) with
  | None => Err (RuntimeError "no such block")
  | Some (i, _) => Ok (u32 (u32 (Z.of_nat i) + startIndex s))
  end.

Definition find_transaction (s : segment) (transactionHash : Hash) : option CachedTransactionInfo :=
  snd <$> list_find (fun t => ti_transactionHash t = transactionHash) (transactions s).

Definition find_in_block (s : segment) (block transaction : Z) : option CachedTransactionInfo :=
  snd <$> list_find (fun t => ti_blockIndex t = block /\ ti_transactionIndex t = transaction) (transactions s).

Definition hasTransaction (s : segment) (transactionHash : Hash) : bool :=
  match find_transaction s transactionHash with Some _ => true | None => false end.

Definition getBlockIndexContainingTx (s : segment) (transactionHash : Hash) : outcome Z :=
  match find_transaction s transactionHash with
  | Some t => Ok (ti_blockIndex t)
  | None => Err (AssertFailed "it != index.end()")
  end.

Definition getTransactionGlobalIndexes (s : segment) (transactionHash : Hash) : option (list Z) :=
  ti_globalIndexes <$> find_transaction s transactionHash.

(** Without the base transactions. *)
Definition getTransactionHashes (s : segment) : list Hash :=
  map ti_transactionHash (filter (fun t => ti_transactionIndex t <> 0) (transactions s)).

Definition getTopBlockIndex (s : segment) : outcome Z :=
  let! _ := assert_that (negb (is_empty (blockInfos s))) "!blockInfos.empty()" in
  Ok (u32 (startIndex s + storage_getBlockCount (storage s) - 1)).

Definition last_block (s : segment) : outcome CachedBlockInfo :=
  match last (blockInfos s) with
  | Some b => Ok b
  | None => Err (AssertFailed "!blockInfos.empty()")
  end.

Definition getTopBlockHash (s : segment) : outcome Hash := let! b := last_block s in Ok (bi_blockHash b).

Definition getCurrentCumulativeDifficulty (s : segment) : outcome Z :=
  let! b := last_block s in Ok (bi_cumulativeDifficulty b).

(** Unlike the functions below, this one does not ask the parent. *)
Definition getCurrentCumulativeDifficulty_at (s : segment) (blockIndex : Z) : outcome Z :=
  let! top := getTopBlockIndex s in
  let! _ := assert_that (blockIndex <=? top) "blockIndex <= getTopBlockIndex()" in
  let! b := checked_at (blockInfos s) (u32 (blockIndex - startIndex s)) in
  Ok (bi_cumulativeDifficulty b).

Definition fillOutputsSpentByBlock (s : segment) (blockIndex : Z) : gset KeyImage :=
  dom (filter (fun p => p.2 = blockIndex) (spentImages s)).

(** ** Queries on the chain *)

Fixpoint checkIfSpent_at (c : chain) (keyImage : KeyImage) (blockIndex : Z) : outcome bool :=
  match c with
  | [] => null_parent
  | s :: parents =>
    if blockIndex <? startIndex s then
      let! _ := assert_parent parents in
      checkIfSpent_at parents keyImage blockIndex
    else
      match spentImages s !! keyImage with
      | None => if is_empty parents then Ok false else checkIfSpent_at parents keyImage blockIndex
      | Some block => Ok (block <=? blockIndex)
      end
  end.

Fixpoint checkIfSpent (c : chain) (keyImage : KeyImage) : bool :=
  match c with
  | [] => false
  | s :: parents =>
    match spentImages s !! keyImage with
    | Some _ => true
    | None => checkIfSpent parents keyImage
    end
  end.

Fixpoint getBlockHash (c : chain) (blockIndex : Z) : outcome Hash :=
  match c with
  | [] => null_parent
  | s :: parents =>
    if blockIndex <? startIndex s then
      let! _ := assert_parent parents in
      getBlockHash parents blockIndex
    else
      let index := u32 (blockIndex - startIndex s) in
      let! _ := assert_that (index <? Z.of_nat (length (blockInfos s))) "blockIndex - startIndex < blockInfos.size()" in
      let! b := checked_at (blockInfos s) index in
      Ok (bi_blockHash b)
  end.

(** The elements from [start] on, which the loop reads without checking. *)
Definition infos_range (s : segment) (start count : Z) : outcome (list CachedBlockInfo) :=
  if (0 <=? start) && (start + count <=? Z.of_nat (length (blockInfos s)))
  then Ok (take (Z.to_nat count) (drop (Z.to_nat start) (blockInfos s)))
  else Err (UndefinedBehaviour "index out of range").

Fixpoint getBlockHashes (c : chain) (startBlockIndex maxCount : Z) : outcome (list Hash) :=
  match c with
  | [] => null_parent
  | s :: parents =>
    let size := Z.of_nat (length (blockInfos s)) in
    let! (hashes, start, blocksLeft) :=
      if startBlockIndex <? startIndex s then
        let! _ := assert_parent parents in
        let! hashes := getBlockHashes parents startBlockIndex maxCount in
        Ok (hashes, 0, Z.min (u64 (maxCount - Z.of_nat (length hashes))) size)
      else
        let start := u32 (startBlockIndex - startIndex s) in
        Ok ([], start, Z.min (u64 (size - start)) maxCount) in
    let! infos := infos_range s start blocksLeft in
    Ok (hashes ++ map bi_blockHash infos)
  end.

Fixpoint getKeyOutputsCountForAmount (c : chain) (amount blockIndex : Z) : outcome Z :=
  match c with
  | [] => null_parent
  | s :: parents =>
    match keyOutputsGlobalIndexes s !! amount with
    | None => if is_empty parents then Ok 0 else getKeyOutputsCountForAmount parents amount blockIndex
    | Some e =>
      Ok (u64 (og_startIndex e +
               Z.of_nat (lower_bound_by (fun o => poi_blockIndex o <? blockIndex) (og_outputs e))))
    end
  end.

(** [skipGenesisBlock] is [useGenesis = false]. *)
Fixpoint getLastUnits (c : chain) (count blockIndex : Z) (useGenesis : bool) (pred : CachedBlockInfo -> Z)
  : outcome (list Z) :=
  match c with
  | [] => null_parent
  | s :: parents =>
    let! top := getTopBlockIndex s in
    let! _ := assert_that (blockIndex <=? top) "blockIndex <= getTopBlockIndex()" in
    let to := if blockIndex <? startIndex s then 0 else u32 (u32 (blockIndex - startIndex s) + 1) in
    let realCount := Z.min count to in
    let from := to - realCount in
    let '(from, realCount) :=
      if negb useGenesis && (from =? 0) && negb (realCount =? 0) && is_empty parents
      then (from + 1, realCount - 1) else (from, realCount) in
    let! result :=
      if (realCount <? count) && negb (is_empty parents) then
        let! parent_top := match parents with [] => null_parent | p :: _ => getTopBlockIndex p end in
        getLastUnits parents (count - realCount) (Z.min blockIndex parent_top) useGenesis pred
      else Ok [] in
    let! infos := infos_range s from (to - from) in
    Ok (result ++ map pred infos)
  end.

(** [at] on the segment that has the block. *)
Fixpoint getBlockInfo (c : chain) (blockIndex : Z) : outcome CachedBlockInfo :=
  match c with
  | [] => null_parent
  | s :: parents =>
    if blockIndex <? startIndex s then
      let! _ := assert_parent parents in
      getBlockInfo parents blockIndex
    else checked_at (blockInfos s) (u32 (blockIndex - startIndex s))
  end.

Definition getAlreadyGeneratedCoins (c : chain) (blockIndex : Z) : outcome Z :=
  let! b := getBlockInfo c blockIndex in Ok (bi_alreadyGeneratedCoins b).

Definition getAlreadyGeneratedTransactions (c : chain) (blockIndex : Z) : outcome Z :=
  let! b := getBlockInfo c blockIndex in Ok (bi_alreadyGeneratedTransactions b).

Definition getLastTimestamps_at (c : chain) (count blockIndex : Z) (useGenesis : bool) : outcome (list Z) :=
  getLastUnits c count blockIndex useGenesis bi_timestamp.

Definition getLastBlocksSizes_at (c : chain) (count blockIndex : Z) (useGenesis : bool) : outcome (list Z) :=
  getLastUnits c count blockIndex useGenesis bi_blockSize.

Definition getLastCumulativeDifficulties_at (c : chain) (count blockIndex : Z) (useGenesis : bool) : outcome (list Z) :=
  getLastUnits c count blockIndex useGenesis bi_cumulativeDifficulty.

(** The top of the first segment. *)
Definition chain_top (c : chain) : outcome Z :=
  match c with [] => null_parent | s :: _ => getTopBlockIndex s end.

Definition getLastTimestamps (c : chain) (count : Z) : outcome (list Z) :=
  let! top := chain_top c in getLastTimestamps_at c count top false.

Definition getLastBlocksSizes (c : chain) (count : Z) : outcome (list Z) :=
  let! top := chain_top c in getLastBlocksSizes_at c count top false.

Definition getLastCumulativeDifficulties (c : chain) (count : Z) : outcome (list Z) :=
  let! top := chain_top c in getLastCumulativeDifficulties_at c count top false.

Definition getBlockMajorVersionForHeight (currency : Currency) (height : Z) : outcome Z :=
  let! detectors := core_upgrades currency in
  Ok (getBlockMajorVersion detectors height).

Definition getDifficultyForNextBlock (currency : Currency) (c : chain) (blockIndex : Z) : outcome Z :=
  let! top := chain_top c in
  let! _ := assert_that (blockIndex <=? top) "blockIndex <= getTopBlockIndex()" in
  let! version := getBlockMajorVersionForHeight currency (u32 (blockIndex + 1)) in
  let count := difficultyBlocksCountByBlockVersion currency version blockIndex in
  let! timestamps := getLastTimestamps_at c count blockIndex false in
  let! difficulties := getLastCumulativeDifficulties_at c count blockIndex false in
  getNextDifficulty currency version blockIndex timestamps difficulties.

(** ** Outputs *)

Section Outputs.
Context (currency : Currency) (now : Z).

Definition isTransactionSpendTimeUnlocked_at (c : chain) (unlockTime blockIndex : Z) : outcome bool :=
  if unlockTime <? m_maxBlockHeight currency
  then Ok (unlockTime <=? u64 (blockIndex + m_lockedTxAllowedDeltaBlocks currency))
  else if TRANSACTION_INPUT_BLOCKTIME_VALIDATION_HEIGHT <=? blockIndex then
    let! lastBlockTimestamps := getLastTimestamps c 1 in
    let! lastBlockTimestamp := checked_at lastBlockTimestamps 0 in
    Ok (unlockTime <=? u64 (lastBlockTimestamp + m_lockedTxAllowedDeltaSeconds currency))
  else Ok (unlockTime <=? u64 (now + m_lockedTxAllowedDeltaSeconds currency)).

Definition isTransactionSpendTimeUnlocked (c : chain) (unlockTime : Z) : outcome bool :=
  let! top := chain_top c in isTransactionSpendTimeUnlocked_at c unlockTime top.

(** [std::is_sorted] and no [std::adjacent_find]: strictly increasing. *)
Fixpoint strictly_sorted (l : list Z) : bool :=
  match l with
  | x :: ((y :: _) as l') => (x <? y) && strictly_sorted l'
  | _ => true
  end.

Definition assert_indexes (globalIndexes : list Z) : outcome unit :=
  let! _ := assert_that (negb (is_empty globalIndexes)) "!globalIndexes.isEmpty()" in
  assert_that (strictly_sorted globalIndexes) "std::is_sorted, std::adjacent_find".

(** The callback takes what it has collected so far. *)
Definition callback (A : Type) : Type :=
  CachedTransactionInfo -> PackedOutIndex -> Z -> A -> outcome (ExtractOutputKeysResult * A).

Fixpoint extract_own {A} (s : segment) (startGlobalIndex : Z) (outputs : list PackedOutIndex) (blockIndex : Z)
    (pred : callback A) (globalIndexes : list Z) (acc : A) : outcome (ExtractOutputKeysResult * A) :=
  match globalIndexes with
  | [] => Ok (SUCCESS, acc)
  | globalIndex :: globalIndexes =>
    if Z.of_nat (length outputs) <=? u32 (globalIndex - startGlobalIndex) then Ok (INVALID_GLOBAL_INDEX, acc)
    else
      let! outputIndex := vec_at outputs (u32 (globalIndex - startGlobalIndex)) in
      let! _ := assert_that (startIndex s <=? poi_blockIndex outputIndex) "outputIndex.blockIndex >= startIndex" in
      let! _ := assert_that (poi_blockIndex outputIndex <=? blockIndex) "outputIndex.blockIndex <= blockIndex" in
      match find_in_block s (poi_blockIndex outputIndex) (poi_transactionIndex outputIndex) with
      | None => Ok (INVALID_GLOBAL_INDEX, acc)
      | Some info =>
        let! (ret, acc) := pred info outputIndex globalIndex acc in
        match ret with
        | SUCCESS => extract_own s startGlobalIndex outputs blockIndex pred globalIndexes acc
        | _ => Ok (ret, acc)
        end
      end
  end.

Fixpoint extractKeyOutputs {A} (c : chain) (amount blockIndex : Z) (globalIndexes : list Z) (pred : callback A) (acc : A)
  : outcome (ExtractOutputKeysResult * A) :=
  match c with
  | [] => null_parent
  | s :: parents =>
    let! _ := assert_indexes globalIndexes in
    let ask_parent :=
      if is_empty parents then Ok (INVALID_GLOBAL_INDEX, acc)
      else extractKeyOutputs parents amount blockIndex globalIndexes pred acc in
    match keyOutputsGlobalIndexes s !! amount with
    | None => ask_parent
    | Some e =>
      if blockIndex <? startIndex s then ask_parent
      else
        let offset := lower_bound_by (fun i => i <? og_startIndex e) globalIndexes in
        let! (result, acc) :=
          if (offset =? 0)%nat then Ok (SUCCESS, acc)
          else
            let! _ := assert_parent parents in
            extractKeyOutputs parents amount blockIndex (take offset globalIndexes) pred acc in
        match result with
        | SUCCESS =>
          let! _ := assert_that (negb (is_empty (og_outputs e))) "!outputs.empty()" in
          extract_own s (og_startIndex e) (og_outputs e) blockIndex pred (drop offset globalIndexes) acc
        | _ => Ok (result, acc)
        end
    end
  end.

Definition push_key (c : chain) (blockIndex : Z) : callback (list PublicKey) := fun info index _ publicKeys =>
  let! unlocked := isTransactionSpendTimeUnlocked_at c (ti_unlockTime info) blockIndex in
  if negb unlocked then Ok (OUTPUT_LOCKED, publicKeys)
  else
    let! out := vec_at (ti_outputs info) (poi_outputIndex index) in
    match out with ToKey o => Ok (SUCCESS, publicKeys ++ [key o]) end.

Definition extractKeyOutputKeys_at (c : chain) (amount blockIndex : Z) (globalIndexes : list Z)
  : outcome (ExtractOutputKeysResult * list PublicKey) :=
  let! _ := assert_indexes globalIndexes in
  extractKeyOutputs c amount blockIndex globalIndexes (push_key c blockIndex) [].

Definition extractKeyOutputKeys (c : chain) (amount : Z) (globalIndexes : list Z)
  : outcome (ExtractOutputKeysResult * list PublicKey) :=
  let! top := chain_top c in extractKeyOutputKeys_at c amount top globalIndexes.

Definition extractKeyOtputReferences (c : chain) (amount : Z) (globalIndexes : list Z)
  : outcome (ExtractOutputKeysResult * list (Hash * Z)) :=
  let! _ := assert_indexes globalIndexes in
  let! top := chain_top c in
  extractKeyOutputs c amount top globalIndexes
    (fun info index _ refs => Ok (SUCCESS, refs ++ [(ti_transactionHash info, poi_outputIndex index)])) [].

Definition extractKeyOtputIndexes (c : chain) (amount : Z) (globalIndexes : list Z)
  : outcome (ExtractOutputKeysResult * list PackedOutIndex) :=
  let! _ := assert_that (negb (is_empty globalIndexes)) "!globalIndexes.isEmpty()" in
  let! top := chain_top c in
  extractKeyOutputs c amount top globalIndexes (fun _ index _ acc => Ok (SUCCESS, acc ++ [index])) [].

(** The offsets of the generator, in the order in which it gives them. *)
Fixpoint random_loop (c : chain) (s : segment) (e : OutputGlobalIndexesForAmount) (blockIndex : Z) (offsets : list Z)
  : outcome (list Z) :=
  match offsets with
  | [] => Ok []
  | offset :: offsets =>
    let! outIndex := vec_at (og_outputs e) offset in
    match find_in_block s (poi_blockIndex outIndex) (poi_transactionIndex outIndex) with
    | None => Err (UndefinedBehaviour "end iterator")
    | Some info =>
      let! unlocked := isTransactionSpendTimeUnlocked_at c (ti_unlockTime info) blockIndex in
      let! rest := random_loop c s e blockIndex offsets in
      Ok (if unlocked : bool then u32 (og_startIndex e + offset) :: rest else rest)
    end
  end.

(** [shuffle n] is the sequence of a [ShuffleGenerator] of [n] numbers. *)
Fixpoint getRandomOutsByAmount (shuffle : Z -> list Z) (c : chain) (amount count blockIndex : Z) : outcome (list Z) :=
  match c with
  | [] => null_parent
  | s :: parents =>
    match keyOutputsGlobalIndexes s !! amount with
    | None => if is_empty parents then Ok [] else getRandomOutsByAmount shuffle parents amount count blockIndex
    | Some e =>
      let unlocked o := poi_blockIndex o <=? u32 (blockIndex - m_minedMoneyUnlockWindow currency) in
      let skipped := lower_bound_by (fun o => negb (unlocked o)) (rev (og_outputs e)) in
      let dist := u32 (Z.of_nat (length (og_outputs e) - skipped)) in
      let dist := Z.min (u32 count) dist in
      let! outputs := random_loop c s e blockIndex (shuffle dist) in
      let found := Z.of_nat (length outputs) in
      if (found <? count) && negb (is_empty parents) then
        let! prevs := getRandomOutsByAmount shuffle parents amount (count - found) blockIndex in
        Ok (outputs ++ prevs)
      else Ok outputs
    end
  end.

End Outputs.

(** ** Blocks and transactions *)

Section Hashing.
Context (cn_fast_hash : list Z -> Hash).

Fixpoint getBlockByIndex (c : chain) (index : Z) : outcome RawBlock :=
  match c with
  | [] => null_parent
  | s :: parents =>
    if index <? startIndex s then getBlockByIndex parents index
    else storage_getBlockByIndex (storage s) (u32 (index - startIndex s))
  end.

(** The bound that is asserted is one too large. *)
Fixpoint getRawTransaction (c : chain) (index transactionIndex : Z) : outcome BinaryArray :=
  match c with
  | [] => null_parent
  | s :: parents =>
    if index <? startIndex s then getRawTransaction parents index transactionIndex
    else
      let! rawBlock := storage_getBlockByIndex (storage s) (u32 (index - startIndex s)) in
      if transactionIndex =? 0 then
        let! block := fromBinaryArray (Block.Block.ser_BlockTemplate cn_fast_hash) Block.Block.default_block (raw_block rawBlock) in
        toBinaryArray ser_Transaction (baseTransaction block)
      else
        let! _ := assert_that (u32 (transactionIndex - 1) <=? Z.of_nat (length (raw_transactions rawBlock)))
                    "rawBlock.transactions.size() >= transactionIndex - 1" in
        vec_at (raw_transactions rawBlock) (u32 (transactionIndex - 1))
  end.

(** The transactions that are found, and the hashes that are not. *)
Fixpoint getRawTransactions (c : chain) (requested : list Hash) : outcome (list BinaryArray * list Hash) :=
  match requested with
  | [] => Ok ([], [])
  | transactionHash :: requested =>
    match c with
    | [] => null_parent
    | s :: _ =>
      match find_transaction s transactionHash with
      | None =>
        let! (found, missed) := getRawTransactions c requested in
        Ok (found, transactionHash :: missed)
      | Some t =>
        let! raw := getRawTransaction c (ti_blockIndex t) (ti_transactionIndex t) in
        let! (found, missed) := getRawTransactions c requested in
        Ok (raw :: found, missed)
      end
    end
  end.

Definition getRawTransactions_all (c : chain) (requested : list Hash) : outcome (list BinaryArray) :=
  let! (ret, misses) := getRawTransactions c requested in
  let! _ := assert_that (is_empty misses) "misses.empty()" in
  Ok ret.

End Hashing.

Fixpoint getTransactionCount (c : chain) : Z :=
  match c with
  | [] => 0
  | s :: parents => getTransactionCount parents + Z.of_nat (length (transactions s))
  end.

(** The blocks of the storage with an index in the range. *)
Definition storage_range (s : segment) (from to : Z) : list RawBlock :=
  take (Z.to_nat (to - from)) (drop (Z.to_nat (from - startIndex s)) (storage s)).

Fixpoint getBlocksByHeight (c : chain) (startHeight endHeight : Z) : outcome (list RawBlock) :=
  match c with
  | [] => null_parent
  | s :: parents =>
    if endHeight <? startIndex s then getBlocksByHeight parents startHeight endHeight
    else
      let! blocks :=
        if startHeight <? startIndex s then getBlocksByHeight parents startHeight (startIndex s) else Ok [] in
      let startOffset := Z.max startHeight (startIndex s) in
      let blockCount := storage_getBlockCount (storage s) in
      let endHeight := if startIndex s + blockCount <? endHeight then startIndex s + blockCount else endHeight in
      Ok (blocks ++ storage_range s startOffset endHeight)
  end.

Fixpoint getNonEmptyBlocks (c : chain) (startHeight blockCount : Z) : outcome (list RawBlock) :=
  match c with
  | [] => null_parent
  | s :: parents =>
    let! blocks := if startHeight <? startIndex s then getNonEmptyBlocks parents startHeight blockCount else Ok [] in
    if (startHeight <? startIndex s) && (Z.of_nat (length blocks) =? blockCount) then Ok blocks
    else
      let startOffset := Z.max startHeight (startIndex s) in
      let own := filter (fun b => raw_transactions b <> [])
        (storage_range s startOffset (startIndex s + storage_getBlockCount (storage s))) in
      Ok (blocks ++ take (Z.to_nat (blockCount - Z.of_nat (length blocks))) own)
  end.

Fixpoint getGlobalIndexes (c : chain) (transactionHashes : list Hash) : outcome (gmap Hash (list Z)) :=
  match c with
  | [] => null_parent
  | s :: parents =>
    let found := filter (fun h => is_Some (find_transaction s h)) transactionHashes in
    let remaining := filter (fun h => find_transaction s h = None) transactionHashes in
    let indexes : gmap Hash (list Z) := list_to_map (omap (fun h => t ← find_transaction s h; Some (h, ti_globalIndexes t)) found) in
    if is_empty remaining then Ok indexes
    else
      let! parentResult := getGlobalIndexes parents remaining in
      Ok (indexes ∪ parentResult)
  end.

Fixpoint getTransactionHashesByPaymentId (c : chain) (paymentId : Hash) : gset Hash :=
  match c with
  | [] => ∅
  | s :: parents =>
    getTransactionHashesByPaymentId parents paymentId ∪ dom (filter (fun p => p.2 = paymentId) (paymentIds s))
  end.

(** ** Timestamps *)

(** The test for the segment is the wrong way round: it finds the first block only. *)
Fixpoint getBlockHeightForTimestamp (c : chain) (timestamp : Z) : outcome (bool * Z) :=
  match c with
  | [] => null_parent
  | s :: parents =>
    match head (blockInfos s), last (blockInfos s) with
    | Some front, Some back =>
      if bi_timestamp back <? timestamp then Ok (false, 0)
      else if timestamp <=? bi_timestamp front then
        Ok (true, startIndex s + Z.of_nat (lower_bound_search (fun b => bi_timestamp b <? timestamp) (blockInfos s)))
      else if is_empty parents then Ok (false, 0)
      else getBlockHeightForTimestamp parents timestamp
    | _, _ => Err (UndefinedBehaviour "empty container")
    end
  end.

(** A [runtime_error] of the parent means the first block of this segment. *)
Fixpoint getTimestampLowerBoundBlockIndex (c : chain) (timestamp : Z) : outcome Z :=
  match c with
  | [] => null_parent
  | s :: parents =>
    match head (blockInfos s), last (blockInfos s) with
    | Some front, Some back =>
      if bi_timestamp back <? timestamp then Err (RuntimeError "no blocks for this timestamp, too large")
      else if bi_timestamp front <? timestamp then
        Ok (u32 (startIndex s +
                 u32 (Z.of_nat (lower_bound_search (fun b => bi_timestamp b <? timestamp) (blockInfos s)))))
      else if is_empty parents then Ok 0
      else
        match getTimestampLowerBoundBlockIndex parents timestamp with
        | Ok blockIndex => Ok (if blockIndex =? 2 ^ 32 - 1 then startIndex s else blockIndex)
        | Err (RuntimeError _) => Ok (startIndex s)
        | Err e => Err e
        end
    | _, _ => Err (AssertFailed "!blockInfos.empty()")
    end
  end.

(** The ordered index puts an element after those with the same timestamp. *)
Fixpoint timestamp_insert (b : CachedBlockInfo) (l : list CachedBlockInfo) : list CachedBlockInfo :=
  match l with
  | [] => [b]
  | x :: l => if bi_timestamp b <? bi_timestamp x then b :: x :: l else x :: timestamp_insert b l
  end.

Definition by_timestamp (infos : list CachedBlockInfo) : list CachedBlockInfo :=
  fold_left (fun l b => timestamp_insert b l) infos [].

Fixpoint getBlockHashesByTimestamps (c : chain) (timestampBegin secondsCount : Z) : list Hash :=
  if secondsCount =? 0 then []
  else
    match c with
    | [] => []
    | s :: parents =>
      let index := by_timestamp (blockInfos s) in
      let last := u64 (u64 (timestampBegin + secondsCount) - 1) in
      let begin := lower_bound_by (fun b => bi_timestamp b <? timestampBegin) index in
      let end_ := lower_bound_by (fun b => bi_timestamp b <=? last) index in
      getBlockHashesByTimestamps parents timestampBegin secondsCount ++
      map bi_blockHash (take (end_ - begin) (drop begin index))
    end.

(** ** Pushing a block *)

Section Push.
Context (cn_fast_hash : list Z -> Hash).
Context (parents : chain).

Definition addSpentKeyImage (keyImage : KeyImage) (blockIndex : Z) (s : segment) : outcome segment :=
  let! spent := checkIfSpent_at (s :: parents) keyImage (u32 (blockIndex - 1)) in
  let! _ := assert_that (negb spent) "!checkIfSpent(keyImage, blockIndex - 1)" in
  match spentImages s !! keyImage with
  | Some _ => Ok s
  | None => Ok (set_spentImages (<[keyImage := blockIndex]> (spentImages s)) s)
  end.

Fixpoint add_images (images : list KeyImage) (blockIndex : Z) (s : segment) : outcome segment :=
  match images with
  | [] => Ok s
  | keyImage :: images =>
    let! s := addSpentKeyImage keyImage blockIndex s in
    add_images images blockIndex s
  end.

Definition insertKeyOutputToGlobalIndex (amount : Z) (output : PackedOutIndex) (blockIndex : Z) (s : segment)
  : outcome (Z * segment) :=
  let! (start, outs) :=
    match keyOutputsGlobalIndexes s !! amount with
    | Some e => Ok (og_startIndex e, og_outputs e)
    | None =>
      if is_empty parents then Ok (0, [])
      else
        let! count := getKeyOutputsCountForAmount parents amount blockIndex in
        Ok (u32 count, [])
    end in
  let e := mkGlobalIndexes start (outs ++ [output]) in
  Ok (u32 (u32 (start + u32 (Z.of_nat (length (og_outputs e)))) - 1),
      set_globalIndexes (<[amount := e]> (keyOutputsGlobalIndexes s)) s).

Fixpoint push_outputs (outs : list TransactionOutput) (blockIndex transactionIndex outputCount : Z) (s : segment)
  : outcome (list Z * segment) :=
  match outs with
  | [] => Ok ([], s)
  | output :: outs =>
    let poi := mkPacked blockIndex transactionIndex (wrap 16 outputCount) in
    match target output with
    | ToKey _ =>
      let! (index, s) := insertKeyOutputToGlobalIndex (out_amount output) poi blockIndex s in
      let! (indexes, s) := push_outputs outs blockIndex transactionIndex (outputCount + 1) s in
      Ok (index :: indexes, s)
    end
  end.

(** [insert] of a container with two unique indexes. *)
Definition insert_transaction (info : CachedTransactionInfo) (s : segment) : segment :=
  match find_in_block s (ti_blockIndex info) (ti_transactionIndex info), find_transaction s (ti_transactionHash info) with
  | None, None => set_transactions (transactions s ++ [info]) s
  | _, _ => s
  end.

Definition pushTransaction (t : TransactionPool.CachedTransaction) (blockIndex transactionInBlockIndex : Z)
    (s : segment) : outcome segment :=
  let tx := TransactionPool.getTransaction t in
  let hash := TransactionPool.hash_of cn_fast_hash t in
  let! _ := assert_that (Z.of_nat (length (outputs tx)) <=? 2 ^ 16 - 1)
              "tx.outputs.size() <= std::numeric_limits<uint16_t>::max()" in
  let! (globalIndexes, s) := push_outputs (outputs tx) blockIndex transactionInBlockIndex 0 s in
  let! _ := assert_that (negb (hasTransaction s hash))
              "transactions.get<TransactionHashTag>().count(transactionCacheInfo.transactionHash) == 0" in
  let s := insert_transaction
    (mkTransactionInfo blockIndex transactionInBlockIndex hash (unlockTime tx) (map target (outputs tx)) globalIndexes) s in
  match getPaymentIdFromTxExtra (extra tx) with
  | None => Ok s
  | Some paymentId =>
    match paymentIds s !! hash with
    | Some _ => Ok s
    | None => Ok (set_paymentIds (<[hash := paymentId]> (paymentIds s)) s)
    end
  end.

Fixpoint push_transactions (txs : list TransactionPool.CachedTransaction) (blockIndex transactionBlockIndex : Z)
    (s : segment) : outcome segment :=
  match txs with
  | [] => Ok s
  | t :: txs =>
    let! s := pushTransaction t blockIndex (wrap 16 transactionBlockIndex) s in
    push_transactions txs blockIndex (transactionBlockIndex + 1) s
  end.

(** The totals below the new block. *)
Definition totals_below (blockIndex : Z) (s : segment) : outcome (Z * Z * Z) :=
  if getBlockCount s =? 0 then
    match parents with
    | [] => Ok (0, 0, 0)
    | p :: _ =>
      let below := u32 (blockIndex - 1) in
      let! cumulativeDifficulty := getCurrentCumulativeDifficulty_at p below in
      let! coins := getAlreadyGeneratedCoins parents below in
      let! count := getAlreadyGeneratedTransactions parents below in
      Ok (cumulativeDifficulty, coins, count)
    end
  else
    let! b := last_block s in
    Ok (bi_cumulativeDifficulty b, bi_alreadyGeneratedCoins b, bi_alreadyGeneratedTransactions b).

Definition doPushBlock (block : BlockTemplate) (cachedTransactions : list TransactionPool.CachedTransaction)
    (validatorState : gset KeyImage) (blockSize generatedCoins blockDifficulty : Z) (rawBlock : RawBlock) (s : segment)
  : outcome segment :=
  let! _ := assert_that (0 <? blockSize) "blockSize > 0" in
  let! _ := assert_that (0 <? blockDifficulty) "blockDifficulty > 0" in
  let blockIndex := Block.Block.getBlockIndex block in
  let! (difficulty, coins, count) := totals_below blockIndex s in
  let! blockHash := Block.Block.getBlockHash cn_fast_hash block in
  let blockInfo := mkBlockInfo blockHash (timestamp block) (u64 (difficulty + blockDifficulty))
    (u64 (coins + generatedCoins)) (u64 (count + Z.of_nat (length cachedTransactions) + 1)) (u32 blockSize) in
  let! _ := assert_that (negb (hasBlock s blockHash)) "!hasBlock(blockInfo.blockHash)" in
  let s := set_blockInfos (blockInfos s ++ [blockInfo]) s in
  let! s := add_images (elements validatorState) blockIndex s in
  let! _ := assert_that (Z.of_nat (length cachedTransactions) <=? 2 ^ 16 - 1)
              "cachedTransactions.size() <= std::numeric_limits<uint16_t>::max()" in
  let! base := Block.Block.getTransactionBinaryArray (baseTransaction block) in
  let! s := push_transactions
    (TransactionPool.mkCached (baseTransaction block) base :: cachedTransactions) blockIndex 0 s in
  Ok (set_storage (storage s ++ [rawBlock]) s).

End Push.

(** [BlockchainCache::BlockchainCache]: the root cache starts with the genesis block. *)
Definition create_root (cn_fast_hash : list Z -> Hash) (currency : Currency) : outcome segment :=
  let genesisBlock := genesisBlockTemplate currency in
  let minerReward := fold_left (fun a o => u64 (a + out_amount o)) (outputs (baseTransaction genesisBlock)) 0 in
  let! _ := assert_that (0 <? minerReward) "minerReward > 0" in
  let! base := toBinaryArray ser_Transaction (baseTransaction genesisBlock) in
  let! raw := toBinaryArray (Block.Block.ser_BlockTemplate cn_fast_hash) genesisBlock in
  doPushBlock cn_fast_hash [] genesisBlock [] ∅ (Z.of_nat (length base)) minerReward 1 (mkRawBlock raw [])
    (empty_segment 0).

(** What a push of the same block would need. *)
Definition getPushedBlockInfo (c : chain) (blockIndex : Z) : outcome PushedBlockInfo :=
  match c with
  | [] => null_parent
  | s :: parents =>
    let! _ := assert_that (startIndex s <=? blockIndex) "blockIndex >= startIndex" in
    let! _ := assert_that (blockIndex <? u32 (startIndex s + getBlockCount s)) "blockIndex < startIndex + getBlockCount()" in
    let localIndex := u32 (blockIndex - startIndex s) in
    let! cachedBlock := vec_at (blockInfos s) localIndex in
    let! rawBlock := storage_getBlockByIndex (storage s) localIndex in
    let! (cumulativeDifficulty, coins) :=
      if startIndex s <? blockIndex then
        let! previousBlock := vec_at (blockInfos s) (u32 (localIndex - 1)) in
        Ok (bi_cumulativeDifficulty previousBlock, bi_alreadyGeneratedCoins previousBlock)
      else if is_empty parents then Ok (0, 0)
      else
        let below := u32 (startIndex s - 1) in
        let! difficulties := getLastCumulativeDifficulties_at parents 1 below true in
        let! cumulativeDifficulty := vec_at difficulties 0 in
        let! coins := getAlreadyGeneratedCoins parents below in
        Ok (cumulativeDifficulty, coins) in
    Ok (mkPushedBlockInfo rawBlock (fillOutputsSpentByBlock s blockIndex) (bi_blockSize cachedBlock)
          (u64 (bi_alreadyGeneratedCoins cachedBlock - coins))
          (u64 (bi_cumulativeDifficulty cachedBlock - cumulativeDifficulty)))
  end.

(** ** Splitting a segment *)

Definition splitSpentKeyImages (m : gmap KeyImage Z) (splitBlockIndex : Z) : gmap KeyImage Z * gmap KeyImage Z :=
  (filter (fun p => p.2 < splitBlockIndex) m, filter (fun p => splitBlockIndex <= p.2) m).

(** The lower and the upper part of the transactions, and of the payment ids of
    the transactions. *)
Definition splitTransactions (l : list CachedTransactionInfo) (ids : gmap Hash Hash) (splitBlockIndex : Z)
  : (list CachedTransactionInfo * gmap Hash Hash) * (list CachedTransactionInfo * gmap Hash Hash) :=
  let lower := filter (fun t => ti_blockIndex t < splitBlockIndex) l in
  let upper := filter (fun t => splitBlockIndex <= ti_blockIndex t) l in
  let moved := map ti_transactionHash upper in
  ((lower, filter (fun p => p.1 ∉ moved) ids), (upper, filter (fun p => p.1 ∈ moved) ids)).

(** The parts of the outputs of one amount, [None] for an empty one. *)
Definition split_outputs (splitBlockIndex : Z) (e : OutputGlobalIndexesForAmount)
  : option OutputGlobalIndexesForAmount * option OutputGlobalIndexesForAmount :=
  let bound := lower_bound_by (fun o => poi_blockIndex o <? splitBlockIndex) (og_outputs e) in
  let newOutputs := drop bound (og_outputs e) in
  let newStart := u32 (u32 (og_startIndex e + u32 (Z.of_nat (length (og_outputs e)))) - u32 (Z.of_nat (length newOutputs))) in
  let rest := take bound (og_outputs e) in
  (if is_empty rest then None else Some (mkGlobalIndexes (og_startIndex e) rest),
   if is_empty newOutputs then None else Some (mkGlobalIndexes newStart newOutputs)).

Definition splitGlobalIndexes (m : gmap Z OutputGlobalIndexesForAmount) (splitBlockIndex : Z)
  : gmap Z OutputGlobalIndexesForAmount * gmap Z OutputGlobalIndexesForAmount :=
  (omap (fun e => (split_outputs splitBlockIndex e).1) m, omap (fun e => (split_outputs splitBlockIndex e).2) m).

(** The parts of the containers: what remains in the cache, and the new cache. *)
Definition split_containers (s : segment) (splitBlockIndex : Z) : outcome (segment * segment) :=
  let! (lowerStorage, newStorage) := splitStorage (storage s) (u32 (splitBlockIndex - startIndex s)) in
  let '(lowerImages, newImages) := splitSpentKeyImages (spentImages s) splitBlockIndex in
  let '((lowerTransactions, lowerIds), (newTransactions, newIds)) :=
    splitTransactions (transactions s) (paymentIds s) splitBlockIndex in
  let bound := Z.to_nat (u32 (splitBlockIndex - startIndex s)) in
  let '(lowerIndexes, newIndexes) := splitGlobalIndexes (keyOutputsGlobalIndexes s) splitBlockIndex in
  Ok (mkSegment (startIndex s) lowerTransactions lowerImages (take bound (blockInfos s)) lowerIndexes lowerIds lowerStorage,
      mkSegment splitBlockIndex newTransactions newImages (drop bound (blockInfos s)) newIndexes newIds newStorage).

Definition split (s : segment) (splitBlockIndex : Z) : outcome (segment * segment) :=
  let! _ := assert_that (startIndex s <? splitBlockIndex) "splitBlockIndex > startIndex" in
  let! top := getTopBlockIndex s in
  let! _ := assert_that (splitBlockIndex <=? top) "splitBlockIndex <= getTopBlockIndex()" in
  split_containers s splitBlockIndex.

(** [rewind] is a split whose upper part is destroyed when the function returns;
    the cache keeps a pointer to it among its children. *)
Definition rewind (s : segment) (height : Z) : outcome segment :=
  let! (lower, _) := split_containers s (u32 height) in
  Ok lower.

(** ** The interface for the validator *)

Record cache_view := mkView {
  view_currency : Currency;
  view_now : Z;
  view_chain : chain
}.

#[export] Instance BlockchainCache_interface : IBlockchainCache cache_view := {
  ValidateTransaction.checkIfSpent v keyImage blockIndex := checkIfSpent_at (view_chain v) keyImage blockIndex;
  ValidateTransaction.extractKeyOutputKeys v amount blockIndex globalIndexes :=
    extractKeyOutputKeys_at (view_currency v) (view_now v) (view_chain v) amount blockIndex globalIndexes
}.

End BlockchainCache.
