(* ===== verification/CacheProofs.v ===== *)
(** * Proofs about the blockchain cache

    A chain of segments behaves as one segment that holds all its blocks:
    [flatten] is that segment, [chain_ok] the invariant of chains.  The queries
    give the answer that the blocks of the flat segment determine, pushing a
    block onto the chain pushes it onto the flat segment, and splitting a
    segment leaves the flat segment as it was. *)

From S2P Require Import Prelude.
From S2P Require Import Types.
From S2P Require Import Serialization.
From S2P Require Import Block.
From S2P Require Import Currency.
From S2P Require Import ValidateTransaction.
From S2P Require Import TransactionPool.
From S2P Require Import BlockchainCache.
Import Types.Types Serialization.Serialization Currency.Currency ValidateTransaction.ValidateTransaction.
Import BlockchainCache.BlockchainCache.

Module CacheProofs.

(** ** Lists *)

Lemma lower_bound_le {A} (p : A -> bool) l : (lower_bound_by p l <= length l)%nat.
Proof. induction l as [|x l IH]; simpl; [lia|]. case_if; simpl; lia. Qed.

Lemma lower_bound_take {A} (p : A -> bool) l : Forall (fun x => p x = true) (take (lower_bound_by p l) l).
Proof. induction l as [|x l IH]; simpl; [constructor|]. case_if; simpl; constructor; done. Qed.

Lemma lower_bound_app {A} (p : A -> bool) l1 l2 :
  Forall (fun x => p x = true) l1 -> lower_bound_by p (l1 ++ l2) = (length l1 + lower_bound_by p l2)%nat.
Proof. induction 1 as [|x l Hx _ IH]; simpl; [done|]. by rewrite Hx, IH. Qed.

Lemma lower_bound_zero {A} (p : A -> bool) l : Forall (fun x => p x = false) l -> lower_bound_by p l = 0%nat.
Proof. destruct 1 as [|x l Hx _]; simpl; [done|]. by rewrite Hx. Qed.

(** The search by halving ends: what it returns separates the two parts of a range
    whose elements below the bound come first. *)
Lemma lower_bound_loop_eq {A} (p : A -> bool) l n : forall fuel first len,
  (forall i x, l !! i = Some x -> p x = (i <? n)%nat) -> (first <= n <= first + len)%nat -> (first + len <= length l)%nat ->
  (len <= fuel)%nat -> lower_bound_loop fuel p l first len = n.
Proof.
  induction fuel as [|fuel IH]; intros first len Hp Hn Hl Hf; cbn [lower_bound_loop]; [lia|].
  destruct (Nat.eqb_spec len 0) as [->|Hlen]; [lia|]. cbv zeta. pose proof (Nat.lt_div2 len ltac:(lia)) as Hhalf.
  generalize dependent (Nat.div2 len). intros half Hhalf.
  destruct (lookup_lt_is_Some_2 l (first + half)) as [x Hx]; [lia|]. rewrite Hx, (Hp _ _ Hx).
  destruct (Nat.ltb_spec (first + half) n); (apply IH; [exact Hp|lia..]).
Qed.

Lemma lower_bound_search_eq {A} (f : A -> Z) (b : Z) l : StronglySorted (fun x y => f x <= f y) l ->
  lower_bound_search (fun x => f x <? b) l = lower_bound_by (fun x => f x <? b) l.
Proof.
  intros Hs. set (n := lower_bound_by _ l). assert (Hn : (n <= length l)%nat) by apply lower_bound_le.
  apply lower_bound_loop_eq; [|lia..]. intros i x Hx. destruct (Nat.ltb_spec i n) as [Hi|Hi].
  - pose proof (lower_bound_take (fun x => f x <? b) l) as Ht. fold n in Ht. eapply Forall_lookup_1 in Ht; [exact Ht|].
    by rewrite lookup_take_lt.
  - revert Hi Hx. subst n. clear Hn. revert i. induction Hs as [|y l Hs IH Hy]; intros i Hi Hx; [done|].
    cbn [lower_bound_by] in Hi. destruct (Z.ltb_spec (f y) b) as [Hlt|Hge].
    + destruct i as [|i]; [lia|]. apply (IH i); [lia|done].
    + apply Z.ltb_ge. destruct i as [|i]; [injection Hx as <-; done|]. pose proof (Forall_lookup_1 _ _ _ _ Hy Hx). simpl in *. lia.
Qed.

(** On a range sorted by [f], the elements from the bound on are not below it. *)
Lemma lower_bound_drop {A} (f : A -> Z) (b : Z) l : StronglySorted (fun x y => f x <= f y) l ->
  Forall (fun x => b <= f x) (drop (lower_bound_by (fun x => f x <? b) l) l).
Proof.
  induction 1 as [|x l Hs IH Hx]; simpl; [constructor|]. case_if; simpl; [done|]. bool_prop.
  constructor; [lia|]. eapply Forall_impl; [exact Hx|]. simpl. lia.
Qed.

Lemma filter_all {A} (P : A -> Prop) `{!forall x, Decision (P x)} l : Forall P l -> filter P l = l.
Proof. induction 1 as [|x l Hx _ IH]; [done|]. by rewrite filter_cons_True, IH. Qed.

Lemma filter_none {A} (P : A -> Prop) `{!forall x, Decision (P x)} l : Forall (fun x => ~ P x) l -> filter P l = [].
Proof. induction 1 as [|x l Hx _ IH]; [done|]. by rewrite filter_cons_False, IH. Qed.

Lemma lower_bound_filter {A} (f : A -> Z) (b : Z) l : StronglySorted (fun x y => f x <= f y) l ->
  take (lower_bound_by (fun x => f x <? b) l) l = filter (fun x => f x < b) l /\
  drop (lower_bound_by (fun x => f x <? b) l) l = filter (fun x => b <= f x) l.
Proof.
  induction 1 as [|x l Hs [IH1 IH2] Hx]; [done|]. cbn [lower_bound_by]. destruct (Z.ltb_spec (f x) b).
  - cbn [take drop]. rewrite filter_cons_True, filter_cons_False by lia. by rewrite IH1, IH2.
  - cbn [take drop]. rewrite filter_cons_False, filter_cons_True by lia. split.
    + symmetry. apply filter_none. eapply Forall_impl; [exact Hx|]. simpl. lia.
    + f_equal. symmetry. apply filter_all. eapply Forall_impl; [exact Hx|]. simpl. lia.
Qed.

(** ** The flat segment *)

Definition seg_end (s : segment) : Z := startIndex s + Z.of_nat (length (blockInfos s)).

(** The number of outputs of an amount up to the end of the segment. *)
Definition entry_count (m : gmap Z OutputGlobalIndexesForAmount) (amount : Z) : Z :=
  match m !! amount with Some e => og_startIndex e + Z.of_nat (length (og_outputs e)) | None => 0 end.

Definition join_entry (l u : option OutputGlobalIndexesForAmount) : option OutputGlobalIndexesForAmount :=
  match l, u with
  | Some l, Some u => Some (mkGlobalIndexes (og_startIndex l) (og_outputs l ++ og_outputs u))
  | Some l, None => Some l
  | None, u => u
  end.

(** A segment and the one above it as one. *)
Definition join (l u : segment) : segment :=
  mkSegment (startIndex l) (transactions l ++ transactions u) (spentImages l ∪ spentImages u)
    (blockInfos l ++ blockInfos u)
    (merge join_entry (keyOutputsGlobalIndexes l) (keyOutputsGlobalIndexes u))
    (paymentIds l ∪ paymentIds u) (storage l ++ storage u).

Definition flatten (c : chain) : segment := foldr (fun s flat => join flat s) (empty_segment 0) c.

(** ** The invariant *)

Definition in_range (s : segment) (i : Z) : Prop := startIndex s <= i < seg_end s.

(** The transaction of an output is in the segment and has the output. *)
Definition output_exists (s : segment) (o : PackedOutIndex) : Prop :=
  exists info, find_in_block s (poi_blockIndex o) (poi_transactionIndex o) = Some info /\
    0 <= poi_outputIndex o < Z.of_nat (length (ti_outputs info)).

Record entry_ok (s : segment) (e : OutputGlobalIndexesForAmount) : Prop := {
  entry_nonempty : og_outputs e <> [];
  entry_start : 0 <= og_startIndex e;
  entry_fits : og_startIndex e + Z.of_nat (length (og_outputs e)) < 2 ^ 32;
  entry_sorted : StronglySorted (fun a b => poi_blockIndex a <= poi_blockIndex b) (og_outputs e);
  entry_range : Forall (fun o => in_range s (poi_blockIndex o)) (og_outputs e);
  entry_exists : Forall (output_exists s) (og_outputs e)
}.

Record segment_ok (s : segment) : Prop := {
  ok_start : 0 <= startIndex s;
  ok_end : seg_end s < 2 ^ 32;
  ok_storage : length (storage s) = length (blockInfos s);
  ok_spent : map_Forall (fun _ i => in_range s i) (spentImages s);
  ok_sorted : StronglySorted (fun a b => ti_blockIndex a <= ti_blockIndex b) (transactions s);
  ok_range : Forall (fun t => in_range s (ti_blockIndex t)) (transactions s);
  ok_outputs : map_Forall (fun _ e => entry_ok s e) (keyOutputsGlobalIndexes s)
}.

(** A segment on top of what is below it. *)
Record linked (flat s : segment) : Prop := {
  link_start : startIndex s = seg_end flat;
  link_spent : spentImages flat ##ₘ spentImages s;
  link_outputs : map_Forall (fun amount e => og_startIndex e = entry_count (keyOutputsGlobalIndexes flat) amount)
                   (keyOutputsGlobalIndexes s)
}.

Fixpoint chain_ok (c : chain) : Prop :=
  match c with
  | [] => True
  | s :: parents =>
    segment_ok s /\ linked (flatten parents) s /\ chain_ok parents /\
    (forall p, head parents = Some p -> blockInfos p <> [])
  end.

(** ** Joining *)

Lemma join_lookup l u amount :
  keyOutputsGlobalIndexes (join l u) !! amount =
  join_entry (keyOutputsGlobalIndexes l !! amount) (keyOutputsGlobalIndexes u !! amount).
Proof. simpl. rewrite lookup_merge. unfold diag_None. by destruct (_ !! _), (_ !! _). Qed.

Lemma join_end l u : startIndex u = seg_end l -> seg_end (join l u) = seg_end u.
Proof. intros H. unfold seg_end in *. simpl. rewrite length_app. lia. Qed.

Lemma find_in_block_eq s b t : find_in_block s b t =
  snd <$> list_find (fun x => ti_blockIndex x = b /\ ti_transactionIndex x = t) (transactions s).
Proof. done. Qed.

Lemma find_in_block_spec s b t info : find_in_block s b t = Some info ->
  info ∈ transactions s /\ ti_blockIndex info = b /\ ti_transactionIndex info = t.
Proof.
  rewrite find_in_block_eq. intros Hf. apply fmap_Some in Hf as ([i x] & Hf & ->).
  apply list_find_Some in Hf as (Hi & [<- <-] & _). split; [by eapply list_elem_of_lookup_2|done].
Qed.

(** Transactions below block [k] are found in the lower segment, the others in
    the upper one. *)
Lemma find_in_block_split l u k b t : Forall (fun x => ti_blockIndex x < k) (transactions l) ->
  Forall (fun x => k <= ti_blockIndex x) (transactions u) ->
  find_in_block (join l u) b t = if b <? k then find_in_block l b t else find_in_block u b t.
Proof.
  intros Hl Hu. rewrite Forall_forall in Hl, Hu. assert (E : find_in_block (join l u) b t =
    match find_in_block l b t with Some x => Some x | None => find_in_block u b t end).
  { rewrite !find_in_block_eq. cbn [transactions join]. destruct (list_find _ (transactions l)) as [[i x]|] eqn:E.
    - by rewrite (list_find_app_l _ _ _ _ _ E).
    - rewrite (list_find_app_r _ _ _ E). by destruct (list_find _ (transactions u)) as [[]|]. }
  rewrite E. destruct (find_in_block l b t) as [x|] eqn:El; [|destruct (find_in_block u b t) as [y|] eqn:Eu].
  - apply find_in_block_spec in El as (Hx & <- & _). by rewrite (proj2 (Z.ltb_lt _ _)) by auto.
  - apply find_in_block_spec in Eu as (Hy & <- & _). by rewrite (proj2 (Z.ltb_ge _ _)) by auto.
  - by case_if.
Qed.

Lemma find_in_block_join l u b t : segment_ok l -> segment_ok u -> startIndex u = seg_end l ->
  find_in_block (join l u) b t = if b <? startIndex u then find_in_block l b t else find_in_block u b t.
Proof.
  intros Hl Hu Hs. apply find_in_block_split.
  - eapply Forall_impl; [apply (ok_range _ Hl)|]. unfold in_range. simpl. lia.
  - eapply Forall_impl; [apply (ok_range _ Hu)|]. unfold in_range. simpl. lia.
Qed.

Lemma in_range_join_l l u i : startIndex u = seg_end l -> in_range l i -> in_range (join l u) i.
Proof. unfold in_range. intros H Hi. rewrite (join_end _ _ H). cbn [join startIndex]. unfold seg_end in *. lia. Qed.

Lemma in_range_join_u l u i : startIndex u = seg_end l -> in_range u i -> in_range (join l u) i.
Proof. unfold in_range. intros H Hi. rewrite (join_end _ _ H). cbn [join startIndex]. unfold seg_end in *. lia. Qed.

Lemma output_exists_join_l l u o : segment_ok l -> segment_ok u -> startIndex u = seg_end l ->
  in_range l (poi_blockIndex o) -> output_exists l o -> output_exists (join l u) o.
Proof.
  intros Hl Hu Hs Hr (info & Hf & Ho). exists info. rewrite find_in_block_join by done. unfold in_range in Hr.
  by rewrite (proj2 (Z.ltb_lt _ _)) by lia.
Qed.

Lemma output_exists_join_u l u o : segment_ok l -> segment_ok u -> startIndex u = seg_end l ->
  in_range u (poi_blockIndex o) -> output_exists u o -> output_exists (join l u) o.
Proof.
  intros Hl Hu Hs Hr (info & Hf & Ho). exists info. rewrite find_in_block_join by done. unfold in_range in Hr.
  by rewrite (proj2 (Z.ltb_ge _ _)) by lia.
Qed.

Lemma entry_ok_mono s s' e : (forall i, in_range s i -> in_range s' i) ->
  (forall o, in_range s (poi_blockIndex o) -> output_exists s o -> output_exists s' o) -> entry_ok s e -> entry_ok s' e.
Proof.
  intros Hr Ho [H1 H2 H3 H4 H5 H6]. split; [done..| |].
  - eapply Forall_impl; [exact H5|]. intros o. apply Hr.
  - rewrite Forall_forall in H5, H6 |- *. auto.
Qed.

Lemma entry_ok_app s e outs : entry_ok s e -> og_startIndex e + Z.of_nat (length (og_outputs e ++ outs)) < 2 ^ 32 ->
  StronglySorted (fun a b => poi_blockIndex a <= poi_blockIndex b) outs ->
  (forall a b, a ∈ og_outputs e -> b ∈ outs -> poi_blockIndex a <= poi_blockIndex b) ->
  Forall (fun o => in_range s (poi_blockIndex o)) outs -> Forall (output_exists s) outs ->
  entry_ok s (mkGlobalIndexes (og_startIndex e) (og_outputs e ++ outs)).
Proof.
  intros [H1 H2 H3 H4 H5 H6] Hf Hs Hab Hr Hx. split; cbn [og_startIndex og_outputs]; [|done|done| | |].
  - by destruct (og_outputs e).
  - by apply StronglySorted_app_2.
  - by apply Forall_app.
  - by apply Forall_app.
Qed.

(** Outputs of an amount that both segments have are numbered consecutively. *)
Definition numbered_after (l u : segment) : Prop :=
  forall amount el eu, keyOutputsGlobalIndexes l !! amount = Some el -> keyOutputsGlobalIndexes u !! amount = Some eu ->
    og_startIndex eu = og_startIndex el + Z.of_nat (length (og_outputs el)).

Lemma linked_numbered l u : linked l u -> numbered_after l u.
Proof. intros [_ _ Ho] amount el eu El Eu. pose proof (Ho _ _ Eu) as H. unfold entry_count in H. by rewrite El in H. Qed.

Lemma join_ok l u : segment_ok l -> segment_ok u -> startIndex u = seg_end l -> numbered_after l u -> segment_ok (join l u).
Proof.
  intros Hl Hu Hs Ho.
  assert (Ml : forall e, entry_ok l e -> entry_ok (join l u) e).
  { intros e. apply entry_ok_mono; [intros i; by apply in_range_join_l|intros o; by apply output_exists_join_l]. }
  assert (Mu : forall e, entry_ok u e -> entry_ok (join l u) e).
  { intros e. apply entry_ok_mono; [intros i; by apply in_range_join_u|intros o; by apply output_exists_join_u]. }
  split.
  - apply Hl.
  - rewrite (join_end _ _ Hs). apply Hu.
  - cbn [join storage blockInfos]. by rewrite !length_app, (ok_storage _ Hl), (ok_storage _ Hu).
  - cbn [join spentImages]. apply map_Forall_union_2.
    + eapply map_Forall_impl; [apply Hl|]. intros ? i. by apply in_range_join_l.
    + eapply map_Forall_impl; [apply Hu|]. intros ? i. by apply in_range_join_u.
  - cbn [join transactions]. apply StronglySorted_app_2; [|apply Hl|apply Hu]. intros x y Hx Hy.
    pose proof (ok_range _ Hl) as Rl. pose proof (ok_range _ Hu) as Ru. rewrite Forall_forall in Rl, Ru.
    specialize (Rl x Hx). specialize (Ru y Hy). unfold in_range in *. lia.
  - cbn [join transactions]. apply Forall_app. split.
    + eapply Forall_impl; [apply Hl|]. intros t. by apply in_range_join_l.
    + eapply Forall_impl; [apply Hu|]. intros t. by apply in_range_join_u.
  - intros amount e He. rewrite join_lookup in He.
    destruct (keyOutputsGlobalIndexes l !! amount) as [el|] eqn:El, (keyOutputsGlobalIndexes u !! amount) as [eu|] eqn:Eu;
      cbn [join_entry] in He; [|injection He as <-; apply Ml; by eapply ok_outputs|injection He as <-; apply Mu; by eapply ok_outputs|done].
    injection He as <-. pose proof (ok_outputs _ Hl _ _ El) as Kl. pose proof (ok_outputs _ Hu _ _ Eu) as Ku.
    pose proof (Ho _ _ _ El Eu) as Hst. pose proof (Mu _ Ku) as Ku'. apply entry_ok_app.
    + by apply Ml.
    + rewrite length_app. pose proof (entry_fits _ _ Ku). lia.
    + apply Ku.
    + intros a b Ha Hb. pose proof (entry_range _ _ Kl) as Rl. pose proof (entry_range _ _ Ku) as Ru.
      rewrite Forall_forall in Rl, Ru. specialize (Rl a Ha). specialize (Ru b Hb). unfold in_range in *. lia.
    + apply Ku'.
    + apply Ku'.
Qed.

Lemma empty_ok i : 0 <= i < 2 ^ 32 -> segment_ok (empty_segment i).
Proof.
  intros Hi. split; try done; unfold seg_end; simpl; try lia; try constructor; try apply map_Forall_empty.
Qed.

Lemma flatten_ok c : chain_ok c -> segment_ok (flatten c) /\ startIndex (flatten c) = 0.
Proof.
  induction c as [|s c IH]; [split; [by apply empty_ok|done]|]. intros (Hs & Hl & Hc & _). destruct (IH Hc) as [Hf H0].
  split; [|done]. apply join_ok; [done..| |by apply linked_numbered]. apply Hl.
Qed.

Lemma flatten_end s parents : chain_ok (s :: parents) -> seg_end (flatten (s :: parents)) = seg_end s.
Proof. intros (Hs & Hl & Hc & _). apply join_end, Hl. Qed.

Lemma flatten_app c1 c2 : flatten (c1 ++ c2) = foldr (fun s flat => join flat s) (flatten c2) c1.
Proof. apply foldr_app. Qed.

(** ** Queries *)

(** The segment below a segment starts at zero, so a segment that starts above
    zero has a parent. *)
Lemma has_parent s parents i : chain_ok (s :: parents) -> 0 <= i < startIndex s -> parents <> [].
Proof. intros (Hs & Hl & _) Hi ->. pose proof (link_start _ _ Hl) as E. unfold seg_end in E. simpl in E. lia. Qed.

Lemma assert_parent_ok parents : parents <> [] -> assert_parent parents = Ok tt.
Proof. by destruct parents. Qed.

Lemma is_empty_false {A} (l : list A) : l <> [] -> is_empty l = false.
Proof. by destruct l. Qed.

(** The length of what is below a segment. *)
Lemma below_length s parents : chain_ok (s :: parents) ->
  Z.of_nat (length (blockInfos (flatten parents))) = startIndex s /\
  Z.of_nat (length (storage (flatten parents))) = startIndex s.
Proof.
  intros (Hs & Hl & Hc & _). destruct (flatten_ok _ Hc) as [Hf H0]. rewrite (ok_storage _ Hf).
  pose proof (link_start _ _ Hl) as E. unfold seg_end in E. lia.
Qed.

Lemma start_fits s parents : chain_ok (s :: parents) -> 0 <= startIndex s /\ seg_end s < 2 ^ 32.
Proof. intros (Hs & _). split; apply Hs. Qed.

Definition spent_by (flat : segment) (keyImage : KeyImage) (blockIndex : Z) : bool :=
  match spentImages flat !! keyImage with Some b => b <=? blockIndex | None => false end.

Lemma checkIfSpent_flat c keyImage blockIndex : chain_ok c -> c <> [] -> 0 <= blockIndex ->
  checkIfSpent_at c keyImage blockIndex = Ok (spent_by (flatten c) keyImage blockIndex).
Proof.
  intros Hok Hne Hi. induction c as [|s parents IH]; [done|]. clear Hne. pose proof Hok as (Hs & Hl & Hc & _).
  cbn [checkIfSpent_at]. unfold spent_by. change (spentImages (flatten (s :: parents)))
    with (spentImages (flatten parents) ∪ spentImages s).
  pose proof (link_spent _ _ Hl) as Hd. destruct (Z.ltb_spec blockIndex (startIndex s)) as [Hlt|Hge].
  - pose proof (has_parent _ _ blockIndex Hok ltac:(lia)) as Hp. rewrite assert_parent_ok by done. cbn [obind].
    rewrite IH by done. unfold spent_by. f_equal. destruct (spentImages (flatten parents) !! keyImage) as [b|] eqn:E.
    + by rewrite (lookup_union_Some_l _ _ _ _ E).
    + rewrite lookup_union_r by done. destruct (spentImages s !! keyImage) as [b|] eqn:E'; [|done].
      pose proof (ok_spent _ Hs _ _ E') as Hr. unfold in_range in Hr. symmetry. apply Z.leb_gt. lia.
  - destruct (spentImages s !! keyImage) as [b|] eqn:E.
    + by rewrite (lookup_union_Some_r _ _ _ _ Hd E).
    + rewrite lookup_union_l by done. destruct parents as [|p parents']; [done|]. cbn [is_empty]. by rewrite IH.
Qed.

Lemma infos_lookup s parents i : chain_ok (s :: parents) -> 0 <= i ->
  blockInfos (flatten (s :: parents)) !! Z.to_nat i =
  if i <? startIndex s then blockInfos (flatten parents) !! Z.to_nat i else blockInfos s !! Z.to_nat (i - startIndex s).
Proof.
  intros Hok Hi. destruct (below_length _ _ Hok) as [Hb _]. change (blockInfos (flatten (s :: parents)))
    with (blockInfos (flatten parents) ++ blockInfos s). destruct (Z.ltb_spec i (startIndex s)).
  - by rewrite lookup_app_l by lia.
  - rewrite lookup_app_r by lia. f_equal. lia.
Qed.

Lemma checked_at_lookup {A} (l : list A) i x : 0 <= i -> l !! Z.to_nat i = Some x -> checked_at l i = Ok x.
Proof. intros Hi Hx. unfold checked_at. rewrite (proj2 (Z.ltb_ge _ _)) by lia. by rewrite Hx. Qed.

Lemma getBlockInfo_flat c i b : chain_ok c -> 0 <= i < 2 ^ 32 -> blockInfos (flatten c) !! Z.to_nat i = Some b ->
  getBlockInfo c i = Ok b.
Proof.
  intros Hok Hi. induction c as [|s parents IH]; [done|]. rewrite infos_lookup by (done || lia). intros Hb.
  destruct (start_fits _ _ Hok) as [H0 H1]. cbn [getBlockInfo]. destruct (Z.ltb_spec i (startIndex s)).
  - rewrite assert_parent_ok by (apply (has_parent s _ i); [done|lia]). cbn [obind]. apply IH; [apply Hok|done].
  - rewrite wrap_small by (unfold fits; lia). apply checked_at_lookup; [lia|done].
Qed.

Lemma getBlockHash_flat c i b : chain_ok c -> 0 <= i < 2 ^ 32 -> blockInfos (flatten c) !! Z.to_nat i = Some b ->
  getBlockHash c i = Ok (bi_blockHash b).
Proof.
  intros Hok Hi. induction c as [|s parents IH]; [done|]. rewrite infos_lookup by (done || lia). intros Hb.
  destruct (start_fits _ _ Hok) as [H0 H1]. cbn [getBlockHash]. destruct (Z.ltb_spec i (startIndex s)).
  - rewrite assert_parent_ok by (apply (has_parent s _ i); [done|lia]). cbn [obind]. apply IH; [apply Hok|done].
  - rewrite wrap_small by (unfold fits; lia). pose proof (lookup_lt_Some _ _ _ Hb).
    rewrite (proj2 (Z.ltb_lt _ _)) by lia. cbn [assert_that obind].
    by rewrite (checked_at_lookup _ _ b) by (done || lia).
Qed.

Lemma getBlockByIndex_flat c i b : chain_ok c -> 0 <= i < 2 ^ 32 -> storage (flatten c) !! Z.to_nat i = Some b ->
  getBlockByIndex c i = Ok b.
Proof.
  intros Hok Hi. induction c as [|s parents IH]; [done|]. destruct (below_length _ _ Hok) as [_ Hl].
  destruct (start_fits _ _ Hok) as [H0 H1]. pose proof Hok as (Hs & _).
  change (storage (flatten (s :: parents))) with (storage (flatten parents) ++ storage s).
  cbn [getBlockByIndex]. destruct (Z.ltb_spec i (startIndex s)).
  - rewrite lookup_app_l by lia. apply IH, Hok.
  - rewrite lookup_app_r by lia. intros Hb. pose proof (lookup_lt_Some _ _ _ Hb) as Hlt.
    pose proof (ok_storage _ Hs) as Hst. unfold seg_end in H1.
    unfold storage_getBlockByIndex. rewrite !wrap_small by (unfold fits; lia).
    rewrite (proj2 (Z.leb_gt _ _)) by lia. apply vec_at_ok; [lia|]. rewrite <- Hb. f_equal. lia.
Qed.

Definition lastn {A} (n : nat) (l : list A) : list A := drop (length l - n) l.

Lemma lastn_app {A} n (l1 l2 : list A) : lastn n (l1 ++ l2) = lastn (n - length l2) l1 ++ lastn n l2.
Proof.
  unfold lastn. rewrite length_app, drop_app. f_equal; [|f_equal; lia].
  destruct (decide (n <= length l2)%nat); [rewrite !drop_ge by lia; done|f_equal; lia].
Qed.

Lemma lastn_all {A} n (l : list A) : (length l <= n)%nat -> lastn n l = l.
Proof. intros H. unfold lastn. by replace (length l - n)%nat with 0%nat by lia. Qed.

Lemma lastn_0 {A} (l : list A) : lastn 0 l = [].
Proof. unfold lastn. rewrite Nat.sub_0_r. apply drop_all. Qed.

(** The last [count] of the blocks up to [blockIndex], without the genesis block
    unless it is wanted. *)
Definition last_units (flat : segment) (count blockIndex : Z) (useGenesis : bool) : list CachedBlockInfo :=
  lastn (Z.to_nat count) (drop (if useGenesis then 0 else 1) (take (Z.to_nat (blockIndex + 1)) (blockInfos flat))).

Lemma infos_range_ok s from count : 0 <= from -> 0 <= count -> from + count <= Z.of_nat (length (blockInfos s)) ->
  infos_range s from count = Ok (take (Z.to_nat count) (drop (Z.to_nat from) (blockInfos s))).
Proof.
  intros. unfold infos_range. by rewrite (proj2 (Z.leb_le _ _)), (proj2 (Z.leb_le (from + count) _)) by lia.
Qed.

Lemma infos_range_last s count to : 0 <= count <= to -> to <= Z.of_nat (length (blockInfos s)) ->
  infos_range s (to - count) count = Ok (lastn (Z.to_nat count) (take (Z.to_nat to) (blockInfos s))).
Proof.
  intros. rewrite infos_range_ok by lia. f_equal. unfold lastn. rewrite length_take_le by lia.
  rewrite skipn_firstn_comm. f_equal; [lia|]. f_equal. lia.
Qed.

Lemma getTopBlockIndex_ok s : segment_ok s -> blockInfos s <> [] -> getTopBlockIndex s = Ok (seg_end s - 1).
Proof.
  intros Hs Hne. unfold getTopBlockIndex. rewrite is_empty_false by done. cbn [negb assert_that obind].
  pose proof (ok_start _ Hs). pose proof (ok_end _ Hs) as He. pose proof (ok_storage _ Hs) as Hst. unfold seg_end in *.
  assert (length (blockInfos s) <> 0%nat) by (by destruct (blockInfos s)).
  unfold storage_getBlockCount. rewrite (wrap_small 32 (Z.of_nat (length (storage s)))) by (unfold fits; lia).
  rewrite wrap_small by (unfold fits; lia). f_equal. lia.
Qed.

(** The parents' part of the answer. *)
Definition units_below (parents : chain) (count blockIndex : Z) (useGenesis : bool) (pred : CachedBlockInfo -> Z)
  : outcome (list Z) :=
  if (0 <? count) && negb (is_empty parents) then
    let! parent_top := match parents with [] => null_parent | p :: _ => getTopBlockIndex p end in
    getLastUnits parents count (Z.min blockIndex parent_top) useGenesis pred
  else Ok [].

Lemma getLastUnits_step s parents count i useGenesis pred : segment_ok s -> blockInfos s <> [] -> 0 <= count ->
  0 <= i < seg_end s -> (parents = [] -> startIndex s = 0) ->
  getLastUnits (s :: parents) count i useGenesis pred =
  let to := if i <? startIndex s then 0 else i - startIndex s + 1 in
  let skip := negb useGenesis && is_empty parents && (to <=? count) && (0 <? count) in
  let! result := units_below parents (count - Z.min count to) i useGenesis pred in
  Ok (result ++ map pred (lastn (Z.to_nat (Z.min count to - Z.b2z skip)) (take (Z.to_nat to) (blockInfos s)))).
Proof.
  intros Hs Hne Hc Hi H0. cbn [getLastUnits]. rewrite (getTopBlockIndex_ok _ Hs Hne). cbn [obind].
  rewrite (proj2 (Z.leb_le i _)) by lia. cbn [assert_that obind]. pose proof (ok_start _ Hs). pose proof (ok_end _ Hs).
  set (to := if i <? startIndex s then 0 else u32 (u32 (i - startIndex s) + 1)).
  assert (Et : to = if i <? startIndex s then 0 else i - startIndex s + 1).
  { subst to. case_if; [done|]. bool_prop. rewrite (wrap_small 32 (i - startIndex s)) by (unfold fits; lia).
    by rewrite wrap_small by (unfold fits; lia). }
  cbv zeta. rewrite <- Et. clearbody to.
  assert (Hto : 0 <= to <= Z.of_nat (length (blockInfos s))) by (subst to; unfold seg_end in *; case_if; bool_prop; lia).
  assert (Hto1 : parents = [] -> 1 <= to) by (intros Hp; subst to; rewrite H0 by done; case_if; bool_prop; lia).
  destruct parents as [|p parents]; unfold units_below; cbn [is_empty negb]; rewrite ?andb_false_r, ?andb_true_r.
  - specialize (Hto1 eq_refl). cbn [obind]. destruct useGenesis; cbn [negb andb].
    + rewrite !andb_false_r. cbn [obind]. replace (to - (to - Z.min count to)) with (Z.min count to) by lia.
      rewrite infos_range_last by lia. cbn [obind app Z.b2z]. by rewrite Z.sub_0_r.
    + destruct (Z.eqb_spec (to - Z.min count to) 0) as [E|E]; cbn [andb];
        [destruct (Z.eqb_spec (Z.min count to) 0); cbn [negb andb]; [rewrite (proj2 (Z.ltb_ge 0 count)) by lia|
           rewrite (proj2 (Z.leb_le to count)), (proj2 (Z.ltb_lt 0 count)) by lia]|rewrite (proj2 (Z.leb_gt to count)) by lia];
        cbn [negb andb Z.b2z]; rewrite ?andb_false_r; cbn [obind app Z.b2z].
      * replace (to - (to - Z.min count to)) with (Z.min count to) by lia. rewrite infos_range_last by lia.
        cbn [obind]. by rewrite Z.sub_0_r.
      * replace (to - Z.min count to + 1) with (to - (Z.min count to - 1)) by lia.
        replace (to - (to - (Z.min count to - 1))) with (Z.min count to - 1) by lia. by rewrite infos_range_last by lia.
      * replace (to - (to - Z.min count to)) with (Z.min count to) by lia. rewrite infos_range_last by lia.
        cbn [obind]. by rewrite Z.sub_0_r.
  - cbn [andb]. replace (to - (to - Z.min count to)) with (Z.min count to) by lia. rewrite infos_range_last by lia.
    replace (0 <? count - Z.min count to) with (Z.min count to <? count)
      by (destruct (Z.ltb_spec (Z.min count to) count), (Z.ltb_spec 0 (count - Z.min count to)); lia || done).
    cbn [Z.b2z]. rewrite Z.sub_0_r. destruct (Z.min count to <? count); [|done].
    by destruct (getTopBlockIndex p).
Qed.

Lemma parents_start s parents : chain_ok (s :: parents) -> parents = [] -> startIndex s = 0.
Proof. intros (_ & Hl & _) ->. apply (link_start _ _ Hl). Qed.

Lemma parents_infos s p parents : chain_ok (s :: p :: parents) ->
  blockInfos p <> [] /\ seg_end p = startIndex s /\ chain_ok (p :: parents).
Proof.
  intros (Hs & Hl & Hc & Hp). split_and!; [by apply Hp| |done]. rewrite (link_start _ _ Hl). symmetry. by apply flatten_end.
Qed.

Lemma take_infos s parents i : chain_ok (s :: parents) -> 0 <= i ->
  take (Z.to_nat (i + 1)) (blockInfos (flatten (s :: parents))) =
  take (Z.to_nat (Z.min i (startIndex s - 1) + 1)) (blockInfos (flatten parents)) ++
  take (Z.to_nat (if i <? startIndex s then 0 else i - startIndex s + 1)) (blockInfos s).
Proof.
  intros Hok Hi. destruct (below_length _ _ Hok) as [Hb _].
  change (blockInfos (flatten (s :: parents))) with (blockInfos (flatten parents) ++ blockInfos s).
  rewrite take_app. destruct (Z.ltb_spec i (startIndex s)).
  - rewrite Z.min_l by lia. f_equal. f_equal. lia.
  - rewrite Z.min_r by lia. rewrite !take_ge with (l := blockInfos (flatten parents)) by lia. f_equal. f_equal. lia.
Qed.

Lemma below_nonempty s p parents : chain_ok (s :: p :: parents) -> 1 <= startIndex s.
Proof.
  intros Hok. destruct (parents_infos _ _ _ Hok) as (Hp & <- & Hp'). pose proof (start_fits _ _ Hp') as [H0 _].
  unfold seg_end. assert (length (blockInfos p) <> 0%nat) by (by destruct (blockInfos p)). lia.
Qed.

Lemma getLastUnits_flat c count i useGenesis pred : chain_ok c -> (forall s, head c = Some s -> blockInfos s <> []) ->
  0 <= count -> 0 <= i < seg_end (flatten c) ->
  getLastUnits c count i useGenesis pred = Ok (map pred (last_units (flatten c) count i useGenesis)).
Proof.
  revert count i. induction c as [|s parents IH]; intros count i Hok Hne Hc Hi; [unfold seg_end in Hi; simpl in Hi; lia|].
  pose proof Hok as (Hs & Hl & Hc' & Hp). specialize (Hne s eq_refl). rewrite (flatten_end _ _ Hok) in Hi.
  rewrite getLastUnits_step by (done || by apply parents_start).
  cbv zeta. set (to := if i <? startIndex s then 0 else i - startIndex s + 1).
  assert (Hto : 0 <= to <= Z.of_nat (length (blockInfos s))) by (subst to; unfold seg_end in *; case_if; bool_prop; lia).
  unfold last_units. rewrite (take_infos _ _ _ Hok) by lia. fold to. destruct parents as [|p parents].
  - assert (Ht1 : 1 <= to) by (subst to; rewrite (parents_start _ _ Hok) by done; case_if; bool_prop; lia).
    unfold units_below. cbn [is_empty negb andb obind app]. rewrite andb_false_r, andb_true_r. cbn [obind app].
    change (blockInfos (flatten [])) with (@nil CachedBlockInfo). rewrite take_nil, app_nil_l. do 2 f_equal.
    destruct useGenesis; cbn [negb andb Z.b2z].
    + rewrite Z.sub_0_r, drop_0. destruct (Z.le_gt_cases count to); [by rewrite Z.min_l|].
      rewrite Z.min_r by lia. rewrite !lastn_all; rewrite ?length_take_le by lia; [done|lia..].
    + unfold lastn. rewrite length_drop, length_take_le, drop_drop by lia.
      destruct (Z.leb_spec to count), (Z.ltb_spec 0 count); cbn [andb Z.b2z]; f_equal; lia.
  - destruct (parents_infos _ _ _ Hok) as (Hpi & Hpe & Hpok). pose proof (below_nonempty _ _ _ Hok) as H1.
    destruct (below_length _ _ Hok) as [Hb _]. set (below := blockInfos (flatten (p :: parents))) in *.
    cbn [is_empty andb]. rewrite andb_false_r. cbn [andb Z.b2z]. rewrite Z.sub_0_r.
    set (l := take (Z.to_nat (Z.min i (startIndex s - 1) + 1)) below).
    assert (Hll : (1 <= length l)%nat) by (subst l; rewrite length_take_le by lia; lia).
    rewrite drop_app_le, lastn_app by (destruct useGenesis; lia). rewrite map_app. rewrite length_take_le by lia.
    assert (E : units_below (p :: parents) (count - Z.min count to) i useGenesis pred =
      Ok (map pred (lastn (Z.to_nat count - Z.to_nat to) (drop (if useGenesis then 0 else 1) l)))).
    { unfold units_below. cbn [is_empty negb]. rewrite andb_true_r. destruct (Z.ltb_spec 0 (count - Z.min count to)).
      - rewrite (getTopBlockIndex_ok p) by (done || apply Hpok). cbn [obind]. rewrite Hpe.
        rewrite IH; [|done|by intros ? [= <-]|lia|rewrite (flatten_end _ _ Hpok); lia].
        unfold last_units. fold below. fold l. do 3 f_equal. lia.
      - replace (Z.to_nat count - Z.to_nat to)%nat with 0%nat by lia. by rewrite lastn_0. }
    rewrite E. cbn [obind]. do 2 f_equal. f_equal. destruct (Z.le_gt_cases count to); [by rewrite Z.min_l|].
    rewrite Z.min_r by lia. rewrite !lastn_all; rewrite ?length_take_le by lia; [done|lia..].
Qed.

(** *** Outputs *)

Definition flat_outputs (flat : segment) (amount : Z) : list PackedOutIndex :=
  match keyOutputsGlobalIndexes flat !! amount with Some e => og_outputs e | None => [] end.

Lemma flatten_starts c : chain_ok c -> map_Forall (fun _ e => og_startIndex e = 0) (keyOutputsGlobalIndexes (flatten c)).
Proof.
  induction c as [|s parents IH]; [intros _; apply map_Forall_empty|]. intros (Hs & Hl & Hc & _) amount e He.
  change (flatten (s :: parents)) with (join (flatten parents) s) in He. rewrite join_lookup in He.
  destruct (keyOutputsGlobalIndexes (flatten parents) !! amount) as [el|] eqn:El.
  - destruct (keyOutputsGlobalIndexes s !! amount); injection He as <-; exact (IH Hc amount el El).
  - cbn [join_entry] in He. rewrite (link_outputs _ _ Hl _ _ He). unfold entry_count. by rewrite El.
Qed.

Lemma flatten_count c amount : chain_ok c ->
  entry_count (keyOutputsGlobalIndexes (flatten c)) amount = Z.of_nat (length (flat_outputs (flatten c) amount)).
Proof.
  intros Hok. unfold entry_count, flat_outputs. destruct (keyOutputsGlobalIndexes (flatten c) !! amount) as [e|] eqn:E; [|done].
  by rewrite (flatten_starts _ Hok _ _ E).
Qed.

Lemma flat_outputs_cons s parents amount :
  flat_outputs (flatten (s :: parents)) amount =
  flat_outputs (flatten parents) amount ++ match keyOutputsGlobalIndexes s !! amount with Some e => og_outputs e | None => [] end.
Proof.
  unfold flat_outputs. change (flatten (s :: parents)) with (join (flatten parents) s). rewrite join_lookup.
  destruct (keyOutputsGlobalIndexes (flatten parents) !! amount), (keyOutputsGlobalIndexes s !! amount); simpl;
    by rewrite ?app_nil_r.
Qed.

Lemma flat_outputs_range c amount : chain_ok c ->
  Forall (fun o => in_range (flatten c) (poi_blockIndex o) /\ output_exists (flatten c) o) (flat_outputs (flatten c) amount).
Proof.
  intros Hok. destruct (flatten_ok _ Hok) as [Hf _]. unfold flat_outputs.
  destruct (keyOutputsGlobalIndexes (flatten c) !! amount) as [e|] eqn:E; [|constructor].
  pose proof (ok_outputs _ Hf _ _ E) as [_ _ _ _ H1 H2]. rewrite Forall_and. done.
Qed.

(** The start of an entry is the number of outputs below its segment. *)
Lemma entry_below s parents amount e : chain_ok (s :: parents) -> keyOutputsGlobalIndexes s !! amount = Some e ->
  og_startIndex e = Z.of_nat (length (flat_outputs (flatten parents) amount)).
Proof. intros (Hs & Hl & Hc & _) He. by rewrite (link_outputs _ _ Hl _ _ He), flatten_count. Qed.

Lemma getKeyOutputsCountForAmount_flat c amount i : chain_ok c -> (forall s, head c = Some s -> startIndex s <= i) ->
  c <> [] -> getKeyOutputsCountForAmount c amount i =
  Ok (Z.of_nat (length (filter (fun o => poi_blockIndex o < i) (flat_outputs (flatten c) amount)))).
Proof.
  induction c as [|s parents IH]; [done|]. intros Hok Hi _. specialize (Hi s eq_refl). pose proof Hok as (Hs & Hl & Hc & _).
  cbn [getKeyOutputsCountForAmount]. rewrite flat_outputs_cons.
  destruct (keyOutputsGlobalIndexes s !! amount) as [e|] eqn:Ee.
  - pose proof (ok_outputs _ Hs _ _ Ee) as He. destruct (lower_bound_filter _ i _ (entry_sorted _ _ He)) as [Ht _].
    rewrite (entry_below _ _ _ _ Hok Ee). pose proof (entry_fits _ _ He) as Hf. rewrite (entry_below _ _ _ _ Hok Ee) in Hf.
    pose proof (lower_bound_le (fun o => poi_blockIndex o <? i) (og_outputs e)).
    rewrite wrap_small by (unfold fits; lia). f_equal. rewrite filter_app, length_app, <- Ht, length_take_le by done.
    rewrite filter_all; [lia|]. eapply Forall_impl; [by apply flat_outputs_range|]. intros o [Hr _].
    unfold in_range in Hr. rewrite <- (link_start _ _ Hl) in Hr. lia.
  - rewrite app_nil_r. destruct parents as [|p parents]; [done|]. cbn [is_empty]. apply IH; [done| |done].
    intros ? [= <-]. destruct (parents_infos _ _ _ Hok) as (_ & E & _). unfold seg_end in E. lia.
Qed.

(** The output with a global index, and its transaction. *)
Definition lookup_output (flat : segment) (amount globalIndex : Z) : option (CachedTransactionInfo * PackedOutIndex) :=
  o ← flat_outputs flat amount !! Z.to_nat globalIndex;
  info ← find_in_block flat (poi_blockIndex o) (poi_transactionIndex o);
  Some (info, o).

Fixpoint extract_spec {A} (flat : segment) (amount : Z) (pred : callback A) (globalIndexes : list Z) (acc : A)
  : outcome (ExtractOutputKeysResult * A) :=
  match globalIndexes with
  | [] => Ok (SUCCESS, acc)
  | globalIndex :: globalIndexes =>
    match lookup_output flat amount globalIndex with
    | None => Ok (INVALID_GLOBAL_INDEX, acc)
    | Some (info, o) =>
      let! (ret, acc) := pred info o globalIndex acc in
      match ret with
      | SUCCESS => extract_spec flat amount pred globalIndexes acc
      | _ => Ok (ret, acc)
      end
    end
  end.

Lemma extract_spec_app {A} flat amount (pred : callback A) gs1 gs2 : forall acc,
  extract_spec flat amount pred (gs1 ++ gs2) acc =
  let! (ret, acc) := extract_spec flat amount pred gs1 acc in
  match ret with SUCCESS => extract_spec flat amount pred gs2 acc | _ => Ok (ret, acc) end.
Proof.
  induction gs1 as [|g gs1 IH]; intros acc; [done|]. cbn [app extract_spec].
  destruct (lookup_output flat amount g) as [[info o]|]; [|done]. destruct (pred info o g acc) as [[[| |] acc']|]; cbn [obind]; try done.
Qed.

Lemma extract_spec_ext {A} flat flat' amount (pred : callback A) gs : 
  Forall (fun g => lookup_output flat amount g = lookup_output flat' amount g) gs ->
  forall acc, extract_spec flat amount pred gs acc = extract_spec flat' amount pred gs acc.
Proof.
  induction 1 as [|g gs Hg _ IH]; intros acc; [done|]. cbn [extract_spec]. rewrite Hg.
  destruct (lookup_output flat' amount g) as [[info o]|]; [|done]. destruct (pred info o g acc) as [[[| |] acc']|]; cbn [obind]; try done.
Qed.

Lemma lookup_output_below s parents amount g : chain_ok (s :: parents) -> 0 <= g ->
  (forall e, keyOutputsGlobalIndexes s !! amount = Some e -> g < og_startIndex e) ->
  lookup_output (flatten (s :: parents)) amount g = lookup_output (flatten parents) amount g.
Proof.
  intros Hok Hg Hlt. pose proof Hok as (Hs & Hl & Hc & _). destruct (flatten_ok _ Hc) as [Hf _]. unfold lookup_output.
  assert (E : flat_outputs (flatten (s :: parents)) amount !! Z.to_nat g = flat_outputs (flatten parents) amount !! Z.to_nat g).
  { rewrite flat_outputs_cons. destruct (keyOutputsGlobalIndexes s !! amount) as [e|] eqn:Ee; [|by rewrite app_nil_r].
    specialize (Hlt e eq_refl). rewrite (entry_below _ _ _ _ Hok Ee) in Hlt. apply lookup_app_l. lia. }
  rewrite E. destruct (flat_outputs (flatten parents) amount !! Z.to_nat g) as [o|] eqn:Eo; [|done]. simpl.
  change (foldr _ _ parents) with (flatten parents). rewrite find_in_block_join by (done || apply Hl).
  pose proof (flat_outputs_range _ amount Hc) as Hr. rewrite Forall_forall in Hr.
  destruct (Hr o) as [Hi _]; [by eapply list_elem_of_lookup_2|]. unfold in_range in Hi. rewrite <- (link_start _ _ Hl) in Hi.
  by rewrite (proj2 (Z.ltb_lt _ _)) by lia.
Qed.

Lemma lookup_output_own s parents amount e g : chain_ok (s :: parents) -> keyOutputsGlobalIndexes s !! amount = Some e ->
  og_startIndex e <= g ->
  lookup_output (flatten (s :: parents)) amount g =
  o ← og_outputs e !! Z.to_nat (g - og_startIndex e);
  info ← find_in_block s (poi_blockIndex o) (poi_transactionIndex o); Some (info, o).
Proof.
  intros Hok Ee Hg. pose proof Hok as (Hs & Hl & Hc & _). destruct (flatten_ok _ Hc) as [Hf _]. unfold lookup_output.
  pose proof (entry_below _ _ _ _ Hok Ee) as Est. rewrite flat_outputs_cons, Ee, lookup_app_r by lia.
  replace (Z.to_nat g - length (flat_outputs (flatten parents) amount))%nat with (Z.to_nat (g - og_startIndex e)) by lia.
  destruct (og_outputs e !! Z.to_nat (g - og_startIndex e)) as [o|] eqn:Eo; [|done]. simpl.
  change (foldr _ _ parents) with (flatten parents). rewrite find_in_block_join by (done || apply Hl).
  pose proof (entry_range _ _ (ok_outputs _ Hs _ _ Ee)) as Hr. rewrite Forall_forall in Hr.
  specialize (Hr o ltac:(by eapply list_elem_of_lookup_2)). unfold in_range in Hr.
  by rewrite (proj2 (Z.ltb_ge _ _)) by lia.
Qed.

Lemma extract_own_flat {A} s parents amount e i (pred : callback A) gs :
  chain_ok (s :: parents) -> keyOutputsGlobalIndexes s !! amount = Some e -> seg_end s <= i + 1 ->
  Forall (fun g => og_startIndex e <= g < 2 ^ 32) gs -> forall acc,
  extract_own s (og_startIndex e) (og_outputs e) i pred gs acc = extract_spec (flatten (s :: parents)) amount pred gs acc.
Proof.
  intros Hok Ee Hi Hg. pose proof Hok as (Hs & Hl & Hc & _). pose proof (ok_outputs _ Hs _ _ Ee) as He.
  pose proof (entry_start _ _ He) as H0.
  induction Hg as [|g gs Hg _ IH]; intros acc; [done|]. cbn [extract_own extract_spec].
  rewrite (lookup_output_own _ _ _ _ _ Hok Ee) by lia. rewrite wrap_small by (unfold fits; lia).
  destruct (og_outputs e !! Z.to_nat (g - og_startIndex e)) as [o|] eqn:Eo.
  - pose proof (lookup_lt_Some _ _ _ Eo). rewrite (proj2 (Z.leb_gt _ _)) by lia. rewrite (vec_at_ok _ _ o) by (done || lia).
    cbn [obind mbind option_bind]. pose proof (entry_range _ _ He) as Hr. pose proof (entry_exists _ _ He) as Hx.
    rewrite Forall_forall in Hr, Hx. assert (Ho : o ∈ og_outputs e) by (by eapply list_elem_of_lookup_2).
    specialize (Hr o Ho). unfold in_range in Hr. rewrite (proj2 (Z.leb_le _ _)), (proj2 (Z.leb_le _ i)) by lia.
    cbn [assert_that obind]. destruct (Hx o Ho) as (info & -> & _). simpl.
    destruct (pred info o g acc) as [[[| |] acc']|]; cbn [obind]; try done.
  - apply lookup_ge_None in Eo. by rewrite (proj2 (Z.leb_le _ _)) by lia.
Qed.

Lemma strictly_sorted_spec l : strictly_sorted l = true <-> StronglySorted Z.lt l.
Proof.
  split.
  - intros H. apply Sorted_StronglySorted; [intros x y z; lia|]. induction l as [|x l IH]; constructor.
    + apply IH. destruct l; [done|]. cbn [strictly_sorted] in H. by apply andb_true_iff in H as [_ H].
    + destruct l; [constructor|]. cbn [strictly_sorted] in H. apply andb_true_iff in H as [H%Z.ltb_lt _]. by constructor.
  - induction 1 as [|x l Hs IH Hx]; [done|]. cbn [strictly_sorted]. destruct l as [|y l]; [done|].
    inversion Hx; subst. rewrite IH. by rewrite (proj2 (Z.ltb_lt _ _)).
Qed.

Lemma StronglySorted_take_drop {A} (R : relation A) n l : StronglySorted R l ->
  StronglySorted R (take n l) /\ StronglySorted R (drop n l).
Proof.
  intros H. rewrite <- (take_drop n l) in H. split; [by eapply StronglySorted_app_1_l|by eapply StronglySorted_app_1_r].
Qed.

Lemma StronglySorted_lt_le l : StronglySorted Z.lt l -> StronglySorted (fun x y => x <= y) l.
Proof. induction 1 as [|x l _ IH Hx]; constructor; [done|]. eapply Forall_impl; [exact Hx|]. simpl. lia. Qed.

Lemma assert_indexes_ok gs : gs <> [] -> StronglySorted Z.lt gs -> assert_indexes gs = Ok tt.
Proof.
  intros Hn Hs. unfold assert_indexes. rewrite is_empty_false by done. cbn [negb assert_that obind].
  by rewrite (proj2 (strictly_sorted_spec gs) Hs).
Qed.

Lemma extractKeyOutputs_flat {A} c amount i (pred : callback A) : chain_ok c -> c <> [] ->
  seg_end (flatten c) <= i + 1 -> forall gs acc, gs <> [] -> StronglySorted Z.lt gs -> Forall (fits 32) gs ->
  extractKeyOutputs c amount i gs pred acc = extract_spec (flatten c) amount pred gs acc.
Proof.
  induction c as [|s parents IH]; intros Hok Hne Hi gs acc Hgs Hsort Hfit; [done|]. clear Hne.
  rewrite (flatten_end _ _ Hok) in Hi. pose proof Hok as (Hs & Hl & Hc & _). cbn [extractKeyOutputs].
  rewrite (assert_indexes_ok _ Hgs Hsort). cbn [obind].
  assert (Hi' : seg_end (flatten parents) <= i + 1).
  { rewrite <- (link_start _ _ Hl). unfold seg_end in Hi. lia. }
  destruct (keyOutputsGlobalIndexes s !! amount) as [e|] eqn:Ee.
  - pose proof (ok_outputs _ Hs _ _ Ee) as He. pose proof (entry_start _ _ He) as H0.
    assert (Hne : blockInfos s <> []).
    { intros E. pose proof (entry_range _ _ He) as Hr. destruct (og_outputs e) as [|o os] eqn:Eo; [by destruct (entry_nonempty _ _ He)|].
      inversion Hr as [|? ? Hr0 _]; subst. unfold in_range, seg_end in Hr0. rewrite E in Hr0. simpl in Hr0. lia. }
    assert (startIndex s <= i) by (unfold seg_end in Hi; destruct (blockInfos s); [done|simpl in Hi; lia]).
    rewrite (proj2 (Z.ltb_ge _ _)) by done. set (n := lower_bound_by (fun g => g <? og_startIndex e) gs).
    destruct (StronglySorted_take_drop _ n _ Hsort) as [St Sd].
    pose proof (lower_bound_take (fun g => g <? og_startIndex e) gs) as Ht. fold n in Ht.
    pose proof (lower_bound_drop (fun g => g) (og_startIndex e) gs (StronglySorted_lt_le _ Hsort)) as Hd. fold n in Hd.
    assert (Hown : forall acc, extract_own s (og_startIndex e) (og_outputs e) i pred (drop n gs) acc =
      extract_spec (flatten (s :: parents)) amount pred (drop n gs) acc).
    { apply (extract_own_flat s parents); [done..|]. apply Forall_and. split; [done|].
      apply (Forall_drop _ n) in Hfit. eapply Forall_impl; [exact Hfit|]. unfold fits. simpl. lia. }
    assert (Hbelow : forall acc, (if (n =? 0)%nat then Ok (SUCCESS, acc)
        else let! _ := assert_parent parents in extractKeyOutputs parents amount i (take n gs) pred acc) =
      extract_spec (flatten (s :: parents)) amount pred (take n gs) acc).
    { intros acc'. destruct (Nat.eqb_spec n 0) as [->|Hn]; [done|]. assert (Hp : parents <> []).
      { intros ->. rewrite (entry_below _ _ _ _ Hok Ee) in Ht. destruct gs as [|g gs]; [done|]. destruct n; [done|].
        inversion Ht as [|? ? Hg _]; subst. inversion Hfit as [|? ? Hg0 _]; subst. apply Z.ltb_lt in Hg. unfold fits in Hg0.
        unfold flat_outputs in Hg. cbn [flatten foldr empty_segment keyOutputsGlobalIndexes] in Hg.
        rewrite lookup_empty in Hg. simpl in Hg. lia. }
      rewrite (assert_parent_ok _ Hp). cbn [obind].
      rewrite IH; [|done..| |done|by apply Forall_take]; [|by destruct gs, n].
      symmetry. apply extract_spec_ext. apply (Forall_take _ n) in Hfit. rewrite Forall_forall in Ht, Hfit |- *. intros g Hg.
      specialize (Ht g Hg). specialize (Hfit g Hg). unfold fits in Hfit. apply Z.ltb_lt in Ht.
      apply lookup_output_below; [done|lia|]. intros e' [= <-]%(eq_trans (eq_sym Ee)). done. }
    rewrite Hbelow. rewrite <- (take_drop n gs) at 2. rewrite extract_spec_app.
    destruct (extract_spec _ _ _ (take n gs) acc) as [[[| |] acc']|]; cbn [obind]; [|done..].
    rewrite is_empty_false by apply He. cbn [negb assert_that obind]. apply Hown.
  - assert (E : extract_spec (flatten (s :: parents)) amount pred gs acc = extract_spec (flatten parents) amount pred gs acc).
    { apply extract_spec_ext. rewrite Forall_forall in Hfit |- *. intros g Hg. specialize (Hfit g Hg). unfold fits in Hfit.
      apply lookup_output_below; [done|lia|]. intros e' H. by rewrite Ee in H. }
    rewrite E. destruct parents as [|p parents]; cbn [is_empty]; [|by apply IH].
    destruct gs as [|g gs]; [done|]. done.
Qed.

(** ** Splitting *)

Lemma join_entry_assoc a b c : join_entry a (join_entry b c) = join_entry (join_entry a b) c.
Proof. destruct a, b, c; try done. simpl. by rewrite app_assoc. Qed.

Lemma segment_eq s1 s2 : startIndex s1 = startIndex s2 -> transactions s1 = transactions s2 -> spentImages s1 = spentImages s2 ->
  blockInfos s1 = blockInfos s2 -> keyOutputsGlobalIndexes s1 = keyOutputsGlobalIndexes s2 ->
  paymentIds s1 = paymentIds s2 -> storage s1 = storage s2 -> s1 = s2.
Proof. destruct s1, s2; simpl. by intros -> -> -> -> -> -> ->. Qed.

Lemma join_assoc a b c : join a (join b c) = join (join a b) c.
Proof.
  apply segment_eq; simpl; try done; rewrite ?app_assoc, ?(assoc_L (∪)); try done.
  apply map_eq. intros amount. rewrite !lookup_merge. unfold diag_None.
  destruct (keyOutputsGlobalIndexes a !! amount), (keyOutputsGlobalIndexes b !! amount), (keyOutputsGlobalIndexes c !! amount);
    simpl; by rewrite ?app_assoc.
Qed.

Lemma split_outputs_join s i e : entry_ok s e ->
  join_entry (split_outputs i e).1 (split_outputs i e).2 = Some e.
Proof.
  intros He. unfold split_outputs. set (n := lower_bound_by _ _). cbn [fst snd].
  pose proof (entry_start _ _ He). pose proof (entry_fits _ _ He). pose proof (entry_nonempty _ _ He).
  pose proof (take_drop n (og_outputs e)) as E. destruct e as [st outs]. cbn [og_startIndex og_outputs] in *.
  destruct (take n outs) as [|o os] eqn:Et; cbn [is_empty].
  - simpl in E. rewrite E. destruct outs as [|x outs]; [done|]. cbn [is_empty join_entry]. do 2 f_equal.
    rewrite !(wrap_small 32 (Z.of_nat _)) by (unfold fits; lia). rewrite (wrap_small 32 (st + _)) by (unfold fits; lia).
    rewrite wrap_small by (unfold fits; lia). lia.
  - destruct (drop n outs) as [|x xs] eqn:Ed; cbn [is_empty join_entry].
    + rewrite app_nil_r in E. by rewrite E.
    + by rewrite <- E.
Qed.

Lemma splitTransactions_join l ids i : StronglySorted (fun a b => ti_blockIndex a <= ti_blockIndex b) l ->
  (splitTransactions l ids i).1.1 ++ (splitTransactions l ids i).2.1 = l /\
  (splitTransactions l ids i).1.2 ∪ (splitTransactions l ids i).2.2 = ids.
Proof.
  intros Hs. unfold splitTransactions. cbn [fst snd]. split.
  - destruct (lower_bound_filter _ i _ Hs) as [<- <-]. apply take_drop.
  - set (moved := map _ _). apply map_eq. intros h. destruct (ids !! h) as [p|] eqn:E.
    + destruct (decide (h ∈ moved)).
      * rewrite lookup_union_r; [by apply map_lookup_filter_Some|]. apply map_lookup_filter_None. right. by intros ? _ ?.
      * apply lookup_union_Some_l. by apply map_lookup_filter_Some.
    + apply lookup_union_None. rewrite !map_lookup_filter_None. split; by left.
Qed.

Lemma splitSpentKeyImages_join m i : (splitSpentKeyImages m i).1 ∪ (splitSpentKeyImages m i).2 = m.
Proof.
  unfold splitSpentKeyImages. cbn [fst snd]. apply map_eq. intros k. destruct (m !! k) as [b|] eqn:E.
  - destruct (decide (b < i)).
    + apply lookup_union_Some_l. by apply map_lookup_filter_Some.
    + rewrite lookup_union_r; [apply map_lookup_filter_Some; split; [done|simpl; lia]|].
      apply map_lookup_filter_None. right. intros b'. rewrite E. intros [= <-]. simpl. lia.
  - apply lookup_union_None. rewrite !map_lookup_filter_None. split; by left.
Qed.

Lemma split_eq s i : segment_ok s -> startIndex s < i < seg_end s ->
  exists lower upper, split s i = Ok (lower, upper) /\ split_containers s i = Ok (lower, upper) /\
    join lower upper = s /\ startIndex lower = startIndex s /\ startIndex upper = i /\
    length (blockInfos lower) = Z.to_nat (i - startIndex s) /\
    length (storage lower) = Z.to_nat (i - startIndex s) /\
    spentImages lower = (splitSpentKeyImages (spentImages s) i).1 /\
    spentImages upper = (splitSpentKeyImages (spentImages s) i).2 /\
    transactions lower = filter (fun t => ti_blockIndex t < i) (transactions s) /\
    transactions upper = filter (fun t => i <= ti_blockIndex t) (transactions s) /\
    keyOutputsGlobalIndexes lower = (splitGlobalIndexes (keyOutputsGlobalIndexes s) i).1 /\
    keyOutputsGlobalIndexes upper = (splitGlobalIndexes (keyOutputsGlobalIndexes s) i).2.
Proof.
  intros Hs Hi. pose proof (ok_start _ Hs). pose proof (ok_end _ Hs). pose proof (ok_storage _ Hs) as Hst.
  assert (Hne : blockInfos s <> []) by (intros E; unfold seg_end in Hi; rewrite E in Hi; simpl in Hi; lia).
  assert (Ec : exists lower upper, split_containers s i = Ok (lower, upper)).
  { unfold split_containers, splitStorage. rewrite wrap_small by (unfold fits; lia).
    rewrite (proj2 (Z.ltb_lt _ _)), (proj2 (Z.ltb_lt (i - startIndex s) _)) by (unfold seg_end in Hi; lia).
    cbn [assert_that obind]. destruct (splitSpentKeyImages _ _), (splitTransactions _ _ _) as [[] []], (splitGlobalIndexes _ _).
    by do 2 eexists. }
  destruct Ec as (lower & upper & Ec). exists lower, upper. split.
  { unfold split. rewrite (proj2 (Z.ltb_lt _ _)) by lia. cbn [assert_that obind]. rewrite getTopBlockIndex_ok by done.
    cbn [obind]. by rewrite (proj2 (Z.leb_le _ _)) by lia. }
  split; [done|]. unfold split_containers, splitStorage in Ec. rewrite wrap_small in Ec by (unfold fits; lia).
  rewrite (proj2 (Z.ltb_lt _ _)), (proj2 (Z.ltb_lt (i - startIndex s) _)) in Ec by (unfold seg_end in Hi; lia).
  cbn [assert_that obind] in Ec. destruct (splitTransactions_join (transactions s) (paymentIds s) i (ok_sorted _ Hs)) as [Et Ep].
  pose proof (splitSpentKeyImages_join (spentImages s) i) as Ek.
  destruct (splitSpentKeyImages _ _) as [k1 k2], (splitTransactions _ _ _) as [[t1 p1] [t2 p2]] eqn:Est.
  destruct (splitGlobalIndexes _ _) as [g1 g2] eqn:Eg. injection Ec as <- <-. cbn [fst snd] in *.
  unfold splitTransactions in Est. injection Est as E1 E2 E3 E4. split.
  { apply segment_eq; cbn [join startIndex transactions spentImages blockInfos keyOutputsGlobalIndexes paymentIds storage];
      try done; try apply take_drop.
    pose proof (f_equal fst Eg) as G1. pose proof (f_equal snd Eg) as G2. unfold splitGlobalIndexes in G1, G2.
    cbn [fst snd] in G1, G2. rewrite <- G1, <- G2. apply map_eq. intros amount. rewrite lookup_merge, !lookup_omap. unfold diag_None.
    destruct (keyOutputsGlobalIndexes s !! amount) as [e|] eqn:Ee; [|done]. cbn [mbind option_bind].
    pose proof (split_outputs_join s i e (ok_outputs _ Hs _ _ Ee)) as Hj.
    destruct (split_outputs i e) as [a b]. cbn [fst snd] in *. destruct a, b; simpl in *; congruence. }
  cbn [startIndex blockInfos storage spentImages transactions keyOutputsGlobalIndexes].
  rewrite !length_take_le by (unfold seg_end in Hi; lia). by subst.
Qed.

(** The two parts of an entry. *)
Lemma split_outputs_parts s i e el eu : entry_ok s e -> split_outputs i e = (el, eu) ->
  let n := lower_bound_by (fun o => poi_blockIndex o <? i) (og_outputs e) in
  (forall l, el = Some l -> og_startIndex l = og_startIndex e /\ og_outputs l = take n (og_outputs e) /\ og_outputs l <> []) /\
  (forall u, eu = Some u -> og_startIndex u = og_startIndex e + Z.of_nat n /\ og_outputs u = drop n (og_outputs e) /\ og_outputs u <> []) /\
  (el = None -> n = 0%nat).
Proof.
  intros He H n. unfold split_outputs in H. fold n in H. pose proof (entry_start _ _ He). pose proof (entry_fits _ _ He).
  pose proof (lower_bound_le (fun o => poi_blockIndex o <? i) (og_outputs e)) as Hn. fold n in Hn.
  injection H as <- <-. split_and!.
  - intros l. destruct (take n (og_outputs e)) eqn:E; intros [= <-]. split_and!; [done| |]; by simpl.
  - intros u. destruct (drop n (og_outputs e)) as [|x xs] eqn:E; cbn [is_empty]; intros [= <-]. cbn [og_startIndex og_outputs].
    split_and!; [|done|done]. pose proof (f_equal length E) as El. rewrite length_drop in El. cbn [length] in El.
    rewrite !(wrap_small 32 (Z.of_nat _)) by (unfold fits; cbn [length]; lia).
    rewrite (wrap_small 32 (og_startIndex e + _)) by (unfold fits; lia).
    rewrite wrap_small by (unfold fits; cbn [length]; lia). cbn [length]. lia.
  - destruct (take n (og_outputs e)) as [|x xs] eqn:E; cbn [is_empty]; [|done]. intros _.
    pose proof (f_equal length E) as El. rewrite length_take_le in El by done. done.
Qed.

Section SplitOk.
Context (s : segment) (i : Z) (Hs : segment_ok s) (lower upper : segment).
Hypothesis Hi : startIndex s < i < seg_end s.
Hypothesis Hjoin : join lower upper = s.
Hypothesis Hstart : startIndex lower = startIndex s.
Hypothesis Hup : startIndex upper = i.
Hypothesis Hlen : length (blockInfos lower) = Z.to_nat (i - startIndex s).
Hypothesis Hst : length (storage lower) = Z.to_nat (i - startIndex s).
Hypothesis Hk1 : spentImages lower = (splitSpentKeyImages (spentImages s) i).1.
Hypothesis Hk2 : spentImages upper = (splitSpentKeyImages (spentImages s) i).2.
Hypothesis Ht1 : transactions lower = filter (fun t => ti_blockIndex t < i) (transactions s).
Hypothesis Ht2 : transactions upper = filter (fun t => i <= ti_blockIndex t) (transactions s).
Hypothesis Hg1 : keyOutputsGlobalIndexes lower = (splitGlobalIndexes (keyOutputsGlobalIndexes s) i).1.
Hypothesis Hg2 : keyOutputsGlobalIndexes upper = (splitGlobalIndexes (keyOutputsGlobalIndexes s) i).2.

Lemma lower_end : seg_end lower = i.
Proof. unfold seg_end. lia. Qed.

Lemma upper_end : seg_end upper = seg_end s.
Proof.
  rewrite <- Hjoin. symmetry. apply join_end. by rewrite lower_end.
Qed.

Lemma split_find b t : find_in_block s b t = if b <? i then find_in_block lower b t else find_in_block upper b t.
Proof.
  rewrite <- Hjoin at 1. apply find_in_block_split; apply Forall_forall; intros x.
  - rewrite Ht1. by intros [? _]%list_elem_of_filter.
  - rewrite Ht2. by intros [? _]%list_elem_of_filter.
Qed.

Lemma lower_lookup amount l : keyOutputsGlobalIndexes lower !! amount = Some l ->
  exists e eu, keyOutputsGlobalIndexes s !! amount = Some e /\ split_outputs i e = (Some l, eu).
Proof.
  rewrite Hg1. unfold splitGlobalIndexes. cbn [fst]. rewrite lookup_omap. intros H.
  apply bind_Some in H as (e & He & H). exists e, (split_outputs i e).2. split; [done|]. rewrite <- H. by destruct (split_outputs i e).
Qed.

Lemma upper_lookup amount u : keyOutputsGlobalIndexes upper !! amount = Some u ->
  exists e el, keyOutputsGlobalIndexes s !! amount = Some e /\ split_outputs i e = (el, Some u) /\
    keyOutputsGlobalIndexes lower !! amount = el.
Proof.
  rewrite Hg2. unfold splitGlobalIndexes. cbn [snd]. rewrite lookup_omap. intros H.
  apply bind_Some in H as (e & He & H). exists e, (split_outputs i e).1. split; [done|]. split.
  - rewrite <- H. by destruct (split_outputs i e).
  - rewrite Hg1. unfold splitGlobalIndexes. cbn [fst]. by rewrite lookup_omap, He.
Qed.

Lemma lower_ok : segment_ok lower.
Proof.
  pose proof (ok_start _ Hs). pose proof (ok_end _ Hs). split.
  - lia.
  - rewrite lower_end. lia.
  - lia.
  - rewrite Hk1. unfold splitSpentKeyImages. cbn [fst]. intros k b Hb. apply map_lookup_filter_Some in Hb as [Hb Hlt].
    pose proof (ok_spent _ Hs _ _ Hb) as Hr. unfold in_range in *. rewrite lower_end. simpl in Hlt. lia.
  - rewrite Ht1. destruct (lower_bound_filter _ i _ (ok_sorted _ Hs)) as [<- _].
    by apply StronglySorted_take_drop, Hs.
  - rewrite Ht1. pose proof (ok_range _ Hs) as Hr. rewrite Forall_forall in Hr |- *. intros t [Hlt Ht]%list_elem_of_filter.
    specialize (Hr t Ht). unfold in_range in *. rewrite lower_end. lia.
  - intros amount l Hl. apply lower_lookup in Hl as (e & eu & He & Hsp). pose proof (ok_outputs _ Hs _ _ He) as Hok.
    destruct (split_outputs_parts _ _ _ _ _ Hok Hsp) as (Pl & _ & _). destruct (Pl l eq_refl) as (E1 & E2 & Hne).
    set (n := lower_bound_by _ _) in *. pose proof (lower_bound_take (fun o => poi_blockIndex o <? i) (og_outputs e)) as Hbel.
    fold n in Hbel. pose proof (entry_start _ _ Hok). pose proof (entry_fits _ _ Hok).
    assert (Hr : Forall (fun o => in_range lower (poi_blockIndex o) /\ output_exists lower o) (take n (og_outputs e))).
    { pose proof (Forall_take _ n _ (entry_range _ _ Hok)) as R. pose proof (Forall_take _ n _ (entry_exists _ _ Hok)) as X.
      rewrite Forall_forall in Hbel, R, X |- *. intros o Ho. specialize (Hbel o Ho). specialize (R o Ho). specialize (X o Ho).
      apply Z.ltb_lt in Hbel. unfold in_range in *. rewrite lower_end. split; [lia|]. destruct X as (info & Hf & Hx).
      exists info. split; [|done]. rewrite split_find in Hf. by rewrite (proj2 (Z.ltb_lt _ _)) in Hf by done. }
    apply Forall_and in Hr as [Hr Hx]. split; rewrite ?E1, ?E2; try done.
    + by rewrite <- E2.
    + rewrite length_take. lia.
    + by apply StronglySorted_take_drop, Hok.
Qed.

Lemma upper_ok : segment_ok upper.
Proof.
  pose proof (ok_start _ Hs). pose proof (ok_end _ Hs). split.
  - lia.
  - by rewrite upper_end.
  - pose proof (ok_storage _ Hs) as E. rewrite <- Hjoin in E. cbn [join storage blockInfos] in E. rewrite !length_app in E. lia.
  - rewrite Hk2. unfold splitSpentKeyImages. cbn [snd]. intros k b Hb. apply map_lookup_filter_Some in Hb as [Hb Hlt].
    pose proof (ok_spent _ Hs _ _ Hb) as Hr. unfold in_range in *. rewrite upper_end. simpl in Hlt. lia.
  - rewrite Ht2. destruct (lower_bound_filter _ i _ (ok_sorted _ Hs)) as [_ <-].
    by apply StronglySorted_take_drop, Hs.
  - rewrite Ht2. pose proof (ok_range _ Hs) as Hr. rewrite Forall_forall in Hr |- *. intros t [Hlt Ht]%list_elem_of_filter.
    specialize (Hr t Ht). unfold in_range in *. rewrite upper_end. lia.
  - intros amount u Hu. apply upper_lookup in Hu as (e & el & He & Hsp & _). pose proof (ok_outputs _ Hs _ _ He) as Hok.
    destruct (split_outputs_parts _ _ _ _ _ Hok Hsp) as (_ & Pu & _). destruct (Pu u eq_refl) as (E1 & E2 & Hne).
    set (n := lower_bound_by _ _) in *. pose proof (lower_bound_drop poi_blockIndex i _ (entry_sorted _ _ Hok)) as Hbel.
    fold n in Hbel. pose proof (entry_start _ _ Hok). pose proof (entry_fits _ _ Hok).
    pose proof (lower_bound_le (fun o => poi_blockIndex o <? i) (og_outputs e)) as Hn. fold n in Hn.
    assert (Hr : Forall (fun o => in_range upper (poi_blockIndex o) /\ output_exists upper o) (drop n (og_outputs e))).
    { pose proof (Forall_drop _ n _ (entry_range _ _ Hok)) as R. pose proof (Forall_drop _ n _ (entry_exists _ _ Hok)) as X.
      rewrite Forall_forall in Hbel, R, X |- *. intros o Ho. specialize (Hbel o Ho). specialize (R o Ho). specialize (X o Ho).
      unfold in_range in *. rewrite upper_end. split; [lia|]. destruct X as (info & Hf & Hx).
      exists info. split; [|done]. rewrite split_find in Hf. by rewrite (proj2 (Z.ltb_ge _ _)) in Hf by lia. }
    apply Forall_and in Hr as [Hr Hx]. split; rewrite ?E1, ?E2; try done.
    + by rewrite <- E2.
    + lia.
    + rewrite length_drop. lia.
    + by apply StronglySorted_take_drop, Hok.
Qed.

Lemma split_linked flat : linked flat s -> linked flat lower /\ linked (join flat lower) upper.
Proof.
  intros [L1 L2 L3]. split; split.
  - congruence.
  - rewrite Hk1. unfold splitSpentKeyImages. cbn [fst]. by apply (map_disjoint_weaken_r _ _ _ L2), map_filter_subseteq.
  - intros amount l Hl. apply lower_lookup in Hl as (e & eu & He & Hsp).
    destruct (split_outputs_parts _ _ _ _ _ (ok_outputs _ Hs _ _ He) Hsp) as (Pl & _ & _).
    destruct (Pl l eq_refl) as (-> & _). by apply L3.
  - rewrite Hup, join_end; [by rewrite lower_end|congruence].
  - cbn [join spentImages]. apply map_disjoint_union_l. split.
    + rewrite Hk2. unfold splitSpentKeyImages. cbn [snd]. by apply (map_disjoint_weaken_r _ _ _ L2), map_filter_subseteq.
    + rewrite Hk1, Hk2. unfold splitSpentKeyImages. cbn [fst snd]. apply map_disjoint_spec. intros k x y Hx Hy.
      apply map_lookup_filter_Some in Hx as [Hx Hx']. apply map_lookup_filter_Some in Hy as [Hy Hy']. simpl in *.
      rewrite Hx in Hy. injection Hy as ->. lia.
  - intros amount u Hu. apply upper_lookup in Hu as (e & el & He & Hsp & Hel).
    destruct (split_outputs_parts _ _ _ _ _ (ok_outputs _ Hs _ _ He) Hsp) as (Pl & Pu & Pn).
    destruct (Pu u eq_refl) as (-> & _). pose proof (L3 _ _ He) as Hst'. simpl in Hst'. unfold entry_count in *.
    rewrite join_lookup, Hel. pose proof (lower_bound_le (fun o => poi_blockIndex o <? i) (og_outputs e)) as Hn.
    destruct el as [l|].
    + destruct (Pl l eq_refl) as (E1 & E2 & _). destruct (keyOutputsGlobalIndexes flat !! amount); cbn [join_entry og_startIndex og_outputs].
      * rewrite length_app, E2, length_take_le by done. lia.
      * rewrite E1, E2, length_take_le by done. lia.
    + rewrite (Pn eq_refl). destruct (keyOutputsGlobalIndexes flat !! amount); cbn [join_entry]; lia.
Qed.

End SplitOk.

Lemma split_parts s i : segment_ok s -> startIndex s < i < seg_end s ->
  exists lower upper, split s i = Ok (lower, upper) /\ join lower upper = s /\ segment_ok lower /\ segment_ok upper /\
    startIndex lower = startIndex s /\ startIndex upper = i /\ seg_end lower = i /\ seg_end upper = seg_end s /\
    (forall flat, linked flat s -> linked flat lower /\ linked (join flat lower) upper) /\
    blockInfos lower <> [] /\ blockInfos upper <> [].
Proof.
  intros Hs Hi. destruct (split_eq s i Hs Hi) as (lower & upper & E & _ & E1 & E2 & E3 & E4 & E5 & E6 & E7 & E8 & E9 & E10 & E11).
  exists lower, upper. assert (Hl : seg_end lower = i) by (by eapply lower_end). assert (Hu : seg_end upper = seg_end s) by (by eapply upper_end).
  split_and!; try done.
  - by eapply (lower_ok s i Hs lower upper).
  - by eapply (upper_ok s i Hs lower upper).
  - intros flat. by eapply (split_linked s i Hs lower upper).
  - intros En. unfold seg_end in Hl. rewrite En in Hl. simpl in Hl. lia.
  - intros En. unfold seg_end in Hu, Hi. rewrite En in Hu. simpl in Hu. lia.
Qed.

(** Splitting a segment anywhere in a chain leaves the chain as it is: its
    children, if any, are on the upper part. *)
Lemma split_chain c s parents i : chain_ok (c ++ s :: parents) -> startIndex s < i < seg_end s ->
  exists lower upper, split s i = Ok (lower, upper) /\ chain_ok (c ++ upper :: lower :: parents) /\
    flatten (c ++ upper :: lower :: parents) = flatten (c ++ s :: parents) /\
    startIndex upper = i /\ seg_end upper = seg_end s /\ blockInfos upper <> [].
Proof.
  intros Hok Hi. assert (Hs : segment_ok s).
  { induction c as [|x c IH]; [apply Hok|]. apply IH, Hok. }
  destruct (split_parts s i Hs Hi) as (lower & upper & E & Ej & Hl & Hu & _ & Hst & _ & Hend & Hlk & Hne & Hne').
  exists lower, upper. split; [done|]. assert (Hf : flatten (upper :: lower :: parents) = flatten (s :: parents)).
  { cbn [flatten foldr]. by rewrite <- join_assoc, Ej. }
  cut (chain_ok (c ++ upper :: lower :: parents) /\ flatten (c ++ upper :: lower :: parents) = flatten (c ++ s :: parents)).
  { intros [? ?]. by split_and!. }
  induction c as [|x c IH].
  - destruct Hok as (_ & Hk & Hp & Hh). destruct (Hlk _ Hk) as [K1 K2]. split; [|done].
    cbn [app chain_ok head]. split_and!; try done. by intros ? [= <-].
  - destruct Hok as (Hx & Hk & Hp & Hh). destruct (IH Hp) as [I1 I2]. cbn [app chain_ok].
    split; [|cbn [flatten foldr]; unfold flatten in I2; by rewrite I2]. rewrite I2. split_and!; try done.
    destruct c as [|y c]; [by intros ? [= <-]|done].
Qed.

End CacheProofs.
