(* ===== verification/PushProofs.v ===== *)
(** * Proofs about pushing a block onto a chain

    [BlockchainCache::doPushBlock] adds one block to the segment at the top of a
    chain.  What it adds, [block_delta], is a segment with one block that the
    flat chain and the block determine: it does not depend on where the segments
    begin.  Pushing joins it to the top segment, and fails exactly when the
    block does not pass the assertions. *)

From S2P Require Import Prelude.
From S2P Require Import Types.
From S2P Require Import Serialization.
From S2P Require Import TransactionExtra.
From S2P Require Import Block.
From S2P Require Import Currency.
From S2P Require Import ValidateTransaction.
From S2P Require Import TransactionPool.
From S2P Require Import BlockchainCache.
From S2P Require Import CacheProofs.
Import Types.Types Serialization.Serialization TransactionExtra.TransactionExtra Currency.Currency.
Import ValidateTransaction.ValidateTransaction BlockchainCache.BlockchainCache CacheProofs.CacheProofs.

Module PushProofs.

(** The result of a computation, without what it failed with. *)
Definition ok_of {A} (m : outcome A) : option A := match m with Ok x => Some x | Err _ => None end.

Lemma ok_of_bind {A B} (m : outcome A) (k : A -> outcome B) : ok_of (obind m k) = ok_of m ≫= (fun x => ok_of (k x)).
Proof. by destruct m. Qed.

(** ** Extending the top segment *)

Lemma linked_top s parents d : chain_ok (s :: parents) -> linked (flatten (s :: parents)) d ->
  startIndex d = seg_end s /\ numbered_after s d /\ spentImages s ##ₘ spentImages d.
Proof.
  intros Hok [L1 L2 L3]. rewrite (flatten_end _ _ Hok) in L1. split_and!; [done| |].
  - intros amount el eu El Eu. pose proof (L3 _ _ Eu) as E. pose proof Hok as (Hs & Hl & Hc & _). cbv beta in E. unfold entry_count in E.
    change (flatten (s :: parents)) with (join (flatten parents) s) in E. rewrite join_lookup, El in E.
    pose proof (link_outputs _ _ Hl _ _ El) as Eb. cbv beta in Eb. unfold entry_count in Eb.
    destruct (keyOutputsGlobalIndexes (flatten parents) !! amount); cbn [join_entry og_startIndex og_outputs] in E; [|done].
    rewrite length_app in E. lia.
  - change (spentImages (flatten (s :: parents))) with (spentImages (flatten parents) ∪ spentImages s) in L2.
    apply map_disjoint_union_l in L2. apply L2.
Qed.

Lemma extend_chain s parents d : chain_ok (s :: parents) -> segment_ok d -> linked (flatten (s :: parents)) d ->
  chain_ok (join s d :: parents) /\ flatten (join s d :: parents) = join (flatten (s :: parents)) d.
Proof.
  intros Hok Hd Hl. destruct (linked_top _ _ _ Hok Hl) as (Hstart & Hnum & Hdis).
  pose proof Hok as (Hs & Hk & Hc & Hh). split; [|cbn [flatten foldr]; apply join_assoc].
  cbn [chain_ok]. split_and!; [by apply join_ok| |done|done]. split.
  - apply Hk.
  - cbn [join spentImages]. apply map_disjoint_union_r. split; [apply Hk|].
    pose proof (link_spent _ _ Hl) as D. change (spentImages (flatten (s :: parents))) with (spentImages (flatten parents) ∪ spentImages s) in D.
    apply map_disjoint_union_l in D. apply D.
  - intros amount e He. rewrite join_lookup in He. destruct (keyOutputsGlobalIndexes s !! amount) as [es|] eqn:Es.
    + pose proof (link_outputs _ _ Hk _ _ Es) as E. cbv beta in E. rewrite <- E. destruct (keyOutputsGlobalIndexes d !! amount); by injection He as <-.
    + cbn [join_entry] in He. pose proof (link_outputs _ _ Hl _ _ He) as E. cbv beta in E. rewrite E. unfold entry_count.
      change (flatten (s :: parents)) with (join (flatten parents) s). rewrite join_lookup, Es.
      by destruct (keyOutputsGlobalIndexes (flatten parents) !! amount).
Qed.

(** ** What a block adds *)

Definition sel (amount : Z) (outs : list (Z * PackedOutIndex)) : list PackedOutIndex :=
  map snd (filter (fun p => p.1 = amount) outs).

(** The outputs of transaction [t] of a block, with their amounts. *)
Fixpoint placed (blockIndex t o : Z) (outs : list TransactionOutput) : list (Z * PackedOutIndex) :=
  match outs with
  | [] => []
  | x :: outs => (out_amount x, mkPacked blockIndex t o) :: placed blockIndex t (o + 1) outs
  end.

(** The entries of outputs, when [count] outputs of an amount are below. *)
Definition entries (count : Z -> Z) (outs : list (Z * PackedOutIndex)) : gmap Z OutputGlobalIndexesForAmount :=
  map_imap (fun amount _ => Some (mkGlobalIndexes (count amount) (sel amount outs)))
    (gset_to_gmap tt (list_to_set (map fst outs))).

Definition add_entries (base : gmap Z OutputGlobalIndexesForAmount) (count : Z -> Z) (outs : list (Z * PackedOutIndex))
  : gmap Z OutputGlobalIndexesForAmount := merge join_entry base (entries count outs).

(** The numbers that new outputs get. *)
Fixpoint numbers (count : Z -> Z) (prior new : list (Z * PackedOutIndex)) : list Z :=
  match new with
  | [] => []
  | (amount, o) :: new => count amount + Z.of_nat (length (sel amount prior)) :: numbers count (prior ++ [(amount, o)]) new
  end.

(** *** Transactions *)

Section Placed.
Context (cn_fast_hash : list Z -> Hash) (i : Z) (count : Z -> Z).

Local Abbreviation hash := (TransactionPool.hash_of cn_fast_hash).
Local Abbreviation tx_of := TransactionPool.getTransaction.

Definition small (t : TransactionPool.CachedTransaction) : bool := Z.of_nat (length (outputs (tx_of t))) <=? 2 ^ 16 - 1.

Definition payment_id (t : TransactionPool.CachedTransaction) : gmap Hash Hash :=
  match getPaymentIdFromTxExtra (extra (tx_of t)) with Some id => {[ hash t := id ]} | None => ∅ end.

Definition info_of (n : Z) (prior : list (Z * PackedOutIndex)) (t : TransactionPool.CachedTransaction) : CachedTransactionInfo :=
  mkTransactionInfo i n (hash t) (unlockTime (tx_of t)) (map target (outputs (tx_of t)))
    (numbers count prior (placed i n 0 (outputs (tx_of t)))).

Fixpoint infos_of (n : Z) (prior : list (Z * PackedOutIndex)) (txs : list TransactionPool.CachedTransaction)
  : list CachedTransactionInfo :=
  match txs with
  | [] => []
  | t :: txs => info_of n prior t :: infos_of (n + 1) (prior ++ placed i n 0 (outputs (tx_of t))) txs
  end.

Fixpoint placed_all (n : Z) (txs : list TransactionPool.CachedTransaction) : list (Z * PackedOutIndex) :=
  match txs with
  | [] => []
  | t :: txs => placed i n 0 (outputs (tx_of t)) ++ placed_all (n + 1) txs
  end.

End Placed.

Lemma entries_lookup count outs amount : entries count outs !! amount =
  if is_empty (sel amount outs) then None else Some (mkGlobalIndexes (count amount) (sel amount outs)).
Proof.
  unfold entries. rewrite map_lookup_imap. unfold sel at 2. destruct (decide (amount ∈ map fst outs)) as [Hin|Hin].
  - rewrite (proj2 (lookup_gset_to_gmap_Some _ _ _ tt)) by (split; [by apply elem_of_list_to_set|done]). simpl.
    apply list_elem_of_fmap in Hin as ([a o] & -> & Hin).
    destruct (filter _ outs) eqn:E; [|done]. exfalso. assert (H : (a, o) ∈ filter (fun p : Z * PackedOutIndex => p.1 = (a, o).1) outs).
    { by apply list_elem_of_filter. } rewrite E in H. by apply elem_of_nil in H.
  - rewrite (proj2 (lookup_gset_to_gmap_None _ _ _)) by (by rewrite elem_of_list_to_set). simpl.
    rewrite filter_none; [done|]. apply Forall_forall. intros p Ho <-. apply Hin. by apply (list_elem_of_fmap_2 fst).
Qed.

Lemma sel_app amount l1 l2 : sel amount (l1 ++ l2) = sel amount l1 ++ sel amount l2.
Proof. unfold sel. by rewrite filter_app, map_app. Qed.

Lemma sel_single amount a o : sel amount [(a, o)] = if decide (a = amount) then [o] else [].
Proof. unfold sel. rewrite filter_cons, filter_nil. simpl. by destruct (decide (a = amount)). Qed.

Lemma sel_le amount l1 l2 : (length (sel amount l1) <= length (sel amount (l1 ++ l2)))%nat.
Proof. rewrite sel_app, length_app. lia. Qed.

Lemma sel_at amount l1 x l2 : sel amount (l1 ++ (amount, x) :: l2) !! length (sel amount l1) = Some x.
Proof.
  rewrite sel_app, lookup_app_r, Nat.sub_diag by done. unfold sel. rewrite filter_cons. simpl. by rewrite decide_True.
Qed.

Lemma elem_of_sel amount x l : x ∈ sel amount l -> (amount, x) ∈ l.
Proof.
  unfold sel. intros ([a y] & -> & H)%list_elem_of_fmap. apply list_elem_of_filter in H as [E H]. simpl in *. by subst.
Qed.

Lemma numbers_lookup count new : forall prior j,
  numbers count prior new !! j = (fun p => count p.1 + Z.of_nat (length (sel p.1 (prior ++ take j new)))) <$> new !! j.
Proof.
  induction new as [|[a x] new IH]; intros prior [|j]; cbn [numbers lookup list_lookup take]; try done.
  - by rewrite app_nil_r.
  - change (numbers count (prior ++ [(a, x)]) new !! j = (fun p => count p.1 + Z.of_nat (length (sel p.1 (prior ++ (a, x) :: take j new)))) <$> new !! j).
    by rewrite IH, <- app_assoc.
Qed.

Lemma placed_lookup i t outs : forall o j,
  placed i t o outs !! j = (fun x => (out_amount x, mkPacked i t (o + Z.of_nat j))) <$> outs !! j.
Proof.
  induction outs as [|x outs IH]; intros o [|j]; try done.
  - simpl. by rewrite Z.add_0_r.
  - simpl. rewrite IH. destruct (outs !! j); [|done]. simpl. do 3 f_equal. lia.
Qed.

Section PlacedLemmas.
Context (cn_fast_hash : list Z -> Hash) (i : Z) (count : Z -> Z).

Lemma infos_lookup_at txs : forall n prior k,
  infos_of cn_fast_hash i count n prior txs !! k =
  info_of cn_fast_hash i count (n + Z.of_nat k) (prior ++ placed_all i n (take k txs)) <$> txs !! k.
Proof.
  induction txs as [|t txs IH]; intros n prior [|k]; try done.
  - simpl. by rewrite Z.add_0_r, app_nil_r.
  - simpl. rewrite IH, <- app_assoc. destruct (txs !! k); [|done]. simpl. do 2 f_equal. lia.
Qed.

Lemma placed_all_app n txs1 txs2 :
  placed_all i n (txs1 ++ txs2) = placed_all i n txs1 ++ placed_all i (n + Z.of_nat (length txs1)) txs2.
Proof.
  revert n. induction txs1 as [|t txs1 IH]; intros n; simpl; [by rewrite Z.add_0_r|]. rewrite IH, <- app_assoc. do 3 f_equal. lia.
Qed.

(** The outputs before output [j] of transaction [k]. *)
Lemma placed_all_split n txs k j t x : txs !! k = Some t -> outputs (TransactionPool.getTransaction t) !! j = Some x ->
  exists rest, placed_all i n txs = (placed_all i n (take k txs) ++ take j (placed i (n + Z.of_nat k) 0 (outputs (TransactionPool.getTransaction t)))) ++
    (out_amount x, mkPacked i (n + Z.of_nat k) (Z.of_nat j)) :: rest.
Proof.
  intros Ht Hx. assert (E : placed_all i n txs = placed_all i n (take k txs ++ t :: drop (S k) txs)) by (by rewrite take_drop_middle).
  rewrite E, placed_all_app. cbn [placed_all]. clear E.
  rewrite length_take_le by (apply lookup_lt_Some in Ht; lia).
  set (l := placed i (n + Z.of_nat k) 0 (outputs (TransactionPool.getTransaction t))).
  assert (El : l !! j = Some (out_amount x, mkPacked i (n + Z.of_nat k) (Z.of_nat j))) by (unfold l; by rewrite placed_lookup, Hx).
  assert (E : l = take j l ++ (out_amount x, mkPacked i (n + Z.of_nat k) (Z.of_nat j)) :: drop (S j) l) by (by rewrite take_drop_middle).
  eexists. rewrite <- app_assoc. f_equal. apply (eq_trans (f_equal (fun l => l ++ _) E)). by rewrite <- app_assoc.
Qed.

Lemma elem_of_placed t outs a x : forall o, (a, x) ∈ placed i t o outs ->
  exists j y, outs !! j = Some y /\ a = out_amount y /\ x = mkPacked i t (o + Z.of_nat j).
Proof.
  intros o (j & Hj)%list_elem_of_lookup. rewrite placed_lookup in Hj. apply fmap_Some in Hj as (y & Hy & [= -> ->]). eauto.
Qed.

Lemma elem_of_placed_all txs a x : forall n, (a, x) ∈ placed_all i n txs ->
  exists k t j y, txs !! k = Some t /\ outputs (TransactionPool.getTransaction t) !! j = Some y /\ a = out_amount y /\
    x = mkPacked i (n + Z.of_nat k) (Z.of_nat j).
Proof.
  induction txs as [|t txs IH]; intros n Hin; [by apply elem_of_nil in Hin|]. cbn [placed_all] in Hin.
  apply elem_of_app in Hin as [Hin|Hin].
  - apply elem_of_placed in Hin as (j & y & Hy & -> & ->). exists 0%nat, t, j, y. simpl. by rewrite Z.add_0_r.
  - apply IH in Hin as (k & t' & j & y & Hk & Hy & -> & ->). exists (S k), t', j, y. split_and!; try done. f_equal. lia.
Qed.

Lemma infos_find txs n prior k t : txs !! k = Some t ->
  list_find (fun x => ti_blockIndex x = i /\ ti_transactionIndex x = n + Z.of_nat k) (infos_of cn_fast_hash i count n prior txs) =
  Some (k, info_of cn_fast_hash i count (n + Z.of_nat k) (prior ++ placed_all i n (take k txs)) t).
Proof.
  intros Ht. apply list_find_Some. rewrite infos_lookup_at, Ht. split_and!; [done|done|done|].
  intros k' y Hy Hk' [_ E]. rewrite infos_lookup_at in Hy. apply fmap_Some in Hy as (t' & _ & ->). simpl in E. lia.
Qed.

End PlacedLemmas.

(** ** Totals *)

Definition totals (flat : segment) : Z * Z * Z :=
  match last (blockInfos flat) with
  | None => (0, 0, 0)
  | Some b => (bi_cumulativeDifficulty b, bi_alreadyGeneratedCoins b, bi_alreadyGeneratedTransactions b)
  end.

Lemma top_info p ps : chain_ok (p :: ps) -> blockInfos p <> [] ->
  exists b, last (blockInfos (flatten (p :: ps))) = Some b /\ getBlockInfo (p :: ps) (u32 (seg_end p - 1)) = Ok b /\
    getCurrentCumulativeDifficulty_at p (u32 (seg_end p - 1)) = Ok (bi_cumulativeDifficulty b).
Proof.
  intros Hok Hne. pose proof Hok as (Hs & _). destruct (start_fits _ _ Hok) as [H0 Hend].
  assert (Hpos : startIndex p < seg_end p) by (unfold seg_end; destruct (blockInfos p); [done|simpl; lia]).
  rewrite wrap_small by (unfold fits; lia). destruct (last (blockInfos p)) as [b|] eqn:El; [|by apply last_None in El].
  exists b. assert (Ep : blockInfos p !! Z.to_nat (seg_end p - 1 - startIndex p) = Some b).
  { rewrite last_lookup in El. rewrite <- El. f_equal. unfold seg_end. lia. } split_and!.
  - change (blockInfos (flatten (p :: ps))) with (blockInfos (flatten ps) ++ blockInfos p). by rewrite last_app, El.
  - apply getBlockInfo_flat; [done|lia|]. rewrite infos_lookup by (done || lia). by rewrite (proj2 (Z.ltb_ge _ _)) by lia.
  - unfold getCurrentCumulativeDifficulty_at. rewrite getTopBlockIndex_ok by done. cbn [obind].
    rewrite (proj2 (Z.leb_le _ _)) by lia. cbn [assert_that obind]. rewrite wrap_small by (unfold fits; lia).
    by rewrite (checked_at_lookup _ (seg_end p - 1 - startIndex p) b) by (done || lia).
Qed.

(** ** Outputs *)

Section Outputs.
Context (s : segment) (parents : chain) (i : Z).
Hypothesis Hok : chain_ok (s :: parents).
Hypothesis Hi : i = seg_end s.

Local Abbreviation count := (entry_count (keyOutputsGlobalIndexes (flatten (s :: parents)))).
Local Abbreviation with_outputs := (add_entries (keyOutputsGlobalIndexes s) count).

(** What the top segment gives for an amount. *)
Lemma count_top amount e : keyOutputsGlobalIndexes s !! amount = Some e ->
  count amount = og_startIndex e + Z.of_nat (length (og_outputs e)).
Proof.
  intros He. pose proof Hok as (Hs & Hl & Hc & _). unfold entry_count. change (flatten (s :: parents)) with (join (flatten parents) s).
  rewrite join_lookup, He. pose proof (link_outputs _ _ Hl _ _ He) as E. cbv beta in E. unfold entry_count in E.
  destruct (keyOutputsGlobalIndexes (flatten parents) !! amount); cbn [join_entry og_startIndex og_outputs]; [|done].
  rewrite length_app. lia.
Qed.

Lemma count_below amount : keyOutputsGlobalIndexes s !! amount = None ->
  (if is_empty parents then Ok 0 else getKeyOutputsCountForAmount parents amount i) = Ok (count amount).
Proof.
  intros He. pose proof Hok as (Hs & Hl & Hc & _). destruct parents as [|p ps] eqn:Ep; cbn [is_empty].
  - unfold entry_count. cbn [flatten foldr]. rewrite join_lookup, He. cbn [empty_segment keyOutputsGlobalIndexes].
    by rewrite lookup_empty.
  - destruct (parents_infos _ _ _ Hok) as (_ & E & _). pose proof (ok_start _ (proj1 Hc)).
    rewrite getKeyOutputsCountForAmount_flat; [|done| |done].
    + rewrite filter_all.
      * rewrite flatten_count by done. by rewrite (flat_outputs_cons s), He, app_nil_r.
      * eapply Forall_impl; [by apply flat_outputs_range|]. intros o [Hr _]. unfold in_range in Hr.
        rewrite <- (link_start _ _ Hl) in Hr. subst i. unfold seg_end. lia.
    + intros ? [= <-]. subst i. unfold seg_end in *. lia.
Qed.

Lemma count_nonneg amount : 0 <= count amount.
Proof. rewrite flatten_count by done. lia. Qed.

Lemma with_outputs_lookup outs amount : with_outputs outs !! amount =
  join_entry (keyOutputsGlobalIndexes s !! amount) (entries count outs !! amount).
Proof. unfold add_entries. rewrite lookup_merge. unfold diag_None. by destruct (_ !! _), (_ !! _). Qed.

Lemma insert_output cur prior amount o : keyOutputsGlobalIndexes cur = with_outputs prior ->
  count amount + Z.of_nat (length (sel amount (prior ++ [(amount, o)]))) < 2 ^ 32 ->
  insertKeyOutputToGlobalIndex parents amount o i cur =
  Ok (count amount + Z.of_nat (length (sel amount prior)), set_globalIndexes (with_outputs (prior ++ [(amount, o)])) cur).
Proof.
  intros Hcur Hb. pose proof (count_nonneg amount) as H0. unfold insertKeyOutputToGlobalIndex. rewrite Hcur.
  rewrite sel_app, sel_single, decide_True, length_app in Hb by done. cbn [length] in Hb.
  assert (E : exists start outs, match with_outputs prior !! amount with
      | Some e => Ok (og_startIndex e, og_outputs e)
      | None => if is_empty parents then Ok (0, [])
        else let! count := getKeyOutputsCountForAmount parents amount i in Ok (u32 count, []) end = Ok (start, outs) /\
      start + Z.of_nat (length outs) = count amount + Z.of_nat (length (sel amount prior)) /\
      with_outputs (prior ++ [(amount, o)]) !! amount = Some (mkGlobalIndexes start (outs ++ [o])) /\ 0 <= start).
  { rewrite !with_outputs_lookup, !entries_lookup, sel_app, sel_single, decide_True by done.
    rewrite (is_empty_false (_ ++ [o])) by (by destruct (sel amount prior)).
    destruct (keyOutputsGlobalIndexes s !! amount) as [e|] eqn:Ee.
    - pose proof (count_top _ _ Ee) as Ec. pose proof (entry_start _ _ (ok_outputs _ (proj1 Hok) _ _ Ee)).
      destruct (sel amount prior) as [|x xs]; cbn [is_empty join_entry]; do 2 eexists; (split; [done|]); cbn [og_outputs og_startIndex].
      + cbn [length app]. split_and!; [lia|done|done].
      + rewrite length_app, <- app_assoc. split_and!; [lia|done|done].
    - destruct (sel amount prior) as [|x xs]; cbn [is_empty join_entry].
      + exists (count amount), []. split_and!; [|cbn [length]; lia|done|done]. pose proof (count_below _ Ee) as Ec.
        destruct (is_empty parents); [congruence|]. rewrite Ec. cbn [obind]. by rewrite wrap_small by (unfold fits; cbn [length] in Hb; lia).
      + do 2 eexists. split_and!; [done|cbn [og_outputs og_startIndex length]; lia|done|done]. }
  destruct E as (start & outs & -> & El & Ew & Hst). cbn [obind og_outputs]. rewrite length_app. cbn [length].
  rewrite (wrap_small 32 (Z.of_nat _)) by (unfold fits; lia). rewrite (wrap_small 32 (start + _)) by (unfold fits; lia).
  rewrite wrap_small by (unfold fits; lia). do 2 f_equal; [lia|]. f_equal.
  apply map_eq. intros a. destruct (decide (a = amount)) as [->|Ha].
  - rewrite lookup_insert, decide_True by done. by rewrite Ew.
  - rewrite lookup_insert_ne by done. rewrite !with_outputs_lookup, !entries_lookup, sel_app, sel_single, decide_False by done.
    by rewrite app_nil_r.
Qed.

Lemma push_outputs_eq t outs : forall o prior cur, keyOutputsGlobalIndexes cur = with_outputs prior ->
  0 <= o -> o + Z.of_nat (length outs) <= 2 ^ 16 ->
  (forall amount, count amount + Z.of_nat (length (sel amount (prior ++ placed i t o outs))) < 2 ^ 32) ->
  push_outputs parents outs i t o cur =
  Ok (numbers count prior (placed i t o outs), set_globalIndexes (with_outputs (prior ++ placed i t o outs)) cur).
Proof.
  induction outs as [|x outs IH]; intros o prior cur Hcur Ho Hl Hb; cbn [push_outputs placed numbers].
  - rewrite app_nil_r, <- Hcur. by destruct cur.
  - destruct (target x) eqn:Et. rewrite wrap_small by (unfold fits; simpl in Hl; lia). cbn [placed] in Hb.
    rewrite insert_output with (prior := prior); [|done|].
    + cbn [obind]. replace (prior ++ (out_amount x, mkPacked i t o) :: placed i t (o + 1) outs)
        with ((prior ++ [(out_amount x, mkPacked i t o)]) ++ placed i t (o + 1) outs) in * by (by rewrite <- app_assoc).
      rewrite IH with (prior := prior ++ [(out_amount x, mkPacked i t o)]); [done|done|lia|simpl in Hl; lia|done].
    + specialize (Hb (out_amount x)). pose proof (sel_le (out_amount x) (prior ++ [(out_amount x, mkPacked i t o)]) (placed i t (o + 1) outs)) as Hle.
      rewrite <- app_assoc in Hle. cbn [app] in Hle. lia.
Qed.

(** ** Transactions *)

Section Transactions.
Context (cn_fast_hash : list Z -> Hash).

Local Abbreviation hash := (TransactionPool.hash_of cn_fast_hash).
Local Abbreviation tx_of := TransactionPool.getTransaction.
Local Abbreviation info_of := (PushProofs.info_of cn_fast_hash i count).
Local Abbreviation infos_of := (PushProofs.infos_of cn_fast_hash i count).
Local Abbreviation payment_id := (PushProofs.payment_id cn_fast_hash).
Local Abbreviation placed_all := (PushProofs.placed_all i).

Definition known (cur : segment) (t : TransactionPool.CachedTransaction) : bool :=
  bool_decide (hash t ∈ map ti_transactionHash (transactions cur)).

Lemma hasTransaction_known cur t : hasTransaction cur (hash t) = known cur t.
Proof.
  unfold hasTransaction, find_transaction, known. destruct (list_find _ _) as [[k x]|] eqn:E; simpl; symmetry.
  - apply bool_decide_eq_true. apply list_find_Some in E as (Ek & <- & _). apply list_elem_of_fmap_2. by eapply list_elem_of_lookup_2.
  - apply bool_decide_eq_false. apply list_find_None in E. rewrite Forall_forall in E. intros Hin.
    apply list_elem_of_fmap in Hin as (x & Hx & Hin). by apply (E x Hin).
Qed.

(** The state after a transaction. *)
Definition after_transaction (n : Z) (prior : list (Z * PackedOutIndex)) (t : TransactionPool.CachedTransaction) (cur : segment)
  : segment :=
  mkSegment (startIndex cur) (transactions cur ++ [info_of n prior t]) (spentImages cur) (blockInfos cur)
    (with_outputs (prior ++ placed i n 0 (outputs (tx_of t)))) (paymentIds cur ∪ payment_id t) (storage cur).

Lemma pushTransaction_eq n prior cur t : keyOutputsGlobalIndexes cur = with_outputs prior ->
  find_in_block cur i n = None ->
  (forall amount, count amount + Z.of_nat (length (sel amount (prior ++ placed i n 0 (outputs (tx_of t))))) < 2 ^ 32) ->
  ok_of (pushTransaction cn_fast_hash parents t i n cur) =
  if small t && negb (known cur t) then Some (after_transaction n prior t cur) else None.
Proof.
  intros Hcur Hf Hb. unfold pushTransaction. fold (small t). destruct (small t) eqn:Hs; [|done]. cbn [assert_that obind].
  apply Z.leb_le in Hs. rewrite push_outputs_eq with (prior := prior) by (done || lia). cbn [obind].
  rewrite (hasTransaction_known (set_globalIndexes _ _)). change (known (set_globalIndexes _ cur) t) with (known cur t).
  destruct (known cur t) eqn:Hk; [done|]. cbn [negb andb assert_that obind]. unfold insert_transaction.
  rewrite <- hasTransaction_known in Hk. unfold hasTransaction in Hk.
  change (find_in_block (set_globalIndexes _ cur)) with (find_in_block cur).
  change (find_transaction (set_globalIndexes _ cur)) with (find_transaction cur). cbn [ti_blockIndex ti_transactionIndex ti_transactionHash].
  rewrite Hf. destruct (find_transaction cur (hash t)); [done|]. unfold after_transaction, PushProofs.payment_id.
  destruct (getPaymentIdFromTxExtra (extra (tx_of t))) as [id|].
  - cbn [set_transactions set_globalIndexes paymentIds]. destruct (paymentIds cur !! hash t) eqn:Ep; cbn [ok_of]; f_equal; apply segment_eq; try done; cbn [set_paymentIds set_transactions set_globalIndexes paymentIds].
    + apply map_eq. intros h'. symmetry. destruct (decide (h' = hash t)) as [->|Hh].
      * rewrite Ep. by apply lookup_union_Some_l.
      * rewrite lookup_union_l; [done|]. by rewrite lookup_singleton_ne.
    + by apply insert_union_singleton_r.
  - cbn [ok_of]. f_equal. apply segment_eq; try done. cbn [paymentIds]. by rewrite map_union_empty.
Qed.

Lemma after_fresh n prior t cur m : n < m -> (forall k, n <= k -> find_in_block cur i k = None) ->
  find_in_block (after_transaction n prior t cur) i m = None.
Proof.
  intros Hm Hf. rewrite find_in_block_eq. cbn [after_transaction transactions]. apply fmap_None, list_find_None.
  apply Forall_app. specialize (Hf m ltac:(lia)). rewrite find_in_block_eq in Hf. apply fmap_None, list_find_None in Hf.
  split; [done|]. apply Forall_singleton. simpl. intros [_ ?]. lia.
Qed.

Lemma known_after n prior t cur t' : known (after_transaction n prior t cur) t' = known cur t' || bool_decide (hash t' = hash t).
Proof.
  unfold known. cbn [after_transaction transactions]. apply Bool.eq_iff_eq_true.
  rewrite orb_true_iff, !bool_decide_eq_true, map_app, elem_of_app. simpl. by rewrite list_elem_of_singleton.
Qed.

(** What [pushTransaction] requires of the transactions. *)
Definition pushable (cur : segment) (txs : list TransactionPool.CachedTransaction) : bool :=
  forallb small txs && bool_decide (NoDup (map hash txs)) && forallb (fun t => negb (known cur t)) txs.

Lemma pushable_cons n prior cur t txs : pushable cur (t :: txs) =
  small t && negb (known cur t) && pushable (after_transaction n prior t cur) txs.
Proof.
  unfold pushable. cbn [forallb map]. rewrite (bool_decide_ext (NoDup (_ :: _)) (hash t ∉ map hash txs /\ NoDup (map hash txs))) by apply NoDup_cons.
  rewrite bool_decide_and. assert (E : forallb (fun t' => negb (known (after_transaction n prior t cur) t')) txs =
    forallb (fun t' => negb (known cur t')) txs && bool_decide (hash t ∉ map hash txs)).
  { induction txs as [|x txs IH]; [done|]. cbn [forallb map]. rewrite IH, known_after, negb_orb.
    rewrite (bool_decide_ext (hash t ∉ hash x :: map hash txs) (hash x <> hash t /\ hash t ∉ map hash txs))
      by (rewrite not_elem_of_cons; naive_solver).
    rewrite bool_decide_and, (bool_decide_not (hash x = hash t)).
    clear IH. destruct (known cur x), (bool_decide (hash x = hash t)), (forallb _ _), (bool_decide (_ ∉ _)); reflexivity. }
  rewrite E. clear E. destruct (small t), (known cur t), (forallb small txs), (bool_decide (_ ∉ _)), (bool_decide (NoDup _)), (forallb _ _); reflexivity.
Qed.

Lemma push_transactions_eq txs : forall n prior cur, keyOutputsGlobalIndexes cur = with_outputs prior ->
  (forall k, n <= k -> find_in_block cur i k = None) -> 0 <= n -> n + Z.of_nat (length txs) <= 2 ^ 16 ->
  (forall amount, count amount + Z.of_nat (length (sel amount (prior ++ placed_all n txs))) < 2 ^ 32) ->
  ok_of (push_transactions cn_fast_hash parents txs i n cur) =
  if pushable cur txs then
    Some (mkSegment (startIndex cur) (transactions cur ++ infos_of n prior txs) (spentImages cur) (blockInfos cur)
      (with_outputs (prior ++ placed_all n txs)) (paymentIds cur ∪ ⋃ map payment_id txs) (storage cur))
  else None.
Proof.
  induction txs as [|t txs IH]; intros n prior cur Hcur Hf Hn Hl Hb; cbn [push_transactions PushProofs.infos_of PushProofs.placed_all map].
  - change (pushable cur []) with true. cbn [ok_of].
    rewrite !app_nil_r, <- Hcur. change (⋃ []) with (∅ : gmap Hash Hash). rewrite map_union_empty. by destruct cur.
  - rewrite ok_of_bind, wrap_small by (unfold fits; simpl in Hl; lia). cbn [PushProofs.placed_all] in Hb. rewrite app_assoc in Hb.
    rewrite pushTransaction_eq with (prior := prior); [|done|by apply Hf|].
    + rewrite (pushable_cons n prior). destruct (small t && negb (known cur t)); [|done]. cbn [mbind option_bind andb].
      rewrite IH with (prior := prior ++ placed i n 0 (outputs (tx_of t))); [|done| |lia|simpl in Hl; lia|done].
      * destruct (pushable _ txs); [|done]. cbn [after_transaction startIndex transactions spentImages blockInfos paymentIds storage].
        do 2 f_equal; [by rewrite <- app_assoc|by rewrite <- app_assoc|]. rewrite union_list_cons. by rewrite (assoc_L (∪)).
      * intros k Hk. apply after_fresh; [lia|done].
    + intros amount. specialize (Hb amount). pose proof (sel_le amount (prior ++ placed i n 0 (outputs (tx_of t))) (placed_all (n + 1) txs)). lia.
Qed.

End Transactions.

(** ** Key images *)

Definition unspent (keyImage : KeyImage) : bool := bool_decide (spentImages (flatten (s :: parents)) !! keyImage = None).

Lemma checkIfSpent_new cur m keyImage : startIndex cur = startIndex s -> spentImages cur = spentImages s ∪ m ->
  m !! keyImage = None -> checkIfSpent_at (cur :: parents) keyImage (u32 (i - 1)) = Ok (negb (unspent keyImage)).
Proof.
  intros Hst Hsp Hm. assert (E : checkIfSpent_at (cur :: parents) keyImage (u32 (i - 1)) =
    checkIfSpent_at (s :: parents) keyImage (u32 (i - 1))).
  { cbn [checkIfSpent_at]. by rewrite Hst, Hsp, lookup_union_l by done. }
  pose proof (wrap_fits 32 (i - 1) ltac:(lia)) as Hw. unfold fits in Hw.
  rewrite E, (checkIfSpent_flat _ _ _ Hok ltac:(done) ltac:(apply Hw)). f_equal. unfold spent_by, unspent.
  destruct (spentImages (flatten (s :: parents)) !! keyImage) as [b|] eqn:Eb; [|done].
  rewrite bool_decide_false by done. apply Z.leb_le.
  destruct (flatten_ok _ Hok) as [Hf H0]. pose proof (ok_spent _ Hf _ _ Eb) as Hr. cbv beta in Hr. unfold in_range in Hr.
  rewrite (flatten_end _ _ Hok), H0 in Hr. destruct (start_fits _ _ Hok). rewrite wrap_small by (unfold fits; lia). lia.
Qed.

Lemma unspent_top keyImage : unspent keyImage = true -> spentImages s !! keyImage = None.
Proof.
  unfold unspent. rewrite bool_decide_eq_true. change (spentImages (flatten (s :: parents))) with (spentImages (flatten parents) ∪ spentImages s).
  rewrite lookup_union_None. by intros [_ ?].
Qed.

Lemma add_images_eq images : forall cur m, startIndex cur = startIndex s -> spentImages cur = spentImages s ∪ m ->
  NoDup images -> Forall (fun k => m !! k = None) images ->
  ok_of (add_images parents images i cur) =
  if forallb unspent images then Some (set_spentImages (spentImages cur ∪ gset_to_gmap i (list_to_set images)) cur) else None.
Proof.
  induction images as [|k images IH]; intros cur m Hst Hsp Hnd Hm; cbn [add_images forallb].
  - cbn [ok_of list_to_set]. rewrite gset_to_gmap_empty, map_union_empty. by destruct cur.
  - apply NoDup_cons in Hnd as [Hk Hnd]. apply Forall_cons in Hm as [Hmk Hm]. rewrite ok_of_bind. unfold addSpentKeyImage.
    rewrite (checkIfSpent_new cur m) by done. cbn [obind]. rewrite negb_involutive.
    destruct (unspent k) eqn:Hu; [|done]. cbn [assert_that obind andb].
    assert (Hc : spentImages cur !! k = None) by (rewrite Hsp, lookup_union_r by (by apply unspent_top); done).
    rewrite Hc. cbn [ok_of mbind option_bind]. rewrite (IH _ (<[k := i]> m)); [|done| |done|].
    + destruct (forallb unspent images); [|done]. f_equal. apply segment_eq; try done.
      cbn [set_spentImages spentImages]. apply map_eq. intros x. destruct (decide (x = k)) as [->|Hx].
      * rewrite (lookup_union_Some_l _ _ _ i) by apply lookup_insert_eq. symmetry. rewrite lookup_union_r by done.
        apply lookup_gset_to_gmap_Some. split; [set_solver|done].
      * rewrite !lookup_union, lookup_insert_ne by done. f_equal. apply option_eq. intros y. rewrite !lookup_gset_to_gmap_Some.
        rewrite list_to_set_cons. set_solver.
    + cbn [set_spentImages spentImages]. rewrite Hsp. rewrite insert_union_r; [done|]. by apply unspent_top.
    + rewrite Forall_forall in Hm |- *. intros x Hx. rewrite lookup_insert_ne by (by intros ->). by apply Hm.
Qed.

Lemma totals_below_eq : totals_below parents i s = Ok (totals (flatten (s :: parents))).
Proof.
  pose proof Hok as (Hs & Hl & Hc & Hh). destruct (start_fits _ _ Hok) as [H0 Hend]. unfold seg_end in Hend.
  unfold totals_below, totals, getBlockCount. rewrite wrap_small by (unfold fits; lia).
  change (blockInfos (flatten (s :: parents))) with (blockInfos (flatten parents) ++ blockInfos s). rewrite last_app.
  destruct (Z.eqb_spec (Z.of_nat (length (blockInfos s))) 0) as [E|E].
  - assert (En : blockInfos s = []) by (by apply nil_length_inv; lia). rewrite En. cbn [last].
    destruct parents as [|p ps]; [done|]. destruct (parents_infos _ _ _ Hok) as (Hne & Hpe & _).
    destruct (top_info p ps Hc Hne) as (b & -> & E1 & E2). assert (i = seg_end p) as ->.
    { rewrite Hpe, Hi. unfold seg_end. rewrite En. simpl. lia. }
    unfold getAlreadyGeneratedCoins, getAlreadyGeneratedTransactions. rewrite E2. cbn [obind]. by rewrite E1.
  - unfold last_block. destruct (last (blockInfos s)) as [b|] eqn:El; [done|]. apply last_None in El. rewrite El in E. done.
Qed.

End Outputs.

(** ** Pushing a block *)

(** A block, with what its callers have computed. *)
Record pushed := mkPushed {
  new_block : BlockTemplate;
  new_transactions : list TransactionPool.CachedTransaction;
  new_images : gset KeyImage;
  new_size : Z;
  new_coins : Z;
  new_difficulty : Z;
  new_raw : RawBlock;
  new_hash : Hash;
  new_base : BinaryArray
}.

Section Block.
Context (cn_fast_hash : list Z -> Hash).

Definition all_transactions (p : pushed) : list TransactionPool.CachedTransaction :=
  TransactionPool.mkCached (baseTransaction (new_block p)) (new_base p) :: new_transactions p.

Definition push (parents : chain) (p : pushed) (s : segment) : outcome segment :=
  doPushBlock cn_fast_hash parents (new_block p) (new_transactions p) (new_images p) (new_size p) (new_coins p)
    (new_difficulty p) (new_raw p) s.

(** The segment with the one block. *)
Definition block_delta (flat : segment) (p : pushed) : segment :=
  let i := seg_end flat in
  let count := entry_count (keyOutputsGlobalIndexes flat) in
  let '(difficulty, coins, number) := totals flat in
  mkSegment i (infos_of cn_fast_hash i count 0 [] (all_transactions p)) (gset_to_gmap i (new_images p))
    [mkBlockInfo (new_hash p) (timestamp (new_block p)) (u64 (difficulty + new_difficulty p))
      (u64 (coins + new_coins p)) (u64 (number + Z.of_nat (length (new_transactions p)) + 1)) (u32 (new_size p))]
    (entries count (placed_all i 0 (all_transactions p)))
    (⋃ map (payment_id cn_fast_hash) (all_transactions p)) [new_raw p].

(** The block belongs on top of the chain, and the counters do not overflow. *)
Record on_top (flat : segment) (p : pushed) : Prop := {
  top_index : Block.Block.getBlockIndex (new_block p) = seg_end flat;
  top_hash : Block.Block.getBlockHash cn_fast_hash (new_block p) = Ok (new_hash p);
  top_base : Block.Block.getTransactionBinaryArray (baseTransaction (new_block p)) = Ok (new_base p);
  top_fits : seg_end flat + 1 < 2 ^ 32;
  top_outputs : forall amount, entry_count (keyOutputsGlobalIndexes flat) amount +
    Z.of_nat (length (sel amount (placed_all (seg_end flat) 0 (all_transactions p)))) < 2 ^ 32
}.

(** The assertions of [doPushBlock]: key images are looked up in the chain,
    the block and its transactions in the segment [s] only. *)
Definition accepted (flat s : segment) (p : pushed) : bool :=
  (0 <? new_size p) && (0 <? new_difficulty p) && negb (hasBlock s (new_hash p)) &&
  forallb (fun k => bool_decide (spentImages flat !! k = None)) (elements (new_images p)) &&
  (Z.of_nat (length (new_transactions p)) <=? 2 ^ 16 - 1) && pushable cn_fast_hash s (all_transactions p).

Lemma find_in_block_fresh s b t : segment_ok s -> seg_end s <= b -> find_in_block s b t = None.
Proof.
  intros Hs Hb. destruct (find_in_block s b t) as [x|] eqn:E; [|done]. apply find_in_block_spec in E as (Hx & <- & _).
  pose proof (ok_range _ Hs) as Hr. rewrite Forall_forall in Hr. specialize (Hr x Hx). unfold in_range in Hr. lia.
Qed.

Lemma push_eq s parents p : chain_ok (s :: parents) -> on_top (flatten (s :: parents)) p ->
  ok_of (push parents p s) =
  if accepted (flatten (s :: parents)) s p then Some (join s (block_delta (flatten (s :: parents)) p)) else None.
Proof.
  intros Hok [Hi Hh Hb Hf Ho]. rewrite (flatten_end _ _ Hok) in *. unfold push, doPushBlock, accepted.
  destruct (0 <? new_size p); [|done]. cbn [assert_that obind andb].
  destruct (0 <? new_difficulty p); [|done]. cbn [assert_that obind andb].
  rewrite Hi, (totals_below_eq s parents _ Hok eq_refl). cbn [obind]. unfold block_delta.
  destruct (totals (flatten (s :: parents))) as [[difficulty coins] number]. rewrite Hh, (flatten_end _ _ Hok). cbn [obind].
  destruct (hasBlock s (new_hash p)); [done|]. cbn [negb assert_that obind andb]. rewrite ok_of_bind.
  erewrite (add_images_eq s parents _ Hok eq_refl _ _ ∅); [|done|by rewrite map_union_empty|apply NoDup_elements|by apply Forall_forall].
  change (forallb (unspent s parents)) with (forallb (fun k => bool_decide (spentImages (flatten (s :: parents)) !! k = None))).
  destruct (forallb _ _); [|done]. cbn [mbind option_bind andb].
  destruct (Z.leb_spec (Z.of_nat (length (new_transactions p))) (2 ^ 16 - 1)) as [Hn|Hn]; [|done]. cbn [assert_that obind andb].
  rewrite Hb. cbn [obind]. fold (all_transactions p). rewrite ok_of_bind.
  rewrite (push_transactions_eq s parents _ Hok eq_refl) with (prior := []).
  - change (pushable cn_fast_hash (set_spentImages _ _)) with (pushable cn_fast_hash s).
    destruct (pushable cn_fast_hash s (all_transactions p)); [|done]. cbn [mbind option_bind ok_of]. f_equal.
    apply segment_eq; try done. cbn [set_storage set_spentImages spentImages join]. by rewrite list_to_set_elements_L.
  - cbn [set_spentImages set_blockInfos keyOutputsGlobalIndexes]. apply map_eq. intros amount.
    unfold add_entries. rewrite lookup_merge, entries_lookup. cbn [sel filter list_filter map is_empty]. unfold diag_None.
    by destruct (keyOutputsGlobalIndexes s !! amount).
  - intros k Hk. apply (find_in_block_fresh s); [apply Hok|lia].
  - lia.
  - cbn [all_transactions length]. lia.
  - exact Ho.
Qed.

(** ** The pushed block is well formed *)

Lemma Forall_const_sorted {A} (f : A -> Z) v l : Forall (fun x => f x = v) l -> StronglySorted (fun a b => f a <= f b) l.
Proof.
  induction 1 as [|x l Hx Hl IH]; constructor; [done|]. eapply Forall_impl; [exact Hl|]. simpl. lia.
Qed.

Section Delta.
Context (flat : segment) (p : pushed).
Hypothesis Hflat : segment_ok flat.
Hypothesis Hcount : forall amount, 0 <= entry_count (keyOutputsGlobalIndexes flat) amount.
Hypothesis Htop : on_top flat p.

Local Abbreviation i := (seg_end flat).
Local Abbreviation count := (entry_count (keyOutputsGlobalIndexes flat)).

Lemma delta_fields : exists info, block_delta flat p =
  mkSegment i (infos_of cn_fast_hash i count 0 [] (all_transactions p)) (gset_to_gmap i (new_images p)) [info]
    (entries count (placed_all i 0 (all_transactions p))) (⋃ map (payment_id cn_fast_hash) (all_transactions p)) [new_raw p].
Proof. unfold block_delta. destruct (totals flat) as [[difficulty coins] number]. by eexists. Qed.

Lemma infos_block n prior txs : Forall (fun t => ti_blockIndex t = i) (infos_of cn_fast_hash i count n prior txs).
Proof.
  apply Forall_lookup. intros k x Hx. rewrite infos_lookup_at in Hx. by apply fmap_Some in Hx as (t & _ & ->).
Qed.

Lemma delta_find k t : all_transactions p !! k = Some t ->
  find_in_block (block_delta flat p) i (Z.of_nat k) =
  Some (info_of cn_fast_hash i count (Z.of_nat k) (placed_all i 0 (take k (all_transactions p))) t).
Proof.
  intros Hk. destruct delta_fields as (info & ->). rewrite find_in_block_eq. cbn [transactions].
  exact (f_equal (fmap snd) (infos_find cn_fast_hash i count _ 0 [] k t Hk)).
Qed.

Lemma delta_ok : segment_ok (block_delta flat p).
Proof.
  pose proof (ok_start _ Hflat) as H0. pose proof (ok_end _ Hflat) as H1. pose proof (top_fits _ _ Htop).
  destruct delta_fields as (info & E). assert (Hend : seg_end (block_delta flat p) = i + 1) by (by rewrite E).
  assert (Hst : startIndex (block_delta flat p) = i) by (by rewrite E).
  assert (Hin : in_range (block_delta flat p) i) by (unfold in_range; rewrite Hst, Hend; lia).
  split.
  - rewrite Hst. unfold seg_end. lia.
  - by rewrite Hend.
  - by rewrite E.
  - intros k b Hb. rewrite E in Hb. cbn [spentImages] in Hb. by apply lookup_gset_to_gmap_Some in Hb as [_ <-].
  - rewrite E. apply (Forall_const_sorted ti_blockIndex i), infos_block.
  - assert (Ht : transactions (block_delta flat p) = infos_of cn_fast_hash i count 0 [] (all_transactions p)) by (by rewrite E).
    rewrite Ht. eapply Forall_impl; [apply infos_block|]. by intros t ->.
  - intros amount e He. rewrite E in He. cbn [keyOutputsGlobalIndexes] in He. rewrite entries_lookup in He.
    destruct (is_empty _) eqn:Ee; [done|]. injection He as <-.
    assert (Hel : Forall (fun o => poi_blockIndex o = i /\ output_exists (block_delta flat p) o) (sel amount (placed_all i 0 (all_transactions p)))).
    { apply Forall_forall. intros o Ho. apply elem_of_sel, elem_of_placed_all in Ho as (k & t & j & y & Hk & Hj & _ & ->).
      split; [done|]. eexists. split; [by apply (delta_find k t)|]. cbn [poi_outputIndex info_of ti_outputs]. rewrite length_map.
      apply lookup_lt_Some in Hj. lia. }
    apply Forall_and in Hel as [Hb Hx]. split; cbn [og_outputs og_startIndex]; [by destruct (sel _ _)|done|apply Htop| | |done].
    + by apply (Forall_const_sorted poi_blockIndex i).
    + eapply Forall_impl; [exact Hb|]. by intros o ->.
Qed.

Lemma delta_linked : forallb (fun k => bool_decide (spentImages flat !! k = None)) (elements (new_images p)) = true ->
  linked flat (block_delta flat p).
Proof.
  intros Hu. destruct delta_fields as (info & ->). split; cbn [startIndex spentImages keyOutputsGlobalIndexes]; [done| |].
  - apply map_disjoint_spec. intros k x y Hx Hy. apply lookup_gset_to_gmap_Some in Hy as [Hk _].
    rewrite forallb_forall in Hu. specialize (Hu k). rewrite bool_decide_eq_true in Hu. rewrite Hu in Hx; [done|].
    by apply list_elem_of_In, elem_of_elements.
  - intros amount e He. rewrite entries_lookup in He. destruct (is_empty _); [done|]. by injection He as <-.
Qed.

End Delta.

(** ** The chain after a push *)

Lemma count_flat c amount : chain_ok c -> 0 <= entry_count (keyOutputsGlobalIndexes (flatten c)) amount.
Proof. intros Hok. rewrite flatten_count by done. lia. Qed.

Lemma accepted_unspent flat s p : accepted flat s p = true ->
  forallb (fun k => bool_decide (spentImages flat !! k = None)) (elements (new_images p)) = true.
Proof. unfold accepted. rewrite !andb_true_iff. tauto. Qed.

(** No key image of the block is spent below. *)
Definition unspent_in (flat : segment) (p : pushed) : Prop := forall k, k ∈ new_images p -> spentImages flat !! k = None.

Lemma accepted_fresh flat s p : accepted flat s p = true -> unspent_in flat p.
Proof.
  intros H%accepted_unspent k Hk. rewrite forallb_forall in H. specialize (H k). rewrite <- list_elem_of_In, elem_of_elements in H.
  by apply (bool_decide_eq_true_1 _), H.
Qed.

Lemma push_ok s parents p s' : chain_ok (s :: parents) -> on_top (flatten (s :: parents)) p -> push parents p s = Ok s' ->
  accepted (flatten (s :: parents)) s p = true /\ s' = join s (block_delta (flatten (s :: parents)) p) /\
  chain_ok (s' :: parents) /\ flatten (s' :: parents) = join (flatten (s :: parents)) (block_delta (flatten (s :: parents)) p).
Proof.
  intros Hok Htop H. pose proof (push_eq _ _ _ Hok Htop) as E. rewrite H in E. cbn [ok_of] in E.
  destruct (accepted _ s p) eqn:Ha; [|done]. assert (Es : s' = join s (block_delta (flatten (s :: parents)) p)) by congruence.
  split; [done|]. split; [done|]. rewrite Es. destruct (flatten_ok _ Hok) as [Hf _]. apply extend_chain; [done| |].
  - apply delta_ok; [done|intros amount; by apply count_flat|done].
  - apply delta_linked. by eapply accepted_unspent.
Qed.

(** One segment that holds all blocks of a chain. *)
Lemma flat_chain_ok c : chain_ok c -> chain_ok [flatten c].
Proof.
  intros Hok. destruct (flatten_ok _ Hok) as [Hf H0]. cbn [chain_ok]. split_and!; try done. split.
  - by rewrite H0.
  - apply map_disjoint_empty_l.
  - intros amount e He. rewrite (flatten_starts _ Hok _ _ He). unfold entry_count. cbn [flatten foldr empty_segment keyOutputsGlobalIndexes].
    by rewrite lookup_empty.
Qed.

Lemma flatten_one s : startIndex s = 0 -> flatten [s] = s.
Proof.
  intros H0. cbn [flatten foldr]. apply segment_eq;
    cbn [join empty_segment startIndex transactions spentImages blockInfos keyOutputsGlobalIndexes paymentIds storage]; try done.
  - by rewrite map_empty_union.
  - apply map_eq. intros amount. rewrite lookup_merge, lookup_empty. unfold diag_None. simpl. by destruct (_ !! amount).
  - by rewrite map_empty_union.
Qed.

Lemma flatten_flat c : chain_ok c -> flatten [flatten c] = flatten c.
Proof. intros Hok. by apply flatten_one, flatten_ok. Qed.

Lemma push_flat s parents p s' : chain_ok (s :: parents) -> on_top (flatten (s :: parents)) p -> push parents p s = Ok s' ->
  accepted (flatten (s :: parents)) (flatten (s :: parents)) p = true ->
  push [] p (flatten (s :: parents)) = Ok (flatten (s' :: parents)).
Proof.
  intros Hok Htop H Ha. destruct (push_ok _ _ _ _ Hok Htop H) as (_ & _ & _ & ->).
  pose proof (push_eq (flatten (s :: parents)) [] p) as E. rewrite flatten_flat, Ha in E by done.
  specialize (E (flat_chain_ok _ Hok) Htop). by destruct (push [] p _); cbn [ok_of] in E; [injection E as ->|].
Qed.

(** *** Outputs of the new block *)

Lemma flat_outputs_join flat d amount : flat_outputs (join flat d) amount = flat_outputs flat amount ++ flat_outputs d amount.
Proof. unfold flat_outputs. rewrite join_lookup. destruct (_ !! amount), (_ !! amount); simpl; by rewrite ?app_nil_r. Qed.

Lemma delta_outputs flat p amount :
  flat_outputs (block_delta flat p) amount = sel amount (placed_all (seg_end flat) 0 (all_transactions p)).
Proof.
  unfold flat_outputs. destruct (delta_fields flat p) as (info & ->). cbn [keyOutputsGlobalIndexes]. rewrite entries_lookup.
  by destruct (sel _ _).
Qed.

Lemma pushed_output c p k t j x : chain_ok c -> on_top (flatten c) p ->
  all_transactions p !! k = Some t -> outputs (TransactionPool.getTransaction t) !! j = Some x ->
  let flat := join (flatten c) (block_delta (flatten c) p) in
  exists info g, find_in_block flat (seg_end (flatten c)) (Z.of_nat k) = Some info /\
    ti_transactionHash info = TransactionPool.hash_of cn_fast_hash t /\
    ti_unlockTime info = unlockTime (TransactionPool.getTransaction t) /\
    ti_outputs info = map target (outputs (TransactionPool.getTransaction t)) /\
    ti_globalIndexes info !! j = Some g /\ 0 <= g < 2 ^ 32 /\
    lookup_output flat (out_amount x) g = Some (info, mkPacked (seg_end (flatten c)) (Z.of_nat k) (Z.of_nat j)).
Proof.
  intros Hok Htop Hk Hj flat. destruct (flatten_ok _ Hok) as [Hf _]. set (i := seg_end (flatten c)).
  set (count := entry_count (keyOutputsGlobalIndexes (flatten c))).
  assert (Hd : segment_ok (block_delta (flatten c) p)) by (apply delta_ok; [done|intros amount; by apply count_flat|done]).
  assert (Hst : startIndex (block_delta (flatten c) p) = i) by (destruct (delta_fields (flatten c) p) as (? & ->); done).
  assert (Hfind : find_in_block flat i (Z.of_nat k) =
    Some (info_of cn_fast_hash i count (Z.of_nat k) (placed_all i 0 (take k (all_transactions p))) t)).
  { unfold flat. rewrite find_in_block_join by done. rewrite Hst, Z.ltb_irrefl. by apply delta_find. }
  destruct (placed_all_split i 0 (all_transactions p) k j t x Hk Hj) as (rest & Es). rewrite !Z.add_0_l in Es.
  set (l := placed i (Z.of_nat k) 0 (outputs (TransactionPool.getTransaction t))) in *.
  set (before := placed_all i 0 (take k (all_transactions p)) ++ take j l) in *.
  exists (info_of cn_fast_hash i count (Z.of_nat k) (placed_all i 0 (take k (all_transactions p))) t),
    (count (out_amount x) + Z.of_nat (length (sel (out_amount x) before))).
  assert (El : l !! j = Some (out_amount x, mkPacked i (Z.of_nat k) (Z.of_nat j))) by (unfold l; by rewrite placed_lookup, Hj).
  pose proof (count_flat c (out_amount x) Hok) as H0. fold count in H0. split; [done|]. split_and!; try done.
  - cbn [info_of ti_globalIndexes]. fold l. by rewrite numbers_lookup, El.
  - lia.
  - pose proof (top_outputs _ _ Htop (out_amount x)) as Hb. fold i in Hb. rewrite Es in Hb. fold count in Hb.
    pose proof (lookup_lt_Some _ _ _ (sel_at (out_amount x) before (mkPacked i (Z.of_nat k) (Z.of_nat j)) rest)). lia.
  - unfold lookup_output, flat. rewrite flat_outputs_join, delta_outputs. fold i. rewrite Es.
    rewrite lookup_app_r by (rewrite <- (Nat2Z.id (length (flat_outputs _ _))), <- flatten_count by done; fold count; lia).
    replace (Z.to_nat _ - _)%nat with (length (sel (out_amount x) before)).
    2:{ rewrite <- (Nat2Z.id (length (flat_outputs _ _))), <- flatten_count by done. fold count. lia. }
    rewrite sel_at. cbn [mbind option_bind poi_blockIndex poi_transactionIndex]. fold flat. by rewrite Hfind.
Qed.

(** *** What was pushed *)

Lemma u64_undo a b : u64 (u64 (a + b) - a) = u64 b.
Proof. unfold u64, wrap. rewrite Zminus_mod_idemp_l. f_equal. lia. Qed.

Lemma fillOutputsSpentByBlock_join s d : segment_ok s -> spentImages s ##ₘ spentImages d ->
  startIndex d = seg_end s -> fillOutputsSpentByBlock (join s d) (startIndex d) = fillOutputsSpentByBlock d (startIndex d).
Proof.
  intros Hs Hd Hst. unfold fillOutputsSpentByBlock. cbn [join spentImages]. apply set_eq. intros k.
  rewrite !elem_of_dom. unfold is_Some. setoid_rewrite map_lookup_filter_Some. setoid_rewrite lookup_union_Some; [|done].
  split; intros (b & H & Hb); exists b; simpl in *.
  - destruct H as [H|H]; [|done]. pose proof (ok_spent _ Hs _ _ H) as Hr. cbv beta in Hr. unfold in_range in Hr. lia.
  - by split; [right|].
Qed.

End Block.

End PushProofs.
