(* ===== verification/CoreChain.v ===== *)
(** * The node's chains

    The methods of [src/src/cryptonotecore/Core.cpp] that keep the tree of
    blockchain caches: adding and submitting blocks, finding segments, switching
    to a heavier chain, deleting and merging chains, rewinding, and the queries
    that the peers use.  The caches are those of [MemoryBlockchainCacheFactory];
    they are allocated in a map, and a pointer to a cache is its address.  The
    [parent] and [children] of a cache are here, its containers are a segment of
    [BlockchainCache].  Log lines are left out; the message to the observers is
    a result.  The clock, the order in which a hashed container gives its
    elements and the interleavings of the signature jobs are arguments. *)

From S2P Require Import Prelude.
From S2P Require Import Config.
From S2P Require Import Types.
From S2P Require Import Serialization.
From S2P Require Import Block.
From S2P Require Import Currency.
From S2P Require Import Checkpoints.
From S2P Require Import ValidateTransaction.
From S2P Require Import TransactionPool.
From S2P Require Import CorePool.
From S2P Require Import BlockchainCache.
Import Config.parameters Types.Types Serialization.Serialization Currency.Currency Checkpoints.Checkpoints.
Import ValidateTransaction.ValidateTransaction BlockchainCache.BlockchainCache.
Import (hints) TransactionPool.TransactionPool.

Module CoreChain.

(** ** Errors *)

Inductive AddBlockErrorCode :=
| ADDED_TO_MAIN
| ADDED_TO_ALTERNATIVE
| ADDED_TO_ALTERNATIVE_AND_SWITCHED
| ALREADY_EXISTS
| REJECTED_AS_ORPHANED
| DESERIALIZATION_FAILED.

Inductive BlockValidationError :=
| WRONG_VERSION
| PARENT_BLOCK_SIZE_TOO_BIG
| PARENT_BLOCK_WRONG_VERSION
| TIMESTAMP_TOO_FAR_IN_FUTURE
| TIMESTAMP_TOO_FAR_IN_PAST
| CUMULATIVE_BLOCK_SIZE_TOO_BIG
| DIFFICULTY_OVERHEAD
| BLOCK_REWARD_MISMATCH
| CHECKPOINT_BLOCK_HASH_MISMATCH
| PROOF_OF_WORK_TOO_WEAK
| TRANSACTION_ABSENT_IN_POOL
| TRANSACTION_DUPLICATES
| TRANSACTION_INCONSISTENCY.

(** [std::error_code]: a value of one of the three categories. *)
Inductive error_code :=
| AddBlock (code : AddBlockErrorCode)
| BlockError (code : BlockValidationError)
| TransactionError (code : TransactionValidationError).

Inductive BlockchainMessage :=
| NewBlock (blockIndex : Z) (blockHash : Hash)
| NewAlternativeBlock (blockIndex : Z) (blockHash : Hash)
| ChainSwitch (commonRootIndex : Z) (blocksFromCommonRoot : list Hash).

(** ** The tree of caches *)

Record cache := mkCache {
  cache_segment : segment;
  parent : option Z;
  children : list Z
}.

(** [caches] holds the caches that exist, [next_cache] is the next address. *)
Record core := mkCore {
  caches : gmap Z cache;
  next_cache : Z;
  chainsLeaves : list Z;
  chainsStorage : list Z;
  mainChainSet : gset Z;
  core_medianSize : Z;
  core_pool : TransactionPool.TransactionPoolCleanWrapper
}.

Definition set_caches (m : gmap Z cache) (st : core) : core :=
  mkCore m (next_cache st) (chainsLeaves st) (chainsStorage st) (mainChainSet st) (core_medianSize st) (core_pool st).
Definition set_leaves (l : list Z) (st : core) : core :=
  mkCore (caches st) (next_cache st) l (chainsStorage st) (mainChainSet st) (core_medianSize st) (core_pool st).
Definition set_chainsStorage (l : list Z) (st : core) : core :=
  mkCore (caches st) (next_cache st) (chainsLeaves st) l (mainChainSet st) (core_medianSize st) (core_pool st).
Definition set_mainChainSet (s : gset Z) (st : core) : core :=
  mkCore (caches st) (next_cache st) (chainsLeaves st) (chainsStorage st) s (core_medianSize st) (core_pool st).
Definition set_medianSize (size : Z) (st : core) : core :=
  mkCore (caches st) (next_cache st) (chainsLeaves st) (chainsStorage st) (mainChainSet st) size (core_pool st).
Definition set_core_pool (w : TransactionPool.TransactionPoolCleanWrapper) (st : core) : core :=
  mkCore (caches st) (next_cache st) (chainsLeaves st) (chainsStorage st) (mainChainSet st) (core_medianSize st) w.

Definition deref (st : core) (p : Z) : outcome cache :=
  match caches st !! p with
  | Some c => Ok c
  | None => Err (UndefinedBehaviour "dangling pointer")
  end.

Definition update_cache (p : Z) (f : cache -> cache) (st : core) : core := set_caches (alter f p (caches st)) st.

Definition set_segment (s : segment) (c : cache) : cache := mkCache s (parent c) (children c).
Definition setParent (p : option Z) (c : cache) : cache := mkCache (cache_segment c) p (children c).
Definition set_children (l : list Z) (c : cache) : cache := mkCache (cache_segment c) (parent c) l.

(** A cache and its ancestors, each with its address. *)
Fixpoint ancestors (fuel : nat) (st : core) (p : Z) : outcome (list (Z * segment)) :=
  match fuel with
  | O => Err OutOfFuel
  | S fuel =>
    let! c := deref st p in
    match parent c with
    | None => Ok [(p, cache_segment c)]
    | Some q => let! l := ancestors fuel st q in Ok ((p, cache_segment c) :: l)
    end
  end.

(** The pointers are followed at most once through each cache. *)
Definition lineage (st : core) (p : Z) : outcome (list (Z * segment)) := ancestors (S (size (caches st))) st p.

(** The argument of the methods of a cache. *)
Definition chain_of (st : core) (p : Z) : outcome chain := let! l := lineage st p in Ok (map snd l).

Definition main_leaf (st : core) : outcome Z := vec_at (chainsLeaves st) 0.

Definition main_chain_of (st : core) : outcome chain := let! p := main_leaf st in chain_of st p.

Definition chain_getBlockIndex (c : chain) (blockHash : Hash) : outcome Z :=
  match c with [] => null_parent | s :: _ => getBlockIndex s blockHash end.

(** ** Methods of the caches that change pointers *)

Definition getChildCount (st : core) (p : Z) : outcome Z := let! c := deref st p in Ok (Z.of_nat (length (children c))).

Definition addChild (p child : Z) (st : core) : outcome core :=
  let! c := deref st p in
  let! _ := assert_that (bool_decide (child ∉ children c)) "std::find(children, child) == children.end()" in
  Ok (update_cache p (set_children (children c ++ [child])) st).

(** [erase] of the first occurrence. *)
Fixpoint erase_child (child : Z) (l : list Z) : list Z :=
  match l with
  | [] => []
  | x :: l => if x =? child then l else x :: erase_child child l
  end.

Definition deleteChild (p child : Z) (st : core) : outcome (bool * core) :=
  let! c := deref st p in
  if bool_decide (child ∈ children c) then Ok (true, update_cache p (set_children (erase_child child (children c))) st)
  else Ok (false, st).

Fixpoint fixChildrenParent (l : list Z) (p : Z) (st : core) : outcome core :=
  match l with
  | [] => Ok st
  | child :: l =>
    let! _ := deref st child in
    fixChildrenParent l p (update_cache child (setParent (Some p)) st)
  end.

(** A new cache, at the address that is returned. *)
Definition allocate (c : cache) (st : core) : Z * core :=
  (next_cache st,
   mkCore (<[next_cache st := c]> (caches st)) (next_cache st + 1) (chainsLeaves st) (chainsStorage st) (mainChainSet st)
     (core_medianSize st) (core_pool st)).

(** [createBlockchainCache] with a parent. *)
Definition createBlockchainCache (p startIndex : Z) (st : core) : Z * core :=
  allocate (mkCache (empty_segment startIndex) (Some p) []) st.

Definition cache_split (p splitBlockIndex : Z) (st : core) : outcome (Z * core) :=
  let! c := deref st p in
  let! (lower, upper) := split (cache_segment c) splitBlockIndex in
  let '(newCache, st) := allocate (mkCache upper (Some p) (children c)) st in
  let! st := fixChildrenParent (children c) newCache st in
  Ok (newCache, update_cache p (fun _ => mkCache lower (parent c) [newCache]) st).

(** ** Finding segments *)

(** The first cache from [p] upwards whose segment passes the test; the walk
    ends at a cache in [stop], which is not tested. *)
Fixpoint find_up (fuel : nat) (st : core) (stop : gset Z) (test : segment -> bool) (p : Z) : outcome (option Z) :=
  match fuel with
  | O => Err OutOfFuel
  | S fuel =>
    if bool_decide (p ∈ stop) then Ok None
    else
      let! c := deref st p in
      if test (cache_segment c) then Ok (Some p)
      else
        match parent c with
        | None => if bool_decide (stop = ∅) then Ok None else Err (UndefinedBehaviour "null segment")
        | Some q => find_up fuel st stop test q
        end
  end.

Definition find_from (st : core) (stop : gset Z) (test : segment -> bool) (p : Z) : outcome (option Z) :=
  find_up (S (size (caches st))) st stop test p.

Definition findIndexInChain (st : core) (p : Z) (blockHash : Hash) : outcome (option Z) :=
  find_from st ∅ (fun s => hasBlock s blockHash) p.

Definition findIndexInChain_index (st : core) (p blockIndex : Z) : outcome (option Z) :=
  find_from st ∅ (fun s => (startIndex s <=? blockIndex) && (blockIndex <? u32 (startIndex s + getBlockCount s))) p.

Fixpoint find_in_leaves (st : core) (leaves : list Z) (blockHash : Hash) : outcome (option Z) :=
  match leaves with
  | [] => Ok None
  | leaf :: leaves =>
    let! found := findIndexInChain st leaf blockHash in
    match found with
    | Some p => Ok (Some p)
    | None => find_in_leaves st leaves blockHash
    end
  end.

Definition findMainChainSegmentContainingBlock (st : core) (blockHash : Hash) : outcome (option Z) :=
  let! p := main_leaf st in findIndexInChain st p blockHash.

Definition findAlternativeSegmentContainingBlock (st : core) (blockHash : Hash) : outcome (option Z) :=
  find_in_leaves st (tail (chainsLeaves st)) blockHash.

Definition findSegmentContainingBlock (st : core) (blockHash : Hash) : outcome (option Z) :=
  let! _ := assert_that (0 <? Z.of_nat (length (chainsLeaves st))) "chainsLeaves.size() > 0" in
  let! found := findMainChainSegmentContainingBlock st blockHash in
  match found with
  | Some p => Ok (Some p)
  | None => findAlternativeSegmentContainingBlock st blockHash
  end.

Definition findMainChainSegmentContainingBlock_index (st : core) (blockIndex : Z) : outcome (option Z) :=
  let! p := main_leaf st in findIndexInChain_index st p blockIndex.

Fixpoint search_leaves (st : core) (leaves : list Z) (blockIndex : Z) : outcome unit :=
  match leaves with
  | [] => Ok tt
  | leaf :: leaves =>
    let! found := findIndexInChain_index st leaf blockIndex in
    match found with
    | Some _ => Ok tt
    | None => search_leaves st leaves blockIndex
    end
  end.

(** The cache that is found is not returned. *)
Definition findAlternativeSegmentContainingBlock_index (st : core) (blockIndex : Z) : outcome (option Z) :=
  let! _ := search_leaves st (tail (chainsLeaves st)) blockIndex in
  Ok None.

Definition findSegmentContainingBlock_index (st : core) (blockIndex : Z) : outcome (option Z) :=
  let! _ := assert_that (0 <? Z.of_nat (length (chainsLeaves st))) "chainsLeaves.size() > 0" in
  let! found := findMainChainSegmentContainingBlock_index st blockIndex in
  match found with
  | Some p => Ok (Some p)
  | None => findAlternativeSegmentContainingBlock_index st blockIndex
  end.

(** An alternative chain is searched down to the main chain. *)
Fixpoint find_transaction_alternative (st : core) (leaves : list Z) (transactionHash : Hash) : outcome (option Z) :=
  match leaves with
  | [] => Ok None
  | leaf :: leaves =>
    let! found := find_from st (mainChainSet st) (fun s => hasTransaction s transactionHash) leaf in
    match found with
    | Some p => Ok (Some p)
    | None => find_transaction_alternative st leaves transactionHash
    end
  end.

Definition findSegmentContainingTransaction (st : core) (transactionHash : Hash) : outcome (option Z) :=
  let! p := main_leaf st in
  let! found := find_from st ∅ (fun s => hasTransaction s transactionHash) p in
  match found with
  | Some p => Ok (Some p)
  | None => find_transaction_alternative st (tail (chainsLeaves st)) transactionHash
  end.

Definition isTransactionInChain (st : core) (txnHash : Hash) : outcome bool :=
  let! found := findSegmentContainingTransaction st txnHash in
  Ok (match found with Some _ => true | None => false end).

(** ** [Common::medianValue] *)

Fixpoint insert_sorted (x : Z) (l : list Z) : list Z :=
  match l with
  | [] => [x]
  | y :: l => if x <=? y then x :: y :: l else y :: insert_sorted x l
  end.

Definition sort (l : list Z) : list Z := foldr insert_sorted [] l.

Definition medianValue (v : list Z) : Z :=
  match v with
  | [] => 0
  | [x] => x
  | _ =>
    let n := (length v / 2)%nat in
    let sorted := sort v in
    if Nat.even (length v) then u64 (nth (n - 1) sorted 0 + nth n sorted 0) / 2
    else nth n sorted 0
  end.

(** [Utilities::is_unique] *)
Fixpoint is_unique (l : list Hash) (seen : gset Hash) : bool :=
  match l with
  | [] => true
  | x :: l => if bool_decide (x ∈ seen) then false else is_unique l ({[ x ]} ∪ seen)
  end.

(** ** Adding blocks *)

Section Core.
Context (ops : crypto_ops) (slow_hash : Block.Block.hashing_algorithm -> list Z -> Hash).
Context (currency : Currency) (checkpoints : Checkpoints).
Context (hash_order : list Hash -> list Hash).

Local Abbreviation cn_fast_hash := (fast_hash ops).
Local Abbreviation hash_of := (TransactionPool.hash_of cn_fast_hash).

(** What the methods of the pool see of the node. *)
Definition node_of (now : Z) (st : core) : outcome (CorePool.node cache_view) :=
  let! c := main_chain_of st in
  let! top := chain_top c in
  let lastTimestamp := let! l := getLastTimestamps c 1 in vec_at l 0 in
  Ok (CorePool.mkNode ops currency checkpoints (mkView currency now c) top (core_medianSize st) lastTimestamp
        (isTransactionInChain st)).

Definition cache_pushBlock (p : Z) (block : BlockTemplate) (txs : list TransactionPool.CachedTransaction)
    (validatorState : gset KeyImage) (blockSize generatedCoins blockDifficulty : Z) (rawBlock : RawBlock) (st : core)
  : outcome core :=
  let! c := chain_of st p in
  match c with
  | [] => Err (UndefinedBehaviour "dangling pointer")
  | s :: parents =>
    let! s := doPushBlock cn_fast_hash parents block txs validatorState blockSize generatedCoins blockDifficulty rawBlock s in
    Ok (update_cache p (set_segment s) st)
  end.

Definition updateMainChainSet (st : core) : outcome core :=
  let! p := main_leaf st in
  let! l := lineage st p in
  Ok (set_mainChainSet (list_to_set (map fst l)) st).

Definition updateBlockMedianSize (st : core) : outcome core :=
  let! c := main_chain_of st in
  let! top := chain_top c in
  let! version := getBlockMajorVersionForHeight currency (u32 (top + 1)) in
  let nextBlockGrantedFullRewardZone := blockGrantedFullRewardZoneByBlockVersion currency version in
  let! lastBlockSizes := getLastBlocksSizes c (m_rewardBlocksWindow currency) in
  Ok (set_medianSize (Z.max (medianValue lastBlockSizes) nextBlockGrantedFullRewardZone) st).

Definition checkAndRemoveInvalidPoolTransactions (now : Z) (blockTransactionsState : gset KeyImage) (st : core)
  : outcome core :=
  let! n := node_of now st in
  let! w := CorePool.checkAndRemoveInvalidPoolTransactions n blockTransactionsState (core_pool st) in
  Ok (set_core_pool w st).

Definition addTransactionToPool (schedule : list event) (now : Z) (transactionBinaryArray : BinaryArray) (st : core)
  : outcome (option CorePool.pool_error * core) :=
  let! n := node_of now st in
  let! (err, w) := CorePool.addTransactionToPool n schedule now transactionBinaryArray (core_pool st) in
  Ok (err, set_core_pool w st).

(** One round of the loop. *)
Definition transactionPoolCleaningProcedure (now : Z) (st : core) : outcome (list Hash * core) :=
  let! c := main_chain_of st in
  let! top := chain_top c in
  let! (deletedTransactions, w) := TransactionPool.clean cn_fast_hash now top (core_pool st) in
  Ok (deletedTransactions, set_core_pool w st).

Fixpoint add_transactions (schedules : list (list event)) (now : Z) (txs : list BinaryArray) (st : core) : outcome core :=
  match txs with
  | [] => Ok st
  | tx :: txs =>
    let! (_, st) := addTransactionToPool (default [] (head schedules)) now tx st in
    add_transactions (tail schedules) now txs st
  end.

(** [schedules p] are the interleavings for the transactions of cache [p]. *)
Fixpoint copyTransactionsToPool (fuel : nat) (schedules : Z -> list (list event)) (now alt : Z) (st : core) : outcome core :=
  match fuel with
  | O => Err OutOfFuel
  | S fuel =>
    if bool_decide (alt ∈ mainChainSet st) then Ok st
    else
      let! c := chain_of st alt in
      let! cache := deref st alt in
      let! txs := getRawTransactions_all cn_fast_hash c (hash_order (getTransactionHashes (cache_segment cache))) in
      let! st := add_transactions (schedules alt) now txs st in
      match parent cache with
      | None => Ok st
      | Some alt => copyTransactionsToPool fuel schedules now alt st
      end
  end.

(** The transactions and their size, [None] for [false]. *)
Fixpoint extractTransactions (rawTransactions : list BinaryArray) (cumulativeSize : Z)
  : outcome (option (list TransactionPool.CachedTransaction * Z)) :=
  match rawTransactions with
  | [] => Ok (Some ([], cumulativeSize))
  | rawTransaction :: rawTransactions =>
    let size := Z.of_nat (length rawTransaction) in
    if m_maxTxSize currency <? size then Ok None
    else
      match Block.Block.CachedTransaction_of_bytes rawTransaction with
      | Err (RuntimeError _) => Ok None
      | Err e => Err e
      | Ok (tx, ba) =>
        let! rest := extractTransactions rawTransactions (u64 (cumulativeSize + size)) in
        Ok (match rest with
            | Some (txs, cumulativeSize) => Some (TransactionPool.mkCached tx ba :: txs, cumulativeSize)
            | None => None
            end)
      end
  end.

Fixpoint miner_reward (outs : list TransactionOutput) (minerReward : Z) : Z + error_code :=
  match outs with
  | [] => inl minerReward
  | output :: outs =>
    if out_amount output =? 0 then inr (TransactionError OUTPUT_ZERO_AMOUNT)
    else
      match target output with
      | ToKey o =>
        if negb (check_key ops (key o)) then inr (TransactionError OUTPUT_INVALID_KEY)
        else if 2 ^ 64 - 1 - out_amount output <? minerReward then inr (TransactionError OUTPUTS_AMOUNT_OVERFLOW)
        else miner_reward outs (minerReward + out_amount output)
      end
  end.

(** The miner's reward, or the error. *)
Definition validateBlock (now : Z) (block : BlockTemplate) (c : chain) : outcome (Z + error_code) :=
  let! previousBlockIndex := chain_getBlockIndex c (previousBlockHash block) in
  let next := u32 (previousBlockIndex + 1) in
  let! version := getBlockMajorVersionForHeight currency (Block.Block.getBlockIndex block) in
  if negb (version =? majorVersion block) then Ok (inr (BlockError WRONG_VERSION))
  else
  let! parentError :=
    if BLOCK_MAJOR_VERSION_2 <=? majorVersion block then
      if (majorVersion block =? BLOCK_MAJOR_VERSION_2) && (BLOCK_MAJOR_VERSION_1 <? pb_majorVersion (parentBlock block))
      then Ok (Some PARENT_BLOCK_WRONG_VERSION)
      else
        let! ba := Block.Block.getParentBlockBinaryArray cn_fast_hash block false in
        Ok (if 2048 <? Z.of_nat (length ba) then Some PARENT_BLOCK_SIZE_TOO_BIG else None)
    else Ok None in
  match parentError with
  | Some e => Ok (inr (BlockError e))
  | None =>
    if u64 (now + blockFutureTimeLimit currency next) <? timestamp block
    then Ok (inr (BlockError TIMESTAMP_TOO_FAR_IN_FUTURE))
    else
    let! timestamps := getLastTimestamps_at c (timestampCheckWindow currency next) previousBlockIndex true in
    if (timestampCheckWindow currency next <=? Z.of_nat (length timestamps)) && (timestamp block <? medianValue timestamps)
    then Ok (inr (BlockError TIMESTAMP_TOO_FAR_IN_PAST))
    else
    match inputs (baseTransaction block) with
    | [InBase i] =>
      if negb (blockIndex i =? next) then Ok (inr (TransactionError BASE_INPUT_WRONG_BLOCK_INDEX))
      else if negb (unlockTime (baseTransaction block) =? u32 (next + m_minedMoneyUnlockWindow currency))
      then Ok (inr (TransactionError WRONG_TRANSACTION_UNLOCK_TIME))
      else if (TRANSACTION_SIGNATURE_COUNT_VALIDATION_HEIGHT <=? Block.Block.getBlockIndex block) &&
              negb (is_empty (signatures (baseTransaction block)))
      then Ok (inr (TransactionError BASE_INVALID_SIGNATURES_COUNT))
      else Ok (miner_reward (outputs (baseTransaction block)) 0)
    | [InKey _] => Ok (inr (TransactionError INPUT_UNEXPECTED_TYPE))
    | _ => Ok (inr (TransactionError INPUT_WRONG_COUNT))
    end
  end.

Definition validateTransaction (schedule : list event) (now : Z) (t : TransactionPool.CachedTransaction)
    (validatorState : gset KeyImage) (c : chain) (blockIndex blockTimestamp : Z) (isPoolTransaction : bool) (st : core)
  : outcome (TransactionValidationResult * gset KeyImage) :=
  let ctx := mkContext (TransactionPool.getTransaction t) (TransactionPool.binaryArray t) currency checkpoints
               (mkView currency now c) blockIndex (core_medianSize st) blockTimestamp isPoolTransaction in
  let! (_, s) := validate ops ctx schedule (initial validatorState) in
  Ok (m_validationResult s, spentKeyImages s).

(** The validator state and the sum of the fees.  A transaction that is refused
    leaves the pool. *)
Fixpoint validate_transactions (schedules : list (list event)) (now : Z) (txs : list TransactionPool.CachedTransaction)
    (validatorState : gset KeyImage) (cumulativeFee : Z) (c : chain) (previousBlockIndex timestamp : Z) (st : core)
  : outcome (core * ((gset KeyImage * Z) + error_code)) :=
  match txs with
  | [] => Ok (st, inl (validatorState, cumulativeFee))
  | t :: txs =>
    let! (result, validatorState) :=
      validateTransaction (default [] (head schedules)) now t validatorState c previousBlockIndex timestamp false st in
    if bool_decide (errorCode result = VALIDATION_SUCCESS) then
      validate_transactions (tail schedules) now txs validatorState (u64 (cumulativeFee + result_fee result)) c
        previousBlockIndex timestamp st
    else
      let error := inr (TransactionError (errorCode result)) in
      if TransactionPool.checkIfTransactionPresent cn_fast_hash (hash_of t) (TransactionPool.transactionPool (core_pool st)) then
        let! (_, pool) := TransactionPool.removeTransaction cn_fast_hash (hash_of t)
                            (TransactionPool.transactionPool (core_pool st)) in
        Ok (set_core_pool (TransactionPool.set_pool pool (core_pool st)) st, error)
      else Ok (st, error)
  end.

(** The hashes of the block and of the transactions that came with it. *)
Definition check_hashes (block : BlockTemplate) (txs : list TransactionPool.CachedTransaction) : option BlockValidationError :=
  if BLOCK_BLOB_SHUFFLE_CHECK_HEIGHT <=? Block.Block.getBlockIndex block then
    let hashes := map hash_of txs in
    if negb (is_unique (transactionHashes block) ∅) then Some TRANSACTION_DUPLICATES
    else if negb (is_unique hashes ∅) then Some TRANSACTION_DUPLICATES
    else if negb (forallb (fun h => bool_decide (h ∈ transactionHashes block)) hashes) then Some TRANSACTION_INCONSISTENCY
    else if negb (bool_decide (transactionHashes block = hashes)) then Some TRANSACTION_INCONSISTENCY
    else None
  else None.

(** What [addBlock] has computed when the block has passed. *)
Record checked_block := mkChecked {
  checked_cache : Z;
  checked_previous : Z;
  checked_onTop : bool;
  checked_transactions : list TransactionPool.CachedTransaction;
  checked_state : gset KeyImage;
  checked_size : Z;
  checked_emission : Z;
  checked_difficulty : Z
}.

Definition check_proof (block : BlockTemplate) (blockHash : Hash) (currentDifficulty : Z) : outcome (option BlockValidationError) :=
  let index := Block.Block.getBlockIndex block in
  if isInCheckpointZone checkpoints index then
    Ok (if (checkBlock checkpoints index blockHash).1 then None else Some CHECKPOINT_BLOCK_HASH_MISMATCH)
  else
    let! ok := checkProofOfWork currency cn_fast_hash slow_hash block currentDifficulty in
    Ok (if ok : bool then None else Some PROOF_OF_WORK_TOO_WEAK).

(** [addBlock] from the rewards on. *)
Definition check_reward (block : BlockTemplate) (blockHash : Hash) (c : chain)
    (previousBlockIndex cumulativeBlockSize cumulativeFee minerReward currentDifficulty : Z) : outcome (Z + error_code) :=
  let! alreadyGeneratedCoins := getAlreadyGeneratedCoins c previousBlockIndex in
  let! lastBlocksSizes := getLastBlocksSizes_at c (m_rewardBlocksWindow currency) previousBlockIndex true in
  let! result := getBlockReward currency (majorVersion block) (medianValue lastBlocksSizes) cumulativeBlockSize
                   alreadyGeneratedCoins cumulativeFee (Block.Block.getBlockIndex block) in
  match result with
  | None => Ok (inr (BlockError CUMULATIVE_BLOCK_SIZE_TOO_BIG))
  | Some (reward, emissionChange) =>
    if negb (minerReward =? reward) then Ok (inr (BlockError BLOCK_REWARD_MISMATCH))
    else
      let! error := check_proof block blockHash currentDifficulty in
      Ok (match error with Some e => inr (BlockError e) | None => inl emissionChange end)
  end.

(** [addBlock] up to the push. *)
Definition check_block (schedules : list (list event)) (now : Z) (block : BlockTemplate) (blockHash : Hash)
    (rawBlock : RawBlock) (st : core) : outcome (core * (checked_block + error_code)) :=
  let failed e := Ok (st, inr e) in
  let! found := findSegmentContainingBlock st blockHash in
  match found with
  | Some _ => failed (AddBlock ALREADY_EXISTS)
  | None =>
  let! _ := assert_that (length (raw_transactions rawBlock) =? length (transactionHashes block))%nat
              "rawBlock.transactions.size() == blockTemplate.transactionHashes.size()" in
  let! found := findSegmentContainingBlock st (previousBlockHash block) in
  match found with
  | None => failed (AddBlock REJECTED_AS_ORPHANED)
  | Some p =>
  let! c := chain_of st p in
  let! extracted := extractTransactions (raw_transactions rawBlock) 0 in
  match extracted with
  | None => failed (AddBlock DESERIALIZATION_FAILED)
  | Some (txs, cumulativeSize) =>
  let coinbaseTransactionSize := getObjectBinarySize ser_Transaction (baseTransaction block) in
  let! _ := assert_that (coinbaseTransactionSize <? 2 ^ 64 - 1) "coinbaseTransactionSize < max" in
  let cumulativeBlockSize := u64 (coinbaseTransactionSize + cumulativeSize) in
  let! previousBlockIndex := chain_getBlockIndex c (previousBlockHash block) in
  let! top := chain_top c in
  let! maxBlockCumulativeSize := maxBlockCumulativeSize currency (u32 (previousBlockIndex + 1)) in
  if maxBlockCumulativeSize <? cumulativeBlockSize then failed (BlockError CUMULATIVE_BLOCK_SIZE_TOO_BIG)
  else
  let! validated := validateBlock now block c in
  match validated with
  | inr e => failed e
  | inl minerReward =>
  let! currentDifficulty := getDifficultyForNextBlock currency c previousBlockIndex in
  if currentDifficulty =? 0 then failed (BlockError DIFFICULTY_OVERHEAD)
  else
  match check_hashes block txs with
  | Some e => failed (BlockError e)
  | None =>
  let! (st, validated) := validate_transactions schedules now txs ∅ 0 c previousBlockIndex (timestamp block) st in
  match validated with
  | inr e => Ok (st, inr e)
  | inl (validatorState, cumulativeFee) =>
  let! rewarded := check_reward block blockHash c previousBlockIndex cumulativeBlockSize cumulativeFee minerReward
                     currentDifficulty in
  match rewarded with
  | inr e => Ok (st, inr e)
  | inl emissionChange =>
    Ok (st, inl (mkChecked p previousBlockIndex (top =? previousBlockIndex) txs validatorState cumulativeBlockSize
                   emissionChange currentDifficulty))
  end end end end end end end.

(** ** Placing a block that has passed *)

Definition push_checked (p : Z) (block : BlockTemplate) (rawBlock : RawBlock) (b : checked_block) (st : core) : outcome core :=
  cache_pushBlock p block (checked_transactions b) (checked_state b) (checked_size b) (u64 (checked_emission b))
    (checked_difficulty b) rawBlock st.

(** A new leaf with the block, on top of [p]. *)
Definition fork_at (p : Z) (block : BlockTemplate) (rawBlock : RawBlock) (b : checked_block) (st : core) : outcome core :=
  let '(newCache, st) := createBlockchainCache p (u32 (checked_previous b + 1)) st in
  let! st := addChild p newCache st in
  let st := set_chainsStorage (chainsStorage st ++ [newCache]) st in
  let st := set_leaves (chainsLeaves st ++ [newCache]) st in
  push_checked newCache block rawBlock b st.

(** [std::find] *)
Fixpoint index_of (p : Z) (l : list Z) : nat :=
  match l with
  | [] => 0
  | x :: l => if x =? p then 0 else S (index_of p l)
  end.

(** [std::swap] of the first leaf with another. *)
Definition swap_leaf (endpointIndex : nat) (leaves : list Z) : outcome (list Z) :=
  match leaves !! 0%nat, leaves !! endpointIndex with
  | Some main, Some leaf => Ok (<[endpointIndex := main]> (<[0%nat := leaf]> leaves))
  | _, _ => Err (UndefinedBehaviour "index out of range")
  end.

Definition getCurrentCumulativeDifficulty_of (st : core) (p : Z) : outcome Z :=
  let! c := deref st p in getCurrentCumulativeDifficulty (cache_segment c).

(** On top of a leaf. *)
Definition place_on_leaf (schedules : Z -> list (list event)) (now : Z) (block : BlockTemplate) (rawBlock : RawBlock)
    (b : checked_block) (st : core) : outcome (AddBlockErrorCode * core) :=
  let p := checked_cache b in
  let! main := main_leaf st in
  let! st := push_checked p block rawBlock b st in
  if p =? main then
    let! st := updateBlockMedianSize st in
    let! st := checkAndRemoveInvalidPoolTransactions now (checked_state b) st in
    Ok (ADDED_TO_MAIN, st)
  else
    let! difficulty := getCurrentCumulativeDifficulty_of st p in
    let! mainDifficulty := getCurrentCumulativeDifficulty_of st main in
    if mainDifficulty <? difficulty then
      let endpointIndex := index_of p (chainsLeaves st) in
      let! _ := assert_that (negb (endpointIndex =? length (chainsStorage st))%nat) "endpointIndex != chainsStorage.size()" in
      let! _ := assert_that (negb (endpointIndex =? 0)%nat) "endpointIndex != 0" in
      let! leaves := swap_leaf endpointIndex (chainsLeaves st) in
      let st := set_leaves leaves st in
      let! st := updateMainChainSet st in
      let! st := updateBlockMedianSize st in
      let! st := checkAndRemoveInvalidPoolTransactions now (checked_state b) st in
      let! st := copyTransactionsToPool (S (size (caches st))) schedules now main st in
      Ok (ADDED_TO_ALTERNATIVE_AND_SWITCHED, st)
    else Ok (ADDED_TO_ALTERNATIVE, st).

Definition place_block (schedules : Z -> list (list event)) (now : Z) (block : BlockTemplate) (rawBlock : RawBlock)
    (b : checked_block) (st : core) : outcome (AddBlockErrorCode * core) :=
  let p := checked_cache b in
  if checked_onTop b then
    let! count := getChildCount st p in
    if count =? 0 then place_on_leaf schedules now block rawBlock b st
    else
      let! st := fork_at p block rawBlock b st in
      let! st := updateMainChainSet st in
      let! st := updateBlockMedianSize st in
      Ok (ADDED_TO_ALTERNATIVE, st)
  else
    let! (upperSegment, st) := cache_split p (u32 (checked_previous b + 1)) st in
    let! upper := deref st upperSegment in
    let! _ := assert_that (0 <? getBlockCount (cache_segment upper)) "upperSegment->getBlockCount() > 0" in
    let! lower := deref st p in
    let! _ := assert_that (0 <? getBlockCount (cache_segment lower)) "cache->getBlockCount() > 0" in
    let! st :=
      if is_empty (children upper) then
        let found := index_of p (chainsLeaves st) in
        let! _ := assert_that (found <? length (chainsLeaves st))%nat "found != chainsLeaves.end()" in
        Ok (set_leaves (<[found := upperSegment]> (chainsLeaves st)) st)
      else Ok st in
    let st := set_chainsStorage (chainsStorage st ++ [upperSegment]) st in
    let! st := fork_at p block rawBlock b st in
    let! st := updateMainChainSet st in
    Ok (ADDED_TO_ALTERNATIVE, st).

Definition notifyOnSuccess (opResult : AddBlockErrorCode) (previousBlockIndex : Z) (blockHash : Hash) (p : Z) (st : core)
  : outcome BlockchainMessage :=
  match opResult with
  | ADDED_TO_MAIN => Ok (NewBlock (u32 (previousBlockIndex + 1)) blockHash)
  | ADDED_TO_ALTERNATIVE => Ok (NewAlternativeBlock (u32 (previousBlockIndex + 1)) blockHash)
  | ADDED_TO_ALTERNATIVE_AND_SWITCHED =>
    let! c := chain_of st p in
    match c with
    | s :: ((p :: _) as parents) =>
      let! hashes := getBlockHashes c (startIndex s) (getBlockCount s) in
      let! top := getTopBlockHash p in
      let! index := getTopBlockIndex p in
      Ok (ChainSwitch index (top :: hashes))
    | _ => null_parent
    end
  | _ => Err (AssertFailed "false")
  end.

Definition addBlock_cached (schedules : list (list event)) (pool_schedules : Z -> list (list event)) (now : Z)
    (block : BlockTemplate) (rawBlock : RawBlock) (st : core) : outcome (error_code * option BlockchainMessage * core) :=
  let! blockHash := Block.Block.getBlockHash cn_fast_hash block in
  let! (st, checked) := check_block schedules now block blockHash rawBlock st in
  match checked with
  | inr e => Ok (e, None, st)
  | inl b =>
    let! (ret, st) := place_block pool_schedules now block rawBlock b st in
    let! message := notifyOnSuccess ret (checked_previous b) blockHash (checked_cache b) st in
    Ok (AddBlock ret, Some message, st)
  end.

Definition addBlock (schedules : list (list event)) (pool_schedules : Z -> list (list event)) (now : Z)
    (rawBlock : RawBlock) (st : core) : outcome (error_code * option BlockchainMessage * core) :=
  match fromBinaryArray_opt (Block.Block.ser_BlockTemplate cn_fast_hash) Block.Block.default_block (raw_block rawBlock) with
  | None => Ok (AddBlock DESERIALIZATION_FAILED, None, st)
  | Some block => addBlock_cached schedules pool_schedules now block rawBlock st
  end.

(** The raw transactions of a block, [None] when one is not in the pool. *)
Fixpoint from_pool (hashes : list Hash) (pool : TransactionPool.TransactionPool) : outcome (option (list BinaryArray)) :=
  match hashes with
  | [] => Ok (Some [])
  | h :: hashes =>
    if negb (TransactionPool.checkIfTransactionPresent cn_fast_hash h pool) then Ok None
    else
      let! t := TransactionPool.pool_getTransaction cn_fast_hash h pool in
      let! rest := from_pool hashes pool in
      Ok (match rest with Some l => Some (TransactionPool.binaryArray t :: l) | None => None end)
  end.

Definition submitBlock (schedules : list (list event)) (pool_schedules : Z -> list (list event)) (now : Z)
    (rawBlockTemplate : BinaryArray) (st : core) : outcome (error_code * option BlockchainMessage * core) :=
  match fromBinaryArray_opt (Block.Block.ser_BlockTemplate cn_fast_hash) Block.Block.default_block rawBlockTemplate with
  | None => Ok (AddBlock DESERIALIZATION_FAILED, None, st)
  | Some block =>
    let! txs := from_pool (transactionHashes block) (TransactionPool.transactionPool (core_pool st)) in
    match txs with
    | None => Ok (BlockError TRANSACTION_ABSENT_IN_POOL, None, st)
    | Some txs => addBlock_cached schedules pool_schedules now block (mkRawBlock rawBlockTemplate txs) st
    end
  end.

(** ** The root *)

Definition initRootSegment (w : TransactionPool.TransactionPoolCleanWrapper) : outcome core :=
  let! root := create_root cn_fast_hash currency in
  let '(p, st) := allocate (mkCache root None []) (mkCore ∅ 0 [] [] ∅ 0 w) in
  updateBlockMedianSize (set_leaves [p] (set_chainsStorage [p] (set_mainChainSet {[ p ]} st))).

(** ** Deleting and merging chains *)

(** A cache that is destroyed is removed from the map. *)
Definition destroy (p : Z) (st : core) : core := set_caches (delete p (caches st)) st.

(** [erase] of an element of a vector. *)
Definition erase_at {A} (i : nat) (l : list A) : list A := take i l ++ drop (S i) l.

Definition deleteLeaf (leafIndex : nat) (st : core) : outcome core :=
  match chainsLeaves st !! leafIndex with
  | None => Err (AssertFailed "leafIndex < chainsLeaves.size()")
  | Some leaf =>
    let! c := deref st leaf in
    let! st :=
      match parent c with
      | None => Ok st
      | Some q =>
        let! (r, st) := deleteChild q leaf st in
        let! _ := assert_that r "r" in
        Ok st
      end in
    let segmentIt := index_of leaf (chainsStorage st) in
    let! _ := assert_that (segmentIt <? length (chainsStorage st))%nat "segmentIt != chainsStorage.end()" in
    let! st :=
      if (leafIndex =? 0)%nat then
        match parent c with
        | Some q => Ok (set_leaves (<[0%nat := q]> (chainsLeaves st)) st)
        | None => Ok (set_leaves (erase_at 0 (chainsLeaves st)) st)
        end
      else
        match parent c with
        | None => Err (UndefinedBehaviour "null parent")
        | Some q =>
          let! count := getChildCount st q in
          let leaves := if count =? 0 then chainsLeaves st ++ [q] else chainsLeaves st in
          Ok (set_leaves (erase_at leafIndex leaves) st)
        end in
    Ok (destroy leaf (set_chainsStorage (erase_at segmentIt (chainsStorage st)) st))
  end.

(** Each round destroys a cache. *)
Fixpoint deleteAlternativeChains (fuel : nat) (st : core) : outcome core :=
  if (length (chainsLeaves st) <=? 1)%nat then Ok st
  else
    match fuel with
    | O => Err OutOfFuel
    | S fuel => let! st := deleteLeaf 1 st in deleteAlternativeChains fuel st
    end.

(** [Utils::restoreCachedTransactions], [None] for [false]. *)
Fixpoint restoreCachedTransactions (binaryTransactions : list BinaryArray)
  : outcome (option (list TransactionPool.CachedTransaction)) :=
  match binaryTransactions with
  | [] => Ok (Some [])
  | binaryTransaction :: binaryTransactions =>
    match fromBinaryArray_opt ser_Transaction default_transaction binaryTransaction with
    | None => Ok None
    | Some tx =>
      let! ba := Block.Block.getTransactionBinaryArray tx in
      let! rest := restoreCachedTransactions binaryTransactions in
      Ok (match rest with Some l => Some (TransactionPool.mkCached tx ba :: l) | None => None end)
    end
  end.

(** The block with the index, moved from [segment] to the other. *)
Definition merge_block (acceptingSegment segment blockIndex : Z) (st : core) : outcome core :=
  let! c := chain_of st segment in
  let! info := getPushedBlockInfo c blockIndex in
  match fromBinaryArray_opt (Block.Block.ser_BlockTemplate cn_fast_hash) Block.Block.default_block
          (raw_block (pushed_rawBlock info)) with
  | None => Err (RuntimeError "Couldn't deserialize block")
  | Some block =>
    let! restored := restoreCachedTransactions (raw_transactions (pushed_rawBlock info)) in
    match restored with
    | None => Err (RuntimeError "Couldn't deserialize transactions")
    | Some txs =>
      cache_pushBlock acceptingSegment block txs (pushed_validatorState info) (pushed_blockSize info)
        (pushed_generatedCoins info) (pushed_blockDifficulty info) (pushed_rawBlock info) st
    end
  end.

Fixpoint merge_blocks (count : nat) (acceptingSegment segment blockIndex : Z) (st : core) : outcome core :=
  match count with
  | O => Ok st
  | S count =>
    let! st := merge_block acceptingSegment segment blockIndex st in
    merge_blocks count acceptingSegment segment (u32 (blockIndex + 1)) st
  end.

Definition mergeSegments (acceptingSegment segment : Z) (st : core) : outcome core :=
  let! a := deref st acceptingSegment in
  let! s := deref st segment in
  let! _ := assert_that (startIndex (cache_segment s) =?
                         u32 (startIndex (cache_segment a) + getBlockCount (cache_segment a)))
              "segment->getStartBlockIndex() == acceptingSegment->getStartBlockIndex() + getBlockCount()" in
  merge_blocks (Z.to_nat (getBlockCount (cache_segment s))) acceptingSegment segment (startIndex (cache_segment s)) st.

Fixpoint merge_all (rootSegment : Z) (segments : list Z) (st : core) : outcome core :=
  match segments with
  | [] => Ok st
  | segment :: segments =>
    let! st := mergeSegments rootSegment segment st in
    merge_all rootSegment segments st
  end.

Definition mergeMainChainSegments (st : core) : outcome core :=
  let! p := main_leaf st in
  let! l := lineage st p in
  match rev (map fst l) with
  | [] => Err (UndefinedBehaviour "back of an empty vector")
  | rootSegment :: segments =>
    let! st := merge_all rootSegment segments st in
    let rootIt := index_of rootSegment (chainsStorage st) in
    let! _ := assert_that (rootIt <? length (chainsStorage st))%nat "rootIt != chainsStorage.end()" in
    let destroyed := filter (fun q => q <> rootSegment) (chainsStorage st) in
    let st := foldr destroy st destroyed in
    Ok (set_leaves [rootSegment] (set_chainsStorage [rootSegment] st))
  end.

(** [save], without the file. *)
Definition save (st : core) : outcome core :=
  let! st := deleteAlternativeChains (length (chainsStorage st)) st in
  mergeMainChainSegments st.

(** ** Cutting chains *)

(** The upper part, with what was on top of it, is destroyed with the local
    pointer; the caches on top keep their address as parent. *)
Definition cutSegment (p startIndex : Z) (st : core) : outcome core :=
  let! c := deref st p in
  let! top := getTopBlockIndex (cache_segment c) in
  if top <? startIndex then Ok st
  else
    let! (childCache, st) := cache_split p startIndex st in
    let! (_, st) := deleteChild p childCache st in
    Ok (destroy childCache st).

(** [BlockchainCache::rewind]: the upper part is destroyed, and its address stays
    among the children. *)
Definition cache_rewind (p height : Z) (st : core) : outcome core :=
  let! c := deref st p in
  let! lower := rewind (cache_segment c) height in
  let '(newCache, st) := allocate (mkCache (empty_segment (u32 height)) (Some p) (children c)) st in
  let! st := fixChildrenParent (children c) newCache st in
  Ok (destroy newCache (update_cache p (fun _ => mkCache lower (parent c) [newCache]) st)).

Definition core_rewind (blockIndex : Z) (st : core) : outcome core :=
  let! p := main_leaf st in
  let! c := deref st p in
  let! top := getTopBlockIndex (cache_segment c) in
  if top <? blockIndex then Ok st
  else if MAX_BLOCK_ALLOWED_TO_REWIND <? top - blockIndex then Ok st
  else if top <? MAX_BLOCK_ALLOWED_TO_REWIND then Ok st
  else cache_rewind p blockIndex st.

(** ** Queries *)

Definition NULL_HASH : Hash := zeros 32.

Definition core_getTopBlockIndex (st : core) : outcome Z := let! c := main_chain_of st in chain_top c.

Definition core_getTopBlockHash (st : core) : outcome Hash :=
  let! p := main_leaf st in let! c := deref st p in getTopBlockHash (cache_segment c).

Definition getBlockHashByIndex (st : core) (blockIndex : Z) : outcome Hash :=
  let! top := core_getTopBlockIndex st in
  if top <? blockIndex then Ok NULL_HASH
  else let! c := main_chain_of st in getBlockHash c blockIndex.

Definition getBlockTimestampByIndex (st : core) (blockIndex : Z) : outcome Z :=
  let! top := core_getTopBlockIndex st in
  let! _ := assert_that (blockIndex <=? top) "blockIndex <= getTopBlockIndex()" in
  let! c := main_chain_of st in
  let! timestamps := getLastTimestamps_at c 1 blockIndex true in
  let! _ := assert_that (length timestamps =? 1)%nat "timestamps.size() == 1" in
  vec_at timestamps 0.

Definition core_hasBlock (st : core) (blockHash : Hash) : outcome bool :=
  let! found := findSegmentContainingBlock st blockHash in
  Ok (match found with Some _ => true | None => false end).

Definition core_hasTransaction (st : core) (transactionHash : Hash) : outcome bool :=
  let! found := isTransactionInChain st transactionHash in
  Ok (found || TransactionPool.checkIfTransactionPresent cn_fast_hash transactionHash
                 (TransactionPool.transactionPool (core_pool st))).

Definition restoreBlockTemplate (c : chain) (blockIndex : Z) : outcome BlockTemplate :=
  let! rawBlock := getBlockByIndex c blockIndex in
  match fromBinaryArray_opt (Block.Block.ser_BlockTemplate cn_fast_hash) Block.Block.default_block (raw_block rawBlock) with
  | Some block => Ok block
  | None => Err (RuntimeError "Coulnd't deserialize BlockTemplate")
  end.

Definition core_getBlockByIndex (st : core) (index : Z) : outcome BlockTemplate :=
  let! top := core_getTopBlockIndex st in
  let! _ := assert_that (index <=? top) "index <= getTopBlockIndex()" in
  let! found := findMainChainSegmentContainingBlock_index st index in
  match found with
  | None => Err (AssertFailed "segment != nullptr")
  | Some p => let! c := chain_of st p in restoreBlockTemplate c index
  end.

Definition getBlockByHash (st : core) (blockHash : Hash) : outcome BlockTemplate :=
  let! found := findMainChainSegmentContainingBlock st blockHash in
  match found with
  | None => Err (RuntimeError "Requested hash wasn't found in main blockchain")
  | Some p =>
    let! c := chain_of st p in
    let! blockIndex := chain_getBlockIndex c blockHash in
    restoreBlockTemplate c blockIndex
  end.

(** The loop doubles [i] in 32 bits. *)
Fixpoint sparse_loop (fuel : nat) (c : chain) (blockIndex i : Z) : outcome (list Hash) :=
  if i <? blockIndex then
    match fuel with
    | O => Err OutOfFuel
    | S fuel =>
      let! h := getBlockHash c (u32 (blockIndex - i)) in
      let! l := sparse_loop fuel c blockIndex (u32 (i * 2)) in
      Ok (h :: l)
    end
  else Ok [].

Definition doBuildSparseChain (st : core) (blockHash : Hash) : outcome (list Hash) :=
  let! found := findSegmentContainingBlock st blockHash in
  match found with
  | None => null_parent
  | Some p =>
    let! c := chain_of st p in
    let! blockIndex := chain_getBlockIndex c blockHash in
    let! sparse := sparse_loop 32 c blockIndex 1 in
    let! genesisBlockHash := getBlockHash c 0 in
    Ok (blockHash :: sparse ++ if bool_decide (blockHash = genesisBlockHash) then [] else [genesisBlockHash])
  end.

Definition buildSparseChain (st : core) : outcome (list Hash) :=
  let! topBlockHash := core_getTopBlockHash st in
  doBuildSparseChain st topBlockHash.

Fixpoint supplement_loop (st : core) (remoteBlockIds : list Hash) : outcome Z :=
  match remoteBlockIds with
  | [] => Err (RuntimeError "Genesis block hash was not found.")
  | hash :: remoteBlockIds =>
    let! found := findMainChainSegmentContainingBlock st hash in
    match found with
    | Some p => let! c := deref st p in getBlockIndex (cache_segment c) hash
    | None => supplement_loop st remoteBlockIds
    end
  end.

Definition findBlockchainSupplement_index (st : core) (remoteBlockIds : list Hash) : outcome Z :=
  if is_empty remoteBlockIds then Ok 0 else supplement_loop st remoteBlockIds.

Definition core_getBlockHashes (st : core) (startBlockIndex maxCount : Z) : outcome (list Hash) :=
  let! c := main_chain_of st in getBlockHashes c startBlockIndex maxCount.

(** The hashes, [totalBlockCount] and [startBlockIndex]. *)
Definition findBlockchainSupplement (st : core) (remoteBlockIds : list Hash) (maxCount : Z)
  : outcome (list Hash * Z * Z) :=
  let! genesis := getBlockHashByIndex st 0 in
  let! _ := assert_that (bool_decide (last remoteBlockIds = Some genesis)) "remoteBlockIds.back() == getBlockHashByIndex(0)" in
  let! top := core_getTopBlockIndex st in
  let! startBlockIndex := findBlockchainSupplement_index st remoteBlockIds in
  let! hashes := core_getBlockHashes st startBlockIndex (u32 maxCount) in
  Ok (hashes, u32 (top + 1), startBlockIndex).

Definition getBlockDifficulty (st : core) (blockIndex : Z) : outcome Z :=
  let! c := main_chain_of st in
  let! difficulties := getLastCumulativeDifficulties_at c 2 blockIndex true in
  match difficulties with
  | [d0; d1] => Ok (u64 (d1 - d0))
  | [d] => Ok d
  | _ => Err (AssertFailed "difficulties.size() == 1")
  end.

(** The version of the top block, not of the next one. *)
Definition core_getDifficultyForNextBlock (st : core) : outcome Z :=
  let! c := main_chain_of st in
  let! topBlockIndex := chain_top c in
  let! nextBlockMajorVersion := getBlockMajorVersionForHeight currency topBlockIndex in
  let blocksCount := Z.min topBlockIndex (difficultyBlocksCountByBlockVersion currency nextBlockMajorVersion topBlockIndex) in
  let! timestamps := getLastTimestamps c blocksCount in
  let! difficulties := getLastCumulativeDifficulties c blocksCount in
  getNextDifficulty currency nextBlockMajorVersion topBlockIndex timestamps difficulties.

Definition getBlockchainTransactionCount (st : core) : outcome Z :=
  let! c := main_chain_of st in Ok (getTransactionCount c).

Fixpoint alternative_blocks (st : core) (l : list Z) : outcome Z :=
  match l with
  | [] => Ok 0
  | p :: l =>
    let! rest := alternative_blocks st l in
    if bool_decide (p ∈ mainChainSet st) then Ok rest
    else let! c := deref st p in Ok (rest + getBlockCount (cache_segment c))
  end.

Definition getAlternativeBlockCount (st : core) : outcome Z := alternative_blocks st (chainsStorage st).

End Core.

End CoreChain.
