(* ===== verification/Templates.v ===== *)
(** * Block templates of the node

    [Core::getBlockTemplate] of [Core.cpp]: the block on top of the main chain
    that a miner asks for, with the transactions of the pool and the transaction
    that pays the miner, whose size and amount depend on each other. *)

From S2P Require Import Prelude.
From S2P Require Import Config.
From S2P Require Import Types.
From S2P Require Import Serialization.
From S2P Require Import TransactionExtra.
From S2P Require Import Block.
From S2P Require Import Currency.
From S2P Require Import Checkpoints.
From S2P Require Import ValidateTransaction.
From S2P Require Import TransactionPool.
From S2P Require Import CorePool.
From S2P Require Import BlockchainCache.
From S2P Require Import CoreChain.
Import Config.parameters Types.Types Serialization.Serialization TransactionExtra.TransactionExtra Currency.Currency Checkpoints.Checkpoints.
Import ValidateTransaction.ValidateTransaction BlockchainCache.BlockchainCache CoreChain.CoreChain.

Module Templates.

(** The results [false], with what the messages say. *)
Inductive template_error :=
  | ZeroDifficulty
  | NoMergeMiningTag
  | NoMinerTransaction
  | UnexpectedPadding (cumulativeSize transactionsSize baseSize : Z)
  | UnexpectedSize (cumulativeSize transactionsSize baseSize : Z)
  | TriesExhausted.

(** The results [true], with the values of the reference parameters. *)
Record mining_template := mkMining {
  mining_block : BlockTemplate;
  mining_difficulty : Z;
  mining_height : Z
}.

Section Template.
Context (ops : crypto_ops) (currency : Currency) (checkpoints : Checkpoints).
Context (generate_key_derivation : PublicKey -> SecretKey -> option KeyDerivation)
  (derive_public_key : KeyDerivation -> Z -> PublicKey -> option PublicKey).

Definition calculateCumulativeBlocksizeLimit (st : core) (height : Z) : outcome Z :=
  let! nextBlockMajorVersion := getBlockMajorVersionForHeight currency height in
  let nextBlockGrantedFullRewardZone := blockGrantedFullRewardZoneByBlockVersion currency nextBlockMajorVersion in
  let! c := main_chain_of st in
  let! sizes := getLastBlocksSizes c (m_rewardBlocksWindow currency) in
  let median := medianValue sizes in
  let median := if median <=? nextBlockGrantedFullRewardZone then nextBlockGrantedFullRewardZone else median in
  Ok (u64 (median * 2)).

Definition UNDEF_HEIGHT : Z := u32 (-1).

Definition template_minor_version (majorVersion : Z) : Z :=
  if majorVersion =? BLOCK_MAJOR_VERSION_1 then
    if upgradeHeight currency BLOCK_MAJOR_VERSION_2 =? UNDEF_HEIGHT then BLOCK_MINOR_VERSION_1 else BLOCK_MINOR_VERSION_0
  else if BLOCK_MAJOR_VERSION_2 <=? majorVersion then
    if upgradeHeight currency BLOCK_MAJOR_VERSION_3 =? UNDEF_HEIGHT then
      if majorVersion =? BLOCK_MAJOR_VERSION_2 then BLOCK_MINOR_VERSION_1 else BLOCK_MINOR_VERSION_0
    else BLOCK_MINOR_VERSION_0
  else 0.

(** The parent block with an empty merge mining tag.  The major version of the
    parent is assigned twice, its minor version never. *)
Definition template_parent (majorVersion : Z) : option ParentBlock :=
  if majorVersion =? BLOCK_MAJOR_VERSION_1 then Some Block.Block.default_parent
  else if BLOCK_MAJOR_VERSION_2 <=? majorVersion then
    match appendMergeMiningTagToExtra [] (mkMergeMiningTag 0 (zeros 32)) with
    | None => None
    | Some extra =>
      Some (mkParentBlock BLOCK_MINOR_VERSION_0 0 (zeros 32) 1 [] (mkBaseTransaction (mkTransactionPrefix 0 0 [] [] extra)) [])
    end
  else Some Block.Block.default_parent.

Definition template_check_window (height : Z) : Z :=
  if LWMA_2_DIFFICULTY_BLOCK_INDEX <=? height then BLOCKCHAIN_TIMESTAMP_CHECK_WINDOW_V3 else BLOCKCHAIN_TIMESTAMP_CHECK_WINDOW.

Fixpoint timestamps_from (st : core) (count : nat) (offset : Z) : outcome (list Z) :=
  match count with
  | O => Ok []
  | S count =>
    let! t := getBlockTimestampByIndex st offset in
    let! l := timestamps_from st count (offset + 1) in
    Ok (t :: l)
  end.

(** The clock, or the median of the last timestamps when it is behind it. *)
Definition template_timestamp (now height : Z) (st : core) : outcome Z :=
  let window := template_check_window height in
  if window <=? height then
    let! timestamps := timestamps_from st (Z.to_nat window) (height - window) in
    let medianTimestamp := medianValue timestamps in
    Ok (if now <? medianTimestamp then medianTimestamp else now)
  else Ok now.

(** ** The transaction of the miner *)

Section Miner.
(** [constructMinerTx] for a size of the block, with the key pair of the call. *)
Context (construct : Z -> KeyPair -> outcome (option Transaction)) (keys : nat -> KeyPair) (transactionsSize : Z).

Local Abbreviation size_of := (getObjectBinarySize ser_Transaction).

Definition with_extra (tx : Transaction) (extra : list Z) : Transaction :=
  mkTransaction (mkTransactionPrefix (version tx) (unlockTime tx) (inputs tx) (outputs tx) extra) (signatures tx).

(** What a try ends with when the transaction is smaller than its room. *)
Inductive padding :=
  | Padded (tx : Transaction)
  | Grow (cumulativeSize : Z)
  | PaddingFailed (e : template_error).

Definition pad (cumulativeSize : Z) (tx : Transaction) : padding :=
  let delta := u64 (cumulativeSize - transactionsSize - size_of tx) in
  let padded := with_extra tx (extra tx ++ repeat 0 (Z.to_nat delta)) in
  if cumulativeSize =? u64 (transactionsSize + size_of padded) then Padded padded
  else if negb (u64 (cumulativeSize + 1) =? u64 (transactionsSize + size_of padded))
  then PaddingFailed (UnexpectedPadding cumulativeSize transactionsSize (size_of padded))
  else
    let shorter := with_extra padded (take (length (extra padded) - 1) (extra padded)) in
    if negb (cumulativeSize =? u64 (transactionsSize + size_of shorter)) then Grow (u64 (cumulativeSize + u64 (delta - 1)))
    else Padded shorter.

Fixpoint balance (tries k : nat) (cumulativeSize : Z) : outcome (Transaction + template_error) :=
  match tries with
  | O => Ok (inr TriesExhausted)
  | S tries =>
    let! r := construct cumulativeSize (keys k) in
    match r with
    | None => Ok (inr NoMinerTransaction)
    | Some tx =>
      let coinbaseBlobSize := size_of tx in
      if u64 (cumulativeSize - transactionsSize) <? coinbaseBlobSize
      then balance tries (S k) (u64 (transactionsSize + coinbaseBlobSize))
      else
        match (if coinbaseBlobSize <? u64 (cumulativeSize - transactionsSize) then pad cumulativeSize tx else Padded tx) with
        | PaddingFailed e => Ok (inr e)
        | Grow cumulativeSize => balance tries (S k) cumulativeSize
        | Padded tx =>
          if negb (cumulativeSize =? u64 (transactionsSize + size_of tx))
          then Ok (inr (UnexpectedSize cumulativeSize transactionsSize (size_of tx)))
          else Ok (inl tx)
        end
    end
  end.

Definition TRIES_COUNT : nat := 10.

(** The first transaction is built for the size of the block without it. *)
Definition miner_transaction : outcome (Transaction + template_error) :=
  let! r := construct transactionsSize (keys 0%nat) in
  match r with
  | None => Ok (inr NoMinerTransaction)
  | Some tx => balance TRIES_COUNT 1 (u64 (transactionsSize + size_of tx))
  end.

End Miner.

(** [keys k] is the pair that the call number [k] of [generateKeyPair] returns. *)
Definition getBlockTemplate (now : Z) (keys : nat -> KeyPair) (publicViewKey publicSpendKey : PublicKey)
    (extraNonce : list Z) (st : core) : outcome (core * (mining_template + template_error)) :=
  let! top := core_getTopBlockIndex st in
  let height := u32 (top + 1) in
  let! difficulty := core_getDifficultyForNextBlock currency st in
  if difficulty =? 0 then Ok (st, inr ZeroDifficulty)
  else
  let! majorVersion := getBlockMajorVersionForHeight currency height in
  match template_parent majorVersion with
  | None => Ok (st, inr NoMergeMiningTag)
  | Some parent =>
    let! previousBlockHash := core_getTopBlockHash st in
    let! timestamp := template_timestamp now height st in
    let! limit := calculateCumulativeBlocksizeLimit st height in
    let medianSize := limit / 2 in
    let! c := main_chain_of st in
    let! alreadyGeneratedCoins := getAlreadyGeneratedCoins c top in
    let! maxSize := maxBlockCumulativeSize currency height in
    let! n := node_of ops currency checkpoints now st in
    let! t := CorePool.CorePool.fillBlockTemplate n [] medianSize maxSize height (TransactionPool.TransactionPool.transactionPool (core_pool st)) in
    let st := set_core_pool (TransactionPool.TransactionPool.set_pool (CorePool.CorePool.template_pool t) (core_pool st)) st in
    let construct currentBlockSize txkey :=
      constructMinerTx currency generate_key_derivation derive_public_key majorVersion height medianSize alreadyGeneratedCoins
        currentBlockSize (CorePool.CorePool.template_fee t) publicViewKey publicSpendKey txkey extraNonce 11 in
    let! r := miner_transaction construct keys (CorePool.CorePool.transactionsSize t) in
    match r with
    | inr e => Ok (st, inr e)
    | inl baseTransaction =>
      Ok (st, inl (mkMining
        (mkBlockTemplate (mkBlockHeader majorVersion (template_minor_version majorVersion) 0 timestamp previousBlockHash)
           parent baseTransaction (CorePool.CorePool.transactionHashes t))
        difficulty height))
    end
  end.

End Template.

End Templates.
