(* ===== verification/Miner.v ===== *)
(** * The miner

    The program that asks a node for block templates and looks for a nonce:
    - [BlockUtilities.cpp], its own copy of the hashes of blocks;
    - from [MinerManager.cpp], the changes it makes to a template and its loop
      over events;
    - [Miner.cpp], the worker threads and the atomic [m_state] they share.

    A step of the miner is one access of one thread to the shared state; a
    schedule is any list of steps. *)

From S2P Require Import Prelude.
From S2P Require Import Config.
From S2P Require Import IntUtil.
From S2P Require Import Varint.
From S2P Require Import TreeHash.
From S2P Require Import Types.
From S2P Require Import Serialization.
From S2P Require Import TransactionExtra.
From S2P Require Import Block.
Import Config.parameters IntUtil.CheckDifficulty Varint.Varint TreeHash.TreeHash Types.Types Serialization.Serialization TransactionExtra.TransactionExtra.

(** ** [BlockUtilities.cpp] *)

Module BlockUtilities.

Section Hashing.
Context (cn_fast_hash : list Z -> Hash) (slow_hash : Block.Block.hashing_algorithm -> list Z -> Hash).

Definition getParentBinaryArray (block : BlockTemplate) (hashTransaction headerOnly : bool) : outcome (list Z) :=
  match toBinaryArray_opt (Block.Block.ser_ParentBlock cn_fast_hash hashTransaction headerOnly) (Block.Block.parent_of block) with
  | None => Err (RuntimeError "Can't serialize parent block")
  | Some binaryArray => Ok binaryArray
  end.

Definition getParentBlockHashingBinaryArray (block : BlockTemplate) (headerOnly : bool) : outcome (list Z) :=
  getParentBinaryArray block true headerOnly.

Definition getParentBlockBinaryArray (block : BlockTemplate) (headerOnly : bool) : outcome (list Z) :=
  getParentBinaryArray block false headerOnly.

Definition getBlockHashingBinaryArray (block : BlockTemplate) : outcome (list Z) :=
  match toBinaryArray_opt Block.Block.serializeBlockHeader (block_header block) with
  | None => Err (RuntimeError "Can't serialize BlockHeader")
  | Some blockHashingBinaryArray =>
    let hashes := (Block.Block.getObjectHash cn_fast_hash ser_Transaction (baseTransaction block)).1 :: transactionHashes block in
    let! treeHash := tree_hash cn_fast_hash hashes in
    let transactionCount := get_varint_data (Z.of_nat (length (transactionHashes block)) + 1) in
    Ok (blockHashingBinaryArray ++ treeHash ++ transactionCount)
  end.

Definition getBlockHash (block : BlockTemplate) : outcome Hash :=
  let! blockHashingBinaryArray := getBlockHashingBinaryArray block in
  let! blockHashingBinaryArray :=
    if BLOCK_MAJOR_VERSION_2 <=? majorVersion block then
      let! parentBlock := getParentBlockHashingBinaryArray block false in
      Ok (blockHashingBinaryArray ++ parentBlock)
    else Ok blockHashingBinaryArray in
  Ok (Block.Block.getObjectHash_bytes cn_fast_hash blockHashingBinaryArray).

Definition getMerkleRoot (block : BlockTemplate) : outcome Hash :=
  let! ba := getBlockHashingBinaryArray block in
  Ok (Block.Block.getObjectHash_bytes cn_fast_hash ba).

Definition getBlockLongHash (block : BlockTemplate) : outcome Hash :=
  let! rawHashingBlock :=
    if majorVersion block =? BLOCK_MAJOR_VERSION_1 then getBlockHashingBinaryArray block
    else getParentBlockHashingBinaryArray block true in
  match Block.Block.HASHING_ALGORITHMS_BY_BLOCK_VERSION (majorVersion block) with
  | Some hashingAlgorithm => Ok (slow_hash hashingAlgorithm rawHashingBlock)
  | None => Err (RuntimeError "Unknown block major version.")
  end.

End Hashing.

End BlockUtilities.

(** ** [Miner.cpp] *)

Module Miner.

Inductive MiningState := MINING_STOPPED | BLOCK_FOUND | MINING_IN_PROGRESS.

#[export] Instance MiningState_eq_dec : EqDecision MiningState.
Proof. solve_decision. Defined.

(** Where a thread is in [workerFunc]: before the test of the loop, before the
    hash, in [setStateBlockFound] before it loads the state and with the state it
    has last seen, before the assignment to [m_block], before it counts the hash,
    and in the handler of exceptions. *)
Inductive position := AtTest | AtHash | AtLoad | AtSwitch (state : MiningState) | AtWrite | AtCount | AtCatch | Returned.

Record worker := mkWorker { worker_at : position; worker_block : BlockTemplate }.

Record miner := mkMiner {
  m_state : MiningState;
  m_block : option BlockTemplate;
  m_hash_count : Z;
  m_workers : list worker
}.

Definition with_nonce (n : Z) (b : BlockTemplate) : BlockTemplate :=
  mkBlockTemplate (mkBlockHeader (majorVersion b) (minorVersion b) n (timestamp b) (previousBlockHash b))
    (parentBlock b) (baseTransaction b) (transactionHashes b).

Section Mining.
Context (cn_fast_hash : list Z -> Hash) (slow_hash : Block.Block.hashing_algorithm -> list Z -> Hash).
Context (difficulty nonceStep : Z).

(** One step of a thread: its new state, and those of [m_state], [m_block] and
    [m_hash_count].  [spurious] says that [compare_exchange_weak] fails although
    the state is the expected one.  Failed assertions are not exceptions. *)
Definition worker_step (spurious : bool) (w : worker) (state : MiningState) (block : option BlockTemplate) (count : Z)
  : outcome (worker * (MiningState * option BlockTemplate * Z)) :=
  let moved at' := Ok (mkWorker at' (worker_block w), (state, block, count)) in
  match worker_at w with
  | AtTest => if decide (state = MINING_IN_PROGRESS) then moved AtHash else moved Returned
  | AtHash =>
    match BlockUtilities.getBlockLongHash cn_fast_hash slow_hash (worker_block w) with
    | Ok hash => if check_hash hash difficulty then moved AtLoad else moved AtCount
    | Err (RuntimeError _) | Err (SystemError _) => moved AtCatch
    | Err e => Err e
    end
  | AtLoad => moved (AtSwitch state)
  | AtSwitch MINING_IN_PROGRESS =>
    if bool_decide (state = MINING_IN_PROGRESS) && negb spurious
    then Ok (mkWorker AtWrite (worker_block w), (BLOCK_FOUND, block, count))
    else moved (AtSwitch state)
  | AtSwitch _ => moved Returned
  | AtWrite => Ok (mkWorker Returned (worker_block w), (state, Some (worker_block w), count))
  | AtCount =>
    Ok (mkWorker AtTest (with_nonce (u32 (nonce (worker_block w) + nonceStep)) (worker_block w)), (state, block, u64 (count + 1)))
  | AtCatch => Ok (mkWorker Returned (worker_block w), (MINING_STOPPED, block, count))
  | Returned => moved Returned
  end.

(** A step of thread [i], or of [stop]. *)
Inductive action := Work (i : nat) (spurious : bool) | Stop (spurious : bool).

Definition act (a : action) (m : miner) : outcome miner :=
  match a with
  | Work i spurious =>
    match m_workers m !! i with
    | None => Ok m
    | Some w =>
      let! (w', (state, block, count)) := worker_step spurious w (m_state m) (m_block m) (m_hash_count m) in
      Ok (mkMiner state block count (<[i := w']> (m_workers m)))
    end
  | Stop spurious =>
    Ok (if bool_decide (m_state m = MINING_IN_PROGRESS) && negb spurious
        then mkMiner MINING_STOPPED (m_block m) (m_hash_count m) (m_workers m) else m)
  end.

Fixpoint run (actions : list action) (m : miner) : outcome miner :=
  match actions with
  | [] => Ok m
  | a :: actions => let! m := act a m in run actions m
  end.

End Mining.

(** [runWorkers]: thread [i] starts with the nonce [n + i].  A thread that is not
    yet started is one that has not made a step. *)
Definition start_workers (template : BlockTemplate) (n : Z) (threadCount : nat) : list worker :=
  map (fun i => mkWorker AtTest (with_nonce (u32 (n + Z.of_nat i)) template)) (seq 0 threadCount).

(** [mine] up to the wait for the threads; [n] is the random value. *)
Definition start (template : BlockTemplate) (n : Z) (threadCount : nat) (m : miner) : outcome miner :=
  if (threadCount =? 0)%nat then Err (RuntimeError "Miner requires at least one thread")
  else if decide (m_state m = MINING_IN_PROGRESS) then Err (RuntimeError "Mining is already in progress")
  else Ok (mkMiner MINING_IN_PROGRESS (m_block m) (m_hash_count m) (start_workers template n threadCount)).

Definition all_returned (m : miner) : bool :=
  forallb (fun w => match worker_at w with Returned => true | _ => false end) (m_workers m).

(** [mine] after the threads: [None] is the [InterruptedException]. *)
Definition finish (m : miner) : option BlockTemplate :=
  if decide (m_state m = MINING_STOPPED) then None else m_block m.

End Miner.

(** ** [MinerManager.cpp] *)

Module MinerManager.

Record MiningConfig := mkMiningConfig {
  threadCount : Z;
  blocksLimit : Z;
  firstBlockTimestamp : Z;
  blockTimestampInterval : Z
}.

Section Manager.
Context (cn_fast_hash : list Z -> Hash).

Definition adjustMergeMiningTag (blockTemplate : BlockTemplate) : outcome BlockTemplate :=
  if BLOCK_MAJOR_VERSION_2 <=? majorVersion blockTemplate then
    let! merkleRoot := BlockUtilities.getMerkleRoot cn_fast_hash blockTemplate in
    match appendMergeMiningTagToExtra [] (mkMergeMiningTag 0 merkleRoot) with
    | None => Err (RuntimeError "Couldn't append merge mining tag")
    | Some extra' =>
      let p := parentBlock blockTemplate in
      let tx := pb_baseTransaction p in
      Ok (mkBlockTemplate (block_header blockTemplate)
        (mkParentBlock (pb_majorVersion p) (pb_minorVersion p) (pb_previousBlockHash p) (transactionCount p) (baseTransactionBranch p)
           (mkBaseTransaction (mkTransactionPrefix (version tx) (unlockTime tx) (inputs tx) (outputs tx) extra')) (blockchainBranch p))
        (baseTransaction blockTemplate) (transactionHashes blockTemplate))
    end
  else Ok blockTemplate.

Definition with_timestamp (time : Z) (b : BlockTemplate) : BlockTemplate :=
  mkBlockTemplate (mkBlockHeader (majorVersion b) (minorVersion b) (nonce b) time (previousBlockHash b))
    (parentBlock b) (baseTransaction b) (transactionHashes b).

Definition adjustBlockTemplate (m_config : MiningConfig) (m_lastBlockTimestamp : Z) (blockTemplate : BlockTemplate) : outcome BlockTemplate :=
  let! blockTemplate := adjustMergeMiningTag blockTemplate in
  Ok (if firstBlockTimestamp m_config =? 0 then blockTemplate
      else if m_lastBlockTimestamp =? 0 then with_timestamp (firstBlockTimestamp m_config) blockTemplate
      else if negb (blockTimestampInterval m_config =? 0)
      then with_timestamp (u64 (m_lastBlockTimestamp + blockTimestampInterval m_config)) blockTemplate
      else blockTemplate).

(** ** The loop over events *)

Inductive MinerEventType := BLOCK_MINED | BLOCKCHAIN_UPDATED.

Record manager := mkManager {
  m_minedBlock : BlockTemplate;
  m_lastBlockTimestamp : Z;
  blocksMined : Z;
  (** The template and the difficulty that [startMining] was called with last. *)
  mining : option (BlockTemplate * Z)
}.

(** Of the answer to the request, [None] when there is none, the status: a request
    without an answer counts as a block that was found. *)
Definition submitBlock (res : option Z) : bool :=
  match res with None => true | Some status => status =? 200 end.

Definition restart (m_config : MiningConfig) (params : BlockTemplate * Z) (m : manager) : outcome manager :=
  let! blockTemplate := adjustBlockTemplate m_config (m_lastBlockTimestamp m) params.1 in
  Ok (mkManager (m_minedBlock m) (m_lastBlockTimestamp m) (blocksMined m) (Some (blockTemplate, params.2))).

(** One round of [eventLoop], with the answer to the submission and the parameters
    that the node returns; the result says whether the loop goes on. *)
Definition handle (m_config : MiningConfig) (event : MinerEventType) (res : option Z) (params : BlockTemplate * Z) (m : manager)
  : outcome (manager * bool) :=
  match event with
  | BLOCK_MINED =>
    if submitBlock res then
      let mined := if blocksLimit m_config =? 0 then blocksMined m else u64 (blocksMined m + 1) in
      let m := mkManager (m_minedBlock m) (timestamp (m_minedBlock m)) mined (mining m) in
      if negb (blocksLimit m_config =? 0) && (mined =? blocksLimit m_config) then Ok (m, false)
      else let! m := restart m_config params m in Ok (m, true)
    else let! m := restart m_config params m in Ok (m, true)
  | BLOCKCHAIN_UPDATED => let! m := restart m_config params m in Ok (m, true)
  end.

End Manager.

End MinerManager.
