(* ===== verification/ChainProofs.v ===== *)
(** * Proofs about the tree of chains

    [tree_ok] is the invariant of the caches of a node: they form a tree whose
    leaves are [chainsLeaves], and the segments from every cache to the root are a
    well-formed chain.  The operations keep it, adding a block extends one chain
    or starts one and leaves the others as they were, and the main chain is the
    one with the largest cumulative difficulty. *)

From S2P Require Import Prelude.
From S2P Require Import Types.
From S2P Require Import Serialization.
From S2P Require Import Block.
From S2P Require Import Currency.
From S2P Require Import Checkpoints.
From S2P Require Import ValidateTransaction.
From S2P Require Import TransactionPool.
From S2P Require Import CorePool.
From S2P Require Import BlockchainCache.
From S2P Require Import CacheProofs.
From S2P Require Import PushProofs.
From S2P Require Import CoreChain.
Import Types.Types Serialization.Serialization Currency.Currency Checkpoints.Checkpoints.
Import ValidateTransaction.ValidateTransaction BlockchainCache.BlockchainCache CacheProofs.CacheProofs PushProofs.PushProofs.
Import CoreChain.CoreChain.

Module ChainProofs.

(** ** Lineages *)

(** The caches from [p] to the root. *)
Inductive lin (m : gmap Z cache) : Z -> list (Z * segment) -> Prop :=
| lin_root p c : m !! p = Some c -> parent c = None -> lin m p [(p, cache_segment c)]
| lin_step p c q l : m !! p = Some c -> parent c = Some q -> lin m q l -> lin m p ((p, cache_segment c) :: l).

Lemma lin_unique m p l1 l2 : lin m p l1 -> lin m p l2 -> l1 = l2.
Proof.
  intros H. revert l2. induction H as [p c Hp Hn|p c q l Hp Hq _ IH]; intros l2 H2; inversion H2; subst; simplify_eq; [done|].
  f_equal. by apply IH.
Qed.

Lemma lin_head m p l : lin m p l -> exists c l', m !! p = Some c /\ l = (p, cache_segment c) :: l'.
Proof. intros []; eauto. Qed.

Lemma lin_cell m p l q s : lin m p l -> (q, s) ∈ l -> exists c, m !! q = Some c /\ cache_segment c = s.
Proof.
  induction 1 as [p c Hp Hn|p c q' l Hp Hq _ IH]; intros Hin; apply elem_of_cons in Hin as [[= -> ->]|Hin]; eauto.
  by apply elem_of_nil in Hin.
Qed.

(** The lineage of an ancestor. *)
Lemma lin_suffix m p l1 q s l2 : lin m p (l1 ++ (q, s) :: l2) -> lin m q ((q, s) :: l2).
Proof.
  revert p. induction l1 as [|x l1 IH]; intros p H.
  - destruct (lin_head _ _ _ H) as (c & l' & Hp & [= -> -> ->]). done.
  - inversion H; subst; [by destruct l1|]. by eapply IH.
Qed.

Lemma lin_ancestors m p l st fuel : caches st = m -> lin m p l -> (length l <= fuel)%nat -> ancestors fuel st p = Ok l.
Proof.
  intros <- H. revert fuel. induction H as [p c Hp Hn|p c q l Hp Hq _ IH]; intros [|fuel] Hf; cbn [length] in Hf; [lia| |lia|].
  - cbn [ancestors]. unfold deref. rewrite Hp. cbn [obind]. by rewrite Hn.
  - cbn [ancestors]. unfold deref. rewrite Hp. cbn [obind]. rewrite Hq, IH by lia. done.
Qed.

(** Every cache of a chain but the first has a block. *)
Definition filled (l : list (Z * segment)) : Prop := Forall (fun x => blockInfos x.2 <> []) l.

Lemma chain_starts l : chain_ok (map snd l) -> filled (tail l) ->
  StronglySorted (fun a b => startIndex b.2 < startIndex a.2) l.
Proof.
  induction l as [|x l IH]; intros Hok Hf; [constructor|]. pose proof Hok as (_ & _ & Hc & _). cbn [tail] in Hf.
  assert (IHl : StronglySorted (fun a b => startIndex b.2 < startIndex a.2) l).
  { apply IH; [done|]. destruct l; [constructor|]. by apply Forall_cons in Hf as [_ ?]. }
  constructor; [done|]. destruct l as [|y l]; [constructor|]. cbn [map] in Hok.
  destruct (parents_infos _ _ _ Hok) as (Hne & He & _).
  assert (Hy : startIndex y.2 < startIndex x.2).
  { unfold seg_end in He. destruct (blockInfos y.2); [done|]. cbn [length] in He. lia. }
  constructor; [done|]. apply StronglySorted_inv in IHl as [_ Hl]. eapply Forall_impl; [exact Hl|]. simpl. lia.
Qed.

Lemma lin_nodup m p l : lin m p l -> chain_ok (map snd l) -> filled (tail l) -> NoDup (map fst l).
Proof.
  intros Hl Hok Hf. pose proof (chain_starts _ Hok Hf) as Hs.
  assert (Hcell : forall q s, (q, s) ∈ l -> exists c, m !! q = Some c /\ cache_segment c = s) by (intros q s; by apply lin_cell with (p := p)).
  clear Hl Hok Hf. induction Hs as [|[q s] l Hs IH Hx]; [constructor|]. cbn [map]. apply NoDup_cons. split.
  - intros Hin. apply list_elem_of_fmap in Hin as ([q' s'] & E & Hin). simpl in E. subst q'.
    rewrite Forall_forall in Hx. specialize (Hx _ Hin). simpl in Hx.
    destruct (Hcell q s) as (c & Hc & <-); [left|]. destruct (Hcell q s') as (c' & Hc' & <-); [by right|].
    assert (c = c') as -> by congruence. lia.
  - apply IH. intros q' s' Hin. apply Hcell. by right.
Qed.

Lemma lin_length m p l : lin m p l -> chain_ok (map snd l) -> filled (tail l) -> (length l <= size m)%nat.
Proof.
  intros Hl Hok Hf. pose proof (lin_nodup _ _ _ Hl Hok Hf) as Hnd.
  rewrite <- (length_map fst l), <- size_dom. rewrite <- (size_list_to_set (C := gset Z) _ Hnd). apply subseteq_size.
  intros q. rewrite elem_of_list_to_set, elem_of_dom. intros Hin. apply list_elem_of_fmap in Hin as ([q' s] & -> & Hin).
  destruct (lin_cell _ _ _ _ _ Hl Hin) as (c & Hc & _). by exists c.
Qed.

Lemma lineage_eq st p l : lin (caches st) p l -> chain_ok (map snd l) -> filled (tail l) -> lineage st p = Ok l.
Proof.
  intros Hl Hok Hf. eapply lin_ancestors; [done|done|]. pose proof (lin_length _ _ _ Hl Hok Hf). lia.
Qed.

(** ** The invariant *)

Record heap_ok (m : gmap Z cache) : Prop := {
  heap_link : forall p c q, m !! p = Some c -> q ∈ children c <-> exists c', m !! q = Some c' /\ parent c' = Some p;
  heap_children : forall p c, m !! p = Some c -> NoDup (children c);
  heap_chain : forall p c, m !! p = Some c -> exists l, lin m p l /\ chain_ok (map snd l);
  heap_blocks : forall p c, m !! p = Some c -> blockInfos (cache_segment c) <> [];
  heap_root : forall p q c c', m !! p = Some c -> m !! q = Some c' -> parent c = None -> parent c' = None -> p = q
}.

Definition is_leaf (m : gmap Z cache) (p : Z) : Prop := exists c, m !! p = Some c /\ children c = [].

Record tree_ok (st : core) : Prop := {
  tree_heap : heap_ok (caches st);
  tree_next : forall p, is_Some (caches st !! p) -> p < next_cache st;
  tree_storage : NoDup (chainsStorage st) /\ forall p, p ∈ chainsStorage st <-> is_Some (caches st !! p);
  tree_leaves : NoDup (chainsLeaves st) /\ forall p, p ∈ chainsLeaves st <-> is_leaf (caches st) p
}.

(** [mainChainSet] is the lineage of the first leaf. *)
Definition main_ok (st : core) : Prop :=
  exists p l, head (chainsLeaves st) = Some p /\ lin (caches st) p l /\ mainChainSet st = list_to_set (map fst l).

Section Heap.
Context (m : gmap Z cache) (Hm : heap_ok m).

Lemma heap_filled p l : lin m p l -> filled l.
Proof.
  intros Hl. apply Forall_forall. intros [q s] Hin. destruct (lin_cell _ _ _ _ _ Hl Hin) as (c & Hc & <-).
  by eapply heap_blocks.
Qed.

Lemma heap_lin p c : m !! p = Some c -> exists l, lin m p ((p, cache_segment c) :: l) /\ chain_ok (cache_segment c :: map snd l).
Proof.
  intros Hp. destruct (heap_chain _ Hm _ _ Hp) as (l & Hl & Hok). destruct (lin_head _ _ _ Hl) as (c' & l' & Hp' & ->).
  simplify_eq. eauto.
Qed.

Lemma filled_tail l : filled l -> filled (tail l).
Proof. destruct l; [done|]. by intros [_ ?]%Forall_cons. Qed.

Lemma lin_chain p l : lin m p l -> chain_ok (map snd l).
Proof.
  intros Hl. destruct (lin_head _ _ _ Hl) as (c & l' & Hp & _). destruct (heap_chain _ Hm _ _ Hp) as (l2 & Hl2 & Hok).
  by rewrite (lin_unique _ _ _ _ Hl Hl2).
Qed.

Lemma heap_lineage st p l : caches st = m -> lin m p l -> lineage st p = Ok l.
Proof.
  intros E Hl. pose proof (lin_chain _ _ Hl) as Hc. pose proof (heap_filled _ _ Hl) as Hf. subst m.
  by apply lineage_eq; [|done|apply filled_tail].
Qed.

Lemma heap_nodup p l : lin m p l -> NoDup (map fst l).
Proof. intros Hl. eapply lin_nodup; [done|by eapply lin_chain|eapply filled_tail, heap_filled, Hl]. Qed.

Lemma leaf_not_ancestor p c q l : m !! p = Some c -> children c = [] -> lin m q l -> q <> p -> p ∉ map fst l.
Proof.
  intros Hp Hc. induction 1 as [q cq Hq Hn|q cq q' l Hq Hq' Hl IH]; intros Hne; cbn [map fst]; rewrite not_elem_of_cons; (split; [congruence|]).
  - apply not_elem_of_nil.
  - apply IH. intros ->. assert (Hin : q ∈ children c) by (apply (heap_link _ Hm _ _ _ Hp); eauto). rewrite Hc in Hin. by apply elem_of_nil in Hin.
Qed.

Lemma child_parent p c q : m !! p = Some c -> q ∈ children c -> exists c', m !! q = Some c' /\ parent c' = Some p.
Proof. intros Hp. by apply (heap_link _ Hm _ _ _ Hp). Qed.

End Heap.

(** A lineage depends on the segments and parents of its caches. *)
Definition same_cell (m m' : gmap Z cache) (p : Z) : Prop :=
  forall c, m !! p = Some c -> exists c', m' !! p = Some c' /\ cache_segment c' = cache_segment c /\ parent c' = parent c.

Lemma lin_same m m' p l : lin m p l -> Forall (same_cell m m') (map fst l) -> lin m' p l.
Proof.
  induction 1 as [p c Hp Hn|p c q l Hp Hq _ IH]; cbn [map fst]; intros [Hs Hf]%Forall_cons; destruct (Hs c Hp) as (c' & Hp' & <- & E).
  - apply lin_root; congruence.
  - apply (lin_step _ p c' q); [done|congruence|by apply IH].
Qed.

(** ** Replacing the segment of a leaf *)

Section Replace.
Context (m : gmap Z cache) (Hm : heap_ok m).
Context (p : Z) (c : cache) (Hp : m !! p = Some c) (Hleaf : children c = []).
Context (s' : segment) (Hne : blockInfos s' <> []).
Local Abbreviation m' := (alter (set_segment s') p m).

Lemma replace_lookup q : m' !! q = if decide (q = p) then Some (set_segment s' c) else m !! q.
Proof. case_decide as E; [subst q; by rewrite lookup_alter_eq, Hp|by rewrite lookup_alter_ne]. Qed.

Lemma replace_lin q l : lin m q l -> q <> p -> lin m' q l.
Proof.
  intros Hl Hq. apply (lin_same m); [done|]. pose proof (leaf_not_ancestor _ Hm _ _ _ _ Hp Hleaf Hl Hq) as Hn.
  apply Forall_forall. intros x Hx cx Hcx. exists cx. rewrite replace_lookup. by rewrite decide_False by congruence.
Qed.

Lemma replace_lin_leaf l : lin m p ((p, cache_segment c) :: l) -> lin m' p ((p, s') :: l).
Proof.
  intros Hl. inversion Hl as [? c0 Hp0 Hn|? c0 q l0 Hp0 Hq Hl0]; subst; simplify_eq.
  - apply (lin_root _ p (set_segment s' c)); [by rewrite replace_lookup, decide_True|done].
  - eapply (lin_step _ p (set_segment s' c)); [by rewrite replace_lookup, decide_True|done|]. apply replace_lin; [done|].
    intros ->. assert (Hin : p ∈ children c) by (apply (heap_link _ Hm _ _ _ Hp); eauto). rewrite Hleaf in Hin. by apply elem_of_nil in Hin.
Qed.

Lemma replace_ok l : lin m p ((p, cache_segment c) :: l) -> chain_ok (s' :: map snd l) -> heap_ok m'.
Proof.
  intros Hl Hok. split.
  - intros x cx q. rewrite !replace_lookup. case_decide as E.
    + intros [= <-]. cbn [set_segment children]. subst x. rewrite (heap_link _ Hm _ _ _ Hp).
      case_decide; [|done]. subst q. split; intros (c' & Hc' & Hpar); simplify_eq; eauto.
    + intros Hx. rewrite (heap_link _ Hm _ _ _ Hx). case_decide; [|done]. subst q. split; intros (c' & Hc' & Hpar); simplify_eq; eauto.
  - intros x cx. rewrite replace_lookup. case_decide; [intros [= <-]; cbn [set_segment children]; rewrite Hleaf; constructor|].
    by apply (heap_children _ Hm).
  - intros x cx. rewrite replace_lookup. case_decide as E.
    + intros _. subst x. exists ((p, s') :: l). split; [by apply replace_lin_leaf|done].
    + intros Hx. destruct (heap_chain _ Hm _ _ Hx) as (lx & Hlx & Hokx). exists lx. split; [by apply replace_lin|done].
  - intros x cx. rewrite replace_lookup. case_decide; [by intros [= <-]|]. by apply (heap_blocks _ Hm).
  - intros x y cx cy. rewrite !replace_lookup.
    repeat case_decide; intros Hx Hy Nx Ny; simplify_eq; try done; eapply (heap_root _ Hm); eauto.
Qed.

End Replace.

(** ** A new leaf *)

Section Fork.
Context (m : gmap Z cache) (Hm : heap_ok m).
Context (p : Z) (c : cache) (Hp : m !! p = Some c) (new : Z) (Hnew : m !! new = None).
Context (s' : segment) (Hne : blockInfos s' <> []) (m' : gmap Z cache).
Hypothesis Hm' : forall q, m' !! q =
  if decide (q = new) then Some (mkCache s' (Some p) []) else
  if decide (q = p) then Some (set_children (children c ++ [new]) c) else m !! q.

Lemma fork_ne : new <> p.
Proof. intros ->. by rewrite Hp in Hnew. Qed.

Lemma fork_lin q l : lin m q l -> lin m' q l.
Proof.
  intros Hl. apply (lin_same m); [done|]. apply Forall_forall. intros x _ cx Hx. rewrite Hm'.
  rewrite decide_False by congruence. case_decide; [|eauto]. subst x. exists (set_children (children c ++ [new]) c).
  simplify_eq. done.
Qed.

Lemma fork_lin_new l : lin m p l -> lin m' new ((new, s') :: l).
Proof.
  intros Hl. apply (lin_step _ new (mkCache s' (Some p) []) p); [by rewrite Hm', decide_True|done|by apply fork_lin].
Qed.

Lemma fork_ok l : lin m p l -> chain_ok (s' :: map snd l) -> heap_ok m'.
Proof.
  intros Hl Hok. pose proof fork_ne as Hnp.
  assert (Hno : forall x cx, m !! x = Some cx -> new ∉ children cx).
  { intros x cx Hx Hin. destruct (child_parent _ Hm _ _ _ Hx Hin) as (c' & Hc' & _). congruence. }
  assert (Hpar : forall x cx, m !! x = Some cx -> parent cx <> Some new).
  { intros x cx Hx E. destruct (heap_chain _ Hm _ _ Hx) as (lx & Hlx & _). inversion Hlx as [|? ? ? ? ? ? Hq]; subst; simplify_eq.
    destruct (lin_head _ _ _ Hq) as (? & ? & ? & _). congruence. }
  split.
  - intros x cx q. rewrite !Hm'. destruct (decide (x = new)) as [->|Hx].
    + intros [= <-]. cbn [children]. rewrite elem_of_nil. split; [done|]. intros (c' & Hc' & E). rewrite ?Hm' in Hc'.
      repeat case_decide; simplify_eq; cbn [parent set_children] in *; [congruence|by apply (Hpar p c)|by apply (Hpar q c')].
    + case_decide as Hxp.
      * intros [= <-]. subst x. cbn [set_children children]. rewrite elem_of_app, list_elem_of_singleton, (heap_link _ Hm _ _ _ Hp).
        destruct (decide (q = new)) as [->|Hq].
        { split; [intros _; eauto|by right]. }
        split; [intros [(c' & Hc' & E)|?]; [|done]|intros (c' & Hc' & E); left].
        { case_decide; [subst q; simplify_eq; eexists; split; [done|done]|eauto]. }
        { case_decide; [subst q; simplify_eq; eauto|eauto]. }
      * intros Hcx. rewrite (heap_link _ Hm _ _ _ Hcx). destruct (decide (q = new)) as [->|Hq].
        { split; [intros (c' & Hc' & _); congruence|intros (c' & [= <-] & [= E]); congruence]. }
        case_decide; [|done]. subst q. split; intros (c' & Hc' & E); simplify_eq; eexists; (split; [done|done]).
  - intros x cx. rewrite Hm'. repeat case_decide; [intros [= <-]; constructor| |by apply (heap_children _ Hm)].
    intros [= <-]. cbn [set_children children]. apply NoDup_app. split_and!; [by apply (heap_children _ Hm p)| |apply NoDup_singleton].
    intros y Hy ->%list_elem_of_singleton. by apply (Hno p c).
  - intros x cx Hx. rewrite Hm' in Hx. destruct (decide (x = new)) as [->|Hxn].
    + exists ((new, s') :: l). split; [by apply fork_lin_new|done].
    + assert (Hx' : exists cx', m !! x = Some cx') by (case_decide; [subst x; eauto|eauto]). destruct Hx' as (cx' & Hx').
      destruct (heap_chain _ Hm _ _ Hx') as (lx & Hlx & Hokx). exists lx. split; [by apply fork_lin|done].
  - intros x cx. rewrite Hm'. repeat case_decide; [by intros [= <-]|intros [= <-]; by apply (heap_blocks _ Hm p c)|by apply (heap_blocks _ Hm)].
  - intros x y cx cy. rewrite !Hm'. repeat case_decide; intros Hx Hy Nx Ny; simplify_eq; cbn [set_children parent] in *; try done;
      eapply (heap_root _ Hm); eauto.
Qed.

End Fork.

(** ** Splitting a cache *)

Section Split.
Context (m : gmap Z cache) (Hm : heap_ok m).
Context (p : Z) (c : cache) (Hp : m !! p = Some c) (new : Z) (Hnew : m !! new = None).

Lemma split_no_cycle l : lin m p ((p, cache_segment c) :: l) -> p ∉ map fst l /\ Forall (fun x => x ∉ children c) (map fst l).
Proof.
  intros Hl. pose proof (heap_nodup _ Hm _ _ Hl) as Hnd. cbn [map fst] in Hnd. apply NoDup_cons in Hnd as [Hn _]. split; [done|].
  apply Forall_forall. intros x Hx Hc. apply list_elem_of_fmap in Hx as ([x' s] & -> & Hx). simpl in Hc.
  destruct (child_parent _ Hm _ _ _ Hp Hc) as (cx & Hcx & Hpar). apply list_elem_of_split in Hx as (l1 & l2 & ->).
  assert (Hs : lin m x' ((x', s) :: l2)) by (by eapply (lin_suffix _ p ((p, cache_segment c) :: l1))).
  inversion Hs as [|? ? q ? ? ? Hq]; subst; simplify_eq. destruct (lin_head _ _ _ Hq) as (? & l3 & _ & ->).
  apply Hn. rewrite map_app. cbn [map fst]. set_solver.
Qed.

Lemma split_new_parent x cx : m !! x = Some cx -> parent cx <> Some new.
Proof.
  intros Hx E. destruct (heap_chain _ Hm _ _ Hx) as (lx & Hlx & _). inversion Hlx as [|? ? ? ? ? ? Hq]; subst; simplify_eq.
  destruct (lin_head _ _ _ Hq) as (? & ? & H & _). by rewrite Hnew in H.
Qed.

Lemma split_self : new <> p /\ p ∉ children c /\ new ∉ children c.
Proof.
  split_and!.
  - intros ->. by rewrite Hp in Hnew.
  - intros Hin. destruct (child_parent _ Hm _ _ _ Hp Hin) as (c' & Hc' & E). assert (c' = c) as -> by (rewrite Hp in Hc'; by injection Hc').
    destruct (heap_lin _ Hm _ _ Hp) as (l & Hl & _). destruct (split_no_cycle _ Hl) as [Hn _].
    inversion Hl as [|? ? q ? Hp0 Hq Hl0]; subst; simplify_eq. destruct (lin_head _ _ _ Hl0) as (? & ? & _ & ->).
    apply Hn. cbn [map fst]. left.
  - intros Hin. destruct (child_parent _ Hm _ _ _ Hp Hin) as (c' & Hc' & _). by rewrite Hnew in Hc'.
Qed.

Context (lower upper : segment) (m' : gmap Z cache).
Hypothesis Hm' : forall q, m' !! q =
  if decide (q = new) then Some (mkCache upper (Some p) (children c)) else
  if decide (q = p) then Some (mkCache lower (parent c) [new]) else
  if decide (q ∈ children c) then setParent (Some new) <$> m !! q else m !! q.
Hypothesis Hblocks : blockInfos lower <> [] /\ blockInfos upper <> [].
Hypothesis Hsplit : forall c1 ps, chain_ok (c1 ++ cache_segment c :: ps) ->
  chain_ok (c1 ++ upper :: lower :: ps) /\ chain_ok (lower :: ps).

(** The lineage of a cache above the split. *)
Definition split_lineage (l : list (Z * segment)) : list (Z * segment) :=
  flat_map (fun x => if decide (x.1 = p) then [(new, upper); (p, lower)] else [x]) l.

Lemma split_lineage_id l : p ∉ map fst l -> split_lineage l = l.
Proof.
  induction l as [|x l IH]; [done|]. cbn [map]. intros [Hx Hl]%not_elem_of_cons. cbn [split_lineage flat_map].
  rewrite decide_False by congruence. cbn [app]. f_equal. by apply IH.
Qed.

Lemma split_below l : lin m p ((p, cache_segment c) :: l) -> lin m' p ((p, lower) :: l).
Proof.
  intros Hl. destruct (split_no_cycle _ Hl) as [Hn Hc].
  assert (Hpn : p <> new) by congruence.
  assert (Hsame : Forall (same_cell m m') (map fst l)).
  { rewrite Forall_forall in Hc |- *. intros x Hx cx Hcx. exists cx. rewrite Hm'.
    rewrite decide_False, decide_False, decide_False; [done|by apply Hc|congruence|congruence]. }
  set (c1 := mkCache lower (parent c) [new]).
  assert (Hc1 : m' !! p = Some c1) by (rewrite Hm', decide_False by done; by rewrite decide_True).
  inversion Hl as [? c0 Hp0 Hn0|? c0 q l0 Hp0 Hq Hl0]; subst; simplify_eq.
  - by apply (lin_root _ p c1).
  - apply (lin_step _ p c1 q); [done|done|]. by apply (lin_same m).
Qed.

Lemma split_above l : lin m p ((p, cache_segment c) :: l) -> lin m' new ((new, upper) :: (p, lower) :: l).
Proof.
  intros Hl. apply (lin_step _ new (mkCache upper (Some p) (children c)) p); [by rewrite Hm', decide_True|done|by apply split_below].
Qed.

Lemma split_lin q l : lin m q l -> q <> p -> lin m' q (split_lineage l).
Proof.
  induction 1 as [q cq Hq Hn|q cq q' l Hq Hq' Hl IH]; intros Hne; cbn [split_lineage flat_map fst]; rewrite decide_False by done; cbn [app].
  - apply lin_root; [|done]. rewrite Hm', decide_False, decide_False by congruence. rewrite decide_False; [done|].
    intros Hin. destruct (child_parent _ Hm _ _ _ Hp Hin) as (c' & Hc' & E). congruence.
  - destruct (decide (q' = p)) as [->|Hne'].
    + destruct (lin_head _ _ _ Hl) as (c' & l' & Hc' & ->). simplify_eq. cbn [flat_map fst]. rewrite decide_True by done. cbn [app].
      destruct (split_no_cycle _ Hl) as [Hn _]. fold (split_lineage l'). rewrite (split_lineage_id _ Hn).
      assert (Hin : q ∈ children c) by (apply (heap_link _ Hm _ _ _ Hp); eauto).
      apply (lin_step _ q (setParent (Some new) cq) new); [|done|by apply split_above].
      rewrite Hm', decide_False, decide_False, decide_True by congruence. by rewrite Hq.
    + apply (lin_step _ q cq q'); [|done|by apply IH]. rewrite Hm', decide_False, decide_False by congruence.
      rewrite decide_False; [done|]. intros Hin. destruct (child_parent _ Hm _ _ _ Hp Hin) as (c' & Hc' & E). congruence.
Qed.

Lemma split_lineage_chain q l : lin m q l -> chain_ok (map snd (split_lineage l)).
Proof.
  intros Hl. pose proof (lin_chain _ Hm _ _ Hl) as Hok. pose proof (heap_nodup _ Hm _ _ Hl) as Hnd.
  destruct (decide (p ∈ map fst l)) as [Hin|Hin]; [|by rewrite split_lineage_id].
  apply list_elem_of_fmap in Hin as ([p' s] & E & Hin). simpl in E. subst p'.
  destruct (lin_cell _ _ _ _ _ Hl Hin) as (c' & Hc' & <-). simplify_eq. apply list_elem_of_split in Hin as (l1 & l2 & ->).
  rewrite map_app in Hok, Hnd. cbn [map fst snd] in Hok, Hnd. unfold split_lineage. rewrite flat_map_app. cbn [flat_map fst].
  rewrite decide_True by done. fold (split_lineage l1). fold (split_lineage l2).
  apply NoDup_app in Hnd as (_ & H1 & [H2 _]%NoDup_cons).
  rewrite (split_lineage_id l1), (split_lineage_id l2), map_app; [by apply Hsplit|done|]. intros Hin. apply (H1 p Hin). set_solver.
Qed.

(** The links to other caches stay. *)
Lemma split_links q x : x <> new -> x <> p ->
  (exists c', m' !! q = Some c' /\ parent c' = Some x) <-> (exists c', m !! q = Some c' /\ parent c' = Some x).
Proof.
  clear Hblocks Hsplit.
  intros Hxn Hxp. rewrite Hm'. destruct split_self as (Hnp & Hpc & Hnc). destruct (decide (q = new)) as [->|Hq].
  { split; [intros (c' & [= <-] & [= E]); congruence|intros (c' & Hc' & _); by rewrite Hnew in Hc']. }
  destruct (decide (q = p)) as [->|Hqp].
  { split; [intros (c' & [= <-] & E); exists c; done|intros (c' & Hc' & E)]. rewrite Hp in Hc'. injection Hc' as <-. eauto. }
  case_decide as Hin; [|done]. destruct (child_parent _ Hm _ _ _ Hp Hin) as (c' & Hc' & E). rewrite Hc'. simpl.
  split; [intros (c2 & [= <-] & [= E2]); congruence|intros (c2 & [= <-] & E2); congruence].
Qed.

Lemma split_exists q : is_Some (m' !! q) <-> q = new \/ is_Some (m !! q).
Proof.
  clear Hblocks Hsplit.
  rewrite Hm'. repeat case_decide; subst.
  - split; [by left|eauto].
  - split; [intros _; right; eauto|eauto].
  - rewrite fmap_is_Some. split; [by right|by intros [?|?]].
  - split; [by right|by intros [?|?]].
Qed.

Lemma split_leaf q : is_leaf m' q <-> (q = new /\ children c = []) \/ (q <> p /\ is_leaf m q).
Proof.
  clear Hblocks Hsplit.
  unfold is_leaf. rewrite Hm'. destruct split_self as (Hnp & Hpc & Hnc). destruct (decide (q = new)) as [->|Hq].
  { split; [intros (c' & [= <-] & E); by left|intros [[_ E]|(_ & c' & Hc' & _)]; [eauto|by rewrite Hnew in Hc']]. }
  destruct (decide (q = p)) as [->|Hqp].
  { split; [intros (c' & [= <-] & E); done|intros [[? _]|[? _]]; done]. }
  case_decide as Hin; [|naive_solver]. destruct (child_parent _ Hm _ _ _ Hp Hin) as (c' & Hc' & E). rewrite Hc'. simpl.
  split; [intros (c2 & [= <-] & E2); right; split; [done|eauto]|intros [[? _]|(_ & c2 & [= <-] & E2)]; [done|eauto]].
Qed.

Lemma split_link x cx q : m' !! x = Some cx -> q ∈ children cx <-> exists c', m' !! q = Some c' /\ parent c' = Some x.
Proof.
  clear Hblocks Hsplit.
  destruct split_self as (Hnp & Hpc & Hnc). intros Hx. destruct (decide (x = new)) as [->|Hxn]; [|destruct (decide (x = p)) as [->|Hxp]].
  - rewrite Hm', decide_True in Hx by done. injection Hx as <-. cbn [children]. split.
    + intros Hin. destruct (child_parent _ Hm _ _ _ Hp Hin) as (c' & Hc' & _). exists (setParent (Some new) c').
      rewrite Hm', decide_False, decide_False, decide_True by (done || by intros ->). by rewrite Hc'.
    + intros (c' & Hc' & E). rewrite Hm' in Hc'. repeat case_decide; try done; simplify_eq; cbn [parent] in E.
      * congruence.
      * by apply split_new_parent in Hp.
      * by apply split_new_parent in Hc'.
  - rewrite Hm', decide_False, decide_True in Hx by done. injection Hx as <-. cbn [children]. rewrite list_elem_of_singleton. split.
    + intros ->. eexists. rewrite Hm', decide_True by done. done.
    + intros (c' & Hc' & E). rewrite Hm' in Hc'. repeat case_decide; try done; subst; simplify_eq; cbn [parent] in E.
      * destruct Hpc. apply (heap_link _ Hm _ _ _ Hp). eauto.
      * apply fmap_Some in Hc' as (c2 & _ & ->). cbn [setParent parent] in E. congruence.
      * match goal with H : q ∉ children c |- _ => destruct H end. apply (heap_link _ Hm _ _ _ Hp). eauto.
  - rewrite split_links by done. rewrite Hm', decide_False, decide_False in Hx by done. case_decide as Hin.
    + apply fmap_Some in Hx as (c2 & Hc2 & ->). cbn [setParent children]. by apply (heap_link _ Hm).
    + by apply (heap_link _ Hm).
Qed.

Lemma split_ok : heap_ok m'.
Proof.
  destruct split_self as (Hnp & Hpc & Hnc). split.
  - intros x cx q Hx. by apply split_link.
  - intros x cx. rewrite Hm'. repeat case_decide; intros Hx; simplify_eq; cbn [children].
    + by apply (heap_children _ Hm p).
    + apply NoDup_singleton.
    + apply fmap_Some in Hx as (c2 & Hc2 & ->). cbn [setParent children]. by apply (heap_children _ Hm x).
    + by apply (heap_children _ Hm x).
  - destruct (heap_lin _ Hm _ _ Hp) as (l & Hl & Hok). pose proof (Hsplit [] _ Hok) as [Hu Hlo]. intros x cx Hx.
    destruct (decide (x = new)) as [->|Hxn]; [exists ((new, upper) :: (p, lower) :: l); split; [by apply split_above|done]|].
    destruct (decide (x = p)) as [->|Hxp]; [exists ((p, lower) :: l); split; [by apply split_below|done]|].
    assert (Hx' : is_Some (m !! x)) by (destruct (proj1 (split_exists x)); [by eexists|done|done]). destruct Hx' as [c2 Hc2].
    destruct (heap_chain _ Hm _ _ Hc2) as (lx & Hlx & _). exists (split_lineage lx). split; [by apply split_lin|by eapply split_lineage_chain].
  - intros x cx. rewrite Hm'. repeat case_decide; intros Hx; simplify_eq; [apply Hblocks|apply Hblocks| |by apply (heap_blocks _ Hm x)].
    apply fmap_Some in Hx as (c2 & Hc2 & ->). by apply (heap_blocks _ Hm x c2).
  - assert (Hroot : forall x cx, m' !! x = Some cx -> parent cx = None -> exists c2, m !! x = Some c2 /\ parent c2 = None).
    { intros x cx. rewrite Hm'. repeat case_decide; intros Hx Hn; simplify_eq; cbn [parent] in *; [by eauto| |by eauto].
      apply fmap_Some in Hx as (c2 & Hc2 & ->). done. }
    intros x y cx cy Hx Hy Nx Ny. apply Hroot in Hx as (? & ? & ?), Hy as (? & ? & ?); [|done..]. by eapply (heap_root _ Hm).
Qed.

End Split.

(** ** The operations on the heap *)

(** States with the same tree. *)
Definition same_tree (st st' : core) : Prop :=
  caches st' = caches st /\ next_cache st' = next_cache st /\ chainsLeaves st' = chainsLeaves st /\
  chainsStorage st' = chainsStorage st /\ mainChainSet st' = mainChainSet st.

Lemma same_tree_refl st : same_tree st st.
Proof. done. Qed.

Lemma same_tree_trans st1 st2 st3 : same_tree st1 st2 -> same_tree st2 st3 -> same_tree st1 st3.
Proof. unfold same_tree. intros (-> & -> & -> & -> & ->) (-> & -> & -> & -> & ->). done. Qed.

Lemma deref_ok st p c : caches st !! p = Some c -> deref st p = Ok c.
Proof. unfold deref. by intros ->. Qed.

Lemma deref_Ok st p c : deref st p = Ok c -> caches st !! p = Some c.
Proof. unfold deref. by destruct (caches st !! p); intros [= ->]. Qed.

Lemma fixChildrenParent_eq l q : forall st, (forall x, x ∈ l -> is_Some (caches st !! x)) ->
  exists m, fixChildrenParent l q st = Ok (set_caches m st) /\
    forall x, m !! x = if decide (x ∈ l) then setParent (Some q) <$> caches st !! x else caches st !! x.
Proof.
  induction l as [|y l IH]; intros st Hl; cbn [fixChildrenParent].
  - exists (caches st). split; [by destruct st|]. intros x. rewrite decide_False by apply not_elem_of_nil. done.
  - destruct (Hl y) as [cy Hy]; [left|]. rewrite (deref_ok _ _ _ Hy). cbn [obind].
    destruct (IH (update_cache y (setParent (Some q)) st)) as (m & -> & Hm).
    { intros x Hx. cbn [update_cache set_caches caches]. rewrite lookup_alter. case_decide as E; [subst x; apply fmap_is_Some; eauto|]. apply Hl. by right. }
    exists m. split; [done|]. intros x. rewrite Hm. cbn [update_cache set_caches caches]. rewrite lookup_alter.
    destruct (decide (x ∈ l)), (decide (x ∈ y :: l)), (decide (y = x)) as [->|]; try done; try set_solver.
    by destruct (caches st !! x).
Qed.

Lemma cache_split_eq st p c i : tree_ok st -> caches st !! p = Some c -> startIndex (cache_segment c) < i < seg_end (cache_segment c) ->
  exists lower upper m', cache_split p i st = Ok (next_cache st, mkCore m' (next_cache st + 1) (chainsLeaves st)
      (chainsStorage st) (mainChainSet st) (core_medianSize st) (core_pool st)) /\
    split (cache_segment c) i = Ok (lower, upper) /\
    (forall q, m' !! q =
      if decide (q = next_cache st) then Some (mkCache upper (Some p) (children c)) else
      if decide (q = p) then Some (mkCache lower (parent c) [next_cache st]) else
      if decide (q ∈ children c) then setParent (Some (next_cache st)) <$> caches st !! q else caches st !! q).
Proof.
  intros Ht Hp Hi. pose proof (tree_heap _ Ht) as Hm. destruct (heap_lin _ Hm _ _ Hp) as (l & Hl & Hok).
  destruct (split_parts (cache_segment c) i (proj1 Hok) Hi) as (lower & upper & E & _).
  assert (Hnew : caches st !! next_cache st = None).
  { destruct (caches st !! next_cache st) eqn:En; [|done]. pose proof (tree_next _ Ht (next_cache st)). rewrite En in H. by specialize (H ltac:(eauto)); lia. }
  assert (Hnp : next_cache st <> p) by congruence.
  unfold cache_split. rewrite (deref_ok _ _ _ Hp). cbn [obind]. rewrite E. cbn [obind allocate].
  destruct (fixChildrenParent_eq (children c) (next_cache st) (mkCore (<[next_cache st := mkCache upper (Some p) (children c)]> (caches st))
    (next_cache st + 1) (chainsLeaves st) (chainsStorage st) (mainChainSet st) (core_medianSize st) (core_pool st))) as (m & -> & Hm2).
  { cbn [caches]. intros x Hx. destruct (child_parent _ Hm _ _ _ Hp Hx) as (c' & Hc' & _). rewrite lookup_insert. case_decide; eauto. }
  cbn [obind caches] in *. exists lower, upper. eexists. split; [done|]. split; [done|]. intros q.
  cbn [update_cache set_caches caches]. rewrite lookup_alter, !Hm2, !lookup_insert.
  destruct (split_self _ Hm _ _ Hp _ Hnew) as (_ & Hpc & Hnc).
  destruct (decide (q = next_cache st)) as [->|Hq].
  - rewrite (decide_False (P := p = next_cache st)) by congruence. rewrite decide_False by done. by rewrite decide_True.
  - destruct (decide (q = p)) as [->|Hqp].
    + rewrite decide_True by done. rewrite decide_False by done. rewrite decide_False by done. by rewrite Hp.
    + rewrite (decide_False (P := p = q)) by congruence. rewrite (decide_False (P := next_cache st = q)) by congruence. done.
Qed.

(** ** The chains of a node *)

(** The flat chain of a cache. *)
Definition view (m : gmap Z cache) (p : Z) (flat : segment) : Prop := exists l, lin m p l /\ flatten (map snd l) = flat.

(** The flat chains of the leaves, the main chain first. *)
Definition views (st : core) (flats : list segment) : Prop := Forall2 (view (caches st)) (chainsLeaves st) flats.

Lemma view_unique m p f1 f2 : view m p f1 -> view m p f2 -> f1 = f2.
Proof. intros (l1 & H1 & <-) (l2 & H2 & <-). by rewrite (lin_unique _ _ _ _ H1 H2). Qed.

Lemma chain_ok_suffix c1 c2 : chain_ok (c1 ++ c2) -> chain_ok c2.
Proof. induction c1 as [|s c1 IH]; [done|]. intros (_ & _ & H & _). by apply IH. Qed.

Lemma heap_view m p c : heap_ok m -> m !! p = Some c -> exists l, lin m p ((p, cache_segment c) :: l) /\
  view m p (flatten (cache_segment c :: map snd l)).
Proof. intros Hm Hp. destruct (heap_lin _ Hm _ _ Hp) as (l & Hl & _). exists l. split; [done|]. by exists ((p, cache_segment c) :: l). Qed.

Lemma chain_of_eq st p l : heap_ok (caches st) -> lin (caches st) p l -> chain_of st p = Ok (map snd l).
Proof. intros Hm Hl. unfold chain_of. by rewrite (heap_lineage _ Hm st p l eq_refl Hl). Qed.

(** *** Pushing onto a leaf *)

Section Push.
Context (ops : crypto_ops).
Local Abbreviation cn_fast_hash := (fast_hash ops).
Local Abbreviation delta := (block_delta cn_fast_hash).

Definition push_new (p : Z) (b : pushed) (st : core) : outcome core :=
  cache_pushBlock ops p (new_block b) (new_transactions b) (new_images b) (new_size b) (new_coins b) (new_difficulty b)
    (new_raw b) st.

Lemma push_new_eq st p c l b st' : heap_ok (caches st) -> caches st !! p = Some c -> children c = [] ->
  lin (caches st) p ((p, cache_segment c) :: l) -> on_top cn_fast_hash (flatten (cache_segment c :: map snd l)) b ->
  push_new p b st = Ok st' ->
  exists s', st' = update_cache p (set_segment s') st /\ chain_ok (s' :: map snd l) /\ blockInfos s' <> [] /\
    flatten (s' :: map snd l) = join (flatten (cache_segment c :: map snd l)) (delta (flatten (cache_segment c :: map snd l)) b) /\
    unspent_in (flatten (cache_segment c :: map snd l)) b.
Proof.
  intros Hm Hp Hleaf Hl Htop H. unfold push_new, cache_pushBlock in H. rewrite (chain_of_eq _ _ _ Hm Hl) in H.
  cbn [obind map snd] in H. apply obind_Ok in H as (s' & Hs & [= <-]). exists s'. split; [done|].
  pose proof (lin_chain _ Hm _ _ Hl) as Hok. cbn [map snd] in Hok.
  destruct (push_ok cn_fast_hash _ _ _ _ Hok Htop Hs) as (Ha & Es & Hok' & Hf). split_and!; [done| |done|by eapply accepted_fresh].
  rewrite Es. cbn [join blockInfos]. destruct (delta_fields cn_fast_hash (flatten (cache_segment c :: map snd l)) b) as (info & ->).
  cbn [blockInfos]. by destruct (blockInfos (cache_segment c)).
Qed.

Lemma push_leaf st p b st' flat : tree_ok st -> is_leaf (caches st) p -> view (caches st) p flat -> on_top cn_fast_hash flat b ->
  push_new p b st = Ok st' ->
  tree_ok st' /\ (main_ok st -> main_ok st') /\ view (caches st') p (join flat (delta flat b)) /\
  (forall q f, q <> p -> view (caches st) q f -> view (caches st') q f) /\
  chainsLeaves st' = chainsLeaves st /\ unspent_in flat b.
Proof.
  intros Ht (c & Hp & Hleaf) Hv Htop H. pose proof (tree_heap _ Ht) as Hm.
  destruct (heap_view _ _ _ Hm Hp) as (l & Hl & Hv'). rewrite (view_unique _ _ _ _ Hv Hv') in *. clear Hv'.
  destruct (push_new_eq _ _ _ _ _ _ Hm Hp Hleaf Hl Htop H) as (s' & -> & Hok & Hne & Hf & Hu).
  pose proof (replace_lookup (caches st) p c Hp s') as Hlook.
  assert (Hex : forall q, is_Some (alter (set_segment s') p (caches st) !! q) <-> is_Some (caches st !! q)).
  { intros q. rewrite Hlook. case_decide; [subst q; rewrite Hp; split; eauto|done]. }
  assert (Hlin' : lin (alter (set_segment s') p (caches st)) p ((p, s') :: l)) by (by apply (replace_lin_leaf _ Hm p c)).
  assert (Hother : forall q lq, q <> p -> lin (caches st) q lq -> lin (alter (set_segment s') p (caches st)) q lq).
  { intros q lq Hq Hlq. by apply (replace_lin _ Hm p c). }
  split_and!; try done.
  - destruct Ht as [_ T2 [T3 T3'] [T4 T4']]. split; cbn [update_cache set_caches caches next_cache chainsLeaves chainsStorage].
    + by apply (replace_ok _ Hm p c Hp Hleaf s' Hne l).
    + intros q Hq. apply T2. by apply Hex.
    + split; [done|]. intros q. by rewrite T3', Hex.
    + split; [done|]. intros q. rewrite T4'. unfold is_leaf. rewrite Hlook. case_decide; [|done]. subst q.
      split; intros (c' & Hc' & E); simplify_eq; eauto.
  - intros (q & lq & Hq & Hlq & Hset). exists q. cbn [update_cache set_caches chainsLeaves mainChainSet caches].
    destruct (decide (q = p)) as [->|Hne']; [|exists lq; by auto]. exists ((p, s') :: l). split_and!; [done|done|].
    by rewrite (lin_unique _ _ _ _ Hlq Hl) in Hset.
  - exists ((p, s') :: l). done.
  - intros q f Hq (lq & Hlq & E). exists lq. split; [by apply Hother|done].
Qed.

(** *** A fork *)

Lemma join_empty flat i : join flat (empty_segment i) = flat.
Proof.
  apply segment_eq; cbn [join empty_segment startIndex transactions spentImages blockInfos keyOutputsGlobalIndexes paymentIds storage];
    rewrite ?app_nil_r, ?map_union_empty; try done.
  apply map_eq. intros amount. rewrite lookup_merge, lookup_empty. unfold diag_None. by destruct (keyOutputsGlobalIndexes flat !! amount).
Qed.

Lemma empty_chain_ok c : chain_ok c -> seg_end (flatten c) < 2 ^ 32 -> (forall p, head c = Some p -> blockInfos p <> []) ->
  chain_ok (empty_segment (seg_end (flatten c)) :: c).
Proof.
  intros Hok Hend Hh. destruct (flatten_ok _ Hok) as [Hf H0]. cbn [chain_ok]. split_and!; [|split|done|done].
  - apply empty_ok. split; [|done]. unfold seg_end. lia.
  - done.
  - cbn [empty_segment spentImages]. apply map_disjoint_empty_r.
  - intros amount e He. cbn [empty_segment keyOutputsGlobalIndexes] in He. by rewrite lookup_empty in He.
Qed.

(** [fork_at], with the block as a value of [pushed]. *)
Definition fork_new (p start : Z) (b : pushed) (st : core) : outcome core :=
  let '(newCache, st) := createBlockchainCache p start st in
  let! st := addChild p newCache st in
  let st := set_chainsStorage (chainsStorage st ++ [newCache]) st in
  let st := set_leaves (chainsLeaves st ++ [newCache]) st in
  push_new newCache b st.

Lemma tree_fresh st : tree_ok st -> caches st !! next_cache st = None.
Proof.
  intros Ht. destruct (caches st !! next_cache st) eqn:En; [|done].
  pose proof (tree_next _ Ht (next_cache st)) as H. rewrite En in H. specialize (H ltac:(eauto)). lia.
Qed.

Lemma tree_fork st p c s' l main median pool m' : tree_ok st -> caches st !! p = Some c -> children c <> [] ->
  blockInfos s' <> [] ->
  (forall q, m' !! q = if decide (q = next_cache st) then Some (mkCache s' (Some p) []) else
    if decide (q = p) then Some (set_children (children c ++ [next_cache st]) c) else caches st !! q) ->
  lin (caches st) p l -> chain_ok (s' :: map snd l) ->
  tree_ok (mkCore m' (next_cache st + 1) (chainsLeaves st ++ [next_cache st]) (chainsStorage st ++ [next_cache st]) main median pool).
Proof.
  intros Ht Hp Hc Hne Hm' Hl Hok. pose proof (tree_fresh _ Ht) as Hnew. pose proof (tree_heap _ Ht) as Hm.
  destruct Ht as [_ T2 [T3 T3'] [T4 T4']].
  split; cbn [caches next_cache chainsLeaves chainsStorage]; [|intros q; rewrite Hm'; repeat case_decide; subst|split|split].
  - by eapply (fork_ok (caches st) Hm p c Hp _ Hnew s' Hne _ Hm' _ Hl).
  - lia.
  - intros _. pose proof (T2 p ltac:(eauto)). lia.
  - intros Hq. specialize (T2 q Hq). lia.
  - apply NoDup_app. split_and!; [done| |apply NoDup_singleton]. intros x Hx ->%list_elem_of_singleton. apply T3' in Hx as [? Hx]. congruence.
  - intros q. rewrite elem_of_app, list_elem_of_singleton, T3', Hm'. repeat case_decide; subst; try done.
    + split; [eauto|by right].
    + rewrite Hp. split; [eauto|left; eauto].
    + split; [by intros [|]|by left].
  - apply NoDup_app. split_and!; [done| |apply NoDup_singleton]. intros x Hx ->%list_elem_of_singleton. apply T4' in Hx as (? & Hx & _). congruence.
  - intros q. rewrite elem_of_app, list_elem_of_singleton, T4'. unfold is_leaf. rewrite Hm'. repeat case_decide; subst; try done.
    + split; [eauto|by right].
    + rewrite Hp. split; [intros [(c' & [= <-] & E)|?]; done|]. intros (c' & [= <-] & E). cbn [children set_children] in E. by destruct (children c).
    + split; [by intros [|]|by left].
Qed.

Lemma fork_new_ok st p c b st' flat : tree_ok st -> caches st !! p = Some c -> children c <> [] -> view (caches st) p flat ->
  on_top cn_fast_hash flat b -> fork_new p (seg_end flat) b st = Ok st' ->
  tree_ok st' /\ chainsLeaves st' = chainsLeaves st ++ [next_cache st] /\
  view (caches st') (next_cache st) (join flat (delta flat b)) /\
  (forall q f, view (caches st) q f -> view (caches st') q f) /\ unspent_in flat b.
Proof.
  intros Ht Hp Hc Hv Htop H. pose proof (tree_heap _ Ht) as Hm. pose proof (tree_fresh _ Ht) as Hnew.
  destruct (heap_view _ _ _ Hm Hp) as (l & Hl & Hv'). rewrite (view_unique _ _ _ _ Hv Hv') in *. clear Hv'.
  set (flat1 := flatten (cache_segment c :: map snd l)) in *. set (new := next_cache st) in *.
  pose proof (lin_chain _ Hm _ _ Hl) as Hok. cbn [map snd] in Hok.
  assert (Hnp : p <> new) by congruence.
  assert (Hnc : new ∉ children c) by (intros Hin; destruct (child_parent _ Hm _ _ _ Hp Hin) as (c' & Hc' & _); congruence).
  unfold fork_new, createBlockchainCache, allocate, addChild in H. fold new in H. unfold deref in H at 1. cbn [caches] in H.
  rewrite lookup_insert_ne, Hp in H by congruence. cbn [obind] in H. rewrite bool_decide_true in H by done. cbn [assert_that obind] in H.
  cbn [update_cache set_caches set_chainsStorage set_leaves caches next_cache chainsLeaves chainsStorage mainChainSet core_medianSize core_pool] in H.
  set (e := empty_segment (seg_end flat1)) in *. set (m1 := alter (set_children (children c ++ [new])) p (<[new := mkCache e (Some p) []]> (caches st))) in *.
  assert (Hm1 : forall q, m1 !! q = if decide (q = new) then Some (mkCache e (Some p) []) else
    if decide (q = p) then Some (set_children (children c ++ [new]) c) else caches st !! q).
  { intros q. unfold m1. rewrite lookup_alter, !lookup_insert. repeat case_decide; subst; try done. by rewrite Hp. }
  assert (Hl1 : lin m1 new ((new, e) :: (p, cache_segment c) :: l)) by (eapply (fork_lin_new (caches st)); eauto).
  assert (Hok1 : chain_ok (e :: cache_segment c :: map snd l)).
  { apply empty_chain_ok; [done| |]. { pose proof (top_fits _ _ _ Htop) as Hf. unfold flat1 in Hf. lia. }
    intros ? [= <-]. by apply (heap_blocks _ Hm p). }
  assert (Hflat : flatten (e :: cache_segment c :: map snd l) = flat1) by (apply join_empty).
  unfold push_new, cache_pushBlock, chain_of in H. rewrite (lineage_eq _ new ((new, e) :: (p, cache_segment c) :: l)) in H;
    [|done|done|cbn [tail]; by eapply heap_filled].
  cbn [obind map snd] in H. apply obind_Ok in H as (s' & Hs & [= <-]).
  destruct (push_ok cn_fast_hash e (cache_segment c :: map snd l) b s' Hok1) as (Ha & Es & Hok' & Hf'); [by rewrite Hflat|done|].
  rewrite Hflat in Hf', Es, Ha. cbn [update_cache set_caches caches chainsLeaves].
  assert (Hne : blockInfos s' <> []).
  { rewrite Es. destruct (delta_fields cn_fast_hash flat1 b) as (info & ->). done. }
  assert (Hm' : forall q, alter (set_segment s') new m1 !! q = if decide (q = new) then Some (mkCache s' (Some p) []) else
    if decide (q = p) then Some (set_children (children c ++ [new]) c) else caches st !! q).
  { intros q. rewrite lookup_alter, !Hm1. repeat case_decide; subst; done. }
  assert (Hlin' : forall q lq, lin (caches st) q lq -> lin (alter (set_segment s') new m1) q lq).
  { intros q lq. by apply (fork_lin (caches st) p c Hp new Hnew s'). }
  split_and!; [|done| | |by eapply accepted_fresh].
  - exact (tree_fork st p c s' _ _ _ _ _ Ht Hp Hc Hne Hm' Hl Hok').
  - eexists. split; [by eapply (fork_lin_new (caches st) p c Hp new Hnew s' _ Hm')|]. cbn [map snd]. done.
  - intros q f (lq & Hlq & E). exists lq. split; [by apply Hlin'|done].
Qed.

End Push.

(** The blocks [u] on top of [f0] spend key images in blocks of their own. *)
Definition spends_above (f0 u : segment) : Prop := map_Forall (fun _ i => seg_end f0 <= i) (spentImages u).

Lemma linked_above f0 u : segment_ok u -> linked f0 u -> spends_above f0 u.
Proof. intros Hu Hl k i Hk. destruct (ok_spent _ Hu k i Hk) as [Hi _]. by rewrite (link_start _ _ Hl) in Hi. Qed.

(** *** A split *)

Lemma index_of_lookup p l : p ∈ l -> l !! index_of p l = Some p.
Proof.
  induction l as [|x l IH]; [by intros ?%elem_of_nil|]. intros Hin. cbn [index_of]. destruct (Z.eqb_spec x p) as [->|Hx]; [done|].
  apply IH. by apply elem_of_cons in Hin as [->|].
Qed.

Lemma split_sound s i lower upper : segment_ok s -> startIndex s < i < seg_end s -> split s i = Ok (lower, upper) ->
  join lower upper = s /\ segment_ok lower /\ segment_ok upper /\ seg_end lower = i /\ blockInfos lower <> [] /\ blockInfos upper <> [] /\
  forall c1 ps, chain_ok (c1 ++ s :: ps) ->
    (chain_ok (c1 ++ upper :: lower :: ps) /\ chain_ok (lower :: ps)) /\ flatten (c1 ++ upper :: lower :: ps) = flatten (c1 ++ s :: ps).
Proof.
  intros Hs Hi E. destruct (split_parts s i Hs Hi) as (lower' & upper' & E' & Ej & Hl & Hu & _ & _ & He & _ & _ & Hn1 & Hn2).
  assert (lower' = lower /\ upper' = upper) as [-> ->] by (rewrite E in E'; by injection E' as -> ->).
  split_and!; try done. intros c1 ps Hok. destruct (split_chain c1 s ps i Hok Hi) as (l2 & u2 & E2 & Hok2 & Hf2 & _).
  assert (l2 = lower /\ u2 = upper) as [-> ->] by (rewrite E in E2; by injection E2 as -> ->). split_and!; [done| |done].
  apply (chain_ok_suffix (c1 ++ [upper])). by rewrite <- app_assoc.
Qed.

Lemma is_empty_true {A} (l : list A) : is_empty l = true -> l = [].
Proof. by destruct l. Qed.

(** Replacing an element of a list without duplicates by a new one. *)
Lemma NoDup_insert_fresh (l : list Z) i x : NoDup l -> x ∉ l -> NoDup (<[i := x]> l).
Proof.
  intros Hnd Hx. destruct (decide (i < length l)%nat) as [Hi|Hi]; [|by rewrite list_insert_ge by lia].
  apply NoDup_alt. intros j k y Hj Hk. rewrite list_lookup_insert in Hj, Hk. repeat case_decide; try lia; simplify_eq; try done.
  - destruct Hx. by eapply list_elem_of_lookup_2.
  - destruct Hx. by eapply list_elem_of_lookup_2.
  - by eapply NoDup_lookup.
Qed.

Lemma elem_of_insert_nodup (l : list Z) i x y q : NoDup l -> l !! i = Some x ->
  q ∈ <[i := y]> l <-> q = y \/ (q <> x /\ q ∈ l).
Proof.
  intros Hnd Hi. pose proof (lookup_lt_Some _ _ _ Hi). rewrite list_elem_of_lookup. setoid_rewrite list_lookup_insert. split.
  - intros (j & Hj). case_decide; simplify_eq; [by left|]. right. split; [|by eapply list_elem_of_lookup_2]. intros ->.
    assert (i = j) by (by eapply NoDup_lookup). naive_solver.
  - intros [->|[Hq (j & Hj)%list_elem_of_lookup]]; [exists i; by rewrite decide_True|]. exists j. rewrite decide_False; [done|].
    intros [-> _]. congruence.
Qed.

(** The state of [place_block] after the split. *)
Definition after_split (p : Z) (leaf : bool) (new : Z) (st : core) : core :=
  set_chainsStorage (chainsStorage st ++ [new])
    (if leaf then set_leaves (<[index_of p (chainsLeaves st) := new]> (chainsLeaves st)) st else st).

Section SplitTree.
Context (st : core) (p : Z) (c : cache) (i : Z) (lower upper : segment) (m' : gmap Z cache).
Hypothesis Ht : tree_ok st.
Hypothesis Hp : caches st !! p = Some c.
Hypothesis Hi : startIndex (cache_segment c) < i < seg_end (cache_segment c).
Hypothesis Es : split (cache_segment c) i = Ok (lower, upper).
Hypothesis Hm' : forall q, m' !! q =
  if decide (q = next_cache st) then Some (mkCache upper (Some p) (children c)) else
  if decide (q = p) then Some (mkCache lower (parent c) [next_cache st]) else
  if decide (q ∈ children c) then setParent (Some (next_cache st)) <$> caches st !! q else caches st !! q.
Local Abbreviation new := (next_cache st).
Local Abbreviation st1 := (mkCore m' (next_cache st + 1) (chainsLeaves st) (chainsStorage st) (mainChainSet st)
  (core_medianSize st) (core_pool st)).
Local Abbreviation st2 := (after_split p (is_empty (children c)) new st1).

Lemma segment_split : segment_ok (cache_segment c).
Proof. destruct (heap_lin _ (tree_heap _ Ht) _ _ Hp) as (l & _ & Hok). apply Hok. Qed.

Lemma split_views_other q f : q <> p -> view (caches st) q f -> view m' q f.
Proof.
  intros Hq (lq & Hlq & <-). pose proof (tree_heap _ Ht) as Hm. pose proof (tree_fresh _ Ht) as Hnew.
  destruct (split_sound _ _ _ _ segment_split Hi Es) as (_ & _ & _ & _ & _ & _ & Hsp).
  exists (split_lineage p new lower upper lq). split; [by apply (split_lin _ Hm p c Hp _ Hnew _ _ _ Hm')|].
  destruct (decide (p ∈ map fst lq)) as [Hin|Hin]; [|by rewrite split_lineage_id].
  apply list_elem_of_fmap in Hin as ([p' s] & E & Hin). simpl in E. subst p'.
  destruct (lin_cell _ _ _ _ _ Hlq Hin) as (c' & Hc' & <-). assert (c' = c) as -> by (rewrite Hp in Hc'; by injection Hc').
  apply list_elem_of_split in Hin as (l1 & l2 & ->). pose proof (lin_chain _ Hm _ _ Hlq) as Hok. pose proof (heap_nodup _ Hm _ _ Hlq) as Hnd.
  rewrite map_app in *. cbn [map fst snd] in *. apply NoDup_app in Hnd as (_ & H1 & [H2 _]%NoDup_cons).
  unfold split_lineage. rewrite flat_map_app. cbn [flat_map fst]. rewrite decide_True by done.
  fold (split_lineage p new lower upper l1). fold (split_lineage p new lower upper l2).
  rewrite (split_lineage_id _ _ _ _ l1), (split_lineage_id _ _ _ _ l2), map_app; [by apply Hsp|done|]. intros Hin. apply (H1 p Hin). set_solver.
Qed.

Lemma split_views_new f : view (caches st) p f -> view m' new f /\
  exists f0 u, view m' p f0 /\ f = join f0 u /\ seg_end f0 = i /\ blockInfos u <> [] /\ spends_above f0 u.
Proof.
  intros (lp & Hlp & <-). pose proof (tree_heap _ Ht) as Hm. pose proof (tree_fresh _ Ht) as Hnew.
  destruct (split_sound _ _ _ _ segment_split Hi Es) as (Ej & _ & _ & He & _ & Hu & Hsp).
  destruct (heap_lin _ Hm _ _ Hp) as (l & Hl & Hok). rewrite (lin_unique _ _ _ _ Hlp Hl). cbn [map snd].
  destruct (Hsp [] _ Hok) as [[Hup Hlo] Hf]. cbn [app] in Hf. split.
  - exists ((new, upper) :: (p, lower) :: l). split; [by apply (split_above _ Hm p c Hp _ Hnew _ _ _ Hm')|done].
  - exists (flatten (lower :: map snd l)), upper. split_and!.
    + exists ((p, lower) :: l). split; [by apply (split_below _ Hm p c Hp _ Hnew _ upper _ Hm')|done].
    + by rewrite <- Hf.
    + by rewrite flatten_end.
    + done.
    + destruct Hup as (Hsu & Hlk & _). by apply linked_above.
Qed.

Lemma split_tree_ok : tree_ok st2.
Proof.
  pose proof (tree_heap _ Ht) as Hm. pose proof (tree_fresh _ Ht) as Hnew.
  destruct (split_sound _ _ _ _ segment_split Hi Es) as (_ & _ & _ & _ & Hn1 & Hn2 & Hsp).
  pose proof (split_exists (caches st) p c Hp new lower upper m' Hm') as Hex.
  pose proof (split_leaf (caches st) Hm p c Hp new Hnew lower upper m' Hm') as Hleaf.
  assert (Hh : heap_ok m').
  { apply (split_ok _ Hm p c Hp new Hnew lower upper m' Hm'); [done|]. intros c1 ps Hok. by apply Hsp. }
  assert (Hdisj : forall x, x ∈ chainsStorage st \/ x ∈ chainsLeaves st -> x <> new).
  { intros x Hx ->. destruct Hx as [Hx|Hx].
    - apply (tree_storage _ Ht) in Hx as [? Hx]. congruence.
    - apply (tree_leaves _ Ht) in Hx as (? & Hx & _). congruence. }
  destruct Ht as [_ T2 [T3 T3'] [T4 T4']]. unfold after_split.
  split; destruct (is_empty (children c)) eqn:Ec; cbn [caches next_cache chainsLeaves chainsStorage set_leaves set_chainsStorage];
    try done; try (intros q [->|Hq]%Hex; [lia|specialize (T2 q Hq); lia]);
    try (split; [apply NoDup_app; split_and!; [done|intros x Hx ->%list_elem_of_singleton; by apply (Hdisj new); [left|]|apply NoDup_singleton]|
      intros q; rewrite elem_of_app, list_elem_of_singleton, T3', Hex; tauto]).
  - apply is_empty_true in Ec. assert (Hpl : p ∈ chainsLeaves st) by (apply T4'; exists c; done).
    pose proof (index_of_lookup _ _ Hpl) as Hix. split.
    + apply NoDup_insert_fresh; [done|]. intros Hin. by apply (Hdisj new); [right|].
    + intros q. rewrite Hleaf, (elem_of_insert_nodup _ _ _ _ q T4 Hix), T4'. tauto.
  - split; [done|]. intros q. rewrite Hleaf, T4'. split.
    + intros (cq & Hq & Eq). right. split; [|by exists cq]. intros ->. rewrite Hp in Hq. injection Hq as <-. by rewrite Eq in Ec.
    + intros [[_ E]|[_ ?]]; [by rewrite E in Ec|done].
Qed.

End SplitTree.

End ChainProofs.
