(* ===== verification/MathProofs.v ===== *)
(** * The median of block sizes and timestamps

    [Common::medianValue] of [common/Math.h]: it sorts, and what it returns
    divides the values into halves. *)

From S2P Require Import Prelude.
From S2P Require Import CoreChain.
Import CoreChain.CoreChain.

Module MathProofs.

(** ** Sorting *)

Lemma insert_sorted_perm x l : insert_sorted x l ≡ₚ x :: l.
Proof.
  induction l as [|y l IH]; [done|]. cbn [insert_sorted]. case_if; [done|]. rewrite IH. apply Permutation_swap.
Qed.

Lemma sort_perm l : sort l ≡ₚ l.
Proof. induction l as [|x l IH]; [done|]. cbn [sort foldr]. by rewrite insert_sorted_perm, IH. Qed.

Lemma insert_sorted_sorted x l : StronglySorted Z.le l -> StronglySorted Z.le (insert_sorted x l).
Proof.
  induction 1 as [|y l Hs IH Hy]; cbn [insert_sorted]; [by repeat constructor|].
  destruct (Z.leb_spec x y).
  - constructor; [by constructor|]. constructor; [done|]. eapply Forall_impl; [exact Hy|]. cbn beta. lia.
  - constructor; [done|]. rewrite insert_sorted_perm. constructor; [lia|done].
Qed.

Lemma sort_sorted l : StronglySorted Z.le (sort l).
Proof. induction l as [|x l IH]; [constructor|]. by apply insert_sorted_sorted. Qed.

(** ** Halves *)

Lemma filter_length_le {A} (P : A -> Prop) `{!forall x, Decision (P x)} l k :
  (forall i x, l !! i = Some x -> P x -> (i < k)%nat) -> (length (filter P l) <= k)%nat.
Proof.
  revert k. induction l as [|x l IH]; intros k Hk; [simpl; lia|]. rewrite filter_cons. case_decide as Hp.
  - pose proof (Hk 0%nat x eq_refl Hp). destruct k as [|k]; [lia|]. cbn [length]. apply le_n_S, IH.
    intros i y Hi Hy. specialize (Hk (S i) y Hi Hy). lia.
  - destruct k as [|k]; [|etrans; [apply IH|apply Nat.le_succ_diag_r]].
    + apply IH. intros i y Hi Hy. specialize (Hk (S i) y Hi Hy). lia.
    + intros i y Hi Hy. specialize (Hk (S i) y Hi Hy). lia.
Qed.

Lemma sorted_lookup l i j x y : StronglySorted Z.le l -> l !! i = Some x -> l !! j = Some y -> (i <= j)%nat -> x <= y.
Proof.
  intros Hs. revert i j. induction Hs as [|z l _ IH Hz]; intros i j Hi Hj Hij; [done|]. destruct i as [|i], j as [|j]; simplify_eq/=; try lia.
  - rewrite Forall_lookup in Hz. by eapply Hz.
  - eapply IH; [done|done|lia].
Qed.

(** The elements below, and those above, an element of a sorted list. *)
Lemma sorted_below l i y : StronglySorted Z.le l -> l !! i = Some y -> (length (filter (fun x => (x < y)%Z) l) <= i)%nat.
Proof.
  intros Hs Hi. apply filter_length_le. intros j x Hj Hx. destruct (decide (j < i)%nat); [done|].
  pose proof (sorted_lookup l i j y x Hs Hi Hj ltac:(lia)). lia.
Qed.

Lemma sorted_above l i y : StronglySorted Z.le l -> l !! i = Some y -> (length (filter (fun x => (y < x)%Z) l) <= length l - S i)%nat.
Proof.
  intros Hs Hi. rewrite <- (take_drop (S i) l) at 1. rewrite filter_app, length_app.
  assert (E : filter (fun x => (y < x)%Z) (take (S i) l) = []).
  { apply elem_of_nil_inv. intros x [Hx (j & Hj)%list_elem_of_lookup]%list_elem_of_filter. apply lookup_take_Some in Hj as [Hj Hlt].
    pose proof (sorted_lookup l j i x y Hs Hj Hi ltac:(lia)). lia. }
  rewrite E. cbn [length]. etrans; [apply length_filter|]. rewrite length_drop. lia.
Qed.

Lemma length_filter_mono {A} (P Q : A -> Prop) `{!forall x, Decision (P x), !forall x, Decision (Q x)} l :
  (forall x, P x -> Q x) -> (length (filter P l) <= length (filter Q l))%nat.
Proof.
  intros HPQ. induction l as [|x l IH]; [done|]. rewrite !filter_cons. repeat case_decide; cbn [length]; try lia. naive_solver.
Qed.

(** The two middle elements, or the middle one twice. *)
Lemma medianValue_middle v : Forall (fits 63) v -> v <> [] ->
  exists i j lo hi, sort v !! i = Some lo /\ sort v !! j = Some hi /\ (i <= j)%nat /\
    (2 * j <= length v)%nat /\ (length v <= 2 * S i)%nat /\ lo <= medianValue v <= hi.
Proof.
  intros Hf Hne. set (n := (length v / 2)%nat). pose proof (sort_perm v) as Hp. pose proof (Permutation_length Hp) as Hlen.
  assert (Hlook : forall k, (k < length v)%nat -> sort v !! k = Some (nth k (sort v) 0)).
  { intros k Hk. rewrite nth_lookup. destruct (lookup_lt_is_Some_2 (sort v) k) as [x ->]; [lia|done]. }
  destruct v as [|x [|y v]]; [done|exists 0%nat, 0%nat, x, x; split_and!; [done|done|lia|simpl; lia|simpl; lia|simpl; lia|simpl; lia]|].
  assert (Hm : medianValue (x :: y :: v) = if Nat.even (length (x :: y :: v))
    then u64 (nth (n - 1) (sort (x :: y :: v)) 0 + nth n (sort (x :: y :: v)) 0) / 2 else nth n (sort (x :: y :: v)) 0) by done.
  rewrite Hm. set (w := x :: y :: v) in *. assert (Hl2 : (2 <= length w)%nat) by (simpl; lia). clearbody w.
  pose proof (Nat.div_mod_eq (length w) 2) as Hdm. fold n in Hdm. pose proof (Nat.mod_upper_bound (length w) 2 ltac:(lia)).
  destruct (Nat.even (length w)) eqn:Ev.
  - apply Nat.even_spec in Ev as [k Hk]. assert (n = k) as -> by lia. pose proof (Hlook (k - 1)%nat ltac:(lia)) as H1. pose proof (Hlook k ltac:(lia)) as H2.
    exists (k - 1)%nat, k, (nth (k - 1) (sort w) 0), (nth k (sort w) 0). split_and!; [done|done|lia..| |].
    all: rewrite <- Hp in Hf; rewrite Forall_lookup in Hf; pose proof (Hf _ _ H1) as [? ?]; pose proof (Hf _ _ H2) as [? ?].
    all: pose proof (sorted_lookup _ _ _ _ _ (sort_sorted w) H1 H2 ltac:(lia)).
    all: rewrite wrap_small by (unfold fits; lia).
    + apply Z.div_le_lower_bound; lia.
    + apply Z.div_le_upper_bound; lia.
  - assert (length w mod 2 <> 0)%nat.
    { intros E. rewrite <- not_true_iff_false, Nat.even_spec in Ev. destruct Ev. exists n. lia. }
    exists n, n, (nth n (sort w) 0), (nth n (sort w) 0). pose proof (Hlook n ltac:(lia)). split_and!; [done|done|lia..].
Qed.

Lemma medianValue_fits v : Forall (fits 32) v -> fits 32 (medianValue v).
Proof.
  intros Hv. destruct (decide (v = [])) as [->|Hne]; [unfold fits; simpl; lia|].
  destruct (medianValue_middle v) as (i & j & lo & hi & Hi & Hj & _ & _ & _ & Hm); [|done|].
  - eapply Forall_impl; [exact Hv|]. unfold fits. lia.
  - rewrite <- (sort_perm v), Forall_lookup in Hv. pose proof (Hv _ _ Hi) as [? _]. pose proof (Hv _ _ Hj) as [_ ?]. unfold fits. lia.
Qed.

(** ** Properties *)

(** The median divides the values: at most half of them lie below it, and at
    most half above.  With an even number of values it is the mean of the middle
    two, rounded down, so it need not be one of the values; it lies between two of
    them. *)
Theorem medianValue_correct v :
  Forall (fits 63) v -> v <> [] ->
  (2 * length (filter (fun x => (x < medianValue v)%Z) v) <= length v)%nat /\
  (2 * length (filter (fun x => (medianValue v < x)%Z) v) <= length v)%nat /\
  exists lo hi, lo ∈ v /\ hi ∈ v /\ lo <= medianValue v <= hi.
Proof.
  intros Hf Hne. destruct (medianValue_middle v Hf Hne) as (i & j & lo & hi & Hi & Hj & _ & H1 & H2 & Hm).
  set (m := medianValue v) in *. clearbody m. pose proof (sort_perm v) as Hp. pose proof (Permutation_length Hp) as Hlen. split_and!.
  - pose proof (sorted_below _ _ _ (sort_sorted v) Hj) as Hb. rewrite Hp in Hb.
    assert (length (filter (fun x => (x < m)%Z) v) <= length (filter (fun x => (x < hi)%Z) v))%nat; [|lia].
    apply length_filter_mono. lia.
  - pose proof (sorted_above _ _ _ (sort_sorted v) Hi) as Hb. rewrite Hlen, Hp in Hb.
    assert (length (filter (fun x => (m < x)%Z) v) <= length (filter (fun x => (lo < x)%Z) v))%nat; [|lia].
    apply length_filter_mono. lia.
  - exists lo, hi. split_and!; [rewrite <- Hp; by eapply list_elem_of_lookup_2..|lia|lia].
Qed.

Definition sample_values : list Z := [40; 10; 30; 20].

Lemma medianValue_correct_witness :
  medianValue sample_values = 25 /\ (2 * length (filter (fun x => (x < 25)%Z) sample_values) <= 4)%nat.
Proof.
  split; [reflexivity|]. apply (medianValue_correct sample_values); [|done].
  repeat (constructor; [unfold fits; lia|]). constructor.
Defined.

End MathProofs.
