(* ===== verification/FindProofs.v ===== *)
(** * Finding blocks and transactions

    The searches of [Core] through the tree of caches end, and they find exactly
    what the chains of the node hold. *)

From S2P Require Import Prelude.
From S2P Require Import Types.
From S2P Require Import Serialization.
From S2P Require Import Block.
From S2P Require Import Currency.
From S2P Require Import Checkpoints.
From S2P Require Import ValidateTransaction.
From S2P Require Import TransactionPool.
From S2P Require Import CorePool.
From S2P Require Import BlockchainCache.
From S2P Require Import CacheProofs.
From S2P Require Import PushProofs.
From S2P Require Import CoreChain.
From S2P Require Import ChainProofs.
Import Types.Types Serialization.Serialization Currency.Currency Checkpoints.Checkpoints.
Import ValidateTransaction.ValidateTransaction BlockchainCache.BlockchainCache CacheProofs.CacheProofs PushProofs.PushProofs.
Import CoreChain.CoreChain ChainProofs.ChainProofs.

Module FindProofs.

(** ** A search along the parents *)

(** What [find_up] computes, on the caches it passes. *)
Fixpoint search (stop : gset Z) (test : segment -> bool) (l : list (Z * segment)) : option Z :=
  match l with
  | [] => None
  | (p, s) :: l => if bool_decide (p ∈ stop) then None else if test s then Some p else search stop test l
  end.

Lemma find_up_eq st stop test p l : lin (caches st) p l -> forall fuel, (length l <= fuel)%nat ->
  (stop = ∅ \/ exists x, x ∈ map fst l /\ x ∈ stop) -> find_up fuel st stop test p = Ok (search stop test l).
Proof.
  induction 1 as [p c Hp Hn|p c q l Hp Hq Hl IH]; intros [|fuel] Hf Hs; cbn [length] in Hf; try lia; cbn [find_up search].
  - destruct (bool_decide_reflect (p ∈ stop)) as [|Hni]; [done|]. rewrite (deref_ok _ _ _ Hp). cbn [obind].
    destruct (test (cache_segment c)); [done|]. rewrite Hn. destruct Hs as [->|(x & Hx & Hxs)]; [by rewrite bool_decide_true|].
    cbn [map fst] in Hx. apply list_elem_of_singleton in Hx as ->. done.
  - destruct (bool_decide_reflect (p ∈ stop)) as [|Hni]; [done|]. rewrite (deref_ok _ _ _ Hp). cbn [obind].
    destruct (test (cache_segment c)); [done|]. rewrite Hq. apply IH; [lia|]. destruct Hs as [->|(x & Hx & Hxs)]; [by left|].
    right. exists x. split; [|done]. cbn [map fst] in Hx. apply elem_of_cons in Hx as [->|]; [done|done].
Qed.

Lemma find_from_eq st stop test p l : heap_ok (caches st) -> lin (caches st) p l ->
  (stop = ∅ \/ exists x, x ∈ map fst l /\ x ∈ stop) -> find_from st stop test p = Ok (search stop test l).
Proof.
  intros Hm Hl Hs. apply find_up_eq; [done| |done].
  pose proof (lin_length _ _ _ Hl (lin_chain _ Hm _ _ Hl) (filled_tail _ (heap_filled _ Hm _ _ Hl))). lia.
Qed.

Lemma search_none test l : search ∅ test l = None <-> Forall (fun x => test x.2 = false) l.
Proof.
  induction l as [|[p s] l IH]; cbn [search]; [done|]. rewrite bool_decide_false by set_solver. rewrite Forall_cons. cbn [snd].
  destruct (test s); [|tauto]. split; [done|]. by intros [? _].
Qed.

Lemma search_some test l q : search ∅ test l = Some q -> exists l1 s l2, l = l1 ++ (q, s) :: l2 /\ test s = true /\
  Forall (fun x => test x.2 = false) l1.
Proof.
  induction l as [|[p s] l IH]; cbn [search]; [done|]. rewrite bool_decide_false by set_solver. destruct (test s) eqn:E.
  - intros [= <-]. by exists [], s, l.
  - intros (l1 & s' & l2 & -> & Ht & Hf)%IH. exists ((p, s) :: l1), s', l2. split_and!; [done|done|]. by constructor.
Qed.

Lemma lin_last m p l : lin m p l -> exists r c, r ∈ map fst l /\ m !! r = Some c /\ parent c = None.
Proof.
  induction 1 as [p c Hp Hn|p c q l _ _ _ (r & c' & Hr & Hc)]; [exists p, c; split; [by left|done]|].
  exists r, c'. split; [by right|done].
Qed.

(** ** Blocks *)

Definition hashes_of (flat : segment) : list Hash := map bi_blockHash (blockInfos flat).

Lemma hasBlock_iff s h : hasBlock s h = true <-> h ∈ hashes_of s.
Proof.
  unfold hasBlock, hashes_of. rewrite existsb_exists, list_elem_of_fmap. split.
  - intros (b & Hb & E). exists b. apply (bool_decide_eq_true_1 _) in E. split; [done|]. by apply list_elem_of_In.
  - intros (b & -> & Hb). exists b. split; [by apply list_elem_of_In|by apply bool_decide_eq_true_2].
Qed.

Lemma hashes_flatten h (l : list (Z * segment)) : h ∈ hashes_of (flatten (map snd l)) <-> exists x, x ∈ l /\ hasBlock x.2 h = true.
Proof.
  induction l as [|x l IH]; cbn [map].
  - split; [by intros ?%elem_of_nil|]. intros (x & Hx & _). by apply elem_of_nil in Hx.
  - change (flatten (x.2 :: map snd l)) with (join (flatten (map snd l)) x.2). unfold hashes_of at 1. cbn [join blockInfos].
    rewrite map_app, elem_of_app. fold (hashes_of (flatten (map snd l))) (hashes_of x.2). rewrite IH, <- hasBlock_iff. split.
    + intros [(y & Hy & E)|E]; [exists y; split; [by right|done]|exists x; split; [by left|done]].
    + intros (y & [->|Hy]%elem_of_cons & E); [by right|left; eauto].
Qed.

Lemma search_hash h (l : list (Z * segment)) : search ∅ (fun s => hasBlock s h) l = None <-> h ∉ hashes_of (flatten (map snd l)).
Proof.
  rewrite search_none, hashes_flatten, Forall_forall. split.
  - intros H (x & Hx & E). specialize (H x Hx). cbn beta in H. congruence.
  - intros H x Hx. destruct (hasBlock x.2 h) eqn:E; [|done]. destruct H. eauto.
Qed.

Section Tree.
Context (st : core) (flats : list segment).
Hypothesis Ht : tree_ok st.
Hypothesis Hv : views st flats.

Lemma findIndexInChain_eq p l h : lin (caches st) p l -> findIndexInChain st p h = Ok (search ∅ (fun s => hasBlock s h) l).
Proof. intros Hl. apply find_from_eq; [apply Ht|done|by left]. Qed.

Lemma find_in_leaves_exact h leaves fs : Forall2 (view (caches st)) leaves fs ->
  exists r, find_in_leaves st leaves h = Ok r /\ (r = None <-> Forall (fun f => h ∉ hashes_of f) fs).
Proof.
  induction 1 as [|p f leaves fs (l & Hl & <-) _ (r & Hr & IH)]; [by exists None|]. cbn [find_in_leaves].
  rewrite (findIndexInChain_eq _ _ _ Hl). cbn [obind]. destruct (search _ _ l) as [q|] eqn:E.
  - exists (Some q). split; [done|]. split; [done|]. intros [H _]%Forall_cons. apply search_hash in H. congruence.
  - exists r. split; [done|]. apply search_hash in E. rewrite IH, Forall_cons. tauto.
Qed.

(** The search for a block returns, and fails exactly when no chain has the block. *)
Lemma findSegment_exact h : flats <> [] ->
  exists r, findSegmentContainingBlock st h = Ok r /\ (r = None <-> Forall (fun f => h ∉ hashes_of f) flats).
Proof.
  intros Hne. unfold findSegmentContainingBlock, findMainChainSegmentContainingBlock, findAlternativeSegmentContainingBlock, main_leaf.
  pose proof Hv as H. unfold views in H. destruct (chainsLeaves st) as [|p leaves]; [by apply Forall2_nil_inv_l in H|].
  apply Forall2_cons_inv_l in H as (f & fs & (l & Hl & <-) & Hfs & ->). cbn [length]. rewrite (proj2 (Z.ltb_lt _ _)) by lia.
  cbn [assert_that obind vec_at tail]. change (vec_at (p :: leaves) 0) with (Ok p). cbn [obind].
  rewrite (findIndexInChain_eq _ _ _ Hl). cbn [obind]. destruct (search _ _ l) as [q|] eqn:E.
  - exists (Some q). split; [done|]. split; [done|]. intros [H _]%Forall_cons. apply search_hash in H. congruence.
  - destruct (find_in_leaves_exact h leaves fs Hfs) as (r & -> & Hr). exists r. split; [done|]. apply search_hash in E. rewrite Hr, Forall_cons. tauto.
Qed.

(** ** Transactions *)

Hypothesis Hm : main_ok st.

(** An alternative chain meets the main chain, at the root at the latest. *)
Lemma meets_main p l : lin (caches st) p l -> exists x, x ∈ map fst l /\ x ∈ mainChainSet st.
Proof.
  destruct Hm as (main & lm & Hhd & Hlm & ->). intros Hl. destruct (lin_last _ _ _ Hl) as (r & c & Hr & Hc & Hp).
  destruct (lin_last _ _ _ Hlm) as (r' & c' & Hr' & Hc' & Hp'). exists r. split; [done|]. apply elem_of_list_to_set.
  by rewrite (heap_root _ (tree_heap _ Ht) r r' c c').
Qed.

Lemma find_transaction_returns h leaves fs : Forall2 (view (caches st)) leaves fs -> exists r, find_transaction_alternative st leaves h = Ok r.
Proof.
  induction 1 as [|p f leaves fs (l & Hl & <-) _ (r & Hr)]; [by exists None|]. cbn [find_transaction_alternative].
  erewrite (find_from_eq st _ _ p l); [|apply Ht|done|right; by eapply meets_main]. cbn [obind]. destruct (search _ _ l) as [q|]; eauto.
Qed.

Lemma isTransactionInChain_returns h : exists b, isTransactionInChain st h = Ok b.
Proof.
  unfold isTransactionInChain, findSegmentContainingTransaction, main_leaf. pose proof Hv as H. unfold views in H.
  destruct Hm as (main & lm & Hhd & Hlm & _). destruct (chainsLeaves st) as [|p leaves]; [done|]. injection Hhd as ->.
  apply Forall2_cons_inv_l in H as (f & fs & _ & Hfs & _). change (vec_at (main :: leaves) 0) with (Ok main). cbn [obind].
  rewrite (find_from_eq st _ _ main lm (tree_heap _ Ht) Hlm (or_introl eq_refl)). cbn [obind tail].
  destruct (search _ _ lm); [by eexists|]. destruct (find_transaction_returns h leaves fs Hfs) as (r & ->). by eexists.
Qed.

End Tree.

End FindProofs.
