(* ===== verification/BlockRules.v ===== *)
(** * The rules that an accepted block obeys

    What is known of a block when [Core::addBlock] has made all its checks,
    stated of the blocks below it, however the tree of caches cuts them into
    segments. *)

From S2P Require Import Prelude.
From S2P Require Import Config.
From S2P Require Import Types.
From S2P Require Import Serialization.
From S2P Require Import SerializationProofs.
From S2P Require Import Block.
From S2P Require Import Currency.
From S2P Require Import Checkpoints.
From S2P Require Import Utilities.
From S2P Require Import FormatUtils.
From S2P Require Import ValidateTransaction.
From S2P Require Import ValidateProofs.
From S2P Require Import TransactionPool.
From S2P Require Import CorePool.
From S2P Require Import BlockchainCache.
From S2P Require Import CacheProofs.
From S2P Require Import PushProofs.
From S2P Require Import CoreChain.
From S2P Require Import ChainProofs.
From S2P Require Import FindProofs.
Import Config.parameters Types.Types Serialization.Serialization Currency.Currency Checkpoints.Checkpoints.
Import ValidateTransaction.ValidateTransaction BlockchainCache.BlockchainCache CacheProofs.CacheProofs PushProofs.PushProofs.
Import CoreChain.CoreChain ChainProofs.ChainProofs FindProofs.FindProofs.

Module BlockRules.

Section Rules.
Context (ops : crypto_ops) (slow_hash : Block.Block.hashing_algorithm -> list Z -> Hash).
Context (currency : Currency) (checkpoints : Checkpoints).
Local Abbreviation cn_fast_hash := (fast_hash ops).

(** ** Finding a segment *)

Lemma find_up_sound fuel : forall st stop test p q, find_up fuel st stop test p = Ok (Some q) ->
  exists c, caches st !! q = Some c /\ test (cache_segment c) = true.
Proof.
  induction fuel as [|fuel IH]; intros st stop test p q H; cbn [find_up] in H; [done|]. case_if_in H; [done|].
  apply obind_Ok in H as (c & Hc%deref_Ok & H). destruct (test (cache_segment c)) eqn:Et; [injection H as <-; by exists c|].
  destruct (parent c); [by eapply IH|]. by case_if_in H.
Qed.

Lemma find_in_leaves_sound st leaves h q : find_in_leaves st leaves h = Ok (Some q) ->
  exists c, caches st !! q = Some c /\ hasBlock (cache_segment c) h = true.
Proof.
  induction leaves as [|leaf leaves IH]; intros H; cbn [find_in_leaves] in H; [done|].
  apply obind_Ok in H as ([q'|] & Hf & H); [injection H as ->; exact (find_up_sound _ _ _ _ _ _ Hf)|by apply IH].
Qed.

Lemma findSegment_sound st h q : findSegmentContainingBlock st h = Ok (Some q) ->
  exists c, caches st !! q = Some c /\ hasBlock (cache_segment c) h = true.
Proof.
  unfold findSegmentContainingBlock. intros H. apply obind_Ok in H as (_ & _ & H). apply obind_Ok in H as ([q'|] & Hf & H).
  - injection H as ->. unfold findMainChainSegmentContainingBlock in Hf. apply obind_Ok in Hf as (p & _ & Hf).
    exact (find_up_sound _ _ _ _ _ _ Hf).
  - by eapply find_in_leaves_sound.
Qed.

(** The index of a block of a segment. *)
Lemma getBlockIndex_range s h i : segment_ok s -> getBlockIndex s h = Ok i ->
  startIndex s <= i < seg_end s /\ exists b, blockInfos s !! Z.to_nat (i - startIndex s) = Some b /\ bi_blockHash b = h.
Proof.
  intros Hs H. unfold getBlockIndex in H. destruct (list_find _ _) as [[k b]|] eqn:E; [|done]. injection H as <-.
  apply list_find_Some in E as (Hk & Hb & _). pose proof (lookup_lt_Some _ _ _ Hk). pose proof (ok_start _ Hs). pose proof (ok_end _ Hs) as He.
  unfold seg_end in *. rewrite (wrap_small 32 (Z.of_nat k)), wrap_small by (unfold fits; lia). split; [lia|].
  exists b. split; [|done]. replace (Z.to_nat _) with k by lia. done.
Qed.

(** ** What a block has passed *)

Lemma validate_transactions_ok txs : forall schedules now spent fee c previous ts st st' r,
  validate_transactions ops currency checkpoints schedules now txs spent fee c previous ts st = Ok (st', r) ->
  same_tree st st' /\ forall x, r = inl x -> st' = st.
Proof.
  induction txs as [|t txs IH]; intros schedules now spent fee c previous ts st st' r H; cbn [validate_transactions] in H.
  - injection H as <- <-. done.
  - apply obind_Ok in H as ([result spent'] & _ & H). case_if_in H; [by apply IH in H|]. cbv zeta in H. case_if_in H.
    + apply obind_Ok in H as ([b pool] & _ & H). injection H as <- <-. done.
    + injection H as <- <-. done.
Qed.

Lemma validateBlock_index now block c reward i : validateBlock ops currency now block c = Ok (inl reward) ->
  chain_getBlockIndex c (previousBlockHash block) = Ok i -> Block.Block.getBlockIndex block = u32 (i + 1).
Proof.
  unfold validateBlock. intros H Hi. rewrite Hi in H. cbn [obind] in H. apply obind_Ok in H as (version & _ & H).
  case_if_in H; [done|]. apply obind_Ok in H as ([e|] & _ & H); [done|]. case_if_in H; [done|].
  apply obind_Ok in H as (timestamps & _ & H). case_if_in H; [done|]. unfold Block.Block.getBlockIndex.
  destruct (inputs (baseTransaction block)) as [|[j|j] [|]]; [done| |done|done|done].
  by destruct (Z.eqb_spec (blockIndex j) (u32 (i + 1))).
Qed.

(** The key images that transactions spend. *)
Definition images_in (txs : list TransactionPool.CachedTransaction) : list KeyImage :=
  concat (map (fun t => ValidateProofs.ValidateProofs.key_images (inputs (TransactionPool.getTransaction t))) txs).

Lemma validate_transactions_images txs : forall schedules now spent fee c previous ts st st' spent' fee',
  validate_transactions ops currency checkpoints schedules now txs spent fee c previous ts st = Ok (st', inl (spent', fee')) ->
  NoDup (images_in txs) /\ (forall k, k ∈ images_in txs -> k ∉ spent) /\ spent' = list_to_set (images_in txs) ∪ spent.
Proof.
  induction txs as [|t txs IH]; intros schedules now spent fee c previous ts st st' spent' fee' H; cbn [validate_transactions] in H.
  - injection H as <- <- <-. split_and!; [constructor|by intros k ?%elem_of_nil|set_solver].
  - apply obind_Ok in H as ([result spent1] & Hv & H). destruct (bool_decide_reflect (errorCode result = VALIDATION_SUCCESS)) as [Hc|].
    + unfold validateTransaction in Hv. cbv zeta in Hv. apply obind_Ok in Hv as ([b s] & Hv & E).
      assert (result = m_validationResult s /\ spent1 = spentKeyImages s) as [-> ->] by (split; congruence).
      apply ValidateProofs.ValidateProofs.validate_images in Hv as (Hnd & Hni & Es); [|done]. cbn [m_transaction] in *.
      rewrite Es in H. apply IH in H as (Hnd' & Hni' & ->). set (l := ValidateProofs.ValidateProofs.key_images _) in *.
      change (images_in (t :: txs)) with (l ++ images_in txs). split_and!; [|intros k [?|?]%elem_of_app; [by apply Hni|]|].
      * apply NoDup_app. split_and!; [done| |done]. intros k Hk Hk'. apply (Hni' k Hk'), elem_of_union_l. by apply elem_of_list_to_set.
      * intros Hk. apply (Hni' k); [done|]. by apply elem_of_union_r.
      * rewrite list_to_set_app_L, (assoc_L (∪)). f_equal. apply (comm_L (∪)).
    + cbv zeta in H. case_if_in H; [|done]. by apply obind_Ok in H as ([? ?] & _ & H).
Qed.

(** The sum of the fees, modulo 2^64. *)
Definition fee_of (t : TransactionPool.CachedTransaction) : Z :=
  FormatUtils.FormatUtils.total_in (TransactionPool.getTransaction t) - FormatUtils.FormatUtils.total_out (TransactionPool.getTransaction t).

Definition fees_of (txs : list TransactionPool.CachedTransaction) : Z := u64 (sumZ (map fee_of txs)).

Lemma validate_transactions_fee txs : forall schedules now spent fee c previous ts st st' spent' fee',
  Forall (fun t => FormatUtils.FormatUtils.amounts_ok (TransactionPool.getTransaction t)) txs ->
  validate_transactions ops currency checkpoints schedules now txs spent (u64 fee) c previous ts st = Ok (st', inl (spent', fee')) ->
  fee' = u64 (fee + sumZ (map fee_of txs)).
Proof.
  induction txs as [|t txs IH]; intros schedules now spent fee c previous ts st st' spent' fee' Ha H; cbn [validate_transactions] in H.
  - injection H as <- <- <-. cbn [map sumZ foldr]. by rewrite Z.add_0_r.
  - apply Forall_cons in Ha as [Ht Ha]. apply obind_Ok in H as ([result spent1] & Hv & H).
    destruct (bool_decide_reflect (errorCode result = VALIDATION_SUCCESS)) as [Hc|].
    + unfold validateTransaction in Hv. cbv zeta in Hv. apply obind_Ok in Hv as ([b s] & Hv & E).
      assert (result = m_validationResult s) as -> by congruence.
      apply ValidateProofs.ValidateProofs.validate_fee in Hv as [Ef _]; [|done|done]. cbn [m_transaction] in Ef. rewrite Ef in H.
      fold (fee_of t) in H. assert (Ew : u64 (u64 fee + fee_of t) = u64 (fee + fee_of t)) by (unfold u64, wrap; by rewrite Zplus_mod_idemp_l).
      rewrite Ew in H. apply IH in H; [|done]. rewrite H. cbn [map sumZ foldr]. f_equal. lia.
    + cbv zeta in H. case_if_in H; [|done]. by apply obind_Ok in H as ([? ?] & _ & H).
Qed.

Lemma extracted_amounts raws : forall size txs size', Forall bytes_ok raws ->
  extractTransactions currency raws size = Ok (Some (txs, size')) ->
  Forall (fun t => FormatUtils.FormatUtils.amounts_ok (TransactionPool.getTransaction t)) txs.
Proof.
  induction raws as [|raw raws IH]; intros size txs size' Hb H; cbn [extractTransactions] in H; [injection H as <- <-; constructor|].
  apply Forall_cons in Hb as [Hr Hb]. cbv zeta in H. case_if_in H; [done|].
  destruct (Block.Block.CachedTransaction_of_bytes raw) as [[tx ba]|[]] eqn:Eb; try done. apply obind_Ok in H as (rest & Hx & H).
  destruct rest as [[txs' size1]|]; [|done]. injection H as <- <-. constructor; [|by eapply IH].
  unfold Block.Block.CachedTransaction_of_bytes, fromBinaryArray_opt in Eb.
  destruct (fromBinaryArray ser_Transaction default_transaction raw) eqn:Ep; [|done]. injection Eb as <- <-.
  apply (fromBinaryArray_iff _ _ fresh_transaction) in Ep as [Hv _]; [|done|done].
  by apply ValidateProofs.ValidateProofs.valid_amounts.
Qed.

Record passed (st : core) (now : Z) (block : BlockTemplate) (h : Hash) (rawBlock : RawBlock) (b : checked_block)
    (cell : cache) (c : chain) : Prop := {
  passed_new : findSegmentContainingBlock st h = Ok None;
  passed_cell : caches st !! checked_cache b = Some cell;
  passed_chain : chain_of st (checked_cache b) = Ok c;
  passed_previous : chain_getBlockIndex c (previousBlockHash block) = Ok (checked_previous b);
  passed_top : exists top, chain_top c = Ok top /\ checked_onTop b = (top =? checked_previous b);
  passed_difficulty : getDifficultyForNextBlock currency c (checked_previous b) = Ok (checked_difficulty b);
  passed_base : exists base, toBinaryArray ser_Transaction (baseTransaction block) = Ok base;
  passed_extracted : exists size, extractTransactions currency (raw_transactions rawBlock) 0 = Ok (Some (checked_transactions b, size));
  passed_hashes : check_hashes ops block (checked_transactions b) = None;
  passed_valid : exists fee reward schedules, validateBlock ops currency now block c = Ok (inl reward) /\
    validate_transactions ops currency checkpoints schedules now (checked_transactions b) ∅ 0 c (checked_previous b) (timestamp block) st =
      Ok (st, inl (checked_state b, fee)) /\
    check_reward ops slow_hash currency checkpoints block h c (checked_previous b) (checked_size b) fee reward (checked_difficulty b) =
      Ok (inl (checked_emission b));
  passed_found : findSegmentContainingBlock st (previousBlockHash block) = Ok (Some (checked_cache b));
  passed_count : length (raw_transactions rawBlock) = length (transactionHashes block);
  passed_size : exists max, maxBlockCumulativeSize currency (u32 (checked_previous b + 1)) = Ok max /\ checked_size b <= max /\
    checked_size b = u64 (getObjectBinarySize ser_Transaction (baseTransaction block) +
      sumZ (map (fun raw => Z.of_nat (length raw)) (raw_transactions rawBlock)))
}.

(** The size that [extractTransactions] returns. *)
Lemma extracted_size raws : forall size txs size', extractTransactions currency raws (u64 size) = Ok (Some (txs, size')) ->
  size' = u64 (size + sumZ (map (fun raw => Z.of_nat (length raw)) raws)).
Proof.
  induction raws as [|raw raws IH]; intros size txs size' H; cbn [extractTransactions] in H.
  { injection H as <- <-. cbn [map sumZ foldr]. by rewrite Z.add_0_r. }
  cbv zeta in H. case_if_in H; [done|]. destruct (Block.Block.CachedTransaction_of_bytes raw) as [[tx ba]|[]]; try done.
  apply obind_Ok in H as ([[txs' size1]|] & Hx & H); [|done]. injection H as <- <-.
  assert (Ew : u64 (u64 size + Z.of_nat (length raw)) = u64 (size + Z.of_nat (length raw))) by (unfold u64, wrap; by rewrite Zplus_mod_idemp_l).
  rewrite Ew in Hx. apply IH in Hx as ->. cbn [map sumZ foldr]. f_equal. lia.
Qed.

Lemma passed_index st now block h raw b cell c : passed st now block h raw b cell c ->
  Block.Block.getBlockIndex block = u32 (checked_previous b + 1).
Proof. intros [_ _ _ Hp _ _ _ _ _ (fee & reward & schedules & Hv & _) _ _ _]. by eapply validateBlock_index. Qed.

Lemma binary_size_ok {A} (f : ser A) x : getObjectBinarySize f x < 2 ^ 64 - 1 -> exists ba, toBinaryArray f x = Ok ba.
Proof.
  unfold getObjectBinarySize, toBinaryArray_opt. destruct (toBinaryArray f x); [eauto|]. lia.
Qed.

Lemma check_block_passed schedules now block h raw st st' b :
  check_block ops slow_hash currency checkpoints schedules now block h raw st = Ok (st', inl b) ->
  st' = st /\ exists cell c, passed st now block h raw b cell c.
Proof.
  unfold check_block. intros H. apply obind_Ok in H as ([?|] & Hnew & H); [done|]. apply obind_Ok in H as (u0 & Hcount & H).
  apply obind_Ok in H as ([p|] & Hp & H); [|done]. pose proof Hp as Hfound. apply findSegment_sound in Hp as (cell & Hcell & _).
  apply obind_Ok in H as (c & Hc & H). apply obind_Ok in H as ([[txs size]|] & Hx & H); [|done].
  apply obind_Ok in H as (u & Hbase & H). apply obind_Ok in H as (prev & Hprev & H). apply obind_Ok in H as (top & Htop & H).
  apply obind_Ok in H as (max & Hmax & H). destruct (Z.ltb_spec max (u64 (getObjectBinarySize ser_Transaction (baseTransaction block) + size))) as [|Hle]; [done|].
  apply obind_Ok in H as ([reward|e] & Hv & H); [|done].
  apply obind_Ok in H as (d & Hd & H). destruct (Z.eqb_spec d 0) as [|Hd0]; [done|].
  destruct (check_hashes ops block txs) eqn:Eh; [done|]. apply obind_Ok in H as ([st1 r] & Ht & H).
  destruct r as [[spent fee]|e]; [|done]. pose proof Ht as Ht'. apply validate_transactions_ok in Ht' as [_ Ht'].
  rewrite (Ht' _ eq_refl) in H, Ht.
  apply obind_Ok in H as ([emission|e] & Hr & H); [|done]. injection H as <- <-. split; [done|]. exists cell, c.
  split; cbn [checked_cache checked_previous checked_onTop checked_difficulty checked_transactions checked_state checked_size checked_emission]; try done.
  - by exists top.
  - apply binary_size_ok. unfold assert_that in Hbase. case_if_in Hbase; [|done]. bool_prop. lia.
  - by exists size.
  - by exists fee, reward, schedules.
  - unfold assert_that in Hcount. case_if_in Hcount; [|done]. by apply Nat.eqb_eq.
  - exists max. split_and!; [done|done|]. apply (extracted_size _ 0) in Hx as ->. rewrite Z.add_0_l. unfold u64, wrap. by rewrite Zplus_mod_idemp_r.
Qed.

(** ** The transactions of a block *)

(** The transactions are accepted one after the other, each with the key images of
    those before it, in the context of the block below. *)
Fixpoint all_accepted (now : Z) (c : chain) (previous median ts : Z) (txs : list TransactionPool.CachedTransaction) (spent : gset KeyImage) : Prop :=
  match txs with
  | [] => True
  | t :: txs =>
    ValidateProofs.ValidateProofs.accepted ops
      (mkContext (TransactionPool.getTransaction t) (TransactionPool.binaryArray t) currency checkpoints (mkView currency now c) previous median ts false) spent /\
    all_accepted now c previous median ts txs (list_to_set (ValidateProofs.ValidateProofs.key_images (inputs (TransactionPool.getTransaction t))) ∪ spent)
  end.

Lemma validate_transactions_accepted txs : forall schedules now spent fee c previous ts st st' x,
  Forall (fun t => FormatUtils.FormatUtils.amounts_ok (TransactionPool.getTransaction t)) txs ->
  0 <= core_medianSize st * 2 - m_minerTxBlobReservedSize currency < 2 ^ 64 ->
  validate_transactions ops currency checkpoints schedules now txs spent fee c previous ts st = Ok (st', inl x) ->
  all_accepted now c previous (core_medianSize st) ts txs spent.
Proof.
  induction txs as [|t txs IH]; intros schedules now spent fee c previous ts st st' x Ha Hm H; cbn [validate_transactions all_accepted] in *; [done|].
  apply Forall_cons in Ha as [Ht Ha]. apply obind_Ok in H as ([result spent1] & Hv & H).
  destruct (bool_decide_reflect (errorCode result = VALIDATION_SUCCESS)) as [Hc|].
  - unfold validateTransaction in Hv. cbv zeta in Hv. apply obind_Ok in Hv as ([b s] & Hv & E).
    assert (result = m_validationResult s /\ spent1 = spentKeyImages s) as [-> ->] by (split; congruence).
    pose proof (ValidateProofs.ValidateProofs.validate_images _ _ _ _ _ _ Hv Hc) as (_ & _ & Es). cbn [m_transaction] in Es. rewrite Es in H.
    apply ValidateProofs.ValidateProofs.validate_decide in Hv; [|done|done|done|done]. destruct b; [|by destruct Hv as [_ [? _]]].
    split; [apply Hv|by eapply IH].
  - cbv zeta in H. case_if_in H; [|done]. by apply obind_Ok in H as ([? ?] & _ & H).
Qed.

(** The codes that say that a block was added. *)
Definition added_code (e : error_code) : bool :=
  match e with
  | AddBlock ADDED_TO_MAIN | AddBlock ADDED_TO_ALTERNATIVE | AddBlock ADDED_TO_ALTERNATIVE_AND_SWITCHED => true
  | _ => false
  end.

Lemma miner_reward_error outs : forall reward e, miner_reward ops outs reward = inr e -> added_code e = false.
Proof.
  induction outs as [|o outs IH]; intros reward e H; cbn [miner_reward] in H; [done|]. case_if_in H; [by injection H as <-|].
  destruct (target o). do 2 (case_if_in H; [by injection H as <-|]). by eapply IH.
Qed.

Lemma validateBlock_error now block c e : validateBlock ops currency now block c = Ok (inr e) -> added_code e = false.
Proof.
  unfold validateBlock. intros H. apply obind_Ok in H as (i & _ & H). cbv zeta in H. apply obind_Ok in H as (version & _ & H).
  case_if_in H; [by injection H as <-|]. apply obind_Ok in H as ([?|] & _ & H); [by injection H as <-|]. case_if_in H; [by injection H as <-|].
  apply obind_Ok in H as (timestamps & _ & H). case_if_in H; [by injection H as <-|].
  destruct (inputs (baseTransaction block)) as [|[j|j] [|]]; try by injection H as <-.
  do 3 (case_if_in H; [by injection H as <-|]). eapply miner_reward_error. by injection H.
Qed.

Lemma validate_transactions_error txs : forall schedules now spent fee c previous ts st st' e,
  validate_transactions ops currency checkpoints schedules now txs spent fee c previous ts st = Ok (st', inr e) -> added_code e = false.
Proof.
  induction txs as [|t txs IH]; intros schedules now spent fee c previous ts st st' e H; cbn [validate_transactions] in H; [done|].
  apply obind_Ok in H as ([result spent'] & _ & H). case_if_in H; [by apply IH in H|]. cbv zeta in H. case_if_in H.
  - apply obind_Ok in H as ([b pool] & _ & H). by injection H as _ <-.
  - by injection H as _ <-.
Qed.

Lemma check_reward_error block h c previous size fee reward d e :
  check_reward ops slow_hash currency checkpoints block h c previous size fee reward d = Ok (inr e) -> added_code e = false.
Proof.
  unfold check_reward. intros H. apply obind_Ok in H as (coins & _ & H). apply obind_Ok in H as (sizes & _ & H).
  apply obind_Ok in H as ([[r emission]|] & _ & H); [|by injection H as <-]. case_if_in H; [by injection H as <-|].
  apply obind_Ok in H as ([err|] & _ & H); [by injection H as <-|done].
Qed.

Lemma check_block_same schedules now block h raw st st' e :
  check_block ops slow_hash currency checkpoints schedules now block h raw st = Ok (st', inr e) -> same_tree st st' /\ added_code e = false.
Proof.
  unfold check_block. intros H. apply obind_Ok in H as ([?|] & _ & H); [by injection H as <- <-|]. apply obind_Ok in H as (? & _ & H).
  apply obind_Ok in H as ([p|] & _ & H); [|by injection H as <- <-].
  apply obind_Ok in H as (c & _ & H). apply obind_Ok in H as ([[txs size]|] & _ & H); [|by injection H as <- <-].
  apply obind_Ok in H as (? & _ & H). apply obind_Ok in H as (? & _ & H). apply obind_Ok in H as (? & _ & H).
  apply obind_Ok in H as (max & _ & H). case_if_in H; [by injection H as <- <-|].
  apply obind_Ok in H as ([reward|?] & Hv & H); [|injection H as <- <-; split; [done|by eapply validateBlock_error]].
  apply obind_Ok in H as (d & _ & H). case_if_in H; [by injection H as <- <-|].
  destruct (check_hashes ops block txs); [by injection H as <- <-|].
  apply obind_Ok in H as ([st1 r] & Ht & H). pose proof Ht as Ht'. apply validate_transactions_ok in Ht' as [Hs _].
  destruct r as [[spent fee]|?]; [|injection H as <- <-; split; [done|by eapply validate_transactions_error]].
  apply obind_Ok in H as ([emission|?] & Hr & H); [done|]. injection H as <- <-. split; [done|by eapply check_reward_error].
Qed.

(** The block that a call pushes. *)
Definition pushed_of (block : BlockTemplate) (raw : RawBlock) (h : Hash) (base : BinaryArray) (b : checked_block) : pushed :=
  mkPushed block (checked_transactions b) (checked_state b) (checked_size b) (u64 (checked_emission b)) (checked_difficulty b)
    raw h base.

(** ** Difficulty *)

(** The difficulty that the blocks of a chain require of the next one. *)
Definition next_difficulty (infos : list CachedBlockInfo) (blockIndex : Z) : outcome Z :=
  let! version := getBlockMajorVersionForHeight currency (u32 (blockIndex + 1)) in
  let l := lastn (Z.to_nat (difficultyBlocksCountByBlockVersion currency version blockIndex)) (drop 1 infos) in
  getNextDifficulty currency version blockIndex (map bi_timestamp l) (map bi_cumulativeDifficulty l).

Lemma getDifficultyForNextBlock_flat c i : chain_ok c -> (forall s, head c = Some s -> blockInfos s <> []) -> 0 <= i < seg_end (flatten c) ->
  getDifficultyForNextBlock currency c i = next_difficulty (take (Z.to_nat (i + 1)) (blockInfos (flatten c))) i.
Proof.
  intros Hok Hne Hi. unfold getDifficultyForNextBlock, next_difficulty, getLastTimestamps_at, getLastCumulativeDifficulties_at.
  destruct c as [|s parents]; [unfold seg_end in Hi; cbn in Hi; lia|]. cbn [chain_top].
  rewrite getTopBlockIndex_ok; [|apply Hok|by apply Hne]. cbn [obind]. rewrite (flatten_end _ _ Hok) in Hi.
  rewrite (proj2 (Z.leb_le _ _)) by lia. cbn [assert_that obind]. destruct (getBlockMajorVersionForHeight _ _) as [version|]; [|done]. cbn [obind].
  assert (Hc : 0 <= difficultyBlocksCountByBlockVersion currency version i).
  { unfold difficultyBlocksCountByBlockVersion. case_if; [done|]. apply wrap_fits. lia. }
  rewrite !getLastUnits_flat by (done || rewrite (flatten_end _ _ Hok); lia). done.
Qed.

(** ** The rules *)

Lemma is_unique_iff l : forall seen, is_unique l seen = true <-> NoDup l /\ forall x, x ∈ l -> x ∉ seen.
Proof.
  induction l as [|x l IH]; intros seen; cbn [is_unique].
  - split; [|done]. intros _. split; [constructor|]. by intros x ?%elem_of_nil.
  - destruct (bool_decide_reflect (x ∈ seen)) as [Hx|Hx].
    + split; [done|]. intros [_ H]. by destruct (H x (list_elem_of_here _ _)).
    + rewrite IH, NoDup_cons. split.
      * intros [Hnd H]. split_and!; [|done|].
        -- intros Hin. specialize (H x Hin). set_solver.
        -- intros y [->|Hy]%elem_of_cons; [done|]. specialize (H y Hy). set_solver.
      * intros [[Hni Hnd] H]. split; [done|]. intros y Hy. assert (y <> x) by congruence. specialize (H y ltac:(by right)). set_solver.
Qed.

(** [size_t] parameters. *)
Definition windows_ok : Prop := 0 <= m_rewardBlocksWindow currency /\ 0 <= m_timestampCheckWindow currency.

(** The consensus rules for a block on top of the blocks of [flat], at the time [now]. *)
Record conforms (now : Z) (flat : segment) (b : pushed) : Prop := {
  rule_version : getBlockMajorVersionForHeight currency (seg_end flat) = Ok (majorVersion (new_block b));
  rule_future : timestamp (new_block b) <= u64 (now + blockFutureTimeLimit currency (seg_end flat));
  rule_past :
    let window := timestampCheckWindow currency (seg_end flat) in
    let timestamps := map bi_timestamp (lastn (Z.to_nat window) (blockInfos flat)) in
    window <= Z.of_nat (length timestamps) -> medianValue timestamps <= timestamp (new_block b);
  rule_base : exists i, inputs (baseTransaction (new_block b)) = [InBase i] /\ blockIndex i = seg_end flat /\
    unlockTime (baseTransaction (new_block b)) = u32 (seg_end flat + m_minedMoneyUnlockWindow currency);
  rule_reward : Forall bytes_ok (raw_transactions (new_raw b)) -> exists x reward emission, last (blockInfos flat) = Some x /\
    miner_reward ops (outputs (baseTransaction (new_block b))) 0 = inl reward /\
    getBlockReward currency (majorVersion (new_block b))
      (medianValue (map bi_blockSize (lastn (Z.to_nat (m_rewardBlocksWindow currency)) (blockInfos flat)))) (new_size b)
      (bi_alreadyGeneratedCoins x) (fees_of (new_transactions b)) (seg_end flat) = Ok (Some (reward, emission)) /\
    new_coins b = u64 emission;
  rule_proof : check_proof ops slow_hash currency checkpoints (new_block b) (new_hash b) (new_difficulty b) = Ok None;
  rule_size : exists max, maxBlockCumulativeSize currency (seg_end flat) = Ok max /\ new_size b <= max /\
    new_size b = u64 (getObjectBinarySize ser_Transaction (baseTransaction (new_block b)) +
      sumZ (map (fun raw => Z.of_nat (length raw)) (raw_transactions (new_raw b))));
  rule_parent : BLOCK_MAJOR_VERSION_2 <= majorVersion (new_block b) ->
    (majorVersion (new_block b) = BLOCK_MAJOR_VERSION_2 -> pb_majorVersion (parentBlock (new_block b)) <= BLOCK_MAJOR_VERSION_1) /\
    exists ba, Block.Block.getParentBlockBinaryArray cn_fast_hash (new_block b) false = Ok ba /\ Z.of_nat (length ba) <= 2048;
  rule_signatures : TRANSACTION_SIGNATURE_COUNT_VALIDATION_HEIGHT <= seg_end flat -> signatures (baseTransaction (new_block b)) = [];
  rule_count : length (raw_transactions (new_raw b)) = length (transactionHashes (new_block b));
  rule_transactions : exists size, extractTransactions currency (raw_transactions (new_raw b)) 0 = Ok (Some (new_transactions b, size));
  rule_hashes : Config.parameters.BLOCK_BLOB_SHUFFLE_CHECK_HEIGHT <= seg_end flat ->
    transactionHashes (new_block b) = map (TransactionPool.hash_of cn_fast_hash) (new_transactions b) /\ NoDup (transactionHashes (new_block b));
  rule_images : NoDup (images_in (new_transactions b)) /\ new_images b = list_to_set (images_in (new_transactions b))
}.

Section Conforms.
Context (st : core) (now : Z) (block : BlockTemplate) (h : Hash) (raw : RawBlock) (base : BinaryArray) (b : checked_block).
Context (cell : cache) (c : chain) (flat : segment).
Hypothesis Hpass : passed st now block h raw b cell c.
Hypothesis Hok : chain_ok c.
Hypothesis Hne : forall s, head c = Some s -> blockInfos s <> [].
Hypothesis Hprev : 0 <= checked_previous b < seg_end (flatten c).
Hypothesis Hinfos : blockInfos flat = take (Z.to_nat (checked_previous b + 1)) (blockInfos (flatten c)).
Hypothesis Hend : seg_end flat = checked_previous b + 1.
Hypothesis Hfit : checked_previous b + 1 < 2 ^ 32.
Hypothesis Hw : windows_ok.

Lemma passed_units count pred : 0 <= count ->
  getLastUnits c count (checked_previous b) true pred = Ok (map pred (lastn (Z.to_nat count) (blockInfos flat))).
Proof. intros Hc. rewrite getLastUnits_flat by done. unfold last_units. by rewrite Hinfos. Qed.

Lemma parent_rules :
  (if BLOCK_MAJOR_VERSION_2 <=? majorVersion block then
     if (majorVersion block =? BLOCK_MAJOR_VERSION_2) && (BLOCK_MAJOR_VERSION_1 <? pb_majorVersion (parentBlock block))
     then Ok (Some PARENT_BLOCK_WRONG_VERSION)
     else
       let! ba := Block.Block.getParentBlockBinaryArray cn_fast_hash block false in
       Ok (if 2048 <? Z.of_nat (length ba) then Some PARENT_BLOCK_SIZE_TOO_BIG else None)
   else Ok None) = Ok None ->
  BLOCK_MAJOR_VERSION_2 <= majorVersion block ->
  (majorVersion block = BLOCK_MAJOR_VERSION_2 -> pb_majorVersion (parentBlock block) <= BLOCK_MAJOR_VERSION_1) /\
  exists ba, Block.Block.getParentBlockBinaryArray cn_fast_hash block false = Ok ba /\ Z.of_nat (length ba) <= 2048.
Proof.
  intros H Hv. rewrite (proj2 (Z.leb_le _ _) Hv) in H. case_if_in H; [done|]. apply obind_Ok in H as (ba & Hba & H).
  destruct (Z.ltb_spec 2048 (Z.of_nat (length ba))); [done|]. split; [|by exists ba].
  intros E2. match goal with E : _ && _ = false |- _ => rewrite (proj2 (Z.eqb_eq _ _) E2) in E; cbn [andb] in E; by apply Z.ltb_ge in E end.
Qed.

Lemma passed_block : exists reward, validateBlock ops currency now block c = Ok (inl reward) /\
  miner_reward ops (outputs (baseTransaction block)) 0 = inl reward /\
  Block.Block.getBlockIndex block = seg_end flat /\
  getBlockMajorVersionForHeight currency (seg_end flat) = Ok (majorVersion block) /\
  timestamp block <= u64 (now + blockFutureTimeLimit currency (seg_end flat)) /\
  (let window := timestampCheckWindow currency (seg_end flat) in
   let timestamps := map bi_timestamp (lastn (Z.to_nat window) (blockInfos flat)) in
   window <= Z.of_nat (length timestamps) -> medianValue timestamps <= timestamp block) /\
  (exists i, inputs (baseTransaction block) = [InBase i] /\ blockIndex i = seg_end flat /\
    unlockTime (baseTransaction block) = u32 (seg_end flat + m_minedMoneyUnlockWindow currency)) /\
  (TRANSACTION_SIGNATURE_COUNT_VALIDATION_HEIGHT <= seg_end flat -> signatures (baseTransaction block) = []) /\
  (BLOCK_MAJOR_VERSION_2 <= majorVersion block ->
   (majorVersion block = BLOCK_MAJOR_VERSION_2 -> pb_majorVersion (parentBlock block) <= BLOCK_MAJOR_VERSION_1) /\
   exists ba, Block.Block.getParentBlockBinaryArray cn_fast_hash block false = Ok ba /\ Z.of_nat (length ba) <= 2048).
Proof.
  pose proof (passed_index _ _ _ _ _ _ _ _ Hpass) as Hidx. rewrite wrap_small, <- Hend in Hidx by (unfold fits; lia).
  destruct (passed_valid _ _ _ _ _ _ _ _ Hpass) as (fee & reward & schedules & H & _). exists reward. split; [done|].
  unfold validateBlock in H. rewrite (passed_previous _ _ _ _ _ _ _ _ Hpass) in H. cbn [obind] in H.
  rewrite (wrap_small 32 (checked_previous b + 1)), <- Hend in H by (unfold fits; lia). rewrite Hidx in H. apply obind_Ok in H as (version & Hv & H).
  destruct (Z.eqb_spec version (majorVersion block)) as [->|]; [|done]. cbn [negb] in H. apply obind_Ok in H as ([e|] & Hparent & H); [done|].
  pose proof (parent_rules Hparent) as Hpar. case_if_in H; [done|]. bool_prop.
  assert (Hcount : 0 <= timestampCheckWindow currency (seg_end flat)) by (unfold timestampCheckWindow; case_if; [done|apply Hw]).
  unfold getLastTimestamps_at in H. rewrite (passed_units _ bi_timestamp Hcount) in H. cbn [obind] in H.
  case_if_in H; [done|]. destruct (inputs (baseTransaction block)) as [|[i|i] [|]]; try done.
  case_if_in H; [done|]. case_if_in H; [done|]. case_if_in H; [done|]. assert (Hr : miner_reward ops (outputs (baseTransaction block)) 0 = inl reward) by congruence.
  repeat match goal with E : negb _ = false |- _ => apply negb_false_iff in E end.
  split_and!; [done|done|done|done| | | |exact Hpar].
  - cbv zeta. intros Hlen. match goal with E : _ && _ = false |- _ => rewrite (proj2 (Z.leb_le _ _) Hlen) in E; cbn [andb] in E; by apply Z.ltb_ge in E end.
  - exists i. split_and!; [done|lia..].
  - intros Hge. match goal with E : (TRANSACTION_SIGNATURE_COUNT_VALIDATION_HEIGHT <=? _) && _ = false |- _ =>
      rewrite (proj2 (Z.leb_le _ _) Hge) in E; cbn [andb] in E; apply negb_false_iff in E end. by destruct (signatures (baseTransaction block)).
Qed.

Lemma passed_reward : Forall bytes_ok (raw_transactions raw) -> exists x reward, last (blockInfos flat) = Some x /\
  miner_reward ops (outputs (baseTransaction block)) 0 = inl reward /\
  getBlockReward currency (majorVersion block)
    (medianValue (map bi_blockSize (lastn (Z.to_nat (m_rewardBlocksWindow currency)) (blockInfos flat)))) (checked_size b)
    (bi_alreadyGeneratedCoins x) (fees_of (checked_transactions b)) (seg_end flat) = Ok (Some (reward, checked_emission b)).
Proof.
  intros Hb. destruct passed_block as (reward & Hv & Hr & Hidx & _).
  destruct (passed_valid _ _ _ _ _ _ _ _ Hpass) as (fee & reward' & schedules & Hv' & Ht & H).
  assert (reward' = reward) as -> by congruence.
  destruct (passed_extracted _ _ _ _ _ _ _ _ Hpass) as (size & Hx). apply extracted_amounts in Hx; [|done].
  apply (validate_transactions_fee _ _ _ _ 0) in Ht; [|done]. fold (fees_of (checked_transactions b)) in Ht.
  change (fee = fees_of (checked_transactions b)) in Ht. subst fee.
  destruct (lookup_lt_is_Some_2 (blockInfos (flatten c)) (Z.to_nat (checked_previous b))) as [x Hx'].
  { destruct (flatten_ok _ Hok) as [_ H0]. unfold seg_end in Hprev. lia. }
  assert (Hlast : last (blockInfos flat) = Some x).
  { rewrite last_lookup, Hinfos. rewrite lookup_take_lt; rewrite length_take_le; apply lookup_lt_Some in Hx' as Hlt; [|lia..].
    rewrite <- Hx'. f_equal. lia. }
  unfold check_reward, getAlreadyGeneratedCoins in H. rewrite (getBlockInfo_flat _ _ x) in H by (done || lia). cbn [obind] in H.
  unfold getLastBlocksSizes_at in H. rewrite (passed_units _ bi_blockSize) in H by apply Hw. cbn [obind] in H. rewrite Hidx in H.
  apply obind_Ok in H as ([[r emission]|] & Hg & H); [|done]. destruct (Z.eqb_spec reward r) as [<-|]; [|done]. cbn [negb] in H.
  apply obind_Ok in H as ([e|] & _ & H); [done|]. injection H as ->. by exists x, reward.
Qed.

Lemma passed_proof : check_proof ops slow_hash currency checkpoints block h (checked_difficulty b) = Ok None.
Proof.
  destruct (passed_valid _ _ _ _ _ _ _ _ Hpass) as (fee & reward' & schedules & _ & _ & H). unfold check_reward in H.
  apply obind_Ok in H as (coins & _ & H). apply obind_Ok in H as (sizes & _ & H). apply obind_Ok in H as ([[r emission]|] & _ & H); [|done].
  case_if_in H; [done|]. by apply obind_Ok in H as ([e|] & Hp & H).
Qed.

Lemma passed_conforms : conforms now flat (pushed_of block raw h base b).
Proof.
  destruct passed_block as (reward & _ & Hr & Hidx & Hv & Hf & Hp & Hi & Hsig & Hpar). split; cbn [pushed_of new_block new_raw new_transactions new_size new_coins new_difficulty new_hash new_images]; try done.
  - intros Hb. destruct (passed_reward Hb) as (x & r & Hx & Hr' & Hg). by exists x, r, (checked_emission b).
  - apply passed_proof.
  - destruct (passed_size _ _ _ _ _ _ _ _ Hpass) as (max & Hmax & Hle & E). rewrite wrap_small, <- Hend in Hmax by (unfold fits; lia). by exists max.
  - apply (passed_count _ _ _ _ _ _ _ _ Hpass).
  - apply (passed_extracted _ _ _ _ _ _ _ _ Hpass).
  - intros Hge. pose proof (passed_hashes _ _ _ _ _ _ _ _ Hpass) as H. unfold check_hashes in H. rewrite Hidx, (proj2 (Z.leb_le _ _) Hge) in H.
    destruct (is_unique (transactionHashes block) ∅) eqn:Eu; [|done]. cbn [negb] in H. case_if_in H; [done|]. case_if_in H; [done|].
    destruct (bool_decide_reflect (transactionHashes block = map (TransactionPool.hash_of cn_fast_hash) (checked_transactions b))); [|done].
    apply is_unique_iff in Eu. split; [done|apply Eu].
  - destruct (passed_valid _ _ _ _ _ _ _ _ Hpass) as (fee & reward' & schedules & _ & Ht & _). apply validate_transactions_images in Ht as (Hnd & _ & Es).
    split; [done|]. rewrite Es. set_solver.
Qed.

End Conforms.

End Rules.

End BlockRules.
