(* ===== verification/MainChain.v ===== *)
(** * Proofs about adding blocks

    What a call of [Core::addBlock] does to the chains of the node: the tree of
    caches stays well formed, and the chains it stands for change as the error
    code says. *)

From S2P Require Import Prelude.
From S2P Require Import Types.
From S2P Require Import Serialization.
From S2P Require Import Block.
From S2P Require Import Currency.
From S2P Require Import Checkpoints.
From S2P Require Import Utilities.
From S2P Require Import FormatUtils.
From S2P Require Import ValidateTransaction.
From S2P Require Import ValidateProofs.
From S2P Require Import TransactionPool.
From S2P Require Import CorePool.
From S2P Require Import BlockchainCache.
From S2P Require Import CacheProofs.
From S2P Require Import PushProofs.
From S2P Require Import CoreChain.
From S2P Require Import ChainProofs.
From S2P Require Import FindProofs.
From S2P Require Import BlockRules.
Import Types.Types Serialization.Serialization Currency.Currency Checkpoints.Checkpoints.
Import ValidateTransaction.ValidateTransaction BlockchainCache.BlockchainCache CacheProofs.CacheProofs PushProofs.PushProofs.
Import CoreChain.CoreChain ChainProofs.ChainProofs FindProofs.FindProofs BlockRules.BlockRules.

Module MainChain.

Section Node.
Context (ops : crypto_ops) (slow_hash : Block.Block.hashing_algorithm -> list Z -> Hash).
Context (currency : Currency) (checkpoints : Checkpoints) (hash_order : list Hash -> list Hash).
Local Abbreviation cn_fast_hash := (fast_hash ops).

(** ** Steps that do not change the tree *)

Lemma updateBlockMedianSize_same st st' : updateBlockMedianSize currency st = Ok st' -> same_tree st st'.
Proof.
  unfold updateBlockMedianSize. intros H. apply obind_Ok in H as (c & _ & H). apply obind_Ok in H as (top & _ & H).
  apply obind_Ok in H as (version & _ & H). apply obind_Ok in H as (sizes & _ & H). by injection H as <-.
Qed.

Lemma prune_same now spent st st' :
  checkAndRemoveInvalidPoolTransactions ops currency checkpoints now spent st = Ok st' -> same_tree st st'.
Proof.
  unfold checkAndRemoveInvalidPoolTransactions. intros H. apply obind_Ok in H as (n & _ & H). apply obind_Ok in H as (w & _ & H).
  by injection H as <-.
Qed.

Lemma add_transactions_same txs : forall schedules now st st',
  add_transactions ops currency checkpoints schedules now txs st = Ok st' -> same_tree st st'.
Proof.
  induction txs as [|t txs IH]; intros schedules now st st' H; cbn [add_transactions] in H; [by injection H as <-|].
  apply obind_Ok in H as ([err st1] & H1 & H). apply IH in H. eapply same_tree_trans; [|exact H].
  unfold addTransactionToPool in H1. apply obind_Ok in H1 as (n & _ & H1). apply obind_Ok in H1 as ([e w] & _ & H1).
  by injection H1 as _ <-.
Qed.

Lemma copyTransactionsToPool_same fuel : forall schedules now alt st st',
  copyTransactionsToPool ops currency checkpoints hash_order fuel schedules now alt st = Ok st' -> same_tree st st'.
Proof.
  induction fuel as [|fuel IH]; intros schedules now alt st st' H; cbn [copyTransactionsToPool] in H; [done|].
  case_if_in H; [by injection H as <-|]. apply obind_Ok in H as (c & _ & H). apply obind_Ok in H as (cache & _ & H).
  apply obind_Ok in H as (txs & _ & H). apply obind_Ok in H as (st1 & H1 & H). apply add_transactions_same in H1.
  destruct (parent cache); [|by injection H as <-]. apply IH in H. by eapply same_tree_trans.
Qed.

Lemma tree_ok_same st st' : same_tree st st' -> tree_ok st -> tree_ok st'.
Proof. intros (E1 & E2 & E3 & E4 & E5) [T1 T2 T3 T4]. split; rewrite ?E1, ?E2, ?E3, ?E4; done. Qed.

Lemma main_ok_same st st' : same_tree st st' -> main_ok st -> main_ok st'.
Proof. intros (E1 & E2 & E3 & E4 & E5) (p & l & H). exists p, l. by rewrite E1, E3, E5. Qed.

Lemma views_same st st' flats : same_tree st st' -> views st flats -> views st' flats.
Proof. intros (E1 & E2 & E3 & E4 & E5). unfold views. by rewrite E1, E3. Qed.

Lemma updateMainChainSet_ok st st' : tree_ok st -> updateMainChainSet st = Ok st' ->
  tree_ok st' /\ main_ok st' /\ caches st' = caches st /\ chainsLeaves st' = chainsLeaves st.
Proof.
  intros Ht H. unfold updateMainChainSet, main_leaf in H. apply obind_Ok in H as (p & Hp & H). apply obind_Ok in H as (l & Hl & H).
  assert (Hh : head (chainsLeaves st) = Some p).
  { unfold vec_at in Hp. destruct (chainsLeaves st) as [|x leaves]; [done|]. by injection Hp as ->. }
  assert (Hin : p ∈ chainsLeaves st) by (destruct (chainsLeaves st); [done|]; injection Hh as ->; left).
  apply (tree_leaves _ Ht) in Hin as (c & Hc & _). destruct (heap_lin _ (tree_heap _ Ht) _ _ Hc) as (l' & Hl' & _).
  rewrite (heap_lineage _ (tree_heap _ Ht) st p _ eq_refl Hl') in Hl. injection Hl as <-. injection H as <-.
  destruct Ht as [T1 T2 T3 T4]. split_and!; [by split| |done|done]. exists p. by eexists.
Qed.

(** ** Prefixes of chains *)

(** The outputs of an amount in transactions. *)
Definition count_outputs (amount : Z) (txs : list TransactionPool.CachedTransaction) : nat :=
  length (filter (fun x => out_amount x = amount) (flat_map (fun t => outputs (TransactionPool.getTransaction t)) txs)).

Lemma sel_placed amount i t outs : forall o,
  length (sel amount (placed i t o outs)) = length (filter (fun x => out_amount x = amount) outs).
Proof.
  unfold sel. induction outs as [|x outs IH]; intros o; [done|]. cbn [placed]. rewrite !filter_cons. cbn [fst].
  case_decide; cbn [map length]; by rewrite IH.
Qed.

Lemma sel_placed_all amount i txs : forall n, length (sel amount (placed_all i n txs)) = count_outputs amount txs.
Proof.
  unfold count_outputs. induction txs as [|t txs IH]; intros n; [done|]. cbn [placed_all flat_map].
  rewrite sel_app, filter_app, !length_app, sel_placed. f_equal. apply IH.
Qed.

(** The cumulative difficulty of a chain. *)
Definition work (flat : segment) : Z := match last (blockInfos flat) with Some b => bi_cumulativeDifficulty b | None => 0 end.

(** There is room for a block: no counter overflows. *)
Record room (flat : segment) (b : pushed) : Prop := {
  room_index : seg_end flat + 1 < 2 ^ 32;
  room_outputs : forall amount, entry_count (keyOutputsGlobalIndexes flat) amount +
    Z.of_nat (count_outputs amount (all_transactions b)) < 2 ^ 32;
  room_work : work flat + new_difficulty b < 2 ^ 64
}.

Lemma seg_end_prefix f0 u : seg_end f0 <= seg_end (join f0 u).
Proof. unfold seg_end. cbn [join startIndex blockInfos]. rewrite length_app. lia. Qed.

Lemma spends_above_join f0 u s : spends_above f0 u -> spends_above f0 s -> spends_above f0 (join u s).
Proof. intros Hu Hs k i [Hk|[_ Hk]]%lookup_union_Some_raw; [by eapply Hu|by eapply Hs]. Qed.

Lemma spends_above_trans f0 u0 u : spends_above (join f0 u0) u -> spends_above f0 u.
Proof. intros H k i Hk. specialize (H k i Hk). cbn beta in H. pose proof (seg_end_prefix f0 u0). lia. Qed.

Lemma flatten_prefix c1 c2 : chain_ok (c1 ++ c2) -> exists u, flatten (c1 ++ c2) = join (flatten c2) u /\
  spends_above (flatten c2) u /\ (forall s, head c1 = Some s -> blockInfos s <> [] -> blockInfos u <> []).
Proof.
  induction c1 as [|s c1 IH]; intros Hok.
  - exists (empty_segment (seg_end (flatten c2))). split; [by rewrite join_empty|]. split; [|done]. intros k i Hk. cbn [empty_segment spentImages] in Hk. by rewrite lookup_empty in Hk.
  - destruct Hok as (Hs & Hlk & Hok & _). destruct (IH Hok) as (u & E & Ha & _). exists (join u s). split_and!.
    + cbn [app]. change (flatten (s :: c1 ++ c2)) with (join (flatten (c1 ++ c2)) s). by rewrite E, join_assoc.
    + apply spends_above_join; [done|]. intros k i Hk. pose proof (linked_above _ _ Hs Hlk k i Hk) as Hi. cbn beta in Hi.
      pose proof (seg_end_prefix (flatten c2) u) as Hle. rewrite <- E in Hle. lia.
    + intros ? [= <-] Hne. cbn [join blockInfos]. by destruct (blockInfos u).
Qed.

Lemma entry_count_prefix f0 u amount : map_Forall (fun _ e => 0 <= og_startIndex e) (keyOutputsGlobalIndexes (join f0 u)) ->
  entry_count (keyOutputsGlobalIndexes f0) amount <= entry_count (keyOutputsGlobalIndexes (join f0 u)) amount.
Proof.
  intros Hs. unfold entry_count. rewrite join_lookup. pose proof (Hs amount) as H. rewrite join_lookup in H.
  destruct (keyOutputsGlobalIndexes f0 !! amount) as [e|], (keyOutputsGlobalIndexes u !! amount) as [e'|]; cbn [join_entry] in *; try lia.
  - cbn [og_startIndex og_outputs]. rewrite length_app. lia.
  - specialize (H e' eq_refl). lia.
Qed.

(** ** Leaves above a cache *)

Lemma leaf_above m : heap_ok m -> forall p c, m !! p = Some c -> forall l, lin m p l ->
  exists q l1, is_leaf m q /\ lin m q (l1 ++ l) /\ (children c <> [] -> l1 <> []).
Proof.
  intros Hm. assert (H : forall n p c, m !! p = Some c -> 2 ^ 32 - startIndex (cache_segment c) < Z.of_nat n -> forall l, lin m p l ->
    exists q l1, is_leaf m q /\ lin m q (l1 ++ l) /\ (children c <> [] -> l1 <> [])).
  { induction n as [|n IH]; intros p c Hp Hn l Hl.
    { destruct (heap_lin _ Hm _ _ Hp) as (l' & _ & Hok). destruct (start_fits _ _ Hok) as [_ He]. unfold seg_end in He. lia. }
    destruct (children c) as [|q qs] eqn:Ec; [exists p, []; split_and!; [by exists c|done|done]|].
    destruct (child_parent _ Hm _ _ q Hp) as (cq & Hq & Hpar); [rewrite Ec; left|].
    assert (Hlq : lin m q ((q, cache_segment cq) :: l)) by (by eapply lin_step).
    pose proof (lin_chain _ Hm _ _ Hlq) as Hok. destruct (lin_head _ _ _ Hl) as (c' & l' & Hp' & ->). simplify_eq. cbn [map snd] in Hok.
    destruct (parents_infos _ _ _ Hok) as (Hne & He & _).
    destruct (IH q cq Hq) with (l := (q, cache_segment cq) :: (p, cache_segment c) :: l') as (x & l1 & Hx & Hlx & _); [|done|].
    { unfold seg_end in He. destruct (blockInfos (cache_segment c)); [done|]. cbn [length] in He. lia. }
    exists x, (l1 ++ [(q, cache_segment cq)]). rewrite <- app_assoc. split_and!; [done|done|]. by destruct l1. }
  intros p c Hp. apply (H (Z.to_nat (2 ^ 32 - startIndex (cache_segment c) + 1)) p c Hp). lia.
Qed.

(** A cache is on the chain of a leaf. *)
Lemma prefix_of_leaf st flats p c f0 : tree_ok st -> views st flats -> caches st !! p = Some c -> view (caches st) p f0 ->
  exists k f u, flats !! k = Some f /\ f = join f0 u /\ spends_above f0 u /\ (children c <> [] -> blockInfos u <> []).
Proof.
  intros Ht Hv Hp (l & Hl & <-). pose proof (tree_heap _ Ht) as Hm.
  destruct (leaf_above _ Hm _ _ Hp _ Hl) as (q & l1 & Hq & Hlq & Hne). apply (tree_leaves _ Ht) in Hq.
  apply list_elem_of_lookup in Hq as (k & Hk). destruct (Forall2_lookup_l _ _ _ _ _ Hv Hk) as (f & Hf & Hvf).
  rewrite (view_unique _ _ _ _ Hvf (ex_intro _ _ (conj Hlq eq_refl))) in Hf. clear Hvf f.
  destruct (flatten_prefix (map snd l1) (map snd l)) as (u & Eu & Ha & Hu); [rewrite <- map_app; by eapply lin_chain|]. exists k, (flatten (map snd (l1 ++ l))), u.
  split_and!; [done|by rewrite map_app|done|]. intros Hc. destruct l1 as [|[x s] l1]; [by destruct (Hne Hc)|].
  apply (Hu s); [done|]. destruct (lin_cell _ _ _ _ _ Hlq (list_elem_of_here _ _)) as (cx & Hcx & <-). by eapply heap_blocks.
Qed.

(** ** Adding a block to the chains *)

Local Abbreviation delta := (block_delta cn_fast_hash).

(** The last block of a chain. *)
Definition tip (flat : segment) (h : Hash) : Prop := exists x, last (blockInfos flat) = Some x /\ bi_blockHash x = h.

(** The chain with the block on top. *)
Definition extended (flat : segment) (b : pushed) : segment := join flat (delta flat b).

(** A block that belongs on top of [flat], which some chain of [flats] begins with. *)
Record continues (now : Z) (flats : list segment) (flat : segment) (b : pushed) : Prop := {
  cont_flat : segment_ok flat /\ startIndex flat = 0;
  cont_tip : tip flat (previousBlockHash (new_block b));
  cont_top : on_top cn_fast_hash flat b;
  cont_difficulty : next_difficulty currency (blockInfos flat) (seg_end flat - 1) = Ok (new_difficulty b);
  cont_positive : 0 < new_difficulty b;
  cont_new : Forall (fun f => new_hash b ∉ hashes_of f) flats;
  cont_unspent : unspent_in flat b;
  cont_rules : conforms ops slow_hash currency checkpoints now flat b;
  cont_room : exists f u, f ∈ flats /\ f = join flat u /\ room f b
}.

(** What the result of adding a block says about the chains. *)
Inductive added (now : Z) (b : pushed) (flats : list segment) : AddBlockErrorCode -> list segment -> Prop :=
| added_main main rest :
    flats = main :: rest -> continues now flats main b ->
    added now b flats ADDED_TO_MAIN (extended main b :: rest)
| added_alternative k main flat :
    flats !! 0%nat = Some main -> flats !! k = Some flat -> k <> 0%nat -> continues now flats flat b ->
    work (extended flat b) <= work main ->
    added now b flats ADDED_TO_ALTERNATIVE (<[k := extended flat b]> flats)
| added_switched k main flat :
    flats !! 0%nat = Some main -> flats !! k = Some flat -> k <> 0%nat -> continues now flats flat b ->
    work main < work (extended flat b) ->
    added now b flats ADDED_TO_ALTERNATIVE_AND_SWITCHED (<[k := main]> (<[0%nat := extended flat b]> flats))
| added_fork k flat flat0 upper :
    flats !! k = Some flat -> flat = join flat0 upper -> blockInfos upper <> [] -> spends_above flat0 upper ->
    continues now flats flat0 b ->
    added now b flats ADDED_TO_ALTERNATIVE (flats ++ [extended flat0 b]).

Lemma on_top_prefix c c0 u b : chain_ok c -> chain_ok c0 -> flatten c = join (flatten c0) u -> room (flatten c) b ->
  Block.Block.getBlockIndex (new_block b) = seg_end (flatten c0) ->
  Block.Block.getBlockHash cn_fast_hash (new_block b) = Ok (new_hash b) ->
  Block.Block.getTransactionBinaryArray (baseTransaction (new_block b)) = Ok (new_base b) ->
  on_top cn_fast_hash (flatten c0) b.
Proof.
  intros Hc Hc0 E [R1 R2 _] Hi Hh Hb. split; try done.
  - pose proof (seg_end_prefix (flatten c0) u) as H. rewrite <- E in H. lia.
  - intros amount. rewrite sel_placed_all. specialize (R2 amount). rewrite E in R2.
    pose proof (entry_count_prefix (flatten c0) u amount) as H. rewrite <- E in H at 1.
    assert (Hs : map_Forall (fun _ e => 0 <= og_startIndex e) (keyOutputsGlobalIndexes (flatten c))).
    { intros a e He. by rewrite (flatten_starts _ Hc _ _ He). }
    specialize (H Hs). lia.
Qed.

Lemma tip_prefix f0 u i h x : startIndex f0 = 0 -> seg_end f0 = i + 1 -> 0 <= i ->
  blockInfos (join f0 u) !! Z.to_nat i = Some x -> bi_blockHash x = h -> tip f0 h.
Proof.
  intros H0 He Hi Hx Hh. exists x. split; [|done]. cbn [join blockInfos] in Hx. unfold seg_end in He.
  rewrite lookup_app_l in Hx by lia. rewrite last_lookup, <- Hx. f_equal. lia.
Qed.

Lemma work_view st p c f : heap_ok (caches st) -> caches st !! p = Some c -> view (caches st) p f ->
  getCurrentCumulativeDifficulty_of st p = Ok (work f).
Proof.
  intros Hm Hp (l & Hl & <-). destruct (lin_head _ _ _ Hl) as (c' & l' & Hp' & ->). simplify_eq.
  unfold getCurrentCumulativeDifficulty_of, getCurrentCumulativeDifficulty, last_block, work. rewrite (deref_ok _ _ _ Hp). cbn [obind map snd].
  change (blockInfos (flatten (cache_segment c :: map snd l'))) with (blockInfos (flatten (map snd l')) ++ blockInfos (cache_segment c)).
  rewrite last_app. destruct (last (blockInfos (cache_segment c))) eqn:E; [done|]. apply last_None in E. by destruct (heap_blocks _ Hm _ _ Hp).
Qed.

Lemma views_head st flats p : views st flats -> main_leaf st = Ok p -> exists f rest, flats = f :: rest /\ view (caches st) p f /\ head (chainsLeaves st) = Some p.
Proof.
  unfold views, main_leaf, vec_at. intros Hv Hp. destruct (chainsLeaves st) as [|x leaves]; [done|]. injection Hp as ->.
  inversion Hv as [|? f ? rest Hf]; subst. by exists f, rest.
Qed.

(** The views after the chain of one leaf has changed. *)
Lemma views_update (R R' : Z -> segment -> Prop) leaves flats k p f f' : Forall2 R leaves flats -> NoDup leaves ->
  leaves !! k = Some p -> flats !! k = Some f -> R' p f' -> (forall q g, q <> p -> R q g -> R' q g) ->
  Forall2 R' leaves (<[k := f']> flats).
Proof.
  intros Hv Hnd Hk Hf Hp Hq. apply Forall2_same_length_lookup_2.
  - rewrite length_insert. by eapply Forall2_length.
  - intros j q g Hj Hg. rewrite list_lookup_insert in Hg. case_decide as E.
    + destruct E as [-> _]. simplify_eq. done.
    + apply Hq; [|by eapply Forall2_lookup_lr]. intros ->. apply E.
      assert (j = k) as -> by (by eapply NoDup_lookup). split; [done|]. by eapply lookup_lt_Some.
Qed.

(** ** Switching to another leaf *)

Lemma switch_leaves st flats k main p fm f : tree_ok st -> views st flats -> chainsLeaves st !! 0%nat = Some main ->
  chainsLeaves st !! k = Some p -> flats !! 0%nat = Some fm -> flats !! k = Some f ->
  swap_leaf k (chainsLeaves st) = Ok (<[k := main]> (<[0%nat := p]> (chainsLeaves st))) /\
  tree_ok (set_leaves (<[k := main]> (<[0%nat := p]> (chainsLeaves st))) st) /\
  views (set_leaves (<[k := main]> (<[0%nat := p]> (chainsLeaves st))) st) (<[k := fm]> (<[0%nat := f]> flats)).
Proof.
  intros Ht Hv H0 Hk Hf0 Hfk. split_and!.
  - unfold swap_leaf. by rewrite H0, Hk.
  - pose proof (Permutation_insert_swap _ _ _ _ _ H0 Hk) as Hperm. destruct Ht as [T1 T2 T3 [T4 T4']].
    split; cbn [set_leaves caches next_cache chainsLeaves chainsStorage]; try done. split; [by rewrite Hperm|].
    intros q. by rewrite Hperm.
  - unfold views in *. cbn [set_leaves chainsLeaves caches]. apply Forall2_insert; [apply Forall2_insert; [done|]|];
      by eapply Forall2_lookup_lr.
Qed.

Lemma index_of_nodup l k p : NoDup l -> l !! k = Some p -> index_of p l = k.
Proof.
  intros Hnd Hk. eapply NoDup_lookup; [exact Hnd| |exact Hk]. apply index_of_lookup. by eapply list_elem_of_lookup_2.
Qed.

(** The steps of [place_on_leaf] when the extended chain is heavier. *)
Lemma switch_ok st flats k main p fm f schedules now spent r st' : tree_ok st -> views st flats ->
  chainsLeaves st !! 0%nat = Some main -> chainsLeaves st !! k = Some p -> flats !! 0%nat = Some fm -> flats !! k = Some f ->
  (let! _ := assert_that (negb (index_of p (chainsLeaves st) =? length (chainsStorage st))%nat) "endpointIndex != chainsStorage.size()" in
   let! _ := assert_that (negb (index_of p (chainsLeaves st) =? 0)%nat) "endpointIndex != 0" in
   let! leaves := swap_leaf (index_of p (chainsLeaves st)) (chainsLeaves st) in
   let! st := updateMainChainSet (set_leaves leaves st) in
   let! st := updateBlockMedianSize currency st in
   let! st := checkAndRemoveInvalidPoolTransactions ops currency checkpoints now spent st in
   let! st := copyTransactionsToPool ops currency checkpoints hash_order (S (size (caches st))) schedules now main st in
   Ok (ADDED_TO_ALTERNATIVE_AND_SWITCHED, st)) = Ok (r, st') ->
  tree_ok st' /\ main_ok st' /\ views st' (<[k := fm]> (<[0%nat := f]> flats)) /\ r = ADDED_TO_ALTERNATIVE_AND_SWITCHED.
Proof.
  intros Ht Hv H0 Hk Hf0 Hfk H. rewrite (index_of_nodup _ _ _ (proj1 (tree_leaves _ Ht)) Hk) in H.
  apply obind_Ok in H as (? & _ & H). apply obind_Ok in H as (? & _ & H). apply obind_Ok in H as (leaves & Hsw & H).
  destruct (switch_leaves st _ k main p fm f Ht Hv H0 Hk Hf0 Hfk) as (Esw & Ht2 & Hv2). rewrite Esw in Hsw. injection Hsw as <-.
  apply obind_Ok in H as (st3 & H3 & H). apply updateMainChainSet_ok in H3 as (Ht3 & Hm3 & Ec3 & El3); [|done].
  apply obind_Ok in H as (st4 & H4 & H). apply obind_Ok in H as (st5 & H5 & H). apply obind_Ok in H as (st6 & H6 & H). injection H as <- <-.
  apply updateBlockMedianSize_same in H4. apply prune_same in H5. apply copyTransactionsToPool_same in H6.
  pose proof (same_tree_trans _ _ _ H4 (same_tree_trans _ _ _ H5 H6)) as Hst. split_and!; [by eapply tree_ok_same|by eapply main_ok_same| |done].
  eapply views_same; [exact Hst|]. unfold views in *. by rewrite Ec3, El3.
Qed.

Section Place.
Context (st : core) (flats : list segment) (block : BlockTemplate) (raw : RawBlock) (h : Hash) (base : BinaryArray) (now0 : Z).
Context (b : checked_block) (cell : cache) (c : chain).
Hypothesis Ht : tree_ok st.
Hypothesis Hmain : main_ok st.
Hypothesis Hv : views st flats.
Hypothesis Hpass : passed ops slow_hash currency checkpoints st now0 block h raw b cell c.
Hypothesis Hhash : Block.Block.getBlockHash cn_fast_hash block = Ok h.
Hypothesis Hbase : Block.Block.getTransactionBinaryArray (baseTransaction block) = Ok base.
Local Abbreviation pb := (pushed_of block raw h base b).
Local Abbreviation p := (checked_cache b).
Local Abbreviation prev := (checked_previous b).
Hypothesis Hroom : Forall (fun f => room f pb) flats.
Hypothesis Hpos : 0 < checked_difficulty b.
Hypothesis Hw : windows_ok currency.

(** Where the previous block is. *)
Lemma place_setup : exists l, lin (caches st) p ((p, cache_segment cell) :: l) /\ c = cache_segment cell :: map snd l /\
  view (caches st) p (flatten c) /\ chain_ok c /\ segment_ok (cache_segment cell) /\
  startIndex (cache_segment cell) <= prev < seg_end (cache_segment cell) /\
  checked_onTop b = (seg_end (cache_segment cell) - 1 =? prev) /\
  exists x, blockInfos (flatten c) !! Z.to_nat prev = Some x /\ bi_blockHash x = previousBlockHash block.
Proof.
  pose proof (tree_heap _ Ht) as Hm. destruct Hpass as [_ P1 P2 P3 (top & P4 & P4') _ _ _ _ _ _ _ _].
  destruct (heap_view _ _ _ Hm P1) as (l & Hl & Hvw). exists l. split; [done|]. rewrite (chain_of_eq _ _ _ Hm Hl) in P2.
  injection P2 as <-. cbn [map snd] in *. pose proof (lin_chain _ Hm _ _ Hl) as Hok. cbn [map snd] in Hok.
  cbn [chain_getBlockIndex] in P3. cbn [chain_top] in P4. destruct (getBlockIndex_range _ _ _ (proj1 Hok) P3) as (Hr & x & Hx & Hxh).
  rewrite getTopBlockIndex_ok in P4; [|apply Hok|by eapply heap_blocks]. injection P4 as <-.
  split_and!; try done; [apply Hok|lia|lia|]. exists x. split; [|done]. destruct (start_fits _ _ Hok).
  rewrite infos_lookup by (done || lia). by rewrite (proj2 (Z.ltb_ge _ _)) by lia.
Qed.

Lemma block_index : prev + 1 < 2 ^ 32 -> 0 <= prev -> Block.Block.getBlockIndex block = prev + 1.
Proof. intros H1 H2. rewrite (passed_index _ _ _ _ _ _ _ _ _ _ _ _ Hpass). apply wrap_small. unfold fits. lia. Qed.

(** The chain up to the previous block. *)
Lemma place_on_top c0 u k f : chain_ok c0 -> flats !! k = Some f -> f = join (flatten c0) u -> seg_end (flatten c0) = prev + 1 ->
  on_top cn_fast_hash (flatten c0) pb.
Proof.
  intros Hc0 Hk Hf He. pose proof (proj1 (Forall_lookup _ _) Hroom _ _ Hk) as R.
  destruct (Forall2_lookup_r _ _ _ _ _ Hv Hk) as (q & _ & lq & Hlq & Eq). destruct place_setup as (l & _ & _ & _ & _ & Hs & Hr & _).
  pose proof (ok_start _ Hs). pose proof (seg_end_prefix (flatten c0) u) as Hle. rewrite <- Hf in Hle. pose proof (room_index _ _ R).
  apply (on_top_prefix (map snd lq) c0 u); [by eapply lin_chain, Hlq; apply Ht|done|by rewrite Eq|by rewrite Eq| |done|done].
  cbn [new_block pushed_of]. rewrite block_index by lia. done.
Qed.

Lemma place_tip c0 u : chain_ok c0 -> flatten c = join (flatten c0) u -> seg_end (flatten c0) = prev + 1 ->
  tip (flatten c0) (previousBlockHash block).
Proof.
  intros Hc0 E He. destruct place_setup as (l & _ & _ & _ & _ & Hs & Hr & _ & x & Hx & Hxh). pose proof (ok_start _ Hs).
  rewrite E in Hx. eapply (tip_prefix _ u prev); [by apply flatten_ok|done|lia|done|done].
Qed.

Lemma place_new : Forall (fun f => new_hash pb ∉ hashes_of f) flats.
Proof.
  destruct flats as [|f fs] eqn:E; [constructor|]. rewrite <- E in *. destruct (findSegment_exact st flats Ht Hv h) as (r & Hr & Hn); [by rewrite E|].
  rewrite (passed_new _ _ _ _ _ _ _ _ _ _ _ _ Hpass) in Hr. injection Hr as <-. by apply Hn.
Qed.

Lemma place_continues c0 u u' k f : chain_ok c0 -> flats !! k = Some f -> f = join (flatten c0) u ->
  flatten c = join (flatten c0) u' -> seg_end (flatten c0) = prev + 1 -> unspent_in (flatten c0) pb -> continues now0 flats (flatten c0) pb.
Proof.
  intros Hc0 Hk Hf Hc He Hun. destruct place_setup as (l & _ & Ec & _ & Hok & Hs & Hr & _). pose proof (ok_start _ Hs).
  assert (Hfl : seg_end (flatten c) = seg_end (cache_segment cell)) by (rewrite Ec in Hok |- *; by rewrite (flatten_end _ _ Hok)).
  assert (Hne : forall s, head c = Some s -> blockInfos s <> []).
  { rewrite Ec. intros ? [= <-]. apply (heap_blocks _ (tree_heap _ Ht) _ _ (passed_cell _ _ _ _ _ _ _ _ _ _ _ _ Hpass)). }
  assert (Hin : blockInfos (flatten c0) = take (Z.to_nat (prev + 1)) (blockInfos (flatten c))).
  { rewrite Hc. cbn [join blockInfos]. destruct (flatten_ok _ Hc0) as [_ H0]. unfold seg_end in He. rewrite H0 in He.
    by rewrite take_app_le, take_ge by lia. }
  pose proof (place_on_top c0 u k f Hc0 Hk Hf He) as Hot. split; [by apply flatten_ok|by eapply place_tip|done| |done|apply place_new|done| |].
  - cbn [pushed_of new_difficulty]. rewrite <- (passed_difficulty _ _ _ _ _ _ _ _ _ _ _ _ Hpass), getDifficultyForNextBlock_flat by (done || lia).
    rewrite He, Hin. f_equal. lia.
  - eapply passed_conforms; eauto; [lia|]. pose proof (top_fits _ _ _ Hot). lia.
  - exists f, u. split_and!; [by eapply list_elem_of_lookup_2|done|]. by apply (proj1 (Forall_lookup _ _) Hroom k).
Qed.

(** *** On a leaf *)

Lemma place_leaf_ok schedules now r st' : checked_onTop b = true -> children cell = [] ->
  place_on_leaf ops currency checkpoints hash_order schedules now block raw b st = Ok (r, st') ->
  tree_ok st' /\ main_ok st' /\ exists flats', views st' flats' /\ added now0 pb flats r flats'.
Proof.
  intros Htop Hleaf H. pose proof (tree_heap _ Ht) as Hm. destruct place_setup as (l & Hl & Ec & Hvp & Hok & Hs & Hr & Et & _).
  rewrite Htop in Et. symmetry in Et. apply Z.eqb_eq in Et.
  assert (Hend : seg_end (flatten c) = prev + 1) by (rewrite Ec in Hok |- *; rewrite (flatten_end _ _ Hok); lia).
  assert (Hpl : p ∈ chainsLeaves st) by (apply (tree_leaves _ Ht); exists cell; by rewrite (passed_cell _ _ _ _ _ _ _ _ _ _ _ _ Hpass)).
  apply list_elem_of_lookup in Hpl as (k & Hk). destruct (Forall2_lookup_l _ _ _ _ _ Hv Hk) as (f & Hf & Hvf).
  rewrite (view_unique _ _ _ _ Hvf Hvp) in Hf. clear Hvf f.
  assert (Hpre : flatten c = join (flatten c) (empty_segment 0)) by (by rewrite join_empty).
  pose proof (place_on_top c _ k _ Hok Hf Hpre Hend) as Hot. pose proof (place_continues c _ _ k _ Hok Hf Hpre Hpre Hend) as Hcont.
  unfold place_on_leaf in H. apply obind_Ok in H as (main & Hmn & H). apply obind_Ok in H as (st1 & H1 & H).
  destruct (views_head _ _ _ Hv Hmn) as (fm & rest & -> & Hvm & Hhd).
  destruct (push_leaf ops st p pb st1 (flatten c) Ht) as (Ht1 & Hm1 & Hvp1 & Hvo1 & El1 & Hun);
    [exists cell; by rewrite (passed_cell _ _ _ _ _ _ _ _ _ _ _ _ Hpass)|done|done|exact H1|].
  specialize (Hcont Hun). assert (Hv1 : views st1 (<[k := extended (flatten c) pb]> (fm :: rest))).
  { unfold views. rewrite El1. eapply (views_update (view (caches st)) (view (caches st1))); [exact Hv|apply Ht|exact Hk|exact Hf|done|done]. }
  assert (Hk0 : p = main <-> k = 0%nat).
  { rewrite head_lookup in Hhd. split; [|intros ->; congruence]. intros Ep.
    rewrite <- Ep in Hhd. exact (NoDup_lookup _ _ _ _ (proj1 (tree_leaves _ Ht)) Hk Hhd). }
  destruct (Z.eqb_spec p main) as [Ep|Ep].
  - apply obind_Ok in H as (st2 & H2 & H). apply obind_Ok in H as (st3 & H3 & H). injection H as <- <-.
    apply updateBlockMedianSize_same in H2. apply prune_same in H3. pose proof (same_tree_trans _ _ _ H2 H3) as Hst.
    rewrite (proj1 Hk0 Ep) in *. injection Hf as ->. cbn [insert list_insert] in Hv1. split_and!.
    + by eapply tree_ok_same.
    + eapply main_ok_same; [exact Hst|]. by apply Hm1.
    + eexists. split; [by eapply views_same|]. by eapply added_main.
  - assert (Hkn : k <> 0%nat) by tauto. assert (Hvm1 : view (caches st1) main fm) by (apply Hvo1; [congruence|done]).
    assert (Hpc1 : exists cp, caches st1 !! p = Some cp) by (destruct Hvp1 as (lp & Hlp & _); destruct (lin_head _ _ _ Hlp) as (cp & _ & ? & _); eauto).
    assert (Hmc1 : exists cm, caches st1 !! main = Some cm) by (destruct Hvm1 as (lm & Hlm & _); destruct (lin_head _ _ _ Hlm) as (cm & _ & ? & _); eauto).
    destruct Hpc1 as (cp & Hcp), Hmc1 as (cm & Hcm).
    rewrite (work_view _ _ _ _ (tree_heap _ Ht1) Hcp Hvp1), (work_view _ _ _ _ (tree_heap _ Ht1) Hcm Hvm1) in H. cbn [obind] in H.
    fold (extended (flatten c) pb) in H. destruct (Z.ltb_spec (work fm) (work (extended (flatten c) pb))) as [Hlt|Hlt].
    + eapply (switch_ok st1 _ k main p fm (extended (flatten c) pb)) in H as (Ht' & Hm' & Hvs & ->);
        [|done|done|by rewrite El1, <- head_lookup|by rewrite El1|by rewrite list_lookup_insert_ne by done|
         apply list_lookup_insert_eq; by eapply lookup_lt_Some].
      split_and!; [done|done|]. eexists. split; [exact Hvs|].
      rewrite (list_insert_insert_ne _ 0 k) by done. rewrite list_insert_insert_eq. by eapply added_switched.
    + injection H as <- <-. split_and!; [done|by apply Hm1|]. eexists. split; [exact Hv1|]. by eapply added_alternative.
Qed.

(** *** A fork on top of a segment with children *)

Lemma place_fork_ok r st' : checked_onTop b = true -> children cell <> [] ->
  (let! st := fork_at ops p block raw b st in
   let! st := updateMainChainSet st in
   let! st := updateBlockMedianSize currency st in
   Ok (ADDED_TO_ALTERNATIVE, st)) = Ok (r, st') ->
  tree_ok st' /\ main_ok st' /\ exists flats', views st' flats' /\ added now0 pb flats r flats'.
Proof.
  intros Htop Hnl H. destruct place_setup as (l & Hl & Ec & Hvp & Hok & Hs & Hr & Et & _).
  rewrite Htop in Et. symmetry in Et. apply Z.eqb_eq in Et.
  assert (Hend : seg_end (flatten c) = prev + 1) by (rewrite Ec in Hok |- *; rewrite (flatten_end _ _ Hok); lia).
  pose proof (passed_cell _ _ _ _ _ _ _ _ _ _ _ _ Hpass) as Hcell.
  destruct (prefix_of_leaf st flats p cell _ Ht Hv Hcell Hvp) as (k & f & u & Hk & Hf & Ha & Hu).
  assert (Hpre : flatten c = join (flatten c) (empty_segment 0)) by (by rewrite join_empty).
  pose proof (place_on_top c u k f Hok Hk Hf Hend) as Hot. pose proof (place_continues c u _ k f Hok Hk Hf Hpre Hend) as Hcont.
  apply obind_Ok in H as (st1 & H1 & H). pose proof (top_fits _ _ _ Hot) as Hfit. pose proof (ok_start _ Hs) as H0.
  assert (Hst : u32 (prev + 1) = seg_end (flatten c)) by (rewrite wrap_small by (unfold fits; lia); lia).
  change (fork_at ops p block raw b st) with (fork_new ops p (u32 (prev + 1)) pb st) in H1. rewrite Hst in H1.
  destruct (fork_new_ok ops st p cell pb st1 _ Ht Hcell Hnl Hvp Hot H1) as (Ht1 & El1 & Hvn & Hvo & Hun). specialize (Hcont Hun).
  apply obind_Ok in H as (st2 & H2 & H). apply updateMainChainSet_ok in H2 as (Ht2 & Hm2 & Ec2 & El2); [|done].
  apply obind_Ok in H as (st3 & H3 & H). injection H as <- <-. apply updateBlockMedianSize_same in H3.
  split_and!; [by eapply tree_ok_same|by eapply main_ok_same|]. eexists. split; [|eapply (added_fork _ _ _ k f (flatten c) u); eauto].
  eapply views_same; [exact H3|]. unfold views. rewrite Ec2, El2, El1. apply Forall2_app; [|constructor; [done|constructor]].
  eapply Forall2_impl; [exact Hv|]. intros q g. apply Hvo.
Qed.

(** *** A fork below the top *)

Lemma place_split_state r st' : startIndex (cache_segment cell) < prev + 1 < seg_end (cache_segment cell) -> prev + 1 < 2 ^ 32 -> 0 <= prev ->
  (let! (upperSegment, st) := cache_split p (u32 (prev + 1)) st in
   let! upper := deref st upperSegment in
   let! _ := assert_that (0 <? getBlockCount (cache_segment upper)) "upperSegment->getBlockCount() > 0" in
   let! lower := deref st p in
   let! _ := assert_that (0 <? getBlockCount (cache_segment lower)) "cache->getBlockCount() > 0" in
   let! st :=
     if is_empty (children upper) then
       let found := index_of p (chainsLeaves st) in
       let! _ := assert_that (found <? length (chainsLeaves st))%nat "found != chainsLeaves.end()" in
       Ok (set_leaves (<[found := upperSegment]> (chainsLeaves st)) st)
     else Ok st in
   let st := set_chainsStorage (chainsStorage st ++ [upperSegment]) st in
   let! st := fork_at ops p block raw b st in
   let! st := updateMainChainSet st in
   Ok (ADDED_TO_ALTERNATIVE, st)) = Ok (r, st') ->
  exists lower upper m' st3, split (cache_segment cell) (prev + 1) = Ok (lower, upper) /\
    (forall q, m' !! q =
      if decide (q = next_cache st) then Some (mkCache upper (Some p) (children cell)) else
      if decide (q = p) then Some (mkCache lower (parent cell) [next_cache st]) else
      if decide (q ∈ children cell) then setParent (Some (next_cache st)) <$> caches st !! q else caches st !! q) /\
    fork_at ops p block raw b (after_split p (is_empty (children cell)) (next_cache st)
      (mkCore m' (next_cache st + 1) (chainsLeaves st) (chainsStorage st) (mainChainSet st) (core_medianSize st) (core_pool st))) = Ok st3 /\
    updateMainChainSet st3 = Ok st' /\ r = ADDED_TO_ALTERNATIVE.
Proof.
  intros Hi Hfit H0 H. pose proof (passed_cell _ _ _ _ _ _ _ _ _ _ _ _ Hpass) as Hcell. rewrite wrap_small in H by (unfold fits; lia).
  destruct (cache_split_eq st p cell (prev + 1) Ht Hcell Hi) as (lower & upper & m' & Esp & Es & Hm'). rewrite Esp in H. cbn [obind] in H.
  set (st1 := mkCore m' _ _ _ _ _ _) in H. pose proof (tree_fresh _ Ht) as Hnew.
  assert (Hup : caches st1 !! next_cache st = Some (mkCache upper (Some p) (children cell))) by (cbn [st1 caches]; by rewrite Hm', decide_True).
  assert (Hlo : caches st1 !! p = Some (mkCache lower (parent cell) [next_cache st])).
  { cbn [st1 caches]. rewrite Hm', decide_False by congruence. by rewrite decide_True. }
  rewrite (deref_ok _ _ _ Hup) in H. cbn [obind] in H. apply obind_Ok in H as (? & _ & H). rewrite (deref_ok _ _ _ Hlo) in H. cbn [obind] in H.
  apply obind_Ok in H as (? & _ & H). apply obind_Ok in H as (st2 & H2 & H). cbv zeta in H. cbn [children] in H2.
  assert (E2 : set_chainsStorage (chainsStorage st2 ++ [next_cache st]) st2 = after_split p (is_empty (children cell)) (next_cache st) st1).
  { unfold after_split. destruct (is_empty (children cell)); [apply obind_Ok in H2 as (? & _ & H2)|]; by injection H2 as <-. }
  rewrite E2 in H. apply obind_Ok in H as (st3 & H3 & H). apply obind_Ok in H as (st4 & H4 & H). injection H as <- <-. eauto 10.
Qed.

Lemma split_views lower upper m' : startIndex (cache_segment cell) < prev + 1 < seg_end (cache_segment cell) ->
  split (cache_segment cell) (prev + 1) = Ok (lower, upper) ->
  (forall q, m' !! q =
    if decide (q = next_cache st) then Some (mkCache upper (Some p) (children cell)) else
    if decide (q = p) then Some (mkCache lower (parent cell) [next_cache st]) else
    if decide (q ∈ children cell) then setParent (Some (next_cache st)) <$> caches st !! q else caches st !! q) ->
  views (after_split p (is_empty (children cell)) (next_cache st)
    (mkCore m' (next_cache st + 1) (chainsLeaves st) (chainsStorage st) (mainChainSet st) (core_medianSize st) (core_pool st))) flats.
Proof.
  intros Hi Es Hm'. pose proof (passed_cell _ _ _ _ _ _ _ _ _ _ _ _ Hpass) as Hcell. destruct (tree_leaves _ Ht) as [Hnd Hlv].
  pose proof (split_views_other st p cell (prev + 1) lower upper m' Ht Hcell Hi Es Hm') as Hvo.
  pose proof (split_views_new st p cell (prev + 1) lower upper m' Ht Hcell Hi Es Hm') as Hvn.
  unfold views, after_split. destruct (is_empty (children cell)) eqn:Ee; cbn [set_leaves set_chainsStorage chainsLeaves caches].
  - apply is_empty_true in Ee. assert (Hpl : p ∈ chainsLeaves st) by (apply Hlv; by exists cell). apply index_of_lookup in Hpl as Hix.
    apply Forall2_same_length_lookup_2; [rewrite length_insert; by eapply Forall2_length|]. intros j q g Hj Hg.
    rewrite list_lookup_insert in Hj. case_decide as E.
    + destruct E as [<- _]. injection Hj as <-. apply Hvn. by eapply Forall2_lookup_lr.
    + apply Hvo; [|by eapply Forall2_lookup_lr]. intros ->. apply E. assert (index_of p (chainsLeaves st) = j) as -> by (by eapply NoDup_lookup).
      split; [done|]. by eapply lookup_lt_Some.
  - apply Forall2_same_length_lookup_2; [by eapply Forall2_length|]. intros j q g Hj Hg. apply list_elem_of_lookup_2 in Hj as Hq.
    apply Hvo; [|by eapply Forall2_lookup_lr]. intros ->. apply Hlv in Hq as (c' & Hc' & E).
    rewrite Hcell in Hc'. injection Hc' as <-. by rewrite E in Ee.
Qed.

Lemma place_split_ok r st' : checked_onTop b = false ->
  (let! (upperSegment, st) := cache_split p (u32 (prev + 1)) st in
   let! upper := deref st upperSegment in
   let! _ := assert_that (0 <? getBlockCount (cache_segment upper)) "upperSegment->getBlockCount() > 0" in
   let! lower := deref st p in
   let! _ := assert_that (0 <? getBlockCount (cache_segment lower)) "cache->getBlockCount() > 0" in
   let! st :=
     if is_empty (children upper) then
       let found := index_of p (chainsLeaves st) in
       let! _ := assert_that (found <? length (chainsLeaves st))%nat "found != chainsLeaves.end()" in
       Ok (set_leaves (<[found := upperSegment]> (chainsLeaves st)) st)
     else Ok st in
   let st := set_chainsStorage (chainsStorage st ++ [upperSegment]) st in
   let! st := fork_at ops p block raw b st in
   let! st := updateMainChainSet st in
   Ok (ADDED_TO_ALTERNATIVE, st)) = Ok (r, st') ->
  tree_ok st' /\ main_ok st' /\ exists flats', views st' flats' /\ added now0 pb flats r flats'.
Proof.
  intros Htop H. destruct place_setup as (l & Hl & Ec & Hvp & Hok & Hs & Hr & Et & _). rewrite Htop in Et. symmetry in Et. apply Z.eqb_neq in Et.
  pose proof (passed_cell _ _ _ _ _ _ _ _ _ _ _ _ Hpass) as Hcell. pose proof (ok_start _ Hs) as H0. pose proof (ok_end _ Hs) as H1.
  assert (Hi : startIndex (cache_segment cell) < prev + 1 < seg_end (cache_segment cell)) by lia.
  apply place_split_state in H as (lower & upper & m' & st3 & Es & Hm' & H3 & H4 & ->); [|done|lia|lia].
  pose proof (split_tree_ok st p cell (prev + 1) lower upper m' Ht Hcell Hi Es Hm') as Ht2. set (st2 := after_split _ _ _ _) in *.
  assert (Hc2 : caches st2 = m') by (unfold st2, after_split; by destruct (is_empty (children cell))).
  destruct (split_views_new st p cell (prev + 1) lower upper m' Ht Hcell Hi Es Hm' _ Hvp) as (Hvn & f0 & u0 & Hvp0 & Ef & He0 & Hu0 & Ha0).
  assert (Hv2 : views st2 flats) by (by eapply split_views).
  destruct (prefix_of_leaf st flats p cell _ Ht Hv Hcell Hvp) as (k & f & u & Hk & Hf & Ha & _).
  assert (Hf0 : f = join f0 (join u0 u)) by (by rewrite Hf, Ef, join_assoc).
  destruct (Hvp0) as (l0 & Hl0 & El0). rewrite <- Hc2 in Hl0. pose proof (lin_chain _ (tree_heap _ Ht2) _ _ Hl0) as Hok0. rewrite <- El0 in *.
  pose proof (place_on_top _ _ k f Hok0 Hk Hf0 He0) as Hot. pose proof (place_continues _ _ _ k f Hok0 Hk Hf0 Ef He0) as Hcont.
  change (fork_at ops p block raw b st2) with (fork_new ops p (u32 (prev + 1)) pb st2) in H3.
  rewrite wrap_small, <- He0 in H3 by (unfold fits; lia). rewrite <- Hc2 in Hvp0.
  assert (Hlo : caches st2 !! p = Some (mkCache lower (parent cell) [next_cache st])).
  { pose proof (tree_fresh _ Ht) as Hnew. rewrite Hc2, Hm', decide_False by congruence. by rewrite decide_True. }
  destruct (fork_new_ok ops st2 p _ pb st3 _ Ht2 Hlo ltac:(done) Hvp0 Hot H3) as (Ht3 & El3 & Hvn3 & Hvo3 & Hun). specialize (Hcont Hun).
  apply updateMainChainSet_ok in H4 as (Ht4 & Hm4 & Ec4 & El4); [|done]. split_and!; [done|done|]. eexists. split.
  - unfold views. rewrite Ec4, El4, El3. apply Forall2_app; [|constructor; [done|constructor]].
    eapply Forall2_impl; [exact Hv2|]. intros q g. apply Hvo3.
  - eapply (added_fork _ _ _ k f _ (join u0 u)); eauto; [cbn [join blockInfos]; by destruct (blockInfos u0)|].
    apply spends_above_join; [done|]. apply (spends_above_trans _ u0). by rewrite <- Ef.
Qed.


Lemma place_block_ok schedules now r st' :
  place_block ops currency checkpoints hash_order schedules now block raw b st = Ok (r, st') ->
  tree_ok st' /\ main_ok st' /\ exists flats', views st' flats' /\ added now0 pb flats r flats'.
Proof.
  intros H. unfold place_block in H. destruct (checked_onTop b) eqn:Et.
  - apply obind_Ok in H as (count & Hc & H). unfold getChildCount in Hc. rewrite (deref_ok _ _ _ (passed_cell _ _ _ _ _ _ _ _ _ _ _ _ Hpass)) in Hc.
    injection Hc as <-. destruct (Z.eqb_spec (Z.of_nat (length (children cell))) 0) as [E|E].
    + eapply place_leaf_ok; [done| |exact H]. apply nil_length_inv. lia.
    + eapply place_fork_ok; [done| |exact H]. intros En. by rewrite En in E.
  - by eapply place_split_ok.
Qed.

End Place.

(** ** The difficulty of a pushed block is positive *)

Lemma push_positive p b st st' : push_new ops p b st = Ok st' -> 0 < new_difficulty b.
Proof.
  unfold push_new, cache_pushBlock. intros H. apply obind_Ok in H as ([|s parents] & _ & H); [done|].
  apply obind_Ok in H as (s' & H & _). unfold doPushBlock in H. apply obind_Ok in H as (? & _ & H). apply obind_Ok in H as (? & Hd & _).
  unfold assert_that in Hd. case_if_in Hd; [|done]. by bool_prop.
Qed.

Lemma fork_positive p b st st' block raw : fork_at ops p block raw b st = Ok st' -> 0 < checked_difficulty b.
Proof.
  unfold fork_at, createBlockchainCache, allocate. intros H. apply obind_Ok in H as (st1 & _ & H).
  exact (push_positive _ (pushed_of block raw [] [] b) _ _ H).
Qed.

Lemma place_positive schedules now block raw b st r st' :
  place_block ops currency checkpoints hash_order schedules now block raw b st = Ok (r, st') -> 0 < checked_difficulty b.
Proof.
  unfold place_block. intros H. destruct (checked_onTop b).
  - apply obind_Ok in H as (count & _ & H). case_if_in H.
    + unfold place_on_leaf in H. apply obind_Ok in H as (? & _ & H). apply obind_Ok in H as (st1 & H & _).
      exact (push_positive _ (pushed_of block raw [] [] b) _ _ H).
    + apply obind_Ok in H as (st1 & H & _). by eapply fork_positive.
  - apply obind_Ok in H as ([upper st1] & _ & H). apply obind_Ok in H as (? & _ & H). apply obind_Ok in H as (? & _ & H).
    apply obind_Ok in H as (? & _ & H). apply obind_Ok in H as (? & _ & H). apply obind_Ok in H as (? & _ & H). cbv zeta in H.
    apply obind_Ok in H as (? & H & _). by eapply fork_positive.
Qed.

(** ** [addBlock] *)

(** Whatever the block turns out to need, there is room for it on every chain. *)
Definition room_for (schedules : list (list event)) (now : Z) (block : BlockTemplate) (raw : RawBlock) (st : core)
    (flats : list segment) : Prop :=
  forall h base b, Block.Block.getBlockHash cn_fast_hash block = Ok h ->
    check_block ops slow_hash currency checkpoints schedules now block h raw st = Ok (st, inl b) ->
    Forall (fun f => room f (pushed_of block raw h base b)) flats.

Lemma addBlock_chains schedules pool_schedules now block raw st flats code message st' :
  windows_ok currency -> tree_ok st -> main_ok st -> views st flats -> room_for schedules now block raw st flats ->
  addBlock_cached ops slow_hash currency checkpoints hash_order schedules pool_schedules now block raw st = Ok (code, message, st') ->
  tree_ok st' /\ main_ok st' /\
  ((same_tree st st' /\ message = None /\ added_code code = false) \/
   exists r b flats', code = AddBlock r /\ new_block b = block /\ new_raw b = raw /\ views st' flats' /\ added now b flats r flats').
Proof.
  intros Hw Ht Hm Hv Hroom H. unfold addBlock_cached in H. apply obind_Ok in H as (h & Hh & H).
  apply obind_Ok in H as ([st1 [b|e]] & Hc & H).
  - pose proof Hc as Hc'. apply check_block_passed in Hc' as (-> & cell & c & Hpass).
    destruct (passed_base _ _ _ _ _ _ _ _ _ _ _ _ Hpass) as (base & Hbase). apply obind_Ok in H as ([r st2] & Hp & H).
    apply obind_Ok in H as (msg & _ & H). injection H as <- <- <-. pose proof (place_positive _ _ _ _ _ _ _ _ Hp) as Hpos.
    destruct (place_block_ok st flats block raw h base now b cell c Ht Hm Hv Hpass Hh Hbase (Hroom h base b Hh Hc) Hpos Hw _ _ _ _ Hp)
      as (Ht' & Hm' & flats' & Hv' & Ha). split_and!; [done|done|]. right. by exists r, (pushed_of block raw h base b), flats'.
  - injection H as <- <- <-. apply check_block_same in Hc as [Hs He]. split_and!; [by eapply tree_ok_same|by eapply main_ok_same|by left].
Qed.

End Node.

End MainChain.
