(* ===== verification/NodeProofs.v ===== *)
(** * Invariants of a running node

    The chains of a node that has started from its genesis block and has been
    given blocks: the main chain has the largest cumulative difficulty, each
    block carries the difficulty that the blocks below it require, and no key
    image is spent twice on a chain. *)

From S2P Require Import Prelude.
From S2P Require Import Types.
From S2P Require Import Serialization.
From S2P Require Import Block.
From S2P Require Import Currency.
From S2P Require Import Checkpoints.
From S2P Require Import Utilities.
From S2P Require Import FormatUtils.
From S2P Require Import ValidateTransaction.
From S2P Require Import ValidateProofs.
From S2P Require Import TransactionPool.
From S2P Require Import CorePool.
From S2P Require Import BlockchainCache.
From S2P Require Import CacheProofs.
From S2P Require Import PushProofs.
From S2P Require Import CoreChain.
From S2P Require Import ChainProofs.
From S2P Require Import FindProofs.
From S2P Require Import BlockRules.
From S2P Require Import MainChain.
From S2P Require Import PoolProofs.
From S2P Require Import Templates.
Import Types.Types Serialization.Serialization Currency.Currency Checkpoints.Checkpoints.
Import ValidateTransaction.ValidateTransaction BlockchainCache.BlockchainCache CacheProofs.CacheProofs PushProofs.PushProofs.
Import CoreChain.CoreChain ChainProofs.ChainProofs FindProofs.FindProofs BlockRules.BlockRules MainChain.MainChain Templates.Templates.

Module NodeProofs.

Section Node.
Context (ops : crypto_ops) (slow_hash : Block.Block.hashing_algorithm -> list Z -> Hash).
Context (currency : Currency) (checkpoints : Checkpoints) (hash_order : list Hash -> list Hash).
Local Abbreviation cn_fast_hash := (fast_hash ops).
Local Abbreviation extended := (extended ops).
Local Abbreviation continues := (continues ops slow_hash currency checkpoints).
Local Abbreviation added := (added ops slow_hash currency checkpoints).

(** ** What a block adds *)

Lemma extended_fields flat b : exists info,
  blockInfos (extended flat b) = blockInfos flat ++ [info] /\ bi_cumulativeDifficulty info = u64 (work flat + new_difficulty b) /\
  storage (extended flat b) = storage flat ++ [new_raw b] /\
  spentImages (extended flat b) = spentImages flat ∪ gset_to_gmap (seg_end flat) (new_images b) /\
  startIndex (extended flat b) = startIndex flat.
Proof.
  unfold MainChain.extended, block_delta, totals, work. destruct (last (blockInfos flat)); by eexists.
Qed.

(** A property of chains that every prefix has, and that a block preserves, is
    preserved by [addBlock]. *)
Lemma added_forall (P : segment -> Prop) now b flats r flats' :
  (forall flat upper, segment_ok flat -> startIndex flat = 0 -> spends_above flat upper -> P (join flat upper) -> P flat) ->
  (forall flat, continues now flats flat b -> Forall P flats -> P flat -> P (extended flat b)) ->
  Forall P flats -> added now b flats r flats' -> Forall P flats'.
Proof.
  intros Hpre Hext HP [main rest -> Hc|k main flat H0 Hk Hn Hc _|k main flat H0 Hk Hn Hc _|k flat flat0 upper Hk Hf _ Ha Hc].
  - pose proof (Hext _ Hc HP) as Hm. apply Forall_cons in HP as [Hmain Hrest]. constructor; [by apply Hm|done].
  - apply Forall_insert; [done|]. apply Hext; [done|done|]. by eapply (proj1 (Forall_lookup P flats) HP).
  - pose proof (proj1 (Forall_lookup P flats) HP) as Hl. apply Forall_insert; [apply Forall_insert; [done|]|by eapply Hl].
    apply Hext; [done|done|by eapply Hl].
  - apply Forall_app. split; [done|]. constructor; [|constructor]. apply Hext; [done|done|]. destruct (cont_flat _ _ _ _ _ _ _ _ Hc).
    apply (Hpre flat0 upper); [done..|]. rewrite <- Hf. by eapply (proj1 (Forall_lookup P flats) HP).
Qed.

(** ** Difficulty *)

(** Each block adds the difficulty that the blocks below require. *)
Definition worked (flat : segment) : Prop :=
  (forall x, blockInfos flat !! 0%nat = Some x -> 0 <= bi_cumulativeDifficulty x) /\
  forall i x y, blockInfos flat !! i = Some x -> blockInfos flat !! S i = Some y ->
  exists d, next_difficulty currency (take (S i) (blockInfos flat)) (Z.of_nat i) = Ok d /\ 0 < d /\
    bi_cumulativeDifficulty y = bi_cumulativeDifficulty x + d.

Lemma worked_mono flat j : forall i x y, worked flat -> (i <= j)%nat -> blockInfos flat !! i = Some x -> blockInfos flat !! j = Some y ->
  0 <= bi_cumulativeDifficulty x <= bi_cumulativeDifficulty y.
Proof.
  induction j as [|j IH]; intros i x y Hw Hij Hx Hy.
  - assert (i = 0%nat) as -> by lia. assert (x = y) as -> by congruence. pose proof (proj1 Hw y Hy). lia.
  - destruct (lookup_lt_is_Some_2 (blockInfos flat) j) as [z Hz]; [apply lookup_lt_Some in Hy; lia|].
    destruct (proj2 Hw _ _ _ Hz Hy) as (d & _ & Hd & E). destruct (decide (i = S j)) as [->|].
    + assert (x = y) as -> by congruence. pose proof (IH j z z Hw ltac:(lia) Hz Hz). lia.
    + pose proof (IH i x z Hw ltac:(lia) Hx Hz). lia.
Qed.

Lemma worked_prefix flat upper : worked (join flat upper) -> worked flat.
Proof.
  intros [H0 H]. cbn [join blockInfos] in *. split; [intros x Hx; apply H0; by apply lookup_app_l_Some|].
  intros i x y Hx Hy. destruct (H i x y) as (d & Hd & Hr); [by apply lookup_app_l_Some..|]. exists d. split; [|done].
  apply lookup_lt_Some in Hy. by rewrite take_app_le in Hd by lia.
Qed.

Lemma work_prefix flat upper : worked (join flat upper) -> blockInfos flat <> [] -> 0 <= work flat <= work (join flat upper).
Proof.
  intros Hw Hne. destruct (last (blockInfos flat)) as [x|] eqn:Ex; [|by apply last_None in Ex].
  assert (Hj : blockInfos (join flat upper) <> []) by (cbn [join blockInfos]; by destruct (blockInfos flat)).
  destruct (last (blockInfos (join flat upper))) as [y|] eqn:Ey; [|by apply last_None in Ey].
  unfold work. rewrite Ex, Ey. rewrite last_lookup in Ex, Ey.
  eapply (worked_mono (join flat upper)); [done| |cbn [join blockInfos]; by apply lookup_app_l_Some|exact Ey].
  cbn [join blockInfos]. rewrite length_app. lia.
Qed.

(** The work of the chain with the block on top; nothing wraps around. *)
Lemma extended_work now flats flat b : Forall worked flats -> continues now flats flat b ->
  0 <= work flat /\ work (extended flat b) = work flat + new_difficulty b.
Proof.
  intros Hw Hc. destruct (cont_room _ _ _ _ _ _ _ _ Hc) as (f & u & Hf & -> & Hr). rewrite Forall_forall in Hw. specialize (Hw _ Hf).
  destruct (cont_tip _ _ _ _ _ _ _ _ Hc) as (x & Hx & _). assert (Hne : blockInfos flat <> []) by (intros E; by rewrite E in Hx).
  pose proof (work_prefix _ _ Hw Hne) as Hle. split; [lia|]. destruct (extended_fields flat b) as (info & Hi & Hd & _).
  unfold work at 1. rewrite Hi, last_snoc, Hd. apply wrap_small. pose proof (room_work _ _ Hr). pose proof (cont_positive _ _ _ _ _ _ _ _ Hc).
  unfold fits. lia.
Qed.

Lemma worked_extended now flats flat b : continues now flats flat b -> Forall worked flats -> worked flat -> worked (extended flat b).
Proof.
  intros Hc Hws Hw. destruct (extended_work _ _ _ _ Hws Hc) as [H0 Hx]. destruct (extended_fields flat b) as (info & Hi & Hd & _).
  destruct (cont_tip _ _ _ _ _ _ _ _ Hc) as (t & Ht & _). unfold work in Hx at 1. rewrite Hi, last_snoc in Hx. unfold worked. rewrite Hi.
  assert (Hlen : length (blockInfos flat) <> 0%nat) by (by destruct (blockInfos flat)). split.
  - intros x Hx0. apply (proj1 Hw). by rewrite lookup_app_l in Hx0 by lia.
  - intros i x y Hxi Hy. destruct (decide (S i = length (blockInfos flat))) as [E|E].
    + rewrite lookup_app_l in Hxi by lia. rewrite E, list_lookup_middle in Hy by done. injection Hy as <-.
      exists (new_difficulty b). rewrite take_app_le, take_ge by lia. destruct (cont_flat _ _ _ _ _ _ _ _ Hc) as [_ Hz].
      pose proof (cont_difficulty _ _ _ _ _ _ _ _ Hc) as Hn. unfold seg_end in Hn. rewrite Hz in Hn.
      split_and!; [rewrite <- Hn; f_equal; lia|by eapply cont_positive|]. rewrite Hx. f_equal. unfold work.
      rewrite last_lookup in Ht |- *. rewrite <- E in *. cbn [Nat.pred] in *. by rewrite Hxi.
    + assert (S i < length (blockInfos flat))%nat by (apply lookup_lt_Some in Hy; rewrite length_app in Hy; cbn [length] in Hy; lia).
      rewrite lookup_app_l in Hxi, Hy by lia. destruct (proj2 Hw i x y Hxi Hy) as (d & Hn & Hr). exists d. by rewrite take_app_le by lia.
Qed.

(** A fork has no more work than the chain it leaves. *)
Lemma fork_work now flats flat0 upper b : Forall worked flats -> continues now flats flat0 b -> worked (join flat0 upper) ->
  blockInfos upper <> [] -> work (extended flat0 b) <= work (join flat0 upper).
Proof.
  intros Hws Hc Hw Hne. destruct (extended_work _ _ _ _ Hws Hc) as [_ ->]. destruct (cont_tip _ _ _ _ _ _ _ _ Hc) as (x & Hx & _).
  destruct (blockInfos upper) as [|y ys] eqn:Eu; [done|]. unfold work at 1. rewrite Hx. rewrite last_lookup in Hx.
  pose proof (lookup_lt_Some _ _ _ Hx) as Hlt. destruct (cont_flat _ _ _ _ _ _ _ _ Hc) as [_ Hz].
  pose proof (cont_difficulty _ _ _ _ _ _ _ _ Hc) as Hn. unfold seg_end in Hn. rewrite Hz in Hn.
  destruct (proj2 Hw (pred (length (blockInfos flat0))) x y) as (d & Hd & _ & E).
  { cbn [join blockInfos]. by apply lookup_app_l_Some. }
  { cbn [join blockInfos]. rewrite Eu. apply list_lookup_middle. lia. }
  cbn [join blockInfos] in Hd. rewrite take_app_le, take_ge in Hd by lia.
  replace (Z.of_nat (pred (length (blockInfos flat0)))) with (0 + Z.of_nat (length (blockInfos flat0)) - 1) in Hd by lia.
  rewrite Hn in Hd. injection Hd as ->. rewrite <- E. unfold work. destruct (last (blockInfos (join flat0 upper))) as [z|] eqn:Ez.
  - rewrite last_lookup in Ez. eapply (worked_mono (join flat0 upper) _ (length (blockInfos flat0))); [done| | |exact Ez].
    + cbn [join blockInfos]. rewrite Eu, length_app. cbn [length]. lia.
    + cbn [join blockInfos]. rewrite Eu. by apply list_lookup_middle.
  - apply last_None in Ez. cbn [join blockInfos] in Ez. rewrite Eu in Ez. by destruct (blockInfos flat0).
Qed.

(** The first chain, the main chain, has the most work. *)
Definition heaviest (flats : list segment) : Prop := exists main, flats !! 0%nat = Some main /\ Forall (fun f => work f <= work main) flats.

Lemma added_heaviest now b flats r flats' : Forall worked flats -> heaviest flats -> added now b flats r flats' -> heaviest flats'.
Proof.
  intros Hw (top & Ht & Hh) Ha. pose proof Hh as Hh'. rewrite Forall_forall in Hh'.
  destruct Ha as [main rest -> Hc|k main flat H0 Hk Hn Hc Hle|k main flat H0 Hk Hn Hc Hlt|k flat flat0 upper Hk Hf Hne _ Hc].
  - injection Ht as ->. exists (extended top b). split; [done|]. destruct (extended_work _ _ _ _ Hw Hc) as [_ E].
    pose proof (cont_positive _ _ _ _ _ _ _ _ Hc). apply Forall_cons in Hh as [_ Hh]. constructor; [lia|].
    eapply Forall_impl; [exact Hh|]. intros f Hf. cbn beta in Hf. lia.
  - assert (main = top) as -> by congruence. exists top. split; [by rewrite list_lookup_insert_ne by done|]. by apply Forall_insert.
  - assert (main = top) as -> by congruence. exists (extended flat b).
    split; [rewrite list_lookup_insert_ne by done; apply list_lookup_insert_eq; by eapply lookup_lt_Some|].
    assert (Hall : Forall (fun f => work f <= work (extended flat b)) flats) by (eapply Forall_impl; [exact Hh|]; cbn beta; lia).
    apply Forall_insert; [apply Forall_insert; [done|lia]|lia].
  - exists top. split; [by apply lookup_app_l_Some|]. apply Forall_app. split; [done|]. constructor; [|constructor].
    apply (proj1 (Forall_lookup _ _) Hh) in Hk as Hkt. apply (proj1 (Forall_lookup _ _) Hw) in Hk. rewrite Hf in Hk, Hkt.
    pose proof (fork_work _ _ _ _ _ Hw Hc Hk Hne). cbn beta in Hkt. lia.
Qed.

(** ** Key images *)

(** The key images that the transactions of a raw block spend. *)
Definition images_of (raw : RawBlock) : list KeyImage :=
  match extractTransactions currency (raw_transactions raw) 0 with
  | Ok (Some (txs, _)) => images_in txs
  | _ => []
  end.

(** No key image is spent twice on the chain, and [spentImages] has exactly the
    key images of the blocks, with the index of the block that spends them. *)
Definition spent_once (flat : segment) : Prop :=
  NoDup (concat (map images_of (storage flat))) /\
  forall k i, spentImages flat !! k = Some i <->
    0 <= i /\ exists raw, storage flat !! Z.to_nat i = Some raw /\ k ∈ images_of raw.

Lemma storage_length flat : segment_ok flat -> startIndex flat = 0 -> Z.of_nat (length (storage flat)) = seg_end flat.
Proof. intros Hs H0. rewrite (ok_storage _ Hs). unfold seg_end. lia. Qed.

Lemma spent_once_prefix flat upper : segment_ok flat -> startIndex flat = 0 -> spends_above flat upper ->
  spent_once (join flat upper) -> spent_once flat.
Proof.
  intros Hs H0 Ha [Hnd H]. cbn [join storage spentImages] in *. pose proof (storage_length _ Hs H0) as Hlen. split.
  { rewrite map_app, concat_app in Hnd. by apply NoDup_app in Hnd as (? & _). }
  intros k i. split.
  - intros Hk. destruct (ok_spent _ Hs _ _ Hk) as [Hi1 Hi2].
    destruct (proj1 (H k i)) as (Hi & raw & Hr & Hin); [by apply lookup_union_Some_l|].
    split; [done|]. exists raw. split; [|done]. by rewrite lookup_app_l in Hr by lia.
  - intros (Hi & raw & Hr & Hin). pose proof (lookup_lt_Some _ _ _ Hr) as Hlt.
    assert (Hk : (spentImages flat ∪ spentImages upper) !! k = Some i).
    { apply H. split; [done|]. exists raw. split; [|done]. by apply lookup_app_l_Some. }
    apply lookup_union_Some_raw in Hk as [Hk|[_ Hk]]; [done|]. specialize (Ha k i Hk). cbn beta in Ha. lia.
Qed.

Lemma images_of_block now flats flat b : continues now flats flat b ->
  images_of (new_raw b) = images_in (new_transactions b) /\ NoDup (images_of (new_raw b)) /\
  (forall k, k ∈ new_images b <-> k ∈ images_of (new_raw b)).
Proof.
  intros Hc. pose proof (cont_rules _ _ _ _ _ _ _ _ Hc) as R. destruct (rule_transactions _ _ _ _ _ _ _ R) as (size & Hx).
  destruct (rule_images _ _ _ _ _ _ _ R) as [Hnd Hi]. assert (E : images_of (new_raw b) = images_in (new_transactions b)).
  { unfold images_of. by rewrite Hx. }
  rewrite E. split_and!; [done|done|]. intros k. rewrite Hi. apply elem_of_list_to_set.
Qed.

Lemma spent_once_extended now flats flat b : continues now flats flat b -> spent_once flat -> spent_once (extended flat b).
Proof.
  intros Hc [Hnd H]. destruct (images_of_block _ _ _ _ Hc) as (_ & Hb & Hi). destruct (cont_flat _ _ _ _ _ _ _ _ Hc) as [Hs H0].
  pose proof (storage_length _ Hs H0) as Hlen. pose proof (cont_unspent _ _ _ _ _ _ _ _ Hc) as Hu.
  destruct (extended_fields flat b) as (info & _ & _ & Est & Esp & _). unfold spent_once. rewrite Est, Esp.
  assert (Hnew : forall k, k ∈ images_of (new_raw b) -> spentImages flat !! k = None) by (intros k Hk; by apply Hu, Hi).
  split.
  - rewrite map_app, concat_app. cbn [map concat]. rewrite app_nil_r. apply NoDup_app. split_and!; [done| |done].
    intros k Hk Hk'. apply Hnew in Hk'. apply list_elem_of_In, in_concat in Hk as (l & Hl & Hk%list_elem_of_In).
    apply in_map_iff in Hl as (raw & <- & Hl%list_elem_of_In). apply list_elem_of_lookup in Hl as (i & Hl). assert (Hsome : spentImages flat !! k = Some (Z.of_nat i)); [|congruence].
    apply H. split; [lia|]. exists raw. by rewrite Nat2Z.id.
  - intros k i. rewrite lookup_union_Some_raw. split.
    + intros [Hk|[Hn Hk]].
      * apply H in Hk as (Hi0 & raw & Hr & Hin). split; [done|]. exists raw. split; [by apply lookup_app_l_Some|done].
      * apply lookup_gset_to_gmap_Some in Hk as [Hk <-]. split; [lia|]. exists (new_raw b). split; [|by apply Hi].
        apply list_lookup_middle. lia.
    + intros (Hi0 & raw & Hr & Hin). apply lookup_app_Some in Hr as [Hr|[Hle Hr]].
      * left. apply H. eauto.
      * apply list_lookup_singleton_Some in Hr as [Hz <-]. right. split; [by apply Hnew|]. apply lookup_gset_to_gmap_Some.
        split; [by apply Hi|lia].
Qed.

(** ** Hashes *)

Lemma extended_hashes flat b : hashes_of (extended flat b) = hashes_of flat ++ [new_hash b].
Proof.
  unfold hashes_of, MainChain.extended, block_delta, totals. cbn [join blockInfos].
  destruct (last (blockInfos flat)); cbn [blockInfos]; by rewrite map_app.
Qed.

Lemma hashes_prefix flat upper : NoDup (hashes_of (join flat upper)) -> NoDup (hashes_of flat).
Proof. unfold hashes_of. cbn [join blockInfos]. rewrite map_app. by intros (? & _)%NoDup_app. Qed.

Lemma hashes_extended now flats flat b : continues now flats flat b -> NoDup (hashes_of flat) -> NoDup (hashes_of (extended flat b)).
Proof.
  intros Hc Hnd. rewrite extended_hashes. apply NoDup_app. split_and!; [done| |apply NoDup_singleton]. intros h Hh ->%list_elem_of_singleton.
  destruct (cont_room _ _ _ _ _ _ _ _ Hc) as (f & u & Hf & -> & _). pose proof (cont_new _ _ _ _ _ _ _ _ Hc) as Hn.
  rewrite Forall_forall in Hn. apply (Hn _ Hf). unfold hashes_of. cbn [join blockInfos]. rewrite map_app. apply elem_of_app. by left.
Qed.

(** ** The first state *)

(** The genesis block has index 0, and its outputs can be counted. *)
Definition genesis_ok : Prop :=
  Block.Block.getBlockIndex (genesisBlockTemplate currency) = 0 /\
  Z.of_nat (length (outputs (baseTransaction (genesisBlockTemplate currency)))) < 2 ^ 32.

(** The root cache is the genesis block on top of nothing. *)
Lemma create_root_pushed root : genesis_ok -> create_root cn_fast_hash currency = Ok root ->
  exists b, new_images b = ∅ /\ raw_transactions (new_raw b) = [] /\
    toBinaryArray (Block.Block.ser_BlockTemplate cn_fast_hash) (genesisBlockTemplate currency) = Ok (raw_block (new_raw b)) /\
    root = extended (empty_segment 0) b /\ chain_ok [root].
Proof.
  intros [Hi Ho] H. unfold create_root in H. cbv zeta in H. apply obind_Ok in H as (u & _ & H). apply obind_Ok in H as (base & Hb & H).
  apply obind_Ok in H as (raw & Hraw & H). pose proof H as Hh. unfold doPushBlock in Hh. apply obind_Ok in Hh as (? & _ & Hh).
  apply obind_Ok in Hh as (? & _ & Hh). apply obind_Ok in Hh as ([[? ?] ?] & _ & Hh). apply obind_Ok in Hh as (h & Hh & _).
  match type of H with doPushBlock _ _ _ _ _ ?size ?coins _ _ _ = _ =>
    set (b := mkPushed (genesisBlockTemplate currency) [] ∅ size coins 1 (mkRawBlock raw []) h base) end.
  assert (Ht : on_top cn_fast_hash (empty_segment 0) b).
  { split; cbn [b new_block]; try done. intros amount. rewrite sel_placed_all. unfold count_outputs, all_transactions.
    cbn [b new_block new_base new_transactions flat_map TransactionPool.getTransaction]. rewrite app_nil_r.
    unfold entry_count. cbn [empty_segment keyOutputsGlobalIndexes]. rewrite lookup_empty.
    pose proof (length_filter (fun x => out_amount x = amount) (outputs (baseTransaction (genesisBlockTemplate currency)))). lia. }
  assert (He : chain_ok [empty_segment 0]) by (apply (empty_chain_ok []); done).
  assert (Ef : flatten [empty_segment 0] = empty_segment 0) by (apply join_empty).
  destruct (push_ok cn_fast_hash (empty_segment 0) [] b root He) as (_ & Es & Hok & _); [by rewrite Ef|exact H|]. rewrite Ef in Es.
  exists b. done.
Qed.

Lemma create_root_ok root : genesis_ok -> create_root cn_fast_hash currency = Ok root ->
  chain_ok [root] /\ blockInfos root <> [] /\ worked root /\ spent_once root /\ NoDup (hashes_of root).
Proof.
  intros Hg H. destruct (create_root_pushed _ Hg H) as (b & Hi & Hr & _ & Es & Hok).
  destruct (extended_fields (empty_segment 0) b) as (info & Ei & Ec & Est & Esp & _).
  rewrite Es. split; [by rewrite <- Es|]. rewrite Ei, extended_hashes. split; [done|].
  unfold worked, spent_once. rewrite Ei, Est, Esp, Hi. cbn [empty_segment blockInfos storage spentImages app] in *. split.
  - split; [intros x [= <-]; rewrite Ec; apply wrap_fits; lia|]. by intros [|i] x y _ Hy.
  - assert (Hn : images_of (new_raw b) = []) by (unfold images_of; by rewrite Hr). cbn [map concat]. rewrite Hn. split; [split; [constructor|]|apply NoDup_singleton].
    intros k i. rewrite gset_to_gmap_empty, map_union_empty, lookup_empty. split; [done|]. intros (_ & raw & Hraw & Hk).
    apply list_lookup_singleton_Some in Hraw as [_ <-]. rewrite Hn in Hk. by apply elem_of_nil in Hk.
Qed.

(** ** The invariant *)

Record node_inv (st : core) (flats : list segment) : Prop := {
  inv_tree : tree_ok st;
  inv_main : main_ok st;
  inv_views : views st flats;
  inv_worked : Forall worked flats;
  inv_heaviest : heaviest flats;
  inv_spent : Forall spent_once flats;
  inv_hashes : Forall (fun f => NoDup (hashes_of f)) flats
}.

Lemma initRootSegment_inv w st : genesis_ok -> initRootSegment ops currency w = Ok st ->
  exists root, create_root cn_fast_hash currency = Ok root /\ node_inv st [root].
Proof.
  intros Hg H. unfold initRootSegment in H. apply obind_Ok in H as (root & Hr & H). destruct (create_root_ok _ Hg Hr) as (Hok & Hne & Hw & Hs & Hnd).
  unfold allocate in H. cbn [next_cache caches chainsLeaves chainsStorage mainChainSet core_medianSize core_pool] in H.
  apply updateBlockMedianSize_same in H.
  change (same_tree (mkCore (<[0 := mkCache root None []]> ∅) 1 [0] [0] {[ 0 ]} 0 w) st) in H. set (st0 := mkCore _ _ _ _ _ _ _) in H.
  assert (Hc0 : forall q c, caches st0 !! q = Some c -> q = 0 /\ c = mkCache root None []).
  { intros q c Hq. cbn [st0 caches] in Hq. rewrite insert_empty in Hq. by apply lookup_singleton_Some in Hq as [<- <-]. }
  assert (Hl : lin (caches st0) 0 [(0, root)]) by (apply (lin_root _ 0 (mkCache root None [])); [apply lookup_insert_eq|done]).
  assert (Ht : tree_ok st0).
  { split.
    - split.
      + intros p c q Hp. apply Hc0 in Hp as [-> ->]. split; [by intros ?%elem_of_nil|]. intros (c' & Hc' & E). apply Hc0 in Hc' as [_ ->]. done.
      + intros p c Hp. apply Hc0 in Hp as [-> ->]. constructor.
      + intros p c Hp. apply Hc0 in Hp as [-> ->]. by exists [(0, root)].
      + intros p c Hp. by apply Hc0 in Hp as [-> ->].
      + intros p q c c' Hp Hq. apply Hc0 in Hp as [-> _]. apply Hc0 in Hq as [-> _]. done.
    - intros p [c Hp]. apply Hc0 in Hp as [-> _]. done.
    - split; [apply NoDup_singleton|]. intros p. cbn [st0 chainsStorage]. rewrite list_elem_of_singleton. split.
      + intros ->. eexists. apply lookup_insert_eq.
      + intros [c Hp]. by apply Hc0 in Hp as [-> _].
    - split; [apply NoDup_singleton|]. intros p. cbn [st0 chainsLeaves]. rewrite list_elem_of_singleton. split.
      + intros ->. eexists. split; [apply lookup_insert_eq|done].
      + intros (c & Hp & _). by apply Hc0 in Hp as [-> _]. }
  exists root. split; [done|]. split; [by eapply tree_ok_same| | |by constructor| |by constructor|by constructor].
  - eapply main_ok_same; [exact H|]. exists 0, [(0, root)]. split_and!; [done|done|]. cbn. set_solver.
  - eapply views_same; [exact H|]. constructor; [|constructor]. exists [(0, root)]. split; [done|]. cbn [map snd].
    apply flatten_one. destruct Hok as (_ & Hlk & _). apply (link_start _ _ Hlk).
  - exists root. split; [done|]. by constructor.
Qed.

(** ** Steps of the node *)

Lemma node_inv_same st st' flats : same_tree st st' -> node_inv st flats -> node_inv st' flats.
Proof. intros Hs [? ? ? ? ? ? ?]. split; [by eapply tree_ok_same|by eapply main_ok_same|by eapply views_same|done..]. Qed.

Lemma addBlock_cached_inv schedules pool_schedules now block raw st flats code message st' :
  windows_ok currency -> node_inv st flats -> room_for ops slow_hash currency checkpoints schedules now block raw st flats ->
  addBlock_cached ops slow_hash currency checkpoints hash_order schedules pool_schedules now block raw st = Ok (code, message, st') ->
  exists flats', node_inv st' flats' /\
    ((flats' = flats /\ message = None /\ added_code code = false) \/
     exists r b, code = AddBlock r /\ new_block b = block /\ new_raw b = raw /\ added now b flats r flats').
Proof.
  intros Hw [Ht Hm Hv Hwk Hh Hs Hnd] Hroom H.
  destruct (addBlock_chains _ _ _ _ _ _ _ _ _ _ _ _ _ _ _ Hw Ht Hm Hv Hroom H) as (Ht' & Hm' & [(Hst & -> & Hc)|(r & b & flats' & -> & <- & <- & Hv' & Ha)]).
  - exists flats. split; [|by left]. split; [done|done|by eapply views_same|done..].
  - exists flats'. split; [|right; by exists r, b]. split; [done..| | | |].
    + eapply added_forall; [| |exact Hwk|exact Ha]; [intros flat upper _ _ _; apply worked_prefix|intros flat; apply worked_extended].
    + by eapply added_heaviest.
    + eapply added_forall; [apply spent_once_prefix| |exact Hs|exact Ha]. intros flat Hc _. by eapply spent_once_extended.
    + eapply added_forall; [| |exact Hnd|exact Ha]; [intros flat upper _ _ _; apply hashes_prefix|].
      intros flat Hc _. by eapply hashes_extended.
Qed.

(** No counter overflows when the block is added. *)
Definition has_room (schedules : list (list event)) (now : Z) (block : BlockTemplate) (raw : RawBlock) (st : core) : Prop :=
  forall flats, views st flats -> room_for ops slow_hash currency checkpoints schedules now block raw st flats.

Definition parse_block (ba : BinaryArray) : option BlockTemplate :=
  fromBinaryArray_opt (Block.Block.ser_BlockTemplate cn_fast_hash) Block.Block.default_block ba.

(** A test for the room there is on the chains of the leaves, for a block with so
    many outputs and that difficulty. *)
Definition roomy (outs difficulty : Z) (st : core) : bool :=
  forallb (fun p =>
    match chain_of st p with
    | Ok c =>
      let f := flatten c in
      (seg_end f + 1 <? 2 ^ 32) && (outs <? 2 ^ 32) && (work f + difficulty <? 2 ^ 64) &&
      forallb (fun x => og_startIndex x.2 + Z.of_nat (length (og_outputs x.2)) + outs <? 2 ^ 32)
        (map_to_list (keyOutputsGlobalIndexes f))
    | Err _ => false
    end) (chainsLeaves st).

Lemma roomy_room outs st flats b : tree_ok st -> views st flats ->
  Z.of_nat (length (flat_map (fun t => outputs (TransactionPool.getTransaction t)) (all_transactions b))) <= outs ->
  roomy outs (new_difficulty b) st = true -> Forall (fun f => room f b) flats.
Proof.
  intros Ht Hv Ho H. unfold roomy in H. rewrite forallb_forall in H. apply Forall_lookup. intros k f Hk.
  destruct (Forall2_lookup_r _ _ _ _ _ Hv Hk) as (p & Hp & l & Hl & <-). apply list_elem_of_lookup_2, list_elem_of_In, H in Hp.
  rewrite (chain_of_eq _ _ _ (tree_heap _ Ht) Hl) in Hp. cbv zeta in Hp. rewrite !andb_true_iff, forallb_forall in Hp.
  destruct Hp as [[[H1 H2] H3] H4]. bool_prop. split; [done| |done]. intros amount.
  assert (Hc : Z.of_nat (count_outputs amount (all_transactions b)) <= outs).
  { unfold count_outputs. pose proof (length_filter (fun x => out_amount x = amount)
      (flat_map (fun t => outputs (TransactionPool.getTransaction t)) (all_transactions b))). lia. }
  unfold entry_count. destruct (keyOutputsGlobalIndexes (flatten (map snd l)) !! amount) as [e|] eqn:E; [|lia].
  apply elem_of_map_to_list, list_elem_of_In, H4 in E. cbn [snd] in E. bool_prop. lia.
Qed.

(** The same for the block that a call adds, if it adds one. *)
Definition room_test (schedules : list (list event)) (now : Z) (block : BlockTemplate) (raw : RawBlock) (st : core) : bool :=
  match Block.Block.getBlockHash cn_fast_hash block with
  | Ok h =>
    match check_block ops slow_hash currency checkpoints schedules now block h raw st with
    | Ok (_, inl b) =>
      let p := pushed_of block raw h [] b in
      roomy (Z.of_nat (length (flat_map (fun t => outputs (TransactionPool.getTransaction t)) (all_transactions p)))) (new_difficulty p) st
    | _ => true
    end
  | Err _ => true
  end.

Lemma room_test_ok schedules now block raw st : tree_ok st -> room_test schedules now block raw st = true -> has_room schedules now block raw st.
Proof.
  intros Ht H flats Hv h base b Hh Hc. unfold room_test in H. rewrite Hh, Hc in H. cbv zeta in H.
  eapply roomy_room; [done|done| |exact H]. done.
Qed.

(** Blobs are vectors of bytes. *)
Definition raw_ok (raw : RawBlock) : Prop := bytes_ok (raw_block raw) /\ Forall bytes_ok (raw_transactions raw).

(** What other peers and the miner ask of the node. *)
Inductive step : core -> core -> Prop :=
| step_addBlock schedules pool_schedules now raw st code message st' :
    raw_ok raw ->
    (forall block, parse_block (raw_block raw) = Some block -> has_room schedules now block raw st) ->
    addBlock ops slow_hash currency checkpoints hash_order schedules pool_schedules now raw st = Ok (code, message, st') ->
    step st st'
| step_submitBlock schedules pool_schedules now template st code message st' :
    bytes_ok template ->
    (forall block txs, parse_block template = Some block -> has_room schedules now block (mkRawBlock template txs) st) ->
    submitBlock ops slow_hash currency checkpoints hash_order schedules pool_schedules now template st = Ok (code, message, st') ->
    step st st'
| step_addTransaction schedule now tx st err st' :
    bytes_ok tx ->
    addTransactionToPool ops currency checkpoints schedule now tx st = Ok (err, st') ->
    step st st'
| step_getBlockTemplate generate_key_derivation derive_public_key now keys view spend extraNonce st r st' :
    getBlockTemplate ops currency checkpoints generate_key_derivation derive_public_key now keys view spend extraNonce st = Ok (st', r) ->
    step st st'
| step_clean now st deleted st' :
    transactionPoolCleaningProcedure ops now st = Ok (deleted, st') ->
    step st st'.

(** Both may take transactions out of the pool. *)
Lemma template_pool_step gkd dpk now keys view spend extraNonce st r st' :
  getBlockTemplate ops currency checkpoints gkd dpk now keys view spend extraNonce st = Ok (st', r) ->
  exists w, st' = set_core_pool w st /\ rtc (PoolProofs.PoolProofs.step (fast_hash ops)) (core_pool st) w.
Proof.
  assert (Hsame : exists w, st = set_core_pool w st /\ rtc (PoolProofs.PoolProofs.step (fast_hash ops)) (core_pool st) w).
  { exists (core_pool st). split; [by destruct st|apply rtc_refl]. }
  unfold getBlockTemplate. intros H. apply obind_Ok in H as (top & _ & H). cbv zeta in H. apply obind_Ok in H as (d & _ & H).
  case_if_in H; [by injection H as <- <-|]. apply obind_Ok in H as (v & _ & H). destruct (template_parent v); [|by injection H as <- <-].
  apply obind_Ok in H as (h & _ & H). apply obind_Ok in H as (ts & _ & H). apply obind_Ok in H as (limit & _ & H).
  apply obind_Ok in H as (c & _ & H). apply obind_Ok in H as (coins & _ & H). apply obind_Ok in H as (max & _ & H).
  apply obind_Ok in H as (n & Hn & H). apply obind_Ok in H as (t & Ht & H). apply obind_Ok in H as (tx & _ & H).
  exists (TransactionPool.set_pool (CorePool.CorePool.template_pool t) (core_pool st)). split; [by destruct tx; injection H as <- <-|].
  apply rtc_once. refine (PoolProofs.PoolProofs.step_template _ _ n _ _ _ _ t _ Ht).
  unfold node_of in Hn. apply obind_Ok in Hn as (c' & _ & Hn). apply obind_Ok in Hn as (top' & _ & Hn). by injection Hn as <-.
Qed.

Lemma clean_pool_step now st deleted st' : transactionPoolCleaningProcedure ops now st = Ok (deleted, st') ->
  exists w, st' = set_core_pool w st /\ rtc (PoolProofs.PoolProofs.step (fast_hash ops)) (core_pool st) w.
Proof.
  unfold transactionPoolCleaningProcedure. intros H. apply obind_Ok in H as (c & _ & H). apply obind_Ok in H as (top & _ & H).
  apply obind_Ok in H as ([l w] & Hc & H). injection H as <- <-. exists w. split; [done|].
  eapply rtc_once, PoolProofs.PoolProofs.step_clean, Hc.
Qed.

(** A state that the node reaches from its genesis block and an empty pool. *)
Definition reachable (st : core) : Prop := exists timeout st0,
  initRootSegment ops currency (TransactionPool.mkWrapper TransactionPool.empty_pool ∅ timeout) = Ok st0 /\ rtc step st0 st.

Lemma step_inv st flats st' : windows_ok currency -> node_inv st flats -> step st st' -> exists flats', node_inv st' flats'.
Proof.
  intros Hw Hi Hs. revert Hi.
  destruct Hs as [schedules pools now raw st code message st' _ Hr H|schedules pools now template st code message st' _ Hr H|
    schedule now tx st err st' _ H|gkd dpk now keys vk sk extra st r st' H|now st deleted st' H]; intros Hi.
  - unfold addBlock in H. fold (parse_block (raw_block raw)) in H. destruct (parse_block (raw_block raw)) as [block|].
    + apply (addBlock_cached_inv _ _ _ _ _ _ flats) in H as (flats' & Hi' & _); [by exists flats'|done..|]. apply Hr; [done|apply Hi].
    + injection H as <- <- <-. by exists flats.
  - unfold submitBlock in H. fold (parse_block template) in H. destruct (parse_block template) as [block|].
    + apply obind_Ok in H as ([txs|] & _ & H); [|injection H as <- <- <-; by exists flats].
      apply (addBlock_cached_inv _ _ _ _ _ _ flats) in H as (flats' & Hi' & _); [by exists flats'|done..|]. apply Hr; [done|apply Hi].
    + injection H as <- <- <-. by exists flats.
  - exists flats. eapply node_inv_same; [|exact Hi]. unfold addTransactionToPool in H. apply obind_Ok in H as (n & _ & H).
    apply obind_Ok in H as ([e w] & _ & H). by injection H as <- <-.
  - exists flats. apply template_pool_step in H as (w & -> & _). by eapply node_inv_same; [|exact Hi].
  - exists flats. apply clean_pool_step in H as (w & -> & _). by eapply node_inv_same; [|exact Hi].
Qed.

Lemma reachable_inv st : windows_ok currency -> genesis_ok -> reachable st -> exists flats, node_inv st flats.
Proof.
  intros Hw Hg (timeout & st0 & Hi & Hr). apply initRootSegment_inv in Hi as (root & _ & Hi); [|done].
  revert Hi. generalize [root]. induction Hr as [st|st st1 st2 Hs _ IH]; intros flats Hi; [by exists flats|].
  destruct (step_inv _ _ _ Hw Hi Hs) as (flats' & Hi'). by apply IH in Hi'.
Qed.

(** ** Runs *)

Definition raw_test (raw : RawBlock) : bool :=
  forallb (fun b => (0 <=? b) && (b <? 256)) (raw_block raw ++ concat (raw_transactions raw)).

Lemma raw_test_ok raw : raw_test raw = true -> raw_ok raw.
Proof.
  unfold raw_test. rewrite forallb_app, andb_true_iff, !forallb_forall. intros [H1 H2]. split.
  - apply Forall_forall. intros b Hb%list_elem_of_In. apply H1 in Hb. unfold is_byte, fits. bool_prop. lia.
  - apply Forall_forall. intros l Hl. apply Forall_forall. intros b Hb. assert (Hin : List.In b (concat (raw_transactions raw))).
    { apply in_concat. exists l. by rewrite <- !list_elem_of_In. }
    apply H2 in Hin. unfold is_byte, fits. bool_prop. lia.
Qed.

(** The blocks that a node is given one after the other, each with the time it
    arrives; there is no other thread. *)
Fixpoint feed (l : list (Z * RawBlock)) (st : core) : option core :=
  match l with
  | [] => Some st
  | (now, raw) :: l =>
    match parse_block (raw_block raw) with
    | Some block =>
      if raw_test raw && room_test [] now block raw st then
        match addBlock ops slow_hash currency checkpoints hash_order [] (fun _ => []) now raw st with
        | Ok (_, _, st) => feed l st
        | Err _ => None
        end
      else None
    | None => None
    end
  end.

Lemma feed_reachable l : windows_ok currency -> genesis_ok -> forall st st', reachable st -> feed l st = Some st' -> reachable st'.
Proof.
  intros Hw Hg. induction l as [|[now raw] l IH]; intros st st' Hr H; cbn [feed] in H; [by injection H as <-|].
  destruct (parse_block (raw_block raw)) as [block|] eqn:Ep; [|done]. case_if_in H; [|done]. bool_prop.
  destruct (addBlock _ _ _ _ _ _ _ _ _ _) as [[[code message] st1]|] eqn:Ea; [|done].
  apply (IH st1); [|done]. pose proof (reachable_inv _ Hw Hg Hr) as (flats & Hi). destruct Hr as (timeout & st0 & Hi0 & Hs).
  exists timeout, st0. split; [done|]. eapply rtc_r; [exact Hs|]. eapply step_addBlock; [by apply raw_test_ok| |exact Ea].
  intros block' Hb. assert (block' = block) as -> by congruence. apply room_test_ok; [apply Hi|done].
Qed.

End Node.

(** ** The chains of a state *)

Section Chains.
Context (currency : Currency) (st : core) (flats : list segment).
Hypothesis Hinv : node_inv currency st flats.

(** The chain of a leaf, as the code walks it, and as one segment. *)
Lemma leaf_chain q : q ∈ chainsLeaves st -> exists c, chain_of st q = Ok c /\ flatten c ∈ flats /\ chain_ok c /\ c <> [] /\
  (forall s, head c = Some s -> blockInfos s <> []) /\ getCurrentCumulativeDifficulty_of st q = Ok (work (flatten c)).
Proof.
  intros Hq. pose proof (inv_tree _ _ _ Hinv) as Ht. apply list_elem_of_lookup in Hq as (k & Hk).
  destruct (Forall2_lookup_l _ _ _ _ _ (inv_views _ _ _ Hinv) Hk) as (f & Hf & l & Hl & <-).
  exists (map snd l). pose proof (chain_of_eq _ _ _ (tree_heap _ Ht) Hl) as E. split; [done|].
  pose proof (lin_chain _ (tree_heap _ Ht) _ _ Hl) as Hok. destruct (lin_head _ _ _ Hl) as (c & l' & Hc & El).
  assert (Hb : blockInfos (cache_segment c) <> []) by (by eapply heap_blocks; [apply Ht|]).
  split_and!; [by eapply list_elem_of_lookup_2|done|by rewrite El| |].
  - intros s Hs. rewrite El in Hs. by injection Hs as <-.
  - eapply work_view; [apply Ht|exact Hc|]. by exists l.
Qed.

Lemma main_leaf_chain : exists p c, main_leaf st = Ok p /\ chainsLeaves st !! 0%nat = Some p /\ chain_of st p = Ok c /\
  flats !! 0%nat = Some (flatten c) /\ getCurrentCumulativeDifficulty_of st p = Ok (work (flatten c)).
Proof.
  destruct (inv_heaviest _ _ _ Hinv) as (main & H0 & _). destruct (Forall2_lookup_r _ _ _ _ _ (inv_views _ _ _ Hinv) H0) as (p & Hp & l & Hl & <-).
  destruct (leaf_chain p) as (c & Hc & _ & _ & _ & _ & Hw); [by eapply list_elem_of_lookup_2|].
  pose proof (chain_of_eq _ _ _ (tree_heap _ (inv_tree _ _ _ Hinv)) Hl) as E. assert (c = map snd l) as -> by congruence.
  exists p, (map snd l). split_and!; try done. unfold main_leaf. destruct (chainsLeaves st); [done|]. by injection Hp as ->.
Qed.

(** The last block of the main chain. *)
Lemma main_top f rest x : views st (f :: rest) -> last (blockInfos f) = Some x ->
  core_getTopBlockHash st = Ok (bi_blockHash x) /\ core_getTopBlockIndex st = Ok (seg_end f - 1).
Proof.
  intros Hv Hx. pose proof (inv_tree _ _ _ Hinv) as Ht. destruct (inv_main _ _ _ Hinv) as (p & l & Hp & Hl & _).
  assert (Hm : main_leaf st = Ok p) by (unfold main_leaf; destruct (chainsLeaves st); [done|by injection Hp as ->]).
  destruct (views_head _ _ _ Hv Hm) as (f' & rest' & [= <- <-] & Hf & _). assert (f = flatten (map snd l)) as -> by (eapply view_unique; [exact Hf|by exists l]).
  destruct (lin_head _ _ _ Hl) as (c & l' & Hc & ->). pose proof (lin_chain _ (tree_heap _ Ht) _ _ Hl) as Hok. cbn [map snd] in *.
  pose proof (heap_blocks _ (tree_heap _ Ht) _ _ Hc) as Hb.
  change (blockInfos (flatten (cache_segment c :: map snd l'))) with (blockInfos (flatten (map snd l')) ++ blockInfos (cache_segment c)) in Hx.
  split.
  - unfold core_getTopBlockHash, getTopBlockHash, last_block. rewrite Hm. cbn [obind]. rewrite (deref_ok _ _ _ Hc). cbn [obind].
    rewrite last_app in Hx. destruct (last (blockInfos (cache_segment c))) as [y|] eqn:E; [by injection Hx as ->|by apply last_None in E].
  - unfold core_getTopBlockIndex, main_chain_of. rewrite Hm. cbn [obind]. rewrite (chain_of_eq _ _ _ (tree_heap _ Ht) Hl). cbn [map snd obind chain_top].
    rewrite (flatten_end _ _ Hok). apply getTopBlockIndex_ok; [apply Hok|done].
Qed.

Lemma block_at c i : chain_ok c -> 0 <= i -> is_Some (blockInfos (flatten c) !! Z.to_nat i) <-> i < seg_end (flatten c).
Proof.
  intros Hok Hi. destruct (flatten_ok _ Hok) as [_ H0]. unfold seg_end. rewrite H0, lookup_lt_is_Some. lia.
Qed.

End Chains.

End NodeProofs.
