(* ===== verification/NodePool.v ===== *)
(** * The pool of a running node

    The transaction pool stays consistent while the chains change, and the node
    does add a block that has passed its checks. *)

From S2P Require Import Prelude.
From S2P Require Import Types.
From S2P Require Import Serialization.
From S2P Require Import SerializationProofs.
From S2P Require Import Block.
From S2P Require Import Currency.
From S2P Require Import Checkpoints.
From S2P Require Import Utilities.
From S2P Require Import FormatUtils.
From S2P Require Import ValidateTransaction.
From S2P Require Import ValidateProofs.
From S2P Require Import TransactionPool.
From S2P Require Import CorePool.
From S2P Require Import PoolProofs.
From S2P Require Import BlockchainCache.
From S2P Require Import CacheProofs.
From S2P Require Import PushProofs.
From S2P Require Import CoreChain.
From S2P Require Import ChainProofs.
From S2P Require Import MathProofs.
From S2P Require Import FindProofs.
From S2P Require Import BlockRules.
From S2P Require Import MainChain.
From S2P Require Import NodeProofs.
Import Types.Types Serialization.Serialization Currency.Currency Checkpoints.Checkpoints.
Import ValidateTransaction.ValidateTransaction BlockchainCache.BlockchainCache CacheProofs.CacheProofs PushProofs.PushProofs.
Import CoreChain.CoreChain ChainProofs.ChainProofs FindProofs.FindProofs BlockRules.BlockRules MainChain.MainChain NodeProofs.NodeProofs MathProofs.MathProofs.

Module NodePool.

(** ** Reading a block *)

(** What is left of a stream of bytes after reading. *)
Definition reads {A} (f : ser A) (P : A -> Prop) (fresh : A -> Prop) : Prop :=
  forall a0 l a s, fresh a0 -> bytes_ok l -> f a0 (In l) = Ok (a, s) -> P a /\ exists rest, s = In rest /\ bytes_ok rest.

Lemma codec_reads {A} (f : ser A) valid fresh : Codec f valid fresh -> reads f valid fresh.
Proof.
  intros Hc a0 l a s H0 Hl H. apply codec_read in H as (Hv & bs & rest & -> & -> & _); [|done..]. split; [done|].
  exists rest. by apply Forall_app in Hl as [_ ?].
Qed.

Lemma items_reads {A} (f : ser A) P items : reads f P any -> forall l a s, bytes_ok l -> ser_items f items (In l) = Ok (a, s) ->
  exists rest, s = In rest /\ bytes_ok rest.
Proof.
  intros Hf. induction items as [|x items IH]; intros l a s Hl H; cbn [ser_items] in H; [injection H as <- <-; eauto|].
  apply obind_Ok in H as ([y s1] & H1 & H). apply Hf in H1 as (_ & r1 & -> & Hr1); [|done..].
  apply obind_Ok in H as ([ys s2] & H2 & H). apply IH in H2 as (r2 & -> & Hr2); [|done]. injection H as <- <-. eauto.
Qed.

Lemma branch_reads what size : reads (Block.Block.ser_hash_branch what size) any any.
Proof.
  intros a0 l a s _ Hl H. unfold Block.Block.ser_hash_branch in H. cbn [obind] in H.
  apply (items_reads _ (pod 32)) in H as (rest & -> & Hr); [by split; [|exists rest]| |done]. apply codec_reads. apply (codec_binary 32).
Qed.

Lemma nonce_reads : reads Block.Block.ser_nonce any any.
Proof.
  intros a0 l a s _ Hl H. unfold Block.Block.ser_nonce in H. apply obind_Ok in H as ([b s1] & H1 & H).
  apply (codec_reads _ _ _ (codec_binary 4)) in H1 as (_ & rest & -> & Hr); [|done..]. injection H as <- <-. by split; [|exists rest].
Qed.

(** One field of a structure that is read. *)
Ltac read_field H lem :=
  let a := fresh "a" in let s := fresh "s" in let r := fresh "r" in let H1 := fresh "H" in
  apply obind_Ok in H as ([a s] & H1 & H); apply lem in H1 as (? & r & -> & ?); [|done..].

Lemma uint_reads w : 8 <= w <= 64 -> reads (ser_uint w) (fits w) any.
Proof. intros Hw. by apply codec_reads, codec_uint. Qed.

Lemma hash_reads : reads ser_Hash (pod 32) any.
Proof. apply codec_reads. apply (codec_binary 32). Qed.

Lemma base_reads : reads ser_BaseTransaction any any.
Proof.
  intros a0 l a s _ Hl H. unfold ser_BaseTransaction in H. read_field H (uint_reads 8 ltac:(lia)). read_field H (uint_reads 64 ltac:(lia)).
  read_field H (codec_reads _ _ _ (codec_container_any default_input ser_TransactionInput valid_input _ _)).
  read_field H (codec_reads _ _ _ (codec_container_any default_output ser_TransactionOutput valid_output _ _)).
  read_field H (codec_reads _ _ _ (codec_serializeAsBinary "extra" ltac:(done))).
  apply obind_Ok in H as (s5 & Hz & H). injection H as _ <-. split; [done|].
  case_if_in Hz; [|injection Hz as <-; eauto]. read_field Hz (uint_reads 64 ltac:(lia)). injection Hz as <-. eauto.
Qed.

Lemma header_reads : reads Block.Block.serializeBlockHeader any any.
Proof.
  intros a0 l a s _ Hl H. unfold Block.Block.serializeBlockHeader in H. read_field H (uint_reads 8 ltac:(lia)). case_if_in H; [done|].
  read_field H (uint_reads 8 ltac:(lia)). case_if_in H; [|case_if_in H; [|done]].
  - read_field H (uint_reads 64 ltac:(lia)). read_field H hash_reads. read_field H nonce_reads. injection H as _ <-. split; [done|eauto].
  - read_field H hash_reads. injection H as _ <-. split; [done|eauto].
Qed.

Lemma parent_reads h : reads (Block.Block.ser_ParentBlock h false false) any any.
Proof.
  intros [[pb time] n] l a s _ Hl H. unfold Block.Block.ser_ParentBlock in H.
  read_field H (uint_reads 8 ltac:(lia)). read_field H (uint_reads 8 ltac:(lia)). read_field H (uint_reads 64 ltac:(lia)).
  read_field H hash_reads. read_field H nonce_reads. cbn [obind] in H. read_field H (uint_reads 64 ltac:(lia)). cbv zeta in H.
  case_if_in H; [done|]. apply obind_Ok in H as (size & _ & H). read_field H (branch_reads "Wrong miner transaction branch size" (Z.to_nat size)).
  read_field H base_reads. destruct (TransactionExtra.TransactionExtra.getMergeMiningTagFromExtra _) as [tag|]; [|done]. case_if_in H; [done|].
  read_field H (branch_reads "Blockchain branch size must be equal to merge mining tag depth" (Z.to_nat (TransactionExtra.TransactionExtra.depth tag))).
  injection H as _ <-. split; [done|eauto].
Qed.

(** The base transaction of a block that was read can be written as bytes. *)
Lemma block_base_bytes h ba block tx : bytes_ok ba ->
  fromBinaryArray (Block.Block.ser_BlockTemplate h) Block.Block.default_block ba = Ok block ->
  toBinaryArray ser_Transaction (baseTransaction block) = Ok tx -> bytes_ok tx.
Proof.
  intros Hb H Ht. unfold fromBinaryArray in H. apply obind_Ok in H as ([b s] & H & E). unfold Block.Block.ser_BlockTemplate in H.
  read_field H header_reads. apply obind_Ok in H as ([[[parent time] n] s2] & Hp & H).
  assert (exists r2, s2 = In r2 /\ bytes_ok r2) as (r2 & -> & Hr2).
  { case_if_in Hp; [by apply parent_reads in Hp as (_ & ?)|]. injection Hp as _ _ _ <-. eauto. }
  apply obind_Ok in H as ([t s3] & Hx & H). apply (codec_read (f := ser_Transaction)) in Hx as (Hv & _); [|done|done].
  apply obind_Ok in H as ([hashes s4] & _ & H). destruct (toBinaryArray_valid _ _ _ _ Hv) as (bs & Hbs & Ebs).
  assert (baseTransaction block = t); [|congruence]. injection H as <- <-. destruct s4; [case_if_in E; [|done]|]; by injection E as <-.
Qed.

Section Node.
Context (ops : crypto_ops) (slow_hash : Block.Block.hashing_algorithm -> list Z -> Hash).
Context (currency : Currency) (checkpoints : Checkpoints) (hash_order : list Hash -> list Hash).
Local Abbreviation cn_fast_hash := (fast_hash ops).
Local Abbreviation reserved := (m_minerTxBlobReservedSize currency).

(** The parameters of the currency make sense. *)
Record node_params : Prop := {
  param_windows : windows_ok currency;
  param_genesis : genesis_ok currency;
  param_versions : exists l, core_upgrades currency = Ok l;
  param_zones : forall v, reserved < 2 * blockGrantedFullRewardZoneByBlockVersion currency v < 2 ^ 33;
  param_reserved : 0 <= reserved;
  param_bytes : forall ba, toBinaryArray (Block.Block.ser_BlockTemplate cn_fast_hash) (genesisBlockTemplate currency) = Ok ba -> bytes_ok ba
}.

Hypothesis Hparams : node_params.

(** ** The main chain *)

Lemma main_chain_eq st : tree_ok st -> main_ok st -> exists p l, main_leaf st = Ok p /\ lin (caches st) p l /\
  main_chain_of st = Ok (map snd l) /\ chain_ok (map snd l) /\ (forall s, head (map snd l) = Some s -> blockInfos s <> []) /\
  chain_top (map snd l) = Ok (seg_end (flatten (map snd l)) - 1).
Proof.
  intros Ht (p & l & Hp & Hl & _). pose proof (tree_heap _ Ht) as Hm.
  assert (Hleaf : main_leaf st = Ok p) by (unfold main_leaf; by destruct (chainsLeaves st); simplify_eq/=).
  pose proof (lin_chain _ Hm _ _ Hl) as Hok. pose proof (heap_filled _ Hm _ _ Hl) as Hf.
  exists p, l. split_and!; [done|done| |done| |].
  - unfold main_chain_of. rewrite Hleaf. cbn [obind]. by apply chain_of_eq.
  - intros s Hs. destruct l as [|x l]; [done|]. injection Hs as <-. by apply Forall_cons in Hf as [? _].
  - destruct (lin_head _ _ _ Hl) as (c & l' & Hc & ->). cbn [map snd] in *. rewrite (flatten_end _ _ Hok). cbn [chain_top].
    apply getTopBlockIndex_ok; [apply Hok|by eapply heap_blocks].
Qed.

(** ** The median *)

(** Block sizes are 32-bit numbers. *)
Definition sized (flat : segment) : Prop := Forall (fun x => fits 32 (bi_blockSize x)) (blockInfos flat).

(** The median leaves room for the transaction of the miner. *)
Definition median_ok (st : core) : Prop := reserved < core_medianSize st * 2 < 2 ^ 40.

Lemma version_returns h : exists v, getBlockMajorVersionForHeight currency h = Ok v.
Proof. destruct (param_versions Hparams) as (l & E). unfold getBlockMajorVersionForHeight. rewrite E. by eexists. Qed.

Lemma last_sizes_fit flat count i g : sized flat -> Forall (fits 32) (map bi_blockSize (last_units flat count i g)).
Proof. intros Hs. apply Forall_map. unfold last_units, lastn. by apply Forall_drop, Forall_drop, Forall_take. Qed.

Lemma main_chain_blocks st l p : tree_ok st -> lin (caches st) p l -> 0 <= seg_end (flatten (map snd l)) - 1 < seg_end (flatten (map snd l)).
Proof.
  intros Ht Hl. pose proof (lin_chain _ (tree_heap _ Ht) _ _ Hl) as Hok. destruct (lin_head _ _ _ Hl) as (c & l' & Hc & ->).
  cbn [map snd] in *. pose proof (heap_blocks _ (tree_heap _ Ht) _ _ Hc) as Hne. rewrite (flatten_end _ _ Hok). destruct (start_fits _ _ Hok).
  unfold seg_end. destruct (blockInfos (cache_segment c)); [done|]. cbn [length]. lia.
Qed.

Lemma updateBlockMedianSize_returns st f rest : tree_ok st -> main_ok st -> views st (f :: rest) -> sized f ->
  exists m, updateBlockMedianSize currency st = Ok (set_medianSize m st) /\ reserved < m * 2 < 2 ^ 40.
Proof.
  intros Ht Hm Hv Hs. destruct (main_chain_eq st Ht Hm) as (p & l & Hp & Hl & Ec & Hok & Hne & Et).
  assert (Ef : flatten (map snd l) = f).
  { destruct (views_head _ _ _ Hv Hp) as (f' & rest' & [= <- <-] & Hvf & _). by apply (view_unique _ _ _ _ (ex_intro _ l (conj Hl eq_refl)) Hvf). }
  unfold updateBlockMedianSize. rewrite Ec. cbn [obind]. rewrite Et. cbn [obind].
  destruct (version_returns (u32 (seg_end (flatten (map snd l)) - 1 + 1))) as (version & ->). cbn [obind].
  unfold getLastBlocksSizes. rewrite Et. cbn [obind]. unfold getLastBlocksSizes_at.
  rewrite getLastUnits_flat; [|done|done|apply (param_windows Hparams)|by eapply main_chain_blocks]. cbn [obind].
  eexists. split; [done|]. rewrite Ef. pose proof (param_zones Hparams version).
  pose proof (medianValue_fits _ (last_sizes_fit f (m_rewardBlocksWindow currency) (seg_end f - 1) false Hs)) as [? ?]. lia.
Qed.

(** ** The node that the pool sees *)

Lemma node_of_ok now st flats : tree_ok st -> main_ok st -> views st flats -> median_ok st ->
  exists n, node_of ops currency checkpoints now st = Ok n /\ PoolProofs.PoolProofs.node_ok n /\ fast_hash (CorePool.CorePool.node_ops n) = cn_fast_hash.
Proof.
  intros Ht Hm Hv Hmed. destruct (main_chain_eq st Ht Hm) as (p & l & _ & _ & Ec & _ & _ & Et).
  unfold node_of. rewrite Ec. cbn [obind]. rewrite Et. cbn [obind]. eexists. split; [done|]. split; [|done].
  split_and!; [apply Hmed|apply Hmed|apply (param_reserved Hparams)|]. intros h. by eapply isTransactionInChain_returns.
Qed.

(** The pool is consistent. *)
Definition pool_ok (st : core) : Prop := PoolProofs.PoolProofs.invariant cn_fast_hash (core_pool st).

Lemma prune_pool now spent st flats : tree_ok st -> main_ok st -> views st flats -> median_ok st -> pool_ok st ->
  exists w, checkAndRemoveInvalidPoolTransactions ops currency checkpoints now spent st = Ok (set_core_pool w st) /\
    PoolProofs.PoolProofs.invariant cn_fast_hash w.
Proof.
  intros Ht Hm Hv Hmed Hp. destruct (node_of_ok now st flats Ht Hm Hv Hmed) as (n & En & Hn & Eh).
  unfold checkAndRemoveInvalidPoolTransactions. rewrite En. cbn [obind]. unfold pool_ok in Hp. rewrite <- Eh in Hp |- *.
  destruct (PoolProofs.PoolProofs.prune_invariant n spent _ Hn Hp) as (w & -> & Hw). by exists w.
Qed.

Lemma add_transactions_pool txs : forall schedules now st st' flats, tree_ok st -> main_ok st -> views st flats -> median_ok st -> pool_ok st ->
  Forall bytes_ok txs -> add_transactions ops currency checkpoints schedules now txs st = Ok st' ->
  same_tree st st' /\ median_ok st' /\ pool_ok st'.
Proof.
  induction txs as [|t txs IH]; intros schedules now st st' flats Ht Hm Hv Hmed Hp Hb H; cbn [add_transactions] in H; [by injection H as <-|].
  apply Forall_cons in Hb as [Hbt Hb]. apply obind_Ok in H as ([err st1] & H1 & H).
  destruct (node_of_ok now st flats Ht Hm Hv Hmed) as (n & En & Hn & Eh).
  unfold addTransactionToPool in H1. rewrite En in H1. cbn [obind] in H1. apply obind_Ok in H1 as ([e w] & Hw & E). injection E as <- <-.
  assert (Hs : same_tree st (set_core_pool w st)) by done.
  assert (Hp1 : pool_ok (set_core_pool w st)).
  { unfold pool_ok in *. rewrite <- Eh in Hp |- *. by eapply PoolProofs.PoolProofs.add_invariant. }
  destruct (IH _ _ _ _ flats (tree_ok_same _ _ Hs Ht) (main_ok_same _ _ Hs Hm) (views_same _ _ _ Hs Hv) Hmed Hp1 Hb H) as (Hs' & Hmed' & Hp').
  split; [|done]. by eapply same_tree_trans.
Qed.

(** ** The transactions of blocks that leave the main chain *)

Lemma raw_transaction_bytes c i t ba : Forall (fun s => Forall raw_ok (storage s)) c ->
  getRawTransaction cn_fast_hash c i t = Ok ba -> bytes_ok ba.
Proof.
  induction c as [|s c IH]; intros Hc H; cbn [getRawTransaction] in H; [done|]. apply Forall_cons in Hc as [Hs Hc].
  case_if_in H; [by apply IH|]. apply obind_Ok in H as (raw & Hr & H).
  assert (Hraw : raw_ok raw).
  { unfold storage_getBlockByIndex in Hr. case_if_in Hr; [done|]. apply vec_at_elem in Hr. rewrite Forall_forall in Hs. by apply Hs. }
  case_if_in H.
  - apply obind_Ok in H as (block & Hb & H). eapply block_base_bytes; [apply Hraw|exact Hb|exact H].
  - apply obind_Ok in H as (? & _ & H). destruct Hraw as [_ Hraw]. rewrite Forall_forall in Hraw. by eapply Hraw, vec_at_elem.
Qed.

Lemma raw_transactions_bytes c requested : forall found missed, Forall (fun s => Forall raw_ok (storage s)) c ->
  getRawTransactions cn_fast_hash c requested = Ok (found, missed) -> Forall bytes_ok found.
Proof.
  intros found missed Hc. revert found missed. induction requested as [|h requested IH]; intros found missed H; cbn [getRawTransactions] in H.
  - by injection H as <- <-.
  - destruct c as [|s c'] eqn:Ec; [done|]. rewrite <- Ec in *. destruct (find_transaction s h) as [t|].
    + apply obind_Ok in H as (raw & Hr & H). apply obind_Ok in H as ([f m] & Hf & H). injection H as <- <-.
      constructor; [by eapply raw_transaction_bytes|by eapply IH].
    + apply obind_Ok in H as ([f m] & Hf & H). injection H as <- <-. by eapply IH.
Qed.

Definition raws_ok (flat : segment) : Prop := Forall raw_ok (storage flat).

Lemma raws_flatten c : raws_ok (flatten c) -> Forall raws_ok c.
Proof.
  induction c as [|s c IH]; [constructor|]. unfold raws_ok at 1. change (storage (flatten (s :: c))) with (storage (flatten c) ++ storage s).
  intros [Hc Hs]%Forall_app. constructor; [done|by apply IH].
Qed.

Lemma raws_of_cache st flats p c : tree_ok st -> views st flats -> Forall raws_ok flats -> caches st !! p = Some c ->
  exists l, lin (caches st) p l /\ chain_of st p = Ok (map snd l) /\ Forall raws_ok (map snd l).
Proof.
  intros Ht Hv Hr Hp. destruct (heap_view _ _ _ (tree_heap _ Ht) Hp) as (l & Hl & Hvw).
  exists ((p, cache_segment c) :: l). split_and!; [done|by apply chain_of_eq; [apply Ht|]|]. apply raws_flatten.
  destruct (prefix_of_leaf st flats p c _ Ht Hv Hp Hvw) as (k & f & u & Hk & Ef & _). apply (proj1 (Forall_lookup _ _) Hr) in Hk.
  rewrite Ef in Hk. unfold raws_ok in *. cbn [join storage] in Hk. by apply Forall_app in Hk as [? _].
Qed.

Lemma copyTransactionsToPool_pool fuel : forall schedules now alt st st' flats,
  tree_ok st -> main_ok st -> views st flats -> Forall raws_ok flats -> median_ok st -> pool_ok st ->
  copyTransactionsToPool ops currency checkpoints hash_order fuel schedules now alt st = Ok st' -> median_ok st' /\ pool_ok st'.
Proof.
  induction fuel as [|fuel IH]; intros schedules now alt st st' flats Ht Hm Hv Hr Hmed Hp H; cbn [copyTransactionsToPool] in H; [done|].
  case_if_in H; [by injection H as <-|]. apply obind_Ok in H as (c & Hc & H). apply obind_Ok in H as (cell & Hcell%deref_Ok & H).
  apply obind_Ok in H as (txs & Hx & H). apply obind_Ok in H as (st1 & H1 & H).
  destruct (raws_of_cache _ _ _ _ Ht Hv Hr Hcell) as (l & _ & El & Hl). rewrite El in Hc. injection Hc as <-.
  assert (Hb : Forall bytes_ok txs).
  { unfold getRawTransactions_all in Hx. apply obind_Ok in Hx as ([found missed] & Hf & Hx). apply obind_Ok in Hx as (? & _ & [= <-]).
    by eapply raw_transactions_bytes. }
  destruct (add_transactions_pool _ _ _ _ _ _ Ht Hm Hv Hmed Hp Hb H1) as (Hs & Hmed1 & Hp1).
  destruct (parent cell); [|by injection H as <-].
  apply (IH _ _ _ _ _ flats (tree_ok_same _ _ Hs Ht) (main_ok_same _ _ Hs Hm) (views_same _ _ _ Hs Hv) Hr Hmed1 Hp1 H).
Qed.

(** ** Adding a block *)

(** The steps that change the tree leave the pool and the median alone. *)
Definition same_pool (st st' : core) : Prop := core_pool st' = core_pool st /\ core_medianSize st' = core_medianSize st.

Lemma same_pool_trans st1 st2 st3 : same_pool st1 st2 -> same_pool st2 st3 -> same_pool st1 st3.
Proof. unfold same_pool. intros [-> ->] [-> ->]. done. Qed.

Lemma push_same_pool p block txs images size coins d raw st st' :
  cache_pushBlock ops p block txs images size coins d raw st = Ok st' -> same_pool st st'.
Proof.
  unfold cache_pushBlock. intros H. apply obind_Ok in H as ([|s c] & _ & H); [done|]. apply obind_Ok in H as (s' & _ & H). by injection H as <-.
Qed.

Lemma mainset_same_pool st st' : updateMainChainSet st = Ok st' -> same_pool st st'.
Proof.
  unfold updateMainChainSet. intros H. apply obind_Ok in H as (p & _ & H). apply obind_Ok in H as (l & _ & H). by injection H as <-.
Qed.

Lemma addChild_same_pool p q st st' : addChild p q st = Ok st' -> same_pool st st'.
Proof. unfold addChild. intros H. apply obind_Ok in H as (c & _ & H). apply obind_Ok in H as (? & _ & H). by injection H as <-. Qed.

Lemma fork_same_pool p block raw b st st' : fork_at ops p block raw b st = Ok st' -> same_pool st st'.
Proof.
  unfold fork_at, createBlockchainCache, allocate, push_checked. intros H. apply obind_Ok in H as (st1 & H1 & H).
  apply addChild_same_pool in H1. apply push_same_pool in H. cbn [set_leaves set_chainsStorage core_pool core_medianSize] in *.
  eapply same_pool_trans; [|exact H]. exact H1.
Qed.

Lemma fix_same_pool l : forall q st st', fixChildrenParent l q st = Ok st' -> same_pool st st'.
Proof.
  induction l as [|p l IH]; intros q st st' H; cbn [fixChildrenParent] in H; [by injection H as <-|].
  apply obind_Ok in H as (c & _ & H). by apply IH in H.
Qed.

Lemma split_same_pool p i st q st' : cache_split p i st = Ok (q, st') -> same_pool st st'.
Proof.
  unfold cache_split, allocate. intros H. apply obind_Ok in H as (c & _ & H). apply obind_Ok in H as ([lower upper] & _ & H).
  apply obind_Ok in H as (st1 & H1 & H). apply fix_same_pool in H1. by injection H as <- <-.
Qed.

Lemma same_tree_sym st st' : same_tree st st' -> same_tree st' st.
Proof. unfold same_tree. intros (-> & -> & -> & -> & ->). done. Qed.

Lemma median_settles st flats st1 : tree_ok st -> main_ok st -> views st flats -> Forall sized flats ->
  updateBlockMedianSize currency st = Ok st1 -> same_tree st st1 /\ median_ok st1 /\ core_pool st1 = core_pool st.
Proof.
  intros Ht Hm Hv Hs H. destruct flats as [|f rest].
  { destruct Hm as (p & l & Hp & _). unfold views in Hv. apply Forall2_nil_inv_r in Hv. by rewrite Hv in Hp. }
  apply Forall_cons in Hs as [Hf _]. destruct (updateBlockMedianSize_returns st f rest Ht Hm Hv Hf) as (m & E & Hmed).
  rewrite E in H. by injection H as <-.
Qed.

Lemma prune_settles now spent st flats st1 : tree_ok st -> main_ok st -> views st flats -> median_ok st -> pool_ok st ->
  checkAndRemoveInvalidPoolTransactions ops currency checkpoints now spent st = Ok st1 -> same_tree st st1 /\ median_ok st1 /\ pool_ok st1.
Proof.
  intros Ht Hm Hv Hmed Hp H. destruct (prune_pool now spent st flats Ht Hm Hv Hmed Hp) as (w & E & Hw). rewrite E in H. by injection H as <-.
Qed.

Section Place.
Context (flats : list segment) (st' : core).
Hypothesis Ht : tree_ok st'.
Hypothesis Hm : main_ok st'.
Hypothesis Hv : views st' flats.
Hypothesis Hs : Forall sized flats.
Hypothesis Hr : Forall raws_ok flats.

(** The same tree before the pool changes. *)
Lemma before st : same_tree st st' -> tree_ok st /\ main_ok st /\ views st flats.
Proof.
  intros H%same_tree_sym. split_and!; [by eapply tree_ok_same|by eapply main_ok_same|by eapply views_same].
Qed.

Lemma place_leaf_pool schedules now block raw b st r : median_ok st -> pool_ok st ->
  place_on_leaf ops currency checkpoints hash_order schedules now block raw b st = Ok (r, st') -> median_ok st' /\ pool_ok st'.
Proof.
  intros Hmed Hp H. unfold place_on_leaf in H. apply obind_Ok in H as (main & _ & H). apply obind_Ok in H as (st1 & H1 & H).
  apply push_same_pool in H1 as [Ep Em]. case_if_in H.
  - apply obind_Ok in H as (st2 & H2 & H). apply obind_Ok in H as (st3 & H3 & H). injection H as <- ->.
    pose proof (updateBlockMedianSize_same _ _ _ H2) as S2. pose proof (prune_same _ _ _ _ _ _ _ H3) as S3.
    destruct (before st1) as (T1 & M1 & V1); [by eapply same_tree_trans|]. destruct (before st2) as (T2 & M2 & V2); [done|].
    apply (median_settles _ flats) in H2 as (_ & Hmed2 & Ep2); [|done..].
    apply (prune_settles _ _ _ flats) in H3 as (_ & ? & ?); [done..|]. unfold pool_ok in *. by rewrite Ep2, Ep.
  - apply obind_Ok in H as (d & _ & H). apply obind_Ok in H as (dm & _ & H). case_if_in H.
    + cbv zeta in H. apply obind_Ok in H as (? & _ & H). apply obind_Ok in H as (? & _ & H). apply obind_Ok in H as (leaves & _ & H).
      apply obind_Ok in H as (st3 & H3 & H). apply mainset_same_pool in H3 as [Ep3 Em3]. cbn [set_leaves core_pool core_medianSize] in Ep3, Em3.
      apply obind_Ok in H as (st4 & H4 & H). apply obind_Ok in H as (st5 & H5 & H). apply obind_Ok in H as (st6 & H6 & H). injection H as <- ->.
      pose proof (updateBlockMedianSize_same _ _ _ H4) as S4. pose proof (prune_same _ _ _ _ _ _ _ H5) as S5.
      pose proof (copyTransactionsToPool_same _ _ _ _ _ _ _ _ _ _ H6) as S6.
      destruct (before st3) as (T3 & M3 & V3); [eapply same_tree_trans; [exact S4|by eapply same_tree_trans]|].
      destruct (before st4) as (T4 & M4 & V4); [by eapply same_tree_trans|]. destruct (before st5) as (T5 & M5 & V5); [done|].
      apply (median_settles _ flats) in H4 as (_ & Hmed4 & Ep4); [|done..].
      apply (prune_settles _ _ _ flats) in H5 as (_ & Hmed5 & Hp5); [|done..|unfold pool_ok in *; by rewrite Ep4, Ep3, Ep].
      by eapply (copyTransactionsToPool_pool _ _ _ _ _ _ flats).
    + injection H as <- ->. unfold median_ok, pool_ok in *. by rewrite Ep, Em.
Qed.

Lemma place_pool schedules now block raw b st r : median_ok st -> pool_ok st ->
  place_block ops currency checkpoints hash_order schedules now block raw b st = Ok (r, st') -> median_ok st' /\ pool_ok st'.
Proof.
  intros Hmed Hp H. unfold place_block in H. destruct (checked_onTop b).
  - apply obind_Ok in H as (count & _ & H). case_if_in H; [by eapply place_leaf_pool|].
    apply obind_Ok in H as (st1 & H1 & H). apply fork_same_pool in H1 as [Ep1 _]. apply obind_Ok in H as (st2 & H2 & H).
    apply mainset_same_pool in H2 as [Ep2 _]. apply obind_Ok in H as (st3 & H3 & H). injection H as <- ->.
    pose proof (updateBlockMedianSize_same _ _ _ H3) as S3. destruct (before st2 S3) as (T2 & M2 & V2).
    apply (median_settles _ flats) in H3 as (_ & ? & Ep3); [|done..]. split; [done|]. unfold pool_ok in *. by rewrite Ep3, Ep2, Ep1.
  - apply obind_Ok in H as ([upper st1] & H1 & H). apply split_same_pool in H1 as S1. apply obind_Ok in H as (? & _ & H). apply obind_Ok in H as (? & _ & H).
    apply obind_Ok in H as (? & _ & H). apply obind_Ok in H as (? & _ & H). apply obind_Ok in H as (st2 & H2 & H). cbv zeta in H.
    assert (S2 : same_pool st1 st2).
    { case_if_in H2; [apply obind_Ok in H2 as (? & _ & H2)|]; by injection H2 as <-. }
    apply obind_Ok in H as (st3 & H3 & H). apply fork_same_pool in H3. apply obind_Ok in H as (st4 & H4 & H). apply mainset_same_pool in H4.
    injection H as <- ->. assert (S : same_pool st st').
    { eapply same_pool_trans; [exact S1|]. eapply same_pool_trans; [exact S2|]. by eapply same_pool_trans. }
    destruct S as [Ep Em]. unfold median_ok, pool_ok in *. by rewrite Ep, Em.
Qed.

End Place.

Lemma validate_transactions_pool txs : forall schedules now spent fee c previous ts st st' r, median_ok st -> pool_ok st ->
  validate_transactions ops currency checkpoints schedules now txs spent fee c previous ts st = Ok (st', r) -> median_ok st' /\ pool_ok st'.
Proof.
  induction txs as [|t txs IH]; intros schedules now spent fee c previous ts st st' r Hmed Hp H; cbn [validate_transactions] in H.
  - by injection H as <- <-.
  - apply obind_Ok in H as ([result spent'] & _ & H). case_if_in H; [by eapply IH|]. cbv zeta in H. case_if_in H; [|by injection H as <- <-].
    apply obind_Ok in H as ([b pool] & Hrm & H). injection H as <- <-. split; [done|]. unfold pool_ok in *. cbn [set_core_pool core_pool].
    eapply PoolProofs.PoolProofs.invariant_smaller; [exact Hp|]. eapply PoolProofs.PoolProofs.remove_smaller; [apply Hp|exact Hrm].
Qed.

Lemma check_block_pool schedules now block h raw st st' r : median_ok st -> pool_ok st ->
  check_block ops slow_hash currency checkpoints schedules now block h raw st = Ok (st', r) -> median_ok st' /\ pool_ok st'.
Proof.
  intros Hmed Hp. unfold check_block. intros H. apply obind_Ok in H as ([?|] & _ & H); [by injection H as <- <-|]. apply obind_Ok in H as (? & _ & H).
  apply obind_Ok in H as ([p|] & _ & H); [|by injection H as <- <-].
  apply obind_Ok in H as (c & _ & H). apply obind_Ok in H as ([[txs size]|] & _ & H); [|by injection H as <- <-].
  apply obind_Ok in H as (? & _ & H). apply obind_Ok in H as (? & _ & H). apply obind_Ok in H as (? & _ & H).
  apply obind_Ok in H as (max & _ & H). case_if_in H; [by injection H as <- <-|].
  apply obind_Ok in H as ([reward|?] & _ & H); [|by injection H as <- <-].
  apply obind_Ok in H as (d & _ & H). case_if_in H; [by injection H as <- <-|].
  destruct (check_hashes ops block txs); [by injection H as <- <-|].
  apply obind_Ok in H as ([st1 r1] & Ht & H). apply validate_transactions_pool in Ht; [|done..].
  destruct r1 as [[spent fee]|?]; [|by injection H as <- <-]. apply obind_Ok in H as ([emission|?] & _ & H); by injection H as <- <-.
Qed.

(** ** The invariant of the chains and the pool *)

Record full_inv (st : core) (flats : list segment) : Prop := {
  full_chains : node_inv currency st flats;
  full_sizes : Forall sized flats;
  full_raws : Forall raws_ok flats;
  full_median : median_ok st;
  full_pool : pool_ok st
}.

Lemma sized_extended flat b : sized flat -> sized (extended ops flat b).
Proof.
  intros Hs. unfold sized, extended, block_delta, totals. cbn [join blockInfos]. destruct (last (blockInfos flat));
    apply Forall_app; (split; [done|]); constructor; [|constructor| |constructor]; cbn [bi_blockSize]; apply wrap_fits; lia.
Qed.

Lemma addBlock_cached_full schedules pool_schedules now block raw st flats code message st' :
  full_inv st flats -> room_for ops slow_hash currency checkpoints schedules now block raw st flats -> raw_ok raw ->
  addBlock_cached ops slow_hash currency checkpoints hash_order schedules pool_schedules now block raw st = Ok (code, message, st') ->
  exists flats', full_inv st' flats'.
Proof.
  intros [Hi Hz Hr Hmed Hp] Hroom Hraw H. pose proof (param_windows Hparams) as Hw.
  destruct (addBlock_cached_inv _ _ _ _ _ _ _ _ _ _ _ _ _ _ _ Hw Hi Hroom H) as (flats' & Hi' & Hcase).
  assert (Hz' : Forall sized flats').
  { destruct Hcase as [[-> _]|(r & b & _ & _ & _ & Ha)]; [done|]. eapply added_forall; [| |exact Hz|exact Ha].
    - intros flat upper _ _ _ Hj. unfold sized in *. cbn [join blockInfos] in Hj. by apply Forall_app in Hj as [? _].
    - intros flat _ _. apply sized_extended. }
  assert (Hr' : Forall raws_ok flats').
  { destruct Hcase as [[-> _]|(r & b & _ & _ & Eb & Ha)]; [done|]. eapply added_forall; [| |exact Hr|exact Ha].
    - intros flat upper _ _ _ Hj. unfold raws_ok in *. cbn [join storage] in Hj. by apply Forall_app in Hj as [? _].
    - intros flat _ _ Hf. destruct (extended_fields ops flat b) as (info & _ & _ & Es & _). unfold raws_ok. rewrite Es, Eb.
      apply Forall_app. split; [done|]. by constructor. }
  exists flats'. unfold addBlock_cached in H. apply obind_Ok in H as (h & _ & H). apply obind_Ok in H as ([st1 [b|e]] & Hc & H).
  - apply check_block_pool in Hc as [Hmed1 Hp1]; [|done..]. apply obind_Ok in H as ([r st2] & Hpl & H). apply obind_Ok in H as (msg & _ & H).
    injection H as <- <- <-. apply (place_pool flats') in Hpl as [? ?]; [by split|apply Hi'..|done|done|done|done].
  - injection H as <- <- <-. apply check_block_pool in Hc as [? ?]; [|done..]. by split.
Qed.

Lemma from_pool_bytes hashes : forall pool txs, PoolProofs.PoolProofs.consistent cn_fast_hash pool ->
  from_pool ops hashes pool = Ok (Some txs) -> Forall bytes_ok txs.
Proof.
  induction hashes as [|h hashes IH]; intros pool txs Hc H; cbn [from_pool] in H; [by injection H as <-|]. case_if_in H; [done|].
  apply obind_Ok in H as (t & Ht & H). apply obind_Ok in H as ([l|] & Hl & H); [|done]. injection H as <-.
  constructor; [|by eapply IH]. unfold TransactionPool.pool_getTransaction in Ht.
  destruct (TransactionPool.find_hash cn_fast_hash h pool) as [p|] eqn:Ef; [|done]. injection Ht as <-.
  apply PoolProofs.PoolProofs.find_hash_Some in Ef as (_ & l1 & l2 & El & _). destruct Hc as [Hok _ _ _ _].
  rewrite El, Forall_app, Forall_cons in Hok. by destruct Hok as (_ & [_ _ _ Hb _ _] & _).
Qed.

(** Steps of the pool alone. *)
Lemma full_pool_steps st flats w : full_inv st flats -> rtc (PoolProofs.PoolProofs.step cn_fast_hash) (core_pool st) w ->
  full_inv (set_core_pool w st) flats.
Proof.
  intros [Hi Hz Hr Hmed Hp] H. split; try done; [by eapply node_inv_same; [|exact Hi]|].
  exact (PoolProofs.PoolProofs.steps_invariant _ _ _ H Hp).
Qed.

Lemma step_full st flats st' : full_inv st flats -> step ops slow_hash currency checkpoints hash_order st st' -> exists flats', full_inv st' flats'.
Proof.
  intros Hf Hs. revert Hf.
  destruct Hs as [schedules pools now raw st code message st' Hraw Hr H|schedules pools now template st code message st' Hb Hr H|
    schedule now tx st err st' Hb H|gkd dpk now keys vk sk extra st r st' H|now st deleted st' H]; intros Hf.
  - unfold addBlock in H. fold (parse_block ops (raw_block raw)) in H. destruct (parse_block ops (raw_block raw)) as [block|].
    + eapply addBlock_cached_full; [exact Hf| |exact Hraw|exact H]. apply Hr; [done|apply Hf].
    + injection H as <- <- <-. by exists flats.
  - unfold submitBlock in H. fold (parse_block ops template) in H. destruct (parse_block ops template) as [block|].
    + apply obind_Ok in H as ([txs|] & Ht & H); [|injection H as <- <- <-; by exists flats].
      eapply addBlock_cached_full; [exact Hf| | |exact H]; [apply Hr; [done|apply Hf]|]. split; [done|].
      eapply from_pool_bytes; [apply Hf|exact Ht].
    + injection H as <- <- <-. by exists flats.
  - destruct Hf as [Hi Hz Hr Hmed Hp]. exists flats.
    destruct (add_transactions_pool [tx] [schedule] now st st' flats) as (Hs & Hmed' & Hp'); try done; [apply Hi..|by constructor| |].
    + cbn [add_transactions]. change (default [] (head [schedule])) with schedule. by rewrite H.
    + split; try done. by eapply node_inv_same.
  - apply template_pool_step in H as (w & -> & H). exists flats. by eapply full_pool_steps.
  - apply clean_pool_step in H as (w & -> & H). exists flats. by eapply full_pool_steps.
Qed.

(** Every reachable state has the invariant. *)
Lemma reachable_full st : reachable ops slow_hash currency checkpoints hash_order st -> exists flats, full_inv st flats.
Proof.
  intros (timeout & st0 & Hi & Hr). pose proof Hi as H0. apply initRootSegment_inv in H0 as (root & Hroot & H0); [|apply (param_genesis Hparams)].
  destruct (create_root_pushed _ _ _ (param_genesis Hparams) Hroot) as (b & _ & Hraw & Hg & Eroot & _).
  assert (Hz : sized root) by (rewrite Eroot; apply sized_extended; constructor).
  assert (Hinv : full_inv st0 [root]).
  { unfold initRootSegment in Hi. apply obind_Ok in Hi as (root' & Hr' & Hi). assert (root' = root) as -> by congruence.
    pose proof (updateBlockMedianSize_same _ _ _ Hi) as Hs%same_tree_sym. destruct H0 as [T M V ? ? ? ?].
    apply (median_settles _ [root]) in Hi as (_ & Hmed & Ep);
      [|by eapply tree_ok_same|by eapply main_ok_same|by eapply views_same|by constructor].
    split; [by split|by constructor| |done|].
    - constructor; [|constructor]. destruct (extended_fields ops (empty_segment 0) b) as (info & _ & _ & Es & _). unfold raws_ok.
      rewrite Eroot, Es. constructor; [|constructor]. split; [by apply (param_bytes Hparams)|by rewrite Hraw].
    - unfold pool_ok. rewrite Ep. apply PoolProofs.PoolProofs.empty_invariant. }
  revert Hinv. generalize [root]. clear -Hr Hparams. induction Hr as [st|st st1 st2 Hs _ IH]; intros flats Hf; [by exists flats|].
  destruct (step_full _ _ _ Hf Hs) as (flats' & Hf'). by apply IH in Hf'.
Qed.

(** ** A block on top of the main chain is added *)

Section Live.
Context (schedules : list (list event)) (pool_schedules : Z -> list (list event)) (now : Z) (block : BlockTemplate) (raw : RawBlock).
Context (st : core) (main : segment) (rest : list segment) (h : Hash) (base : BinaryArray) (b : checked_block).
Hypothesis Hinv : full_inv st (main :: rest).
Hypothesis Hroom : room_for ops slow_hash currency checkpoints schedules now block raw st (main :: rest).
Hypothesis Hhash : Block.Block.getBlockHash cn_fast_hash block = Ok h.
Hypothesis Hcheck : check_block ops slow_hash currency checkpoints schedules now block h raw st = Ok (st, inl b).
Hypothesis Hmain : main_leaf st = Ok (checked_cache b).
Hypothesis Htop : checked_onTop b = true.
Hypothesis Hbase : Block.Block.getTransactionBinaryArray (baseTransaction block) = Ok base.
Local Abbreviation pb := (pushed_of block raw h base b).

Lemma live_setup : exists cell l, caches st !! checked_cache b = Some cell /\ children cell = [] /\
  lin (caches st) (checked_cache b) ((checked_cache b, cache_segment cell) :: l) /\ flatten (cache_segment cell :: map snd l) = main /\
  view (caches st) (checked_cache b) main /\ on_top cn_fast_hash main pb.
Proof.
  pose proof (full_chains _ _ Hinv) as Hi. pose proof (inv_tree _ _ _ Hi) as Ht.
  pose proof Hcheck as Hc. apply check_block_passed in Hc as (_ & cell & c & Hpass). pose proof (passed_cell _ _ _ _ _ _ _ _ _ _ _ _ Hpass) as Hcell.
  destruct (views_head _ _ _ (inv_views _ _ _ Hi) Hmain) as (f & rest' & [= <- <-] & Hvm & Hhd).
  destruct (place_setup _ _ _ _ _ _ _ _ _ _ _ _ Ht Hpass) as (l & Hl & Ec & Hvp & Hok & Hs & Hr & Et & _).
  pose proof (view_unique _ _ _ _ Hvm Hvp) as Em. rewrite Htop in Et. symmetry in Et. apply Z.eqb_eq in Et.
  assert (Hleaf : is_leaf (caches st) (checked_cache b)).
  { apply (tree_leaves _ Ht). destruct (chainsLeaves st); [done|]. injection Hhd as ->. by left. }
  destruct Hleaf as (cell' & Hc' & Hch). assert (cell' = cell) as -> by congruence.
  exists cell, l. split_and!; [done|done|done|by rewrite <- Ec|done|]. rewrite Em.
  eapply (place_on_top ops slow_hash currency checkpoints st (main :: rest) block raw h base now b cell c Ht (inv_views _ _ _ Hi) Hpass Hhash Hbase
    (Hroom h base b Hhash Hcheck) c (empty_segment 0) 0%nat main Hok eq_refl).
  - by rewrite join_empty.
  - rewrite Ec in Hok |- *. rewrite (flatten_end _ _ Hok). lia.
Qed.

(** The cache takes the block: the assertions of [doPushBlock] hold. *)
Hypothesis Hacc : forall s parents, chain_of st (checked_cache b) = Ok (s :: parents) -> accepted cn_fast_hash main s pb = true.

Lemma live_push : exists st1, push_checked ops (checked_cache b) block raw b st = Ok st1 /\ tree_ok st1 /\ main_ok st1 /\
  views st1 (extended ops main pb :: rest) /\ same_pool st st1.
Proof.
  pose proof (full_chains _ _ Hinv) as Hi. pose proof (inv_tree _ _ _ Hi) as Ht.
  destruct live_setup as (cell & l & Hcell & Hch & Hl & Ef & Hvm & Hot).
  pose proof (chain_of_eq _ _ _ (tree_heap _ Ht) Hl) as Echain. cbn [map snd] in Echain. specialize (Hacc _ _ Echain).
  pose proof (lin_chain _ (tree_heap _ Ht) _ _ Hl) as Hok. cbn [map snd] in Hok.
  pose proof (push_eq cn_fast_hash _ _ pb Hok ltac:(by rewrite Ef)) as Hpush. rewrite Ef, Hacc in Hpush.
  destruct (push cn_fast_hash (map snd l) pb (cache_segment cell)) as [s'|] eqn:Es; [|done].
  assert (E1 : push_new ops (checked_cache b) pb st = Ok (update_cache (checked_cache b) (set_segment s') st)).
  { unfold push_new, cache_pushBlock. rewrite Echain. cbn [obind]. unfold push in Es. by rewrite Es. }
  exists (update_cache (checked_cache b) (set_segment s') st). split; [exact E1|].
  destruct (push_leaf ops st (checked_cache b) pb (update_cache (checked_cache b) (set_segment s') st) main Ht) as (Ht1 & Hm1 & Hv1 & Ho1 & El & _); [by exists cell|done|done|exact E1|].
  split_and!; [done|apply Hm1, Hi| |done]. destruct (views_head _ _ _ (inv_views _ _ _ Hi) Hmain) as (f & rest' & _ & _ & Hhd).
  unfold views. rewrite El. eapply (views_update _ _ _ (main :: rest) 0%nat (checked_cache b) main); [apply Hi|apply Ht|by rewrite <- head_lookup|done|done|done].
Qed.

Lemma main_block_added : exists st',
  addBlock_cached ops slow_hash currency checkpoints hash_order schedules pool_schedules now block raw st =
    Ok (AddBlock ADDED_TO_MAIN, Some (NewBlock (u32 (checked_previous b + 1)) h), st') /\
  views st' (extended ops main pb :: rest).
Proof.
  destruct live_push as (st1 & E1 & Ht1 & Hm1 & Hv1 & Ep & Em). destruct live_setup as (cell & l & Hcell & Hch & _).
  pose proof (full_sizes _ _ Hinv) as Hz. apply Forall_cons in Hz as [Hz _].
  destruct (updateBlockMedianSize_returns st1 _ _ Ht1 Hm1 Hv1 (sized_extended _ pb Hz)) as (m & E2 & Hm).
  destruct (prune_pool now (checked_state b) (set_medianSize m st1) (extended ops main pb :: rest)) as (w & E3 & _);
    [by apply (tree_ok_same st1)|by apply (main_ok_same st1)|by apply (views_same st1)|done| |].
  { unfold pool_ok. cbn [set_medianSize core_pool]. rewrite Ep. apply Hinv. }
  exists (set_core_pool w (set_medianSize m st1)). split; [|by apply (views_same st1)].
  unfold addBlock_cached. rewrite Hhash. cbn [obind]. rewrite Hcheck. cbn [obind]. unfold place_block, getChildCount.
  rewrite Htop, (deref_ok _ _ _ Hcell). cbn [obind]. rewrite Hch. cbn [length Z.of_nat Z.eqb]. unfold place_on_leaf. rewrite Hmain. cbn [obind].
  rewrite E1. cbn [obind]. rewrite !Z.eqb_refl, E2. cbn [obind]. rewrite E3. cbn [obind]. reflexivity.
Qed.

End Live.

End Node.

End NodePool.
