(* ===== verification/DeleteProofs.v ===== *)
(** * Deleting alternative chains

    [Core::deleteAlternativeChains], which runs before the chain is saved,
    ends with the main chain alone, and the main chain is as it was. *)

From S2P Require Import Prelude.
From S2P Require Import Types.
From S2P Require Import Serialization.
From S2P Require Import Block.
From S2P Require Import Currency.
From S2P Require Import Checkpoints.
From S2P Require Import ValidateTransaction.
From S2P Require Import TransactionPool.
From S2P Require Import CorePool.
From S2P Require Import BlockchainCache.
From S2P Require Import CacheProofs.
From S2P Require Import PushProofs.
From S2P Require Import CoreChain.
From S2P Require Import ChainProofs.
From S2P Require Import FindProofs.
From S2P Require Import BlockRules.
From S2P Require Import MainChain.
Import Types.Types Serialization.Serialization Currency.Currency Checkpoints.Checkpoints.
Import ValidateTransaction.ValidateTransaction BlockchainCache.BlockchainCache CacheProofs.CacheProofs PushProofs.PushProofs.
Import CoreChain.CoreChain ChainProofs.ChainProofs FindProofs.FindProofs BlockRules.BlockRules MainChain.MainChain.

Module DeleteProofs.

(** ** Erasing *)

Lemma erase_child_elem x p l : NoDup l -> x ∈ erase_child p l <-> x <> p /\ x ∈ l.
Proof.
  induction l as [|y l IH]; intros Hnd; cbn [erase_child]; [split; [by intros ?%elem_of_nil|by intros [_ ?%elem_of_nil]]|].
  apply NoDup_cons in Hnd as [Hy Hnd]. destruct (Z.eqb_spec y p) as [->|Hne].
  - rewrite elem_of_cons. split; [intros Hx; split; [by intros ->|by right]|]. by intros [? [?|?]].
  - rewrite !elem_of_cons, IH by done. split; [intros [->|[? ?]]; auto|]. intros [? [->|?]]; auto.
Qed.

Lemma erase_child_nodup p l : NoDup l -> NoDup (erase_child p l).
Proof.
  induction l as [|y l IH]; intros Hnd; cbn [erase_child]; [constructor|]. pose proof Hnd as [Hy Hl]%NoDup_cons.
  destruct (y =? p); [done|]. apply NoDup_cons. split; [|by apply IH]. by intros [_ ?]%erase_child_elem.
Qed.

Lemma erase_at_elem {A} (l : list A) i x y : NoDup l -> l !! i = Some x -> y ∈ erase_at i l <-> y <> x /\ y ∈ l.
Proof.
  intros Hnd Hi. unfold erase_at. pose proof (take_drop_middle l i x Hi) as E. rewrite <- E in Hnd |- * at 3.
  apply NoDup_app in Hnd as (_ & Hd & Hnd). apply NoDup_cons in Hnd as [Hx _]. rewrite !elem_of_app, elem_of_cons. split.
  - intros [Hy|Hy]; (split; [intros ->|tauto]); [|done]. apply (Hd x Hy). by left.
  - tauto.
Qed.

Lemma erase_at_nodup {A} (l : list A) i : NoDup l -> NoDup (erase_at i l).
Proof.
  intros Hnd. unfold erase_at. rewrite <- (take_drop i l) in Hnd. apply NoDup_app in Hnd as (H1 & H2 & H3).
  apply NoDup_app. split_and!; [done| |].
  - intros x Hx Hx'. apply (H2 x Hx). rewrite <- (take_drop 1 (drop i l)), drop_drop. apply elem_of_app. right. by rewrite Nat.add_1_r.
  - rewrite <- (take_drop 1 (drop i l)), drop_drop, Nat.add_1_r in H3. by apply NoDup_app in H3 as (_ & _ & ?).
Qed.

Lemma erase_at_length {A} (l : list A) i : (i < length l)%nat -> length (erase_at i l) = pred (length l).
Proof. intros Hi. unfold erase_at. rewrite length_app, length_take, length_drop. lia. Qed.

Lemma erase_at_head {A} (l : list A) i x : i <> 0%nat -> l !! 0%nat = Some x -> erase_at i l !! 0%nat = Some x.
Proof. intros Hi. unfold erase_at. destruct i; [done|]. by destruct l. Qed.

(** ** The tree without a leaf *)

Section Heap.
Context (m : gmap Z cache) (Hm : heap_ok m).
Context (p : Z) (c : cache) (Hp : m !! p = Some c) (Hleaf : children c = []).
Context (q : Z) (cq : cache) (Hpar : parent c = Some q) (Hq : m !! q = Some cq).

Lemma remove_ne : q <> p.
Proof.
  intros ->. assert (Hin : p ∈ children c) by (apply (heap_link _ Hm _ _ _ Hp); eauto). rewrite Hleaf in Hin. by apply elem_of_nil in Hin.
Qed.

Context (m' : gmap Z cache).
Hypothesis Hm' : forall x, m' !! x =
  if decide (x = p) then None else if decide (x = q) then Some (set_children (erase_child p (children cq)) cq) else m !! x.

Lemma remove_lin x l : lin m x l -> x <> p -> lin m' x l.
Proof.
  intros Hl Hx. apply (lin_same m); [done|]. pose proof (leaf_not_ancestor _ Hm _ _ _ _ Hp Hleaf Hl Hx) as Hn.
  apply Forall_forall. intros y Hy cy Hcy. rewrite Hm', decide_False by congruence. case_decide; [|eauto]. subst y.
  exists (set_children (erase_child p (children cq)) cq). simplify_eq. done.
Qed.

(** The children that are left. *)
Lemma remove_cell x cx : m' !! x = Some cx -> x <> p /\ exists c0, m !! x = Some c0 /\ cache_segment cx = cache_segment c0 /\
  parent cx = parent c0 /\ NoDup (children cx) /\ forall y, y ∈ children cx <-> y <> p /\ y ∈ children c0.
Proof.
  rewrite Hm'. case_decide as Ep; [done|]. intros Hx. split; [done|]. case_decide as Eq.
  - injection Hx as <-. subst x. exists cq. split_and!; [done..| |].
    + apply erase_child_nodup. by eapply (heap_children _ Hm).
    + intros y. apply erase_child_elem. by eapply (heap_children _ Hm).
  - exists cx. split_and!; [done..|by eapply (heap_children _ Hm)|]. intros y. split; [|tauto]. intros Hy. split; [|done]. intros ->.
    destruct (child_parent _ Hm _ _ _ Hx Hy) as (c' & Hc' & E). simplify_eq.
Qed.

Lemma remove_back x cx : m !! x = Some cx -> x <> p -> exists c', m' !! x = Some c' /\ parent c' = parent cx.
Proof.
  intros Hx Hne. rewrite Hm', decide_False by done. case_decide; [|eauto]. subst x. simplify_eq. eexists. split; [done|done].
Qed.

Lemma remove_ok : heap_ok m'.
Proof.
  split.
  - intros x cx y Hx. destruct (remove_cell _ _ Hx) as (Hne & c0 & H0 & _ & _ & _ & Hc). rewrite Hc, (heap_link _ Hm _ _ _ H0). split.
    + intros [Hy (c' & Hc' & E)]. destruct (remove_back _ _ Hc' Hy) as (c2 & H2 & E2). exists c2. split; [done|congruence].
    + intros (c' & Hc' & E). destruct (remove_cell _ _ Hc') as (Hy & c2 & H2 & _ & E2 & _). split; [done|]. exists c2. split; [done|congruence].
  - intros x cx Hx. by destruct (remove_cell _ _ Hx) as (_ & c0 & _ & _ & _ & ? & _).
  - intros x cx Hx. destruct (remove_cell _ _ Hx) as (Hne & c0 & H0 & _). destruct (heap_chain _ Hm _ _ H0) as (l & Hl & Hok).
    exists l. split; [by apply remove_lin|done].
  - intros x cx Hx. destruct (remove_cell _ _ Hx) as (Hne & c0 & H0 & -> & _). by eapply (heap_blocks _ Hm).
  - intros x y cx cy Hx Hy Nx Ny. destruct (remove_cell _ _ Hx) as (_ & c0 & H0 & _ & E0 & _).
    destruct (remove_cell _ _ Hy) as (_ & c1 & H1 & _ & E1 & _). eapply (heap_root _ Hm); [exact H0|exact H1|congruence|congruence].
Qed.

Lemma remove_leaf x : is_leaf m' x <-> x <> p /\ (is_leaf m x \/ (x = q /\ erase_child p (children cq) = [])).
Proof.
  unfold is_leaf. rewrite Hm'. pose proof remove_ne as Hqp. case_decide as Ep; [split; [by intros (? & ? & _)|tauto]|]. case_decide as Eq.
  - subst x. split.
    + intros (c' & [= <-] & E). auto.
    + intros [_ [(c' & Hc' & E)|[_ E]]]; [|eauto]. simplify_eq. assert (Hin : p ∈ children cq) by (apply (heap_link _ Hm _ _ _ Hq); eauto).
      rewrite E in Hin. by apply elem_of_nil in Hin.
  - split; [auto|]. by intros [_ [?|[? _]]].
Qed.

End Heap.

(** ** [deleteLeaf] *)

Section Leaf.
Context (st : core) (k : nat) (main p : Z).
Hypothesis Ht : tree_ok st.
Hypothesis Hk : chainsLeaves st !! k = Some p.
Hypothesis Hn : k <> 0%nat.
Hypothesis Hhead : chainsLeaves st !! 0%nat = Some main.

(** A leaf that is not the main one has a parent. *)
Lemma leaf_parent : p <> main /\ exists c q cq, caches st !! p = Some c /\ children c = [] /\ parent c = Some q /\
  caches st !! q = Some cq /\ p ∈ children cq.
Proof.
  pose proof (tree_heap _ Ht) as Hm. destruct (tree_leaves _ Ht) as [Hnd Hlv].
  assert (Hne : p <> main) by (intros ->; apply Hn; by eapply NoDup_lookup). split; [done|].
  destruct (proj1 (Hlv p) (list_elem_of_lookup_2 _ _ _ Hk)) as (c & Hc & Hch).
  destruct (proj1 (Hlv main) (list_elem_of_lookup_2 _ _ _ Hhead)) as (cm & Hcm & _).
  destruct (parent c) as [q|] eqn:Ep.
  - destruct (heap_lin _ Hm _ _ Hc) as (l & Hl & _). inversion Hl as [|? ? ? ? H0 Hq Hlq]; subst; simplify_eq.
    destruct (lin_head _ _ _ Hlq) as (cq & l' & Hcq & _). exists c, q, cq. split_and!; try done. apply (heap_link _ Hm _ _ _ Hcq). eauto.
  - destruct (heap_lin _ Hm _ _ Hcm) as (l & Hl & _). destruct (lin_last _ _ _ Hl) as (r & cr & Hr & Hcr & Er).
    assert (r = p) as -> by (by eapply (heap_root _ Hm)). by destruct (leaf_not_ancestor _ Hm _ _ _ _ Hc Hch Hl (not_eq_sym Hne)).
Qed.

Lemma index_of_storage x : x ∈ chainsStorage st -> (index_of x (chainsStorage st) <? length (chainsStorage st))%nat = true /\
  chainsStorage st !! index_of x (chainsStorage st) = Some x.
Proof. intros Hx%index_of_lookup. split; [|done]. apply Nat.ltb_lt. by eapply lookup_lt_Some. Qed.

Lemma deleteLeaf_eq : exists c q cq, caches st !! p = Some c /\ children c = [] /\ parent c = Some q /\ caches st !! q = Some cq /\ q <> p /\
  deleteLeaf k st = Ok (mkCore (delete p (alter (set_children (erase_child p (children cq))) q (caches st))) (next_cache st)
    (erase_at k (if is_empty (erase_child p (children cq)) then chainsLeaves st ++ [q] else chainsLeaves st))
    (erase_at (index_of p (chainsStorage st)) (chainsStorage st)) (mainChainSet st) (core_medianSize st) (core_pool st)).
Proof.
  destruct leaf_parent as (_ & c & q & cq & Hc & Hch & Hpar & Hq & Hin). exists c, q, cq.
  pose proof (remove_ne _ (tree_heap _ Ht) p c Hc Hch q cq Hpar Hq) as Hne. split_and!; try done.
  unfold deleteLeaf. rewrite Hk, (deref_ok _ _ _ Hc). cbn [obind]. rewrite Hpar. unfold deleteChild. rewrite (deref_ok _ _ _ Hq). cbn [obind].
  rewrite bool_decide_true by done. cbn [obind assert_that]. cbn [update_cache set_caches chainsStorage chainsLeaves caches].
  rewrite (proj1 (index_of_storage p (proj2 (proj2 (tree_storage _ Ht) p) ltac:(eauto)))). cbn [assert_that obind].
  destruct (Nat.eqb_spec k 0); [done|]. unfold getChildCount, deref. cbn [caches update_cache set_caches]. rewrite lookup_alter_eq, Hq. cbn [fmap option_fmap option_map obind].
  cbn [set_children children]. by destruct (erase_child p (children cq)).
Qed.

Lemma deleteLeaf_ok : exists st', deleteLeaf k st = Ok st' /\ tree_ok st' /\ (main_ok st -> main_ok st') /\
  chainsLeaves st' !! 0%nat = Some main /\ (length (chainsStorage st') < length (chainsStorage st))%nat /\
  (forall l, lin (caches st) main l -> lin (caches st') main l).
Proof.
  pose proof (tree_heap _ Ht) as Hm. destruct deleteLeaf_eq as (c & q & cq & Hc & Hch & Hpar & Hq & Hqp & E). rewrite E.
  destruct leaf_parent as (Hpm & _). eexists. split; [done|]. cbn [caches chainsLeaves chainsStorage].
  set (m' := delete p (alter _ q (caches st))). assert (Hm' : forall x, m' !! x = if decide (x = p) then None else
    if decide (x = q) then Some (set_children (erase_child p (children cq)) cq) else caches st !! x).
  { intros x. unfold m'. case_decide as E1; [subst x; apply lookup_delete_eq|]. rewrite lookup_delete_ne by done.
    case_decide as E2; [subst x; by rewrite lookup_alter_eq, Hq|by rewrite lookup_alter_ne]. }
  pose proof (remove_leaf _ Hm p c Hc Hch q cq Hpar Hq m' Hm') as Hlf. destruct (tree_leaves _ Ht) as [Hnd Hlv]. destruct (tree_storage _ Ht) as [Hns Hst].
  assert (Hps : p ∈ chainsStorage st) by (apply Hst; eauto). destruct (index_of_storage p Hps) as [Hlt Hix]. apply Nat.ltb_lt in Hlt.
  set (leaves := if is_empty _ then _ else _). assert (Hleaves : NoDup leaves /\ leaves !! k = Some p /\ leaves !! 0%nat = Some main /\
    forall x, x ∈ leaves <-> x ∈ chainsLeaves st \/ (x = q /\ erase_child p (children cq) = [])).
  { assert (Hqn : q ∉ chainsLeaves st).
    { intros (c' & Hc' & E')%Hlv. assert (Hin : p ∈ children cq) by (apply (heap_link _ Hm _ _ _ Hq); eauto). simplify_eq.
      rewrite E' in Hin. by apply elem_of_nil in Hin. }
    unfold leaves. destruct (erase_child p (children cq)) eqn:Ee; cbn [is_empty]; split_and!; try done.
    - apply NoDup_app. split_and!; [done| |apply NoDup_singleton]. by intros x Hx ->%list_elem_of_singleton.
    - by apply lookup_app_l_Some.
    - by apply lookup_app_l_Some.
    - intros x. rewrite elem_of_app, list_elem_of_singleton. tauto.
    - intros x. split; [by left|]. by intros [?|[_ ?]]. }
  destruct Hleaves as (Hnl & Hkl & H0l & Hel). split_and!.
  - split; cbn [caches next_cache chainsLeaves chainsStorage]; [by eapply (remove_ok _ Hm p c Hc Hch q cq Hpar Hq)| |split|split].
    + intros x [cx Hx]. destruct (remove_cell _ Hm p c Hc q cq Hpar Hq m' Hm' _ _ Hx) as (_ & c0 & H0 & _). apply (tree_next _ Ht). eauto.
    + by apply erase_at_nodup.
    + intros x. rewrite (erase_at_elem _ _ p) by done. rewrite Hst, Hm'. case_decide; [subst x; split; [tauto|by intros [? ?]]|].
      case_decide; [|tauto]. subst x. rewrite Hq. split; [eauto|]. by split; [|eauto].
    + by apply erase_at_nodup.
    + intros x. rewrite (erase_at_elem _ _ p) by done. rewrite Hel, Hlv, Hlf. tauto.
  - intros (x & l & Hx & Hl & Hset). cbn [mainChainSet chainsLeaves caches]. exists x, l. rewrite head_lookup in Hx.
    assert (x = main) as -> by congruence. split_and!; [|by apply (remove_lin _ Hm p c Hc Hch q cq Hq m' Hm')|done].
    rewrite head_lookup. by apply erase_at_head.
  - by apply erase_at_head.
  - rewrite erase_at_length by done. lia.
  - intros l Hl. by apply (remove_lin _ Hm p c Hc Hch q cq Hq m' Hm').
Qed.

End Leaf.

(** ** All alternative chains *)

Lemma deleteAlternativeChains_ok fuel : forall st main, tree_ok st -> main_ok st -> chainsLeaves st !! 0%nat = Some main ->
  (length (chainsStorage st) <= fuel)%nat ->
  exists st', deleteAlternativeChains fuel st = Ok st' /\ tree_ok st' /\ main_ok st' /\ chainsLeaves st' = [main] /\
    forall l, lin (caches st) main l -> lin (caches st') main l.
Proof.
  induction fuel as [|fuel IH]; intros st main Ht Hm H0 Hf.
  { assert (Hin : main ∈ chainsStorage st).
    { apply (tree_storage _ Ht). apply list_elem_of_lookup_2, (tree_leaves _ Ht) in H0 as (c & Hc & _). eauto. }
    destruct (chainsStorage st); [by apply elem_of_nil in Hin|cbn [length] in Hf; lia]. }
  cbn [deleteAlternativeChains]. destruct (Nat.leb_spec (length (chainsLeaves st)) 1) as [Hle|Hgt].
  - exists st. split_and!; try done. destruct (chainsLeaves st) as [|x [|y l]]; simplify_eq/=; [done|lia].
  - destruct (lookup_lt_is_Some_2 (chainsLeaves st) 1) as [p Hp]; [lia|].
    destruct (deleteLeaf_ok st 1 main p Ht Hp ltac:(done) H0) as (st1 & -> & Ht1 & Hm1 & H1 & Hlt & Hv1). cbn [obind].
    destruct (IH st1 main Ht1 (Hm1 Hm) H1) as (st' & E & Ht' & Hm' & Hl' & Hv'); [lia|]. exists st'. split_and!; [done..|]. auto.
Qed.

End DeleteProofs.
