(* ===== verification/SampleChain.v ===== *)
(** * A small node

    A node with the parameters of the currency and stand-ins for the hash and
    curve functions, the blocks that make it grow two chains and switch between
    them, and the states it goes through.  The theorems about running nodes are
    applied to these states. *)

From S2P Require Import Prelude.
From S2P Require Import Types.
From S2P Require Import Serialization.
From S2P Require Import Block.
From S2P Require Import Currency.
From S2P Require Import Checkpoints.
From S2P Require Import ValidateTransaction.
From S2P Require Import TransactionPool.
From S2P Require Import BlockchainCache.
From S2P Require Import CacheProofs.
From S2P Require Import PushProofs.
From S2P Require Import CoreChain.
From S2P Require Import ChainProofs.
From S2P Require Import BlockRules.
From S2P Require Import MainChain.
From S2P Require Import NodeProofs.
From S2P Require Import NodePool.
Import Types.Types Serialization.Serialization Currency.Currency Checkpoints.Checkpoints.
Import ValidateTransaction.ValidateTransaction BlockchainCache.BlockchainCache CacheProofs.CacheProofs PushProofs.PushProofs.
Import CoreChain.CoreChain ChainProofs.ChainProofs BlockRules.BlockRules MainChain.MainChain NodeProofs.NodeProofs NodePool.NodePool.

Module SampleChain.

(** ** Stand-ins for the hash functions and the curve *)

Definition digest (l : list Z) : Hash :=
  Z_to_le 32 (fold_left (fun h b => Z.land (0x1000193 * h + b + 1) (Z.ones 256)) l 0x62b821756295c58d62b821756295c58d62b821756295c58d62b821756295c58d).

Definition sample_ops : crypto_ops := mkCryptoOps (fun _ => true) (fun _ _ => KEY_IMAGE_I) (fun _ _ _ _ => true) (fun _ => zeros 32) digest.

Definition sample_slow_hash (_ : Block.Block.hashing_algorithm) (_ : list Z) : Hash := zeros 32.

Definition sample_currency : Currency := Eval vm_compute in match currency digest CurrencyBuilder with Ok c => c | Err _ => CurrencyBuilder end.

Definition sample_order (l : list Hash) : list Hash := l.

(** ** Blocks *)

Definition sample_hash (b : BlockTemplate) : Hash := match Block.Block.getBlockHash digest b with Ok h => h | Err _ => [] end.

Definition base_transaction (index amount : Z) : Transaction :=
  mkTransaction (mkTransactionPrefix 1 (index + 40) [InBase (mkBaseInput index)]
    [mkTransactionOutput amount (ToKey (mkKeyOutput (zeros 32)))] []) [].

(** Two blocks on top of the genesis block. *)
Definition block_v1 (time nonce : Z) : BlockTemplate :=
  mkBlockTemplate (mkBlockHeader 1 0 nonce time (sample_hash (genesisBlockTemplate sample_currency)))
    (parentBlock Block.Block.default_block) (base_transaction 1 11563301) [].

Definition block_A1 : BlockTemplate := block_v1 100 1.
Definition block_B1 : BlockTemplate := block_v1 200 2.

(** Merge-mined blocks; the parent block has the tag of the header hash. *)
Definition tagged_block (version index time : Z) (previous : BlockTemplate) (reward : Z) (root : Hash) : BlockTemplate :=
  mkBlockTemplate (mkBlockHeader version 0 0 time (sample_hash previous))
    (mkParentBlock 1 0 (zeros 32) 1 [] (mkBaseTransaction (mkTransactionPrefix 1 0 [] [] (3 :: 33 :: 0 :: root))) [])
    (base_transaction index reward) [].

Definition merge_mined (version index time : Z) (previous : BlockTemplate) (reward : Z) : BlockTemplate :=
  tagged_block version index time previous reward
    (match Block.Block.getAuxiliaryBlockHeaderHash digest (tagged_block version index time previous reward (zeros 32)) with
     | Ok h => h
     | Err _ => []
     end).

(** A block on top of each, and a fork of the second chain with two blocks. *)
Definition block_A2 : BlockTemplate := merge_mined 2 2 300 block_A1 11563298.
Definition block_B2 : BlockTemplate := merge_mined 2 2 300 block_B1 11563298.
Definition block_C2 : BlockTemplate := merge_mined 2 2 240 block_B1 11563298.
Definition block_C3 : BlockTemplate := merge_mined 3 3 400 block_C2 11563295.

Definition raw_of (b : BlockTemplate) : RawBlock :=
  mkRawBlock (match toBinaryArray (Block.Block.ser_BlockTemplate digest) b with Ok ba => ba | Err _ => [] end) [].

(** ** States *)

Local Abbreviation sample_feed := (feed sample_ops sample_slow_hash sample_currency ∅ sample_order).

Definition sample_start : option core :=
  match initRootSegment sample_ops sample_currency (TransactionPool.mkWrapper TransactionPool.empty_pool ∅ 86400) with
  | Ok st => Some st
  | Err _ => None
  end.

Definition sample_state (l : list BlockTemplate) : core :=
  default (mkCore ∅ 0 [] [] ∅ 0 (TransactionPool.mkWrapper TransactionPool.empty_pool ∅ 0))
    (st ← sample_start; sample_feed (map (fun b => (1000, raw_of b)) l) st).

Definition sample_reachable : core -> Prop := reachable sample_ops sample_slow_hash sample_currency ∅ sample_order.

(** ** The hypotheses hold *)

Lemma sample_genesis : genesis_ok sample_currency.
Proof. split; vm_compute; reflexivity. Qed.

Lemma sample_windows : windows_ok sample_currency.
Proof. split; vm_compute; discriminate. Qed.

Lemma sample_params : node_params sample_ops sample_currency.
Proof.
  split.
  - apply sample_windows.
  - apply sample_genesis.
  - eexists. vm_compute. reflexivity.
  - intros v. unfold blockGrantedFullRewardZoneByBlockVersion. repeat case_if; vm_compute; by split.
  - vm_compute. discriminate.
  - intros ba H. assert (Hr : raw_test (mkRawBlock ba []) = true); [|by apply raw_test_ok in Hr as [? _]].
    assert (E : match toBinaryArray (Block.Block.ser_BlockTemplate (fast_hash sample_ops)) (genesisBlockTemplate sample_currency) with
      | Ok ba => raw_test (mkRawBlock ba []) | Err _ => true end = true) by (vm_compute; reflexivity).
    by rewrite H in E.
Qed.

(** The blocks are fed without an error. *)
Definition runs (l : list BlockTemplate) : bool :=
  match st ← sample_start; sample_feed (map (fun b => (1000, raw_of b)) l) st with Some _ => true | None => false end.

Lemma sample_state_reachable l : runs l = true -> sample_reachable (sample_state l).
Proof.
  unfold runs, sample_state. destruct sample_start as [st|] eqn:E; [|done]. cbn [mbind option_bind].
  destruct (sample_feed _ st) as [st'|] eqn:Ef; [|done]. intros _. cbn [default].
  eapply feed_reachable; [apply sample_windows|apply sample_genesis| |exact Ef].
  unfold sample_start in E. destruct (initRootSegment _ _ _) as [st0|] eqn:Ei; [|done]. injection E as ->.
  exists 86400, st. split; [exact Ei|apply rtc_refl].
Qed.

(** There is room for a block. *)
Definition has_space (raw : RawBlock) (st : core) : bool :=
  match parse_block sample_ops (raw_block raw) with
  | Some block => room_test sample_ops sample_slow_hash sample_currency ∅ [] 1000 block raw st
  | None => true
  end.

Lemma sample_room raw st : sample_reachable st -> has_space raw st = true -> forall block, parse_block sample_ops (raw_block raw) = Some block ->
  has_room sample_ops sample_slow_hash sample_currency ∅ [] 1000 block raw st.
Proof.
  intros Hr H block Hb. unfold has_space in H. rewrite Hb in H. apply room_test_ok; [|done].
  destruct (reachable_inv _ _ _ _ _ _ sample_windows sample_genesis Hr) as (flats & Hi). apply Hi.
Qed.

(** The chain of a leaf. *)
Definition sample_chain (st : core) (q : Z) : chain := match chain_of st q with Ok c => c | Err _ => [] end.

Lemma sample_chain_of st q : sample_chain st q <> [] -> chain_of st q = Ok (sample_chain st q).
Proof. unfold sample_chain. by destruct (chain_of st q). Qed.

Lemma sample_chain_ok st q : sample_reachable st -> q ∈ chainsLeaves st ->
  chain_ok (sample_chain st q) /\ forall s, head (sample_chain st q) = Some s -> blockInfos s <> [].
Proof.
  intros Hr Hq. destruct (reachable_inv _ _ _ _ _ _ sample_windows sample_genesis Hr) as (flats & Hi).
  destruct (leaf_chain _ _ _ Hi q Hq) as (c & Hc & _ & Hok & _ & Hne & _). unfold sample_chain. by rewrite Hc.
Qed.

Definition sample_add (b : BlockTemplate) (st : core) : outcome (error_code * option BlockchainMessage * core) :=
  addBlock sample_ops sample_slow_hash sample_currency ∅ sample_order [] (fun _ => []) 1000 (raw_of b) st.

(** The result of the checks of a block that the main chain can take. *)
Definition checks (block : BlockTemplate) (st : core) : outcome (core * (checked_block + error_code)) :=
  check_block sample_ops sample_slow_hash sample_currency ∅ [] 1000 block (sample_hash block) (raw_of block) st.

Definition ready (block : BlockTemplate) (st : core) : bool :=
  match checks block st, main_leaf st, Block.Block.getTransactionBinaryArray (baseTransaction block) with
  | Ok (_, inl b), Ok p, Ok base =>
    (p =? checked_cache b) && checked_onTop b &&
    match sample_chain st p with
    | s :: parents => accepted digest (flatten (s :: parents)) s (pushed_of block (raw_of block) (sample_hash block) base b)
    | [] => false
    end
  | _, _, _ => false
  end.

Lemma ready_checked block st : ready block st = true -> exists b, checks block st = Ok (st, inl b) /\
  main_leaf st = Ok (checked_cache b) /\ checked_onTop b = true /\
  forall base s parents, Block.Block.getTransactionBinaryArray (baseTransaction block) = Ok base -> chain_of st (checked_cache b) = Ok (s :: parents) ->
    accepted digest (flatten (s :: parents)) s (pushed_of block (raw_of block) (sample_hash block) base b) = true.
Proof.
  unfold ready. destruct (checks block st) as [[st' [b|]]|] eqn:Ec; [|done..]. destruct (main_leaf st) as [p|]; [|done].
  destruct (Block.Block.getTransactionBinaryArray _) as [base|]; [|done]. rewrite !andb_true_iff. intros [[Hp%Z.eqb_eq Ht] Ha]. subst p. exists b.
  pose proof Ec as Ec'. unfold checks in Ec'. apply check_block_passed in Ec' as (-> & _). split_and!; [done..|]. intros base' s parents [= <-] Hs.
  unfold sample_chain in Ha. by rewrite Hs in Ha.
Qed.

(** The block as the cache of the main leaf takes it. *)
Definition sample_pushed (block : BlockTemplate) (st : core) : pushed :=
  match checks block st, Block.Block.getTransactionBinaryArray (baseTransaction block) with
  | Ok (_, inl b), Ok base => pushed_of block (raw_of block) (sample_hash block) base b
  | _, _ => mkPushed block [] ∅ 0 0 0 (raw_of block) [] []
  end.

Lemma ready_on_top block st s parents : sample_reachable st -> ready block st = true -> has_space (raw_of block) st = true ->
  Block.Block.getBlockHash digest block = Ok (sample_hash block) ->
  parse_block sample_ops (raw_block (raw_of block)) = Some block ->
  (let! p := main_leaf st in chain_of st p) = Ok (s :: parents) ->
  chain_ok (s :: parents) /\ on_top digest (flatten (s :: parents)) (sample_pushed block st) /\
  accepted digest (flatten (s :: parents)) s (sample_pushed block st) = true.
Proof.
  intros Hr Hready Hs Hh Hb Hc. destruct (ready_checked _ _ Hready) as (b & Hchk & Hm & Ht & Ha). rewrite Hm in Hc. cbn [obind] in Hc.
  destruct (reachable_full _ _ _ _ _ sample_params _ Hr) as (flats & Hf). pose proof (full_chains _ _ _ _ Hf) as Hi.
  destruct (views_head _ _ _ (inv_views _ _ _ Hi) Hm) as (main & rest & -> & Hv & _).
  pose proof (sample_room _ _ Hr Hs _ Hb _ (inv_views _ _ _ Hi)) as Hroom.
  pose proof Hchk as Hp. apply check_block_passed in Hp as (_ & cell & c & Hp). destruct (passed_base _ _ _ _ _ _ _ _ _ _ _ _ Hp) as (base & Hbase).
  destruct (live_setup sample_ops sample_slow_hash sample_currency ∅ [] 1000 block (raw_of block) st main rest (sample_hash block) base b
    Hf Hroom Hh Hchk Hm Ht Hbase) as (cell' & l & Hcell & _ & Hl & Ef & _ & Htop).
  pose proof (chain_of_eq _ _ _ (tree_heap _ (inv_tree _ _ _ Hi)) Hl) as E. cbn [map snd] in E.
  assert (s :: parents = cache_segment cell' :: map snd l) as [= -> ->] by congruence. rewrite <- Ef in Htop.
  split; [exact (lin_chain _ (tree_heap _ (inv_tree _ _ _ Hi)) _ _ Hl)|]. unfold sample_pushed. rewrite Hchk.
  change (toBinaryArray ser_Transaction (baseTransaction block)) with (Block.Block.getTransactionBinaryArray (baseTransaction block)) in Hbase.
  rewrite Hbase. split; [exact Htop|]. by apply Ha.
Qed.

(** The state after the switch to the second chain. *)
Definition switched : core := sample_state [block_A1; block_B1; block_B2].

Lemma switched_reachable : sample_reachable switched.
Proof. apply sample_state_reachable. vm_compute. reflexivity. Qed.

End SampleChain.
