(* ===== verification/NodeTheorems.v ===== *)
(** * What a running node guarantees

    Theorems about every state that a node reaches from its genesis block by
    taking blocks from peers and miners and transactions from wallets, and about
    one call of [addBlock]. *)

From S2P Require Import Prelude.
From S2P Require Import Types.
From S2P Require Import Serialization.
From S2P Require Import Block.
From S2P Require Import Currency.
From S2P Require Import Checkpoints.
From S2P Require Import ValidateTransaction.
From S2P Require Import TransactionPool.
From S2P Require Import CorePool.
From S2P Require Import PoolProofs.
From S2P Require Import BlockchainCache.
From S2P Require Import CacheProofs.
From S2P Require Import PushProofs.
From S2P Require Import CoreChain.
From S2P Require Import ChainProofs.
From S2P Require Import FindProofs.
From S2P Require Import BlockRules.
From S2P Require Import MainChain.
From S2P Require Import NodeProofs.
From S2P Require Import NodePool.
From S2P Require Import DeleteProofs.
From S2P Require Import SampleChain.
Import Types.Types Serialization.Serialization Currency.Currency Checkpoints.Checkpoints.
Import ValidateTransaction.ValidateTransaction BlockchainCache.BlockchainCache CacheProofs.CacheProofs PushProofs.PushProofs.
Import CoreChain.CoreChain ChainProofs.ChainProofs FindProofs.FindProofs BlockRules.BlockRules MainChain.MainChain.
Import NodeProofs.NodeProofs NodePool.NodePool DeleteProofs.DeleteProofs SampleChain.SampleChain.

Module NodeTheorems.

Section Node.
Context (ops : crypto_ops) (slow_hash : Block.Block.hashing_algorithm -> list Z -> Hash).
Context (currency : Currency) (checkpoints : Checkpoints) (hash_order : list Hash -> list Hash).
Local Abbreviation cn_fast_hash := (fast_hash ops).
Local Abbreviation node_reachable := (reachable ops slow_hash currency checkpoints hash_order).

(** ** The main chain *)

(** C4. In every state that a node reaches, by steps that keep block indexes and
    output numbers below [2^32] and cumulative difficulties below [2^64], the main
    chain has the largest cumulative difficulty of all chains the node knows. *)
Theorem main_chain_heaviest st : node_params ops currency -> node_reachable st ->
  exists p d, main_leaf st = Ok p /\ getCurrentCumulativeDifficulty_of st p = Ok d /\
    forall q, q ∈ chainsLeaves st -> exists e, getCurrentCumulativeDifficulty_of st q = Ok e /\ e <= d.
Proof.
  intros Hp (flats & Hi)%reachable_inv; [|apply Hp..]. destruct (main_leaf_chain _ _ _ Hi) as (p & c & Hm & _ & _ & Hf & Hw).
  destruct (inv_heaviest _ _ _ Hi) as (main & H0 & Hall). assert (main = flatten c) as -> by congruence. exists p, (work (flatten c)).
  split_and!; [done|done|]. intros q Hq. destruct (leaf_chain _ _ _ Hi q Hq) as (cq & _ & Hfq & _ & _ & _ & Hwq). exists (work (flatten cq)).
  split; [done|]. rewrite Forall_forall in Hall. by apply Hall.
Qed.

(** C10. On every chain of a node the cumulative difficulty grows from each block
    to the next by exactly the difficulty that [getDifficultyForNextBlock]
    requires there, which is positive.  The steps of a node are assumed to leave
    room: no block brings a cumulative difficulty to [2^64] or more. *)
Theorem cumulative_difficulty_exact st q c i : node_params ops currency -> node_reachable st -> q ∈ chainsLeaves st ->
  chain_of st q = Ok c -> 0 <= i -> i + 1 < seg_end (flatten c) ->
  exists x y d, getBlockInfo c i = Ok x /\ getBlockInfo c (i + 1) = Ok y /\ getDifficultyForNextBlock currency c i = Ok d /\
    0 < d /\ bi_cumulativeDifficulty y = bi_cumulativeDifficulty x + d.
Proof.
  intros Hp (flats & Hi)%reachable_inv; [|apply Hp..]. intros Hq Hc Hi0 Hend.
  destruct (leaf_chain _ _ _ Hi q Hq) as (c' & Hc' & Hf & Hok & Hne & Hhd & _). assert (c' = c) as -> by congruence.
  destruct (flatten_ok _ Hok) as [Hs H0]. pose proof (ok_end _ Hs) as Hlim.
  destruct (proj2 (block_at c i Hok Hi0)) as (x & Hx); [lia|]. destruct (proj2 (block_at c (i + 1) Hok ltac:(lia))) as (y & Hy); [lia|].
  pose proof (proj1 (Forall_forall _ _) (inv_worked _ _ _ Hi) _ Hf) as [_ Hw]. pose proof Hy as Hy'. replace (Z.to_nat (i + 1)) with (S (Z.to_nat i)) in Hy' by lia.
  destruct (Hw _ _ _ Hx Hy') as (d & Hd & Hpos & E). exists x, y, d. split_and!; [apply getBlockInfo_flat; done || lia..| |done|done].
  rewrite getDifficultyForNextBlock_flat by (done || lia). replace (Z.to_nat (i + 1)) with (S (Z.to_nat i)) by lia.
  by rewrite Z2Nat.id in Hd by lia.
Qed.

(** ** Double spending *)

(** C3. On every chain of a node no key image is spent twice, and [checkIfSpent]
    says that a key image is spent at a height exactly when a transaction of a
    block up to that height spends it. *)
Theorem no_double_spend st q c : node_params ops currency -> node_reachable st -> q ∈ chainsLeaves st -> chain_of st q = Ok c ->
  NoDup (concat (map (images_of currency) (storage (flatten c)))) /\
  forall k i, 0 <= i -> exists b, checkIfSpent_at c k i = Ok b /\
    (b = true <-> exists j raw, 0 <= j <= i /\ getBlockByIndex c j = Ok raw /\ j < seg_end (flatten c) /\ k ∈ images_of currency raw).
Proof.
  intros Hp (flats & Hi)%reachable_inv; [|apply Hp..]. intros Hq Hc.
  destruct (leaf_chain _ _ _ Hi q Hq) as (c' & Hc' & Hf & Hok & Hne & _). assert (c' = c) as -> by congruence.
  pose proof (proj1 (Forall_forall _ _) (inv_spent _ _ _ Hi) _ Hf) as [Hnd H]. destruct (flatten_ok _ Hok) as [Hs H0].
  pose proof (ok_end _ Hs) as Hlim. pose proof (storage_length _ Hs H0) as Hlen. split; [done|].
  intros k i Hi0. exists (spent_by (flatten c) k i). split; [by apply checkIfSpent_flat|]. unfold spent_by. split.
  - destruct (spentImages (flatten c) !! k) as [j|] eqn:E; [|done]. intros Hj%Z.leb_le. apply H in E as (Hj0 & raw & Hr & Hk).
    pose proof (lookup_lt_Some _ _ _ Hr). exists j, raw. split_and!; [lia|lia| |lia|done]. apply getBlockByIndex_flat; [done|lia|done].
  - intros (j & raw & Hj & Hr & Hlt & Hk). destruct (lookup_lt_is_Some_2 (storage (flatten c)) (Z.to_nat j)) as [raw' Hr']; [lia|].
    rewrite (getBlockByIndex_flat c j raw') in Hr by (done || lia). injection Hr as ->.
    rewrite (proj2 (H k j)) by eauto with lia. lia.
Qed.

(** ** Adding a block *)

(** The transactions of a block that is added are acceptable on the chain of the
    block below. *)
Lemma added_accepted schedules pool_schedules now block raw st code message st' :
  0 <= core_medianSize st * 2 - m_minerTxBlobReservedSize currency < 2 ^ 64 -> Forall bytes_ok (raw_transactions raw) ->
  addBlock_cached ops slow_hash currency checkpoints hash_order schedules pool_schedules now block raw st = Ok (code, message, st') ->
  added_code code = true -> exists p c previous txs size,
    findSegmentContainingBlock st (previousBlockHash block) = Ok (Some p) /\ chain_of st p = Ok c /\
    chain_getBlockIndex c (previousBlockHash block) = Ok previous /\
    extractTransactions currency (raw_transactions raw) 0 = Ok (Some (txs, size)) /\
    all_accepted ops currency checkpoints now c previous (core_medianSize st) (timestamp block) txs ∅.
Proof.
  intros Hm Hb H Hcode. unfold addBlock_cached in H. apply obind_Ok in H as (h & _ & H). apply obind_Ok in H as ([st1 checked] & Hc & H).
  destruct checked as [b|e]; [|injection H as <- <- <-; apply check_block_same in Hc as [_ Hc]; congruence].
  apply check_block_passed in Hc as (_ & cell & c & Hp). destruct (passed_extracted _ _ _ _ _ _ _ _ _ _ _ _ Hp) as (size & Hx).
  destruct (passed_valid _ _ _ _ _ _ _ _ _ _ _ _ Hp) as (fee & reward & sched & _ & Hv & _).
  exists (checked_cache b), c, (checked_previous b), (checked_transactions b), size. split_and!; [by eapply passed_found|by eapply passed_chain|by eapply passed_previous|done|].
  eapply validate_transactions_accepted; [by eapply extracted_amounts|done|exact Hv].
Qed.

Lemma added_success now b flats r flats' : added ops slow_hash currency checkpoints now b flats r flats' -> added_code (AddBlock r) = true.
Proof. by destruct 1. Qed.

Lemma added_rules now b flats r flats' : added ops slow_hash currency checkpoints now b flats r flats' ->
  exists flat, conforms ops slow_hash currency checkpoints now flat b.
Proof. destruct 1 as [? ? _ H|? ? ? _ _ _ H _|? ? ? _ _ _ H _|? ? ? ? _ _ _ _ H]; eexists; apply H. Qed.

(** C2. [addBlock] does to the tree of caches what its result says, in every state
    that a node reaches and for every schedule of the signature jobs, as long as
    there is room: block indexes and output numbers stay below [2^32] and the
    cumulative difficulty below [2^64].  Unless the code is one of the three for
    success, all chains are as they were and no message is sent.  Otherwise the
    block follows the consensus rules for its place: version, timestamps, base
    transaction, parent block, size limit, reward, difficulty and proof of work,
    hashes and distinct key images; each of its transactions meets the
    specification of an acceptable transaction, on the chain of the previous block
    and with the key images of the transactions before it; and the chains are those
    of before with the block on top of the main chain, of an alternative chain, of
    a new fork, or of an alternative chain that now has more work and becomes the
    main chain. *)
Theorem addBlock_refines schedules pool_schedules now raw st code message st' :
  node_params ops currency -> node_reachable st -> raw_ok raw ->
  (forall block, parse_block ops (raw_block raw) = Some block -> has_room ops slow_hash currency checkpoints schedules now block raw st) ->
  addBlock ops slow_hash currency checkpoints hash_order schedules pool_schedules now raw st = Ok (code, message, st') ->
  exists flats flats', views st flats /\ views st' flats' /\
    ((flats' = flats /\ message = None /\ added_code code = false) \/
     exists r b p c previous, code = AddBlock r /\ parse_block ops (raw_block raw) = Some (new_block b) /\ new_raw b = raw /\
       added ops slow_hash currency checkpoints now b flats r flats' /\
       findSegmentContainingBlock st (previousBlockHash (new_block b)) = Ok (Some p) /\ chain_of st p = Ok c /\
       chain_getBlockIndex c (previousBlockHash (new_block b)) = Ok previous /\
       all_accepted ops currency checkpoints now c previous (core_medianSize st) (timestamp (new_block b)) (new_transactions b) ∅).
Proof.
  intros Hp Hre. pose proof (reachable_full _ _ _ _ _ Hp _ Hre) as (flats & [Hi _ _ Hmed _]). intros [_ Hbytes] Hroom H. exists flats. unfold addBlock in H.
  assert (Hres : 0 <= core_medianSize st * 2 - m_minerTxBlobReservedSize currency < 2 ^ 64) by (pose proof (param_reserved _ _ Hp); unfold median_ok in Hmed; lia).
  fold (parse_block ops (raw_block raw)) in H. destruct (parse_block ops (raw_block raw)) as [block|] eqn:Eb.
  - destruct (addBlock_cached_inv _ _ _ _ _ _ _ _ _ _ _ _ _ _ _ (param_windows _ _ Hp) Hi (Hroom _ eq_refl flats (inv_views _ _ _ Hi)) H)
      as (flats' & Hi' & Hc). exists flats'. split_and!; [apply Hi|apply Hi'|]. destruct Hc as [?|(r & b & -> & <- & <- & Hadd)]; [by left|].
    right. destruct (added_accepted _ _ _ _ _ _ _ _ _ Hres Hbytes H (added_success _ _ _ _ _ Hadd))
      as (p & c & previous & txs & size & Hf & Hc & Hpr & Hx & Hacc).
    exists r, b, p, c, previous. split_and!; try done. destruct (added_rules _ _ _ _ _ Hadd) as (flat & R).
    destruct (rule_transactions _ _ _ _ _ _ _ R) as (size' & Hx'). assert (txs = new_transactions b) as <- by congruence. done.
  - injection H as <- <- <-. exists flats. split_and!; [apply Hi..|by left].
Qed.

(** ** The pool *)


(** ** Alternative chains *)

(** C26. Deleting the alternative chains ends after at most one round per cache;
    the main chain is left, segment by segment as it was, and is the only one. *)
Theorem deleteAlternativeChains_returns st fuel : node_params ops currency -> node_reachable st ->
  (length (chainsStorage st) <= fuel)%nat ->
  exists st' p, deleteAlternativeChains fuel st = Ok st' /\ tree_ok st' /\ main_leaf st = Ok p /\ chainsLeaves st' = [p] /\
    main_chain_of st' = main_chain_of st.
Proof.
  intros Hp (flats & Hi)%reachable_inv; [|apply Hp..]. intros Hf.
  destruct (main_leaf_chain _ _ _ Hi) as (p & c & Hm & H0 & _). pose proof (inv_tree _ _ _ Hi) as Ht.
  destruct (deleteAlternativeChains_ok fuel st p Ht (inv_main _ _ _ Hi) H0 Hf) as (st' & E & Ht' & _ & Hl & Hlin).
  exists st', p. split_and!; try done. destruct (inv_main _ _ _ Hi) as (p' & l & Hp' & Hl' & _). rewrite head_lookup in Hp'.
  assert (p' = p) as -> by congruence. unfold main_chain_of. rewrite Hm. unfold main_leaf. rewrite Hl. cbn [obind].
  change (vec_at [p] 0) with (Ok p). cbn [obind].
  rewrite (chain_of_eq _ _ _ (tree_heap _ Ht) Hl'). by apply chain_of_eq; [apply Ht'|apply Hlin].
Qed.

(** C15. The caches of a node form a tree: parents and children agree, the
    leaves are the caches without children, every cache is stored once and has
    blocks, each path to the root is a well-formed chain from the genesis block
    on, on which no block occurs twice, and [mainChainSet] is the path of the main leaf. *)
Theorem tree_well_formed st : node_params ops currency -> node_reachable st ->
  tree_ok st /\ main_ok st /\
  forall p, p ∈ chainsStorage st -> exists c, chain_of st p = Ok c /\ chain_ok c /\ startIndex (flatten c) = 0 /\ NoDup (hashes_of (flatten c)).
Proof.
  intros Hp (flats & Hi)%reachable_inv; [|apply Hp..]. pose proof (inv_tree _ _ _ Hi) as Ht. split_and!; [done|apply Hi|].
  intros p Hin. apply (tree_storage _ Ht) in Hin as (cell & Hc). destruct (heap_chain _ (tree_heap _ Ht) _ _ Hc) as (l & Hl & Hok).
  exists (map snd l). split_and!; [by apply chain_of_eq; [apply Ht|]|done|by apply flatten_ok|].
  destruct (prefix_of_leaf st flats p cell (flatten (map snd l)) Ht (inv_views _ _ _ Hi) Hc ltac:(by exists l)) as (k & f & u & Hf%list_elem_of_lookup_2 & E & _).
  pose proof (proj1 (Forall_forall _ _) (inv_hashes _ _ _ Hi) _ Hf) as Hnd. cbn beta in Hnd. rewrite E in Hnd. by eapply hashes_prefix.
Qed.

(** The search for a block over all chains returns; it fails exactly when no
    chain has the block, and otherwise gives a cache that has it. *)
Theorem find_block_exact st h : node_params ops currency -> node_reachable st ->
  exists r, findSegmentContainingBlock st h = Ok r /\
    match r with
    | None => forall q c, q ∈ chainsLeaves st -> chain_of st q = Ok c -> h ∉ hashes_of (flatten c)
    | Some p => exists cell, caches st !! p = Some cell /\ hasBlock (cache_segment cell) h = true
    end.
Proof.
  intros Hp (flats & Hi)%reachable_inv; [|apply Hp..]. pose proof (inv_tree _ _ _ Hi) as Ht.
  destruct (findSegment_exact st flats Ht (inv_views _ _ _ Hi) h) as (r & Hr & Hn).
  { intros E. destruct (inv_heaviest _ _ _ Hi) as (main & Hm & _). by rewrite E in Hm. }
  exists r. split; [done|]. destruct r as [p|].
  - by apply findSegment_sound.
  - intros q c Hq Hc. destruct (leaf_chain _ _ _ Hi q Hq) as (c' & Hc' & Hf & _). assert (c' = c) as -> by congruence.
    pose proof (proj1 Hn eq_refl) as Hall. rewrite Forall_forall in Hall. by apply Hall.
Qed.

(** ** Progress *)

(** C9. A block that passes the checks of [addBlock] on top of the main chain is
    added: when the assertions of [doPushBlock] hold and no counter overflows, the
    call returns, reports a new block of the main chain, and the node has the
    block as its top block. *)
Theorem valid_block_added schedules pool_schedules now block raw st h b :
  node_params ops currency -> node_reachable st -> raw_ok raw -> parse_block ops (raw_block raw) = Some block ->
  has_room ops slow_hash currency checkpoints schedules now block raw st ->
  Block.Block.getBlockHash cn_fast_hash block = Ok h ->
  check_block ops slow_hash currency checkpoints schedules now block h raw st = Ok (st, inl b) ->
  main_leaf st = Ok (checked_cache b) -> checked_onTop b = true ->
  (forall base s parents, Block.Block.getTransactionBinaryArray (baseTransaction block) = Ok base ->
    chain_of st (checked_cache b) = Ok (s :: parents) -> accepted cn_fast_hash (flatten (s :: parents)) s (pushed_of block raw h base b) = true) ->
  exists st', addBlock ops slow_hash currency checkpoints hash_order schedules pool_schedules now raw st =
      Ok (AddBlock ADDED_TO_MAIN, Some (NewBlock (Block.Block.getBlockIndex block) h), st') /\
    node_reachable st' /\ core_getTopBlockHash st' = Ok h /\ core_getTopBlockIndex st' = Ok (Block.Block.getBlockIndex block).
Proof.
  intros Hp Hreach Hraw Hparse Hroom Hh Hc Hm Ht Hacc. destruct (reachable_full ops slow_hash currency checkpoints hash_order Hp st Hreach) as (flats & Hf).
  pose proof (full_chains _ _ _ _ Hf) as Hi. destruct (views_head _ _ _ (inv_views _ _ _ Hi) Hm) as (main & rest & -> & Hvm & _).
  destruct (check_block_passed _ _ _ _ _ _ _ _ _ _ _ _ Hc) as (_ & cell & c & Hpass). destruct (passed_base _ _ _ _ _ _ _ _ _ _ _ _ Hpass) as (base & Hbase).
  pose proof (Hroom _ (inv_views _ _ _ Hi)) as Hr.
  destruct (live_setup ops slow_hash currency checkpoints schedules now block raw st main rest h base b Hf Hr Hh Hc Hm Ht Hbase) as (cell' & l & Hcell & _ & Hl & Ef & _ & Htop).
  assert (Hacc' : forall s parents, chain_of st (checked_cache b) = Ok (s :: parents) -> accepted cn_fast_hash main s (pushed_of block raw h base b) = true).
  { intros s parents Hs. pose proof (chain_of_eq _ _ _ (tree_heap _ (inv_tree _ _ _ Hi)) Hl) as E. cbn [map snd] in E.
    assert (s :: parents = cache_segment cell' :: map snd l) as [= -> ->] by congruence. rewrite <- Ef. by apply Hacc. }
  destruct (main_block_added ops slow_hash currency checkpoints hash_order Hp schedules pool_schedules now block raw st main rest h base b
    Hf Hr Hh Hc Hm Ht Hbase Hacc') as (st' & E & Hv').
  assert (Ea : addBlock ops slow_hash currency checkpoints hash_order schedules pool_schedules now raw st =
    Ok (AddBlock ADDED_TO_MAIN, Some (NewBlock (Block.Block.getBlockIndex block) h), st')).
  { unfold addBlock. fold (parse_block ops (raw_block raw)). rewrite Hparse, E. by rewrite (passed_index _ _ _ _ _ _ _ _ _ _ _ _ Hpass). }
  assert (Hreach' : node_reachable st').
  { destruct Hreach as (timeout & st0 & H0 & Hs). exists timeout, st0. split; [done|]. eapply rtc_r; [exact Hs|].
    eapply step_addBlock; [done| |exact Ea]. intros block' Hb'. by assert (block' = block) as -> by congruence. }
  destruct (reachable_inv _ _ _ _ _ _ (param_windows _ _ Hp) (param_genesis _ _ Hp) Hreach') as (flats' & Hi').
  destruct (extended_fields ops main (pushed_of block raw h base b)) as (info & Ei & _ & _ & _ & Es).
  destruct (main_top _ _ _ Hi' _ _ info Hv') as [Hth Hti]; [by rewrite Ei, last_snoc|]. exists st'. split_and!; [done|done| |].
  - rewrite Hth. f_equal. assert (Hhs : map bi_blockHash (blockInfos main ++ [info]) = hashes_of main ++ [h]).
    { rewrite <- Ei. apply extended_hashes. } rewrite map_app in Hhs. by apply app_inj_tail in Hhs as [_ ?].
  - pose proof (top_index _ _ _ Htop) as Hx. cbn [pushed_of new_block] in Hx. rewrite Hti, Hx. f_equal. unfold seg_end. rewrite Es, Ei, length_app. cbn [length]. lia.
Qed.

End Node.

(** ** The theorems on a small node *)

Lemma main_chain_heaviest_witness : exists p d, main_leaf switched = Ok p /\ getCurrentCumulativeDifficulty_of switched p = Ok d /\
  forall q, q ∈ chainsLeaves switched -> exists e, getCurrentCumulativeDifficulty_of switched q = Ok e /\ e <= d.
Proof.
  apply (main_chain_heaviest sample_ops sample_slow_hash sample_currency ∅ sample_order switched sample_params switched_reachable).
Defined.

(** The second chain has three blocks; the first one is leaf 1. *)
Lemma cumulative_difficulty_exact_witness : exists x y d, getBlockInfo (sample_chain switched 2) 1 = Ok x /\
  getBlockInfo (sample_chain switched 2) (1 + 1) = Ok y /\ getDifficultyForNextBlock sample_currency (sample_chain switched 2) 1 = Ok d /\
  0 < d /\ bi_cumulativeDifficulty y = bi_cumulativeDifficulty x + d.
Proof.
  apply (cumulative_difficulty_exact sample_ops sample_slow_hash sample_currency ∅ sample_order switched 2 (sample_chain switched 2) 1
    sample_params switched_reachable).
  - vm_compute. left.
  - apply sample_chain_of. vm_compute. discriminate.
  - lia.
  - vm_compute. reflexivity.
Defined.

Lemma no_double_spend_witness : NoDup (concat (map (images_of sample_currency) (storage (flatten (sample_chain switched 1))))) /\
  exists b, checkIfSpent_at (sample_chain switched 1) (zeros 32) 1 = Ok b.
Proof.
  destruct (no_double_spend sample_ops sample_slow_hash sample_currency ∅ sample_order switched 1 (sample_chain switched 1)
    sample_params switched_reachable) as [H1 H2].
  - vm_compute. right. left.
  - apply sample_chain_of. vm_compute. discriminate.
  - split; [exact H1|]. destruct (H2 (zeros 32) 1 ltac:(lia)) as (b & Hb & _). by exists b.
Defined.

(** A block that makes the second chain the main chain. *)
Lemma addBlock_refines_witness : exists code message st', sample_add block_B2 (sample_state [block_A1; block_B1]) = Ok (code, message, st') /\
  code = AddBlock ADDED_TO_ALTERNATIVE_AND_SWITCHED /\
  exists flats flats', views (sample_state [block_A1; block_B1]) flats /\ views st' flats' /\
    ((flats' = flats /\ message = None /\ added_code code = false) \/
     exists r b p c previous, code = AddBlock r /\ parse_block sample_ops (raw_block (raw_of block_B2)) = Some (new_block b) /\ new_raw b = raw_of block_B2 /\
       added sample_ops sample_slow_hash sample_currency ∅ 1000 b flats r flats' /\
       findSegmentContainingBlock (sample_state [block_A1; block_B1]) (previousBlockHash (new_block b)) = Ok (Some p) /\
       chain_of (sample_state [block_A1; block_B1]) p = Ok c /\ chain_getBlockIndex c (previousBlockHash (new_block b)) = Ok previous /\
       all_accepted sample_ops sample_currency ∅ 1000 c previous (core_medianSize (sample_state [block_A1; block_B1])) (timestamp (new_block b)) (new_transactions b) ∅).
Proof.
  assert (Hr : sample_reachable (sample_state [block_A1; block_B1])) by (apply sample_state_reachable; vm_compute; reflexivity).
  assert (Hc : match sample_add block_B2 (sample_state [block_A1; block_B1]) with
    | Ok (code, _, _) => code = AddBlock ADDED_TO_ALTERNATIVE_AND_SWITCHED | Err _ => False end) by (vm_compute; reflexivity).
  destruct (sample_add block_B2 (sample_state [block_A1; block_B1])) as [[[code message] st']|] eqn:E; [|destruct Hc].
  exists code, message, st'. split; [reflexivity|]. split; [exact Hc|].
  apply (addBlock_refines sample_ops sample_slow_hash sample_currency ∅ sample_order [] (fun _ => []) 1000 (raw_of block_B2)
    (sample_state [block_A1; block_B1]) code message st' sample_params Hr); [apply raw_test_ok; vm_compute; reflexivity| |exact E].
  apply sample_room; [exact Hr|]. vm_compute. reflexivity.
Defined.


Lemma deleteAlternativeChains_returns_witness : length (chainsLeaves switched) = 2%nat /\
  exists st' p, deleteAlternativeChains 3 switched = Ok st' /\ tree_ok st' /\ main_leaf switched = Ok p /\ chainsLeaves st' = [p] /\
    main_chain_of st' = main_chain_of switched.
Proof.
  split; [vm_compute; reflexivity|].
  apply (deleteAlternativeChains_returns sample_ops sample_slow_hash sample_currency ∅ sample_order switched 3 sample_params switched_reachable).
  vm_compute. lia.
Defined.

Lemma tree_well_formed_witness : tree_ok switched /\ main_ok switched /\
  forall p, p ∈ chainsStorage switched -> exists c, chain_of switched p = Ok c /\ chain_ok c /\ startIndex (flatten c) = 0 /\ NoDup (hashes_of (flatten c)).
Proof.
  apply (tree_well_formed sample_ops sample_slow_hash sample_currency ∅ sample_order switched sample_params switched_reachable).
Defined.

Lemma find_block_exact_witness : exists r, findSegmentContainingBlock switched (sample_hash block_A1) = Ok r /\
  match r with
  | None => forall q c, q ∈ chainsLeaves switched -> chain_of switched q = Ok c -> sample_hash block_A1 ∉ hashes_of (flatten c)
  | Some p => exists cell, caches switched !! p = Some cell /\ hasBlock (cache_segment cell) (sample_hash block_A1) = true
  end.
Proof.
  apply (find_block_exact sample_ops sample_slow_hash sample_currency ∅ sample_order switched (sample_hash block_A1) sample_params switched_reachable).
Defined.

(** The first block on top of the genesis block. *)
Lemma valid_block_added_witness : exists st', sample_add block_A1 (sample_state []) = Ok (AddBlock ADDED_TO_MAIN, Some (NewBlock 1 (sample_hash block_A1)), st') /\
  sample_reachable st' /\ core_getTopBlockHash st' = Ok (sample_hash block_A1) /\ core_getTopBlockIndex st' = Ok 1.
Proof.
  assert (Hr : sample_reachable (sample_state [])) by (apply sample_state_reachable; vm_compute; reflexivity).
  assert (Hb : parse_block sample_ops (raw_block (raw_of block_A1)) = Some block_A1) by (vm_compute; reflexivity).
  destruct (ready_checked block_A1 (sample_state [])) as (b & Hc & Hm & Ht & Ha); [vm_compute; reflexivity|].
  apply (valid_block_added sample_ops sample_slow_hash sample_currency ∅ sample_order [] (fun _ => []) 1000 block_A1 (raw_of block_A1) (sample_state [])
    (sample_hash block_A1) b sample_params Hr); [|exact Hb| | |exact Hc|exact Hm|exact Ht|exact Ha].
  - apply raw_test_ok. vm_compute. reflexivity.
  - apply sample_room; [exact Hr|vm_compute; reflexivity|exact Hb].
  - vm_compute. reflexivity.
Defined.

End NodeTheorems.
