(* ===== verification/CacheTheorems.v ===== *)
(** * What a chain of caches guarantees

    Theorems about chains of segments: pushing a block, finding its outputs again,
    splitting a segment, and the queries. *)

From S2P Require Import Prelude.
From S2P Require Import Types.
From S2P Require Import Serialization.
From S2P Require Import Block.
From S2P Require Import Currency.
From S2P Require Import ValidateTransaction.
From S2P Require Import TransactionPool.
From S2P Require Import BlockchainCache.
From S2P Require Import CacheProofs.
From S2P Require Import PushProofs.
From S2P Require Import CoreChain.
From S2P Require Import BlockRules.
From S2P Require Import SampleChain.
Import Types.Types Serialization.Serialization Currency.Currency ValidateTransaction.ValidateTransaction.
Import BlockchainCache.BlockchainCache CacheProofs.CacheProofs PushProofs.PushProofs CoreChain.CoreChain BlockRules.BlockRules SampleChain.SampleChain.

Module CacheTheorems.

Section Hash.
Context (cn_fast_hash : list Z -> Hash).

(** ** Pushing a block *)

(** C11. [doPushBlock] takes a block on top of a chain exactly when its assertions
    hold: the size and difficulty are positive, the block, its transactions and
    key images are new, and the numbers of outputs fit.  Then the chain, seen as
    one segment, gains exactly the entries of the block: its totals added to the
    ones below, the key images with its index, the outputs of each amount
    numbered on from the ones before, and the raw block. *)
Theorem push_block_correct s parents p : chain_ok (s :: parents) -> on_top cn_fast_hash (flatten (s :: parents)) p ->
  match doPushBlock cn_fast_hash parents (new_block p) (new_transactions p) (new_images p) (new_size p) (new_coins p)
          (new_difficulty p) (new_raw p) s with
  | Ok s' => accepted cn_fast_hash (flatten (s :: parents)) s p = true /\ chain_ok (s' :: parents) /\
    flatten (s' :: parents) = join (flatten (s :: parents)) (block_delta cn_fast_hash (flatten (s :: parents)) p)
  | Err _ => accepted cn_fast_hash (flatten (s :: parents)) s p = false
  end.
Proof.
  intros Hok Ht. fold (push cn_fast_hash parents p s). pose proof (push_eq cn_fast_hash s parents p Hok Ht) as E.
  destruct (push cn_fast_hash parents p s) as [s'|e] eqn:Ep.
  - destruct (push_ok _ _ _ _ _ Hok Ht Ep) as (? & _ & ? & ?). by split_and!.
  - cbn [ok_of] in E. by destruct (accepted _ _ s p).
Qed.

(** The information of a transaction of the new block. *)
Lemma pushed_transaction s flat p k t info : segment_ok flat -> segment_ok (block_delta cn_fast_hash flat p) ->
  pushable cn_fast_hash s (all_transactions p) = true -> all_transactions p !! k = Some t ->
  find_in_block (join flat (block_delta cn_fast_hash flat p)) (seg_end flat) (Z.of_nat k) = Some info ->
  find_transaction (join s (block_delta cn_fast_hash flat p)) (TransactionPool.hash_of cn_fast_hash t) = Some info.
Proof.
  intros Hs Hd Hp Hk Hf. assert (Hst : startIndex (block_delta cn_fast_hash flat p) = seg_end flat) by (by destruct (delta_fields cn_fast_hash flat p) as (? & ->)).
  rewrite find_in_block_join, Hst, Z.ltb_irrefl, (delta_find _ _ _ _ _ Hk) in Hf by done. injection Hf as <-.
  unfold pushable in Hp. rewrite !andb_true_iff in Hp. destruct Hp as [[_ Hnd%bool_decide_eq_true] Hnew].
  rewrite forallb_forall in Hnew. assert (Ht : t ∈ all_transactions p) by (by eapply list_elem_of_lookup_2).
  apply list_elem_of_In, Hnew, negb_true_iff, bool_decide_eq_false in Ht. unfold find_transaction.
  destruct (delta_fields cn_fast_hash flat p) as (bi & ->). cbn [join transactions].
  set (infos := infos_of _ _ _ _ _ _). set (info := info_of _ _ _ _ _ t).
  assert (Hi : infos !! k = Some info) by (unfold infos; by rewrite infos_lookup_at, Hk).
  rewrite (proj2 (list_find_Some _ _ (length (transactions s) + k) info)); [done|]. split_and!; [|done|].
  - rewrite lookup_app_r by lia. rewrite <- Hi. f_equal. lia.
  - intros j y Hy Hj E. apply lookup_app_Some in Hy as [Hy|[Hle Hy]].
    + apply Ht. rewrite <- E. by eapply list_elem_of_fmap_2, list_elem_of_lookup_2.
    + unfold infos in Hy. rewrite infos_lookup_at in Hy. apply fmap_Some in Hy as (t' & Ht' & ->). cbn [info_of ti_transactionHash] in E.
      assert (j - length (transactions s) = k)%nat; [|lia].
      apply (NoDup_lookup _ _ _ (TransactionPool.hash_of cn_fast_hash t) Hnd); rewrite list_lookup_fmap; [by rewrite Ht', <- E|by rewrite Hk].
Qed.

(** C17. The outputs of a pushed block are found again: the cache gives the global
    indexes of each of its transactions, and asking the chain for the output of
    that amount with that global index gives the transaction and the place of the
    output in it. *)
Theorem pushed_outputs_found s parents p s' k t j x : chain_ok (s :: parents) -> on_top cn_fast_hash (flatten (s :: parents)) p ->
  push cn_fast_hash parents p s = Ok s' ->
  all_transactions p !! k = Some t -> outputs (TransactionPool.getTransaction t) !! j = Some x ->
  exists indexes g, getTransactionGlobalIndexes s' (TransactionPool.hash_of cn_fast_hash t) = Some indexes /\ indexes !! j = Some g /\
    extractKeyOtputReferences (s' :: parents) (out_amount x) [g] = Ok (SUCCESS, [(TransactionPool.hash_of cn_fast_hash t, Z.of_nat j)]).
Proof.
  intros Hok Htop Hpush Hk Hj. destruct (push_ok _ _ _ _ _ Hok Htop Hpush) as (Ha & Es & Hok' & Ef).
  destruct (pushed_output _ _ _ _ _ _ _ Hok Htop Hk Hj) as (info & g & Hfind & Hh & _ & _ & Hg & Hr & Hl). rewrite <- Ef in Hl.
  exists (ti_globalIndexes info), g. split_and!; [|done|].
  - unfold getTransactionGlobalIndexes. rewrite Es. destruct (flatten_ok _ Hok) as [Hf _].
    rewrite (pushed_transaction s (flatten (s :: parents)) p k t info); [done|done| | |done|done].
    + apply delta_ok; [done|intros amount; by apply count_flat|done].
    + unfold accepted in Ha. rewrite !andb_true_iff in Ha. by destruct Ha.
  - assert (Hne : blockInfos s' <> []).
    { rewrite Es. cbn [join blockInfos]. destruct (delta_fields cn_fast_hash (flatten (s :: parents)) p) as (bi & ->). cbn [blockInfos]. by destruct (blockInfos s). }
    unfold extractKeyOtputReferences. rewrite (assert_indexes_ok [g] ltac:(done) ltac:(repeat constructor)). cbn [obind chain_top].
    rewrite getTopBlockIndex_ok; [|apply Hok'|done]. cbn [obind].
    rewrite extractKeyOutputs_flat; [|done|done| |done|repeat constructor|].
    + cbn [extract_spec]. rewrite Hl. cbn [obind poi_outputIndex app]. by rewrite Hh.
    + rewrite (flatten_end _ _ Hok'). lia.
    + constructor; [|constructor]. unfold fits. lia.
Qed.

End Hash.

(** ** Queries *)


(** ** Splitting *)


(** ** The theorems on a small node *)

(** The segment with the genesis block, and the first block on top of it. *)
Definition sample_root : segment := match sample_chain (sample_state []) 0 with s :: _ => s | [] => empty_segment 0 end.

Definition pushed_A1 : pushed := sample_pushed block_A1 (sample_state []).

Lemma root_on_top : chain_ok [sample_root] /\ on_top digest (flatten [sample_root]) pushed_A1 /\
  accepted digest (flatten [sample_root]) sample_root pushed_A1 = true.
Proof.
  apply ready_on_top; [apply sample_state_reachable|..]; vm_compute; reflexivity.
Qed.

Lemma push_block_correct_witness :
  match doPushBlock digest [] (new_block pushed_A1) (new_transactions pushed_A1) (new_images pushed_A1) (new_size pushed_A1) (new_coins pushed_A1)
          (new_difficulty pushed_A1) (new_raw pushed_A1) sample_root with
  | Ok s' => accepted digest (flatten [sample_root]) sample_root pushed_A1 = true /\ chain_ok [s'] /\
    flatten [s'] = join (flatten [sample_root]) (block_delta digest (flatten [sample_root]) pushed_A1)
  | Err _ => accepted digest (flatten [sample_root]) sample_root pushed_A1 = false
  end.
Proof. apply (push_block_correct digest sample_root [] pushed_A1); apply root_on_top. Defined.

Definition root_A1 : segment := match push digest [] pushed_A1 sample_root with Ok s => s | Err _ => sample_root end.

Definition base_A1 : TransactionPool.CachedTransaction :=
  default (TransactionPool.mkCached default_transaction []) (head (all_transactions pushed_A1)).

Lemma pushed_outputs_found_witness : exists indexes g,
  getTransactionGlobalIndexes root_A1 (TransactionPool.hash_of digest base_A1) = Some indexes /\ indexes !! 0%nat = Some g /\
  extractKeyOtputReferences [root_A1] 11563301 [g] = Ok (SUCCESS, [(TransactionPool.hash_of digest base_A1, 0)]).
Proof.
  destruct root_on_top as (Hok & Ht & _).
  apply (pushed_outputs_found digest sample_root [] pushed_A1 root_A1 0 base_A1 0
    (mkTransactionOutput 11563301 (ToKey (mkKeyOutput (zeros 32)))) Hok Ht); vm_compute; reflexivity.
Defined.







End CacheTheorems.
