(* ===== verification/SyncProofs.v ===== *)
(** * How two nodes find their common block

    A node that wants blocks sends a sparse list of the hashes of its main chain,
    and the other one answers with its hashes from the first block of the list
    that it knows.  The list reaches back to the genesis block in steps of
    doubling length, so the answer starts at most twice as far below the top as
    the chains are apart. *)

From S2P Require Import Prelude.
From S2P Require Import Types.
From S2P Require Import Serialization.
From S2P Require Import Block.
From S2P Require Import Currency.
From S2P Require Import Checkpoints.
From S2P Require Import ValidateTransaction.
From S2P Require Import TransactionPool.
From S2P Require Import BlockchainCache.
From S2P Require Import CacheProofs.
From S2P Require Import PushProofs.
From S2P Require Import CoreChain.
From S2P Require Import ChainProofs.
From S2P Require Import FindProofs.
From S2P Require Import BlockRules.
From S2P Require Import MainChain.
From S2P Require Import NodeProofs.
From S2P Require Import NodePool.
From S2P Require Import SampleChain.
Import Types.Types Serialization.Serialization Currency.Currency Checkpoints.Checkpoints.
Import ValidateTransaction.ValidateTransaction BlockchainCache.BlockchainCache CacheProofs.CacheProofs PushProofs.PushProofs.
Import CoreChain.CoreChain ChainProofs.ChainProofs FindProofs.FindProofs BlockRules.BlockRules MainChain.MainChain.
Import NodeProofs.NodeProofs NodePool.NodePool SampleChain.SampleChain.

Module SyncProofs.

(** ** Ranges of hashes *)

Lemma take_clip {A} (l : list A) n m : n = m \/ (length l <= n /\ length l <= m)%nat -> take n l = take m l.
Proof. intros [->|[Hn Hm]]; [done|]. by rewrite !take_ge. Qed.

Lemma getBlockHashes_flat c start count : chain_ok c -> c <> [] -> 0 <= start <= seg_end (flatten c) -> 0 <= count < 2 ^ 32 ->
  getBlockHashes c start count = Ok (take (Z.to_nat count) (drop (Z.to_nat start) (hashes_of (flatten c)))).
Proof.
  induction c as [|s parents IH]; [done|]. intros Hok _ Hs Hc. pose proof Hok as (Hs0 & Hl & Hc' & _). destruct (below_length _ _ Hok) as [Hb _].
  pose proof (start_fits _ _ Hok) as Hf. rewrite (flatten_end _ _ Hok) in Hs. pose proof (ok_end _ Hs0) as He. unfold seg_end in Hs, He.
  cbn [getBlockHashes]. unfold hashes_of at 1. change (blockInfos (flatten (s :: parents))) with (blockInfos (flatten parents) ++ blockInfos s).
  rewrite map_app. fold (hashes_of (flatten parents)). assert (Hlen : Z.of_nat (length (hashes_of (flatten parents))) = startIndex s) by (unfold hashes_of; rewrite length_map; lia).
  destruct (Z.ltb_spec start (startIndex s)) as [Hlt|Hge].
  - assert (Hp : parents <> []) by (apply (has_parent s _ start); [done|lia]). rewrite assert_parent_ok by done. cbn [obind].
    rewrite IH; [|done|done| |done]; [|rewrite <- (link_start _ _ Hl); lia]. cbn [obind].
    set (hs := take (Z.to_nat count) _).
    assert (Hhs : Z.of_nat (length hs) = Z.min count (startIndex s - start)) by (unfold hs; rewrite length_take, length_drop; lia).
    rewrite (wrap_small 64) by (unfold fits; lia). unfold infos_range. rewrite (proj2 (Z.leb_le 0 0)) by done. rewrite (proj2 (Z.leb_le _ _)) by lia.
    cbn [andb obind]. f_equal. rewrite drop_app_le by lia. rewrite take_app. fold hs. f_equal. cbn [drop Z.to_nat].
    rewrite <- firstn_map, length_drop, drop_0. apply take_clip. rewrite length_map. lia.
  - rewrite (wrap_small 32) by (unfold fits; lia). cbn [obind]. rewrite (wrap_small 64) by (unfold fits; lia).
    unfold infos_range. rewrite (proj2 (Z.leb_le _ _)) by lia. rewrite (proj2 (Z.leb_le _ _)) by lia. cbn [andb obind app]. f_equal.
    rewrite drop_app_ge by lia. rewrite <- firstn_map, <- skipn_map. replace (Z.to_nat start - _)%nat with (Z.to_nat (start - startIndex s)) by lia.
    apply take_clip. rewrite length_drop, length_map. lia.
Qed.

(** ** Blocks of the main chain *)

Lemma getBlockIndex_has s h : hasBlock s h = true -> exists j, getBlockIndex s h = Ok j.
Proof.
  intros Hb. unfold getBlockIndex. destruct (list_find _ _) as [[k b]|] eqn:Ef; [by eexists|]. apply list_find_None in Ef.
  rewrite Forall_forall in Ef. apply hasBlock_iff, list_elem_of_fmap in Hb as (b & -> & Hb). by destruct (Ef b Hb).
Qed.

Section Main.
Context (currency : Currency) (st : core) (flats : list segment).
Hypothesis Hinv : node_inv currency st flats.

Record main_view (p : Z) (l : list (Z * segment)) : Prop := {
  mv_leaf : main_leaf st = Ok p;
  mv_lin : lin (caches st) p l;
  mv_chain : main_chain_of st = Ok (map snd l);
  mv_ok : chain_ok (map snd l);
  mv_ne : l <> [];
  mv_nodup : NoDup (hashes_of (flatten (map snd l)));
  mv_top : core_getTopBlockIndex st = Ok (seg_end (flatten (map snd l)) - 1);
  mv_pos : 0 < seg_end (flatten (map snd l)) < 2 ^ 32
}.

Lemma main_view_exists : exists p l, main_view p l.
Proof.
  pose proof (inv_tree _ _ _ Hinv) as Ht. destruct (inv_main _ _ _ Hinv) as (p & l & Hp & Hl & _). exists p, l.
  assert (Hm : main_leaf st = Ok p) by (unfold main_leaf; destruct (chainsLeaves st); [done|by injection Hp as ->]).
  destruct (views_head _ _ _ (inv_views _ _ _ Hinv) Hm) as (f & rest & Ef & Hf & _).
  assert (f = flatten (map snd l)) as -> by (eapply view_unique; [exact Hf|by exists l]).
  pose proof (lin_chain _ (tree_heap _ Ht) _ _ Hl) as Hok. pose proof (chain_of_eq _ _ _ (tree_heap _ Ht) Hl) as Ec.
  assert (Hmc : main_chain_of st = Ok (map snd l)) by (unfold main_chain_of; by rewrite Hm).
  destruct (lin_head _ _ _ Hl) as (c & l' & Hc & El). pose proof (heap_blocks _ (tree_heap _ Ht) _ _ Hc) as Hb.
  split; try done.
  - by rewrite El.
  - pose proof (inv_hashes _ _ _ Hinv) as Hh. rewrite Ef in Hh. by apply Forall_cons in Hh as [? _].
  - unfold core_getTopBlockIndex. rewrite Hmc, El. cbn [obind map snd chain_top]. rewrite El in Hok. cbn [map snd] in Hok. rewrite (flatten_end _ _ Hok).
    apply getTopBlockIndex_ok; [apply Hok|done].
  - rewrite El in *. cbn [map snd] in *. pose proof (start_fits _ _ Hok) as [H0 H1]. rewrite (flatten_end _ _ Hok). unfold seg_end in *.
    destruct (blockInfos (cache_segment c)); [done|]. cbn [length] in *. lia.
Qed.

Context (p : Z) (l : list (Z * segment)).
Hypothesis Hmv : main_view p l.
Local Abbreviation flat := (flatten (map snd l)).

Lemma main_hash_at i : 0 <= i < seg_end flat -> exists h, hashes_of flat !! Z.to_nat i = Some h /\ getBlockHashByIndex st i = Ok h.
Proof.
  intros Hi. destruct (flatten_ok _ (mv_ok _ _ Hmv)) as [_ H0]. destruct (lookup_lt_is_Some_2 (blockInfos flat) (Z.to_nat i)) as [x Hx].
  { unfold seg_end in Hi. lia. }
  exists (bi_blockHash x). split; [unfold hashes_of; by rewrite list_lookup_fmap, Hx|]. unfold getBlockHashByIndex.
  rewrite (mv_top _ _ Hmv), (mv_chain _ _ Hmv). cbn [obind]. rewrite (proj2 (Z.ltb_ge _ _)) by lia.
  apply getBlockHash_flat; [apply Hmv| |done]. pose proof (mv_pos _ _ Hmv). lia.
Qed.

(** The index of a hash of the main chain. *)
Lemma main_find h : findMainChainSegmentContainingBlock st h = Ok (search ∅ (fun s => hasBlock s h) l).
Proof.
  unfold findMainChainSegmentContainingBlock. rewrite (mv_leaf _ _ Hmv). cbn [obind].
  apply (findIndexInChain_eq st (inv_tree _ _ _ Hinv)). apply Hmv.
Qed.

Lemma main_index h i : 0 <= i -> hashes_of flat !! Z.to_nat i = Some h -> exists q c,
  findMainChainSegmentContainingBlock st h = Ok (Some q) /\ caches st !! q = Some c /\ getBlockIndex (cache_segment c) h = Ok i /\
  exists parents, chain_of st q = Ok (cache_segment c :: parents) /\
    forall j h', 0 <= j <= i -> hashes_of flat !! Z.to_nat j = Some h' -> getBlockHash (cache_segment c :: parents) j = Ok h'.
Proof.
  intros Hi0 Hi. rewrite main_find. destruct (search ∅ (fun s => hasBlock s h) l) as [q|] eqn:E.
  2:{ apply search_hash in E. destruct E. by eapply list_elem_of_lookup_2. }
  apply search_some in E as (l1 & s & l2 & El & Hb & _). pose proof (mv_lin _ _ Hmv) as Hl. rewrite El in Hl.
  pose proof (lin_suffix _ _ _ _ _ _ Hl) as Hq. destruct (lin_head _ _ _ Hq) as (c & l' & Hc & [= Es <-]). subst s.
  pose proof (inv_tree _ _ _ Hinv) as Ht. pose proof (chain_of_eq _ _ _ (tree_heap _ Ht) Hq) as Ech. cbn [map snd] in Ech.
  pose proof (lin_chain _ (tree_heap _ Ht) _ _ Hq) as Hok. cbn [map snd] in Hok. pose proof (start_fits _ _ Hok) as [Hs0 Hs1].
  assert (Hokl : chain_ok (map snd l1 ++ cache_segment c :: map snd l2)).
  { pose proof (mv_ok _ _ Hmv) as H. by rewrite El, map_app in H. }
  destruct (flatten_prefix _ _ Hokl) as (u & Ef & _). assert (Eh : hashes_of flat = hashes_of (flatten (cache_segment c :: map snd l2)) ++ hashes_of u).
  { rewrite El, map_app. cbn [map snd]. rewrite Ef. unfold hashes_of. cbn [join blockInfos]. by rewrite map_app. }
  assert (Hj : getBlockIndex (cache_segment c) h = Ok i).
  { destruct (getBlockIndex_has _ _ Hb) as (j & Hj). rewrite Hj. f_equal.
    destruct (getBlockIndex_range _ _ _ (proj1 Hok) Hj) as (Hr & b & Hx & Hxh).
    assert (Hin : hashes_of (flatten (cache_segment c :: map snd l2)) !! Z.to_nat j = Some h).
    { unfold hashes_of. rewrite list_lookup_fmap, infos_lookup by (done || lia). rewrite (proj2 (Z.ltb_ge _ _)) by lia. by rewrite Hx, <- Hxh. }
    assert (Hat : hashes_of flat !! Z.to_nat j = Some h) by (rewrite Eh; by apply lookup_app_l_Some).
    pose proof (NoDup_lookup _ _ _ _ (mv_nodup _ _ Hmv) Hat Hi). lia. }
  exists q, c. split_and!; [done|done|done|]. exists (map snd l2). split; [done|]. intros j h' Hji Hjh.
  destruct (getBlockIndex_range _ _ _ (proj1 Hok) Hj) as (Hr & _). pose proof (flatten_end _ _ Hok) as He. destruct (flatten_ok _ Hok) as [_ H0].
  unfold seg_end in He, Hr, Hs1. rewrite H0 in He. rewrite Eh, lookup_app_l in Hjh by (unfold hashes_of; rewrite length_map; lia).
  unfold hashes_of in Hjh. rewrite list_lookup_fmap in Hjh. apply fmap_Some in Hjh as (x & Hx & ->). by apply getBlockHash_flat; [|lia|].
Qed.

Lemma main_no_index h : h ∉ hashes_of flat -> findMainChainSegmentContainingBlock st h = Ok None.
Proof. intros H. rewrite main_find. by apply search_hash in H as ->. Qed.

(** ** The answer *)

(** The first hash of the list that the main chain has. *)
Lemma supplement_first ids1 h ids2 i : Forall (fun x => x ∉ hashes_of flat) ids1 -> 0 <= i -> hashes_of flat !! Z.to_nat i = Some h ->
  supplement_loop st (ids1 ++ h :: ids2) = Ok i.
Proof.
  intros Hn H0 Hi. induction Hn as [|x ids Hx _ IH]; cbn [app supplement_loop].
  - destruct (main_index h i H0 Hi) as (q & c & -> & Hc & Hx & _). cbn [obind]. by rewrite (deref_ok _ _ _ Hc).
  - by rewrite (main_no_index _ Hx).
Qed.

Lemma supplement_none ids : Forall (fun x => x ∉ hashes_of flat) ids -> supplement_loop st ids = Err (RuntimeError "Genesis block hash was not found.").
Proof. induction 1 as [|x ids Hx _ IH]; cbn [supplement_loop]; [done|]. by rewrite (main_no_index _ Hx). Qed.

End Main.

(** ** The sparse list *)

(** The powers of two below [n], from [i] on. *)
Fixpoint offsets (fuel : nat) (i n : Z) : list Z :=
  if i <? n then match fuel with O => [] | S fuel => i :: offsets fuel (i * 2) n end else [].

(** The indexes of the blocks in the list. *)
Definition sparse_indexes (n : Z) : list Z := n :: map (fun o => n - o) (offsets 32 1 n) ++ if n =? 0 then [] else [0].

Lemma sparse_loop_eq (c : chain) (hash_at : Z -> Hash) n : n < 2 ^ 31 -> (forall j, 0 <= j <= n -> getBlockHash c j = Ok (hash_at j)) ->
  forall fuel i, 0 < i -> n <= i * 2 ^ Z.of_nat fuel ->
  sparse_loop fuel c n i = Ok (map hash_at (map (fun o => n - o) (offsets fuel i n))).
Proof.
  intros Hn Hh. induction fuel as [|fuel IH]; intros i Hi Hle; cbn [sparse_loop offsets].
  - rewrite (proj2 (Z.ltb_ge _ _)) by (cbn in Hle; lia). done.
  - destruct (Z.ltb_spec i n); [|done]. rewrite (wrap_small 32 (n - i)) by (unfold fits; lia). rewrite Hh by lia. cbn [obind].
    rewrite (wrap_small 32 (i * 2)) by (unfold fits; lia). rewrite IH; [done|lia|]. rewrite Nat2Z.inj_succ, Z.pow_succ_r in Hle by lia. lia.
Qed.

Lemma offsets_range fuel : forall i n o, 0 < i -> o ∈ offsets fuel i n -> i <= o < n.
Proof.
  induction fuel as [|fuel IH]; intros i n o Hi; cbn [offsets]; destruct (Z.ltb_spec i n); try by intros ?%elem_of_nil.
  intros [->|Ho]%elem_of_cons; [lia|]. apply IH in Ho; lia.
Qed.

Lemma offsets_sorted fuel : forall i n, 0 < i -> StronglySorted Z.lt (offsets fuel i n).
Proof.
  induction fuel as [|fuel IH]; intros i n Hi; cbn [offsets]; destruct (i <? n); try constructor; [apply IH; lia|].
  apply Forall_forall. intros o Ho%offsets_range; lia.
Qed.

Lemma sparse_sorted n : 0 <= n -> StronglySorted Z.gt (sparse_indexes n).
Proof.
  intros Hn. unfold sparse_indexes. pose proof (offsets_sorted 32 1 n ltac:(lia)) as Hs. pose proof (offsets_range 32 1 n) as Hr. constructor.
  - apply StronglySorted_app. split_and!.
    + intros x y (o & -> & Ho)%list_elem_of_fmap Hy. apply Hr in Ho; [|lia]. destruct (n =? 0); [by apply elem_of_nil in Hy|].
      apply list_elem_of_singleton in Hy as ->. lia.
    + clear Hr. induction Hs as [|o l _ IH Ho]; cbn [map]; constructor; [done|]. apply Forall_fmap. eapply Forall_impl; [exact Ho|]. cbn. lia.
    + destruct (n =? 0); repeat constructor.
  - apply Forall_app. split.
    + apply Forall_fmap, Forall_forall. intros o Ho. apply Hr in Ho; cbn; lia.
    + destruct (Z.eqb_spec n 0); repeat constructor. lia.
Qed.

Lemma sparse_range n i : 0 <= n -> i ∈ sparse_indexes n -> 0 <= i <= n.
Proof.
  intros Hn. unfold sparse_indexes. rewrite elem_of_cons, elem_of_app, list_elem_of_fmap. intros [->|[(o & -> & Ho)|H]]; [lia| |].
  - apply offsets_range in Ho; lia.
  - destruct (n =? 0); [by apply elem_of_nil in H|]. apply list_elem_of_singleton in H as ->. lia.
Qed.

Lemma sparse_last n : last (sparse_indexes n) = Some 0.
Proof.
  unfold sparse_indexes. destruct (Z.eqb_spec n 0) as [->|]; [done|]. rewrite app_comm_cons. apply last_snoc.
Qed.

Lemma offsets_dense d n fuel : forall i, 0 < i < 2 * d -> n <= i * 2 ^ Z.of_nat fuel ->
  (exists o, o ∈ offsets fuel i n /\ d <= o < 2 * d) \/ n < 2 * d.
Proof.
  induction fuel as [|fuel IH]; intros i Hi Hle; cbn [offsets]; [right; cbn in Hle; lia|].
  destruct (Z.ltb_spec i n); [|by right; lia]. destruct (Z.le_gt_cases d i).
  - left. exists i. split; [by left|lia].
  - destruct (IH (i * 2)) as [(o & Ho & Hr)|]; [lia| |left; exists o; split; [by right|done]|by right].
    rewrite Nat2Z.inj_succ, Z.pow_succ_r in Hle by lia. lia.
Qed.

(** Some block of the list is at most [2 (n - k)] below the top and not above [k]. *)
Lemma sparse_dense n k : 0 <= k <= n -> n < 2 ^ 31 -> exists j, j ∈ sparse_indexes n /\ 0 <= j <= k /\ n - j <= 2 * (n - k).
Proof.
  intros Hk Hn. destruct (decide (n = k)) as [<-|Hne]; [exists n; split; [by left|lia]|].
  unfold sparse_indexes. destruct (offsets_dense (n - k) n 32 1) as [(o & Ho & Hr)|Hlt]; [lia|cbn; lia| |].
  - exists (n - o). pose proof (offsets_range 32 1 n o ltac:(lia) Ho). split; [|lia]. right. apply elem_of_app. left.
    apply list_elem_of_fmap. by exists o.
  - exists 0. split; [|lia]. right. apply elem_of_app. right. rewrite (proj2 (Z.eqb_neq n 0)) by lia. by left.
Qed.

Section Sparse.
Context (currency : Currency) (st : core) (flats : list segment) (p : Z) (l : list (Z * segment)).
Hypothesis Hinv : node_inv currency st flats.
Hypothesis Hmv : main_view st p l.
Local Abbreviation flat := (flatten (map snd l)).
Local Abbreviation n := (seg_end flat - 1).

(** The hash of the main chain at an index. *)
Definition hash_at (j : Z) : Hash := default [] (hashes_of flat !! Z.to_nat j).

Lemma hash_at_ok j : 0 <= j <= n -> hashes_of flat !! Z.to_nat j = Some (hash_at j) /\ getBlockHashByIndex st j = Ok (hash_at j).
Proof. intros Hj. destruct (main_hash_at _ _ _ Hmv j) as (h & Hh & E); [lia|]. assert (hash_at j = h) as -> by exact (f_equal (default []) Hh). by split. Qed.

Lemma hash_at_inj i j : 0 <= i <= n -> 0 <= j <= n -> hash_at i = hash_at j -> i = j.
Proof.
  intros Hi Hj E. destruct (hash_at_ok i Hi) as [H1 _]. destruct (hash_at_ok j Hj) as [H2 _]. rewrite E in H1.
  pose proof (NoDup_lookup _ _ _ _ (mv_nodup _ _ _ Hmv) H1 H2). lia.
Qed.

Lemma top_hash : core_getTopBlockHash st = Ok (hash_at n).
Proof.
  pose proof (mv_pos _ _ _ Hmv) as Hpos. destruct (hash_at_ok n ltac:(lia)) as [Hn _]. destruct (flatten_ok _ (mv_ok _ _ _ Hmv)) as [_ H0].
  unfold hashes_of in Hn. rewrite list_lookup_fmap in Hn. apply fmap_Some in Hn as (x & Hx & ->).
  destruct (views_head _ _ _ (inv_views _ _ _ Hinv) (mv_leaf _ _ _ Hmv)) as (f & rest & -> & Hf & _).
  assert (f = flat) as -> by (eapply view_unique; [exact Hf|exists l; split; [apply Hmv|done]]).
  apply (main_top currency st _ Hinv _ rest x (inv_views _ _ _ Hinv)). rewrite last_lookup, <- Hx. f_equal. unfold seg_end. lia.
Qed.

Lemma buildSparseChain_eq : n < 2 ^ 31 -> buildSparseChain st = Ok (map hash_at (sparse_indexes n)).
Proof.
  intros Hn. pose proof (mv_pos _ _ _ Hmv) as Hpos. unfold buildSparseChain. rewrite top_hash. cbn [obind].
  destruct (hash_at_ok n ltac:(lia)) as [Hh _].
  destruct (main_index _ _ _ Hinv _ _ Hmv (hash_at n) n ltac:(lia) Hh) as (q & c & Hf & Hc & Hi & parents & Hch & Hat).
  unfold doBuildSparseChain, findSegmentContainingBlock. rewrite Hf.
  destruct (chainsLeaves st) as [|x leaves] eqn:El; [by pose proof (mv_leaf _ _ _ Hmv) as Hm; unfold main_leaf in Hm; rewrite El in Hm|].
  rewrite (proj2 (Z.ltb_lt _ _)) by (cbn [length]; lia). cbn [assert_that obind]. rewrite Hch. cbn [obind chain_getBlockIndex]. rewrite Hi. cbn [obind].
  assert (Hg : forall j, 0 <= j <= n -> getBlockHash (cache_segment c :: parents) j = Ok (hash_at j)).
  { intros j Hj. apply Hat; [done|]. by apply hash_at_ok. }
  rewrite (sparse_loop_eq _ hash_at n Hn Hg) by lia. cbn [obind]. rewrite Hg by lia. cbn [obind]. unfold sparse_indexes. cbn [map]. rewrite map_app.
  do 3 f_equal. destruct (Z.eqb_spec n 0) as [E|E]; [by rewrite E, bool_decide_true|]. rewrite bool_decide_false; [done|].
  intros E'. apply E, hash_at_inj; [lia|lia|done].
Qed.

End Sparse.

(** The first element of a decreasing list with a property is at least any other with it. *)
Lemma first_greatest (P : Z -> Prop) `{!forall x, Decision (P x)} l j : StronglySorted Z.gt l -> j ∈ l -> P j ->
  exists l1 i l2, l = l1 ++ i :: l2 /\ P i /\ Forall (fun x => ~ P x) l1 /\ j <= i.
Proof.
  induction 1 as [|x l Hs IH Hx]; intros Hj HP; [by apply elem_of_nil in Hj|]. destruct (decide (P x)) as [Hp|Hn].
  - exists [], x, l. split_and!; [done|done|constructor|]. apply elem_of_cons in Hj as [->|Hj]; [lia|].
    rewrite Forall_forall in Hx. specialize (Hx _ Hj). lia.
  - apply elem_of_cons in Hj as [->|Hj]; [done|]. destruct (IH Hj HP) as (l1 & i & l2 & -> & Hi & Hf & Hle).
    exists (x :: l1), i, l2. split_and!; [done|done|by constructor|done].
Qed.

Section Sync.
Context (ops : crypto_ops) (slow_hash : Block.Block.hashing_algorithm -> list Z -> Hash).
Context (currency : Currency) (checkpoints : Checkpoints) (hash_order : list Hash -> list Hash).
Local Abbreviation node_reachable := (reachable ops slow_hash currency checkpoints hash_order).

(** C19. Two nodes find their common block: the sparse list of the one and the
    search of the other give a block that both have at the same height, at most
    twice as far below the top of the asking node as the last block up to which
    the chains agree, and the answer is the range of hashes from there.  A hash
    is assumed to stand for one height, and the chain has fewer than 2^31 blocks,
    beyond which the doubling step of the list wraps around. *)
Theorem sync_finds_common st1 st2 n1 n2 c2 k count : node_params ops currency -> node_reachable st1 -> node_reachable st2 ->
  core_getTopBlockIndex st1 = Ok n1 -> core_getTopBlockIndex st2 = Ok n2 -> main_chain_of st2 = Ok c2 -> n1 < 2 ^ 31 -> 0 <= count < 2 ^ 32 ->
  0 <= k <= n1 -> k <= n2 -> (forall j, 0 <= j <= k -> getBlockHashByIndex st1 j = getBlockHashByIndex st2 j) ->
  (forall i j h, 0 <= i <= n1 -> 0 <= j <= n2 -> getBlockHashByIndex st1 i = Ok h -> getBlockHashByIndex st2 j = Ok h -> i = j) ->
  exists ids start, buildSparseChain st1 = Ok ids /\
    findBlockchainSupplement st2 ids count = Ok (take (Z.to_nat count) (drop (Z.to_nat start) (hashes_of (flatten c2))), n2 + 1, start) /\
    0 <= start <= n1 /\ start <= n2 /\ n1 - start <= 2 * (n1 - k) /\ getBlockHashByIndex st1 start = getBlockHashByIndex st2 start.
Proof.
  intros Hp H1 H2 Ht1 Ht2 Hc2 Hn Hcount Hk Hk2 Hagree Hheight.
  apply reachable_inv in H1 as (f1 & I1); [|apply Hp..]. apply reachable_inv in H2 as (f2 & I2); [|apply Hp..].
  destruct (main_view_exists _ _ _ I1) as (p1 & l1 & M1). destruct (main_view_exists _ _ _ I2) as (p2 & l2 & M2).
  pose proof (mv_top _ _ _ M1) as E1. pose proof (mv_top _ _ _ M2) as E2. pose proof (mv_pos _ _ _ M1) as P1. pose proof (mv_pos _ _ _ M2) as P2.
  rewrite Ht1 in E1. injection E1 as ->. rewrite Ht2 in E2. injection E2 as ->.
  assert (c2 = map snd l2) as -> by (pose proof (mv_chain _ _ _ M2); congruence).
  set (n1 := seg_end (flatten (map snd l1)) - 1) in *. set (n2 := seg_end (flatten (map snd l2)) - 1) in *.
  pose proof (buildSparseChain_eq _ _ _ _ _ I1 M1 Hn) as Hs. fold n1 in Hs.
  destruct (sparse_dense n1 k Hk Hn) as (j & Hj & Hjk & Hjd).
  destruct (first_greatest (fun i => hash_at l1 i ∈ hashes_of (flatten (map snd l2))) (sparse_indexes n1) j) as (ids1 & i & ids2 & Ei & Hi & Hni & Hle);
    [by apply sparse_sorted; lia|done| |].
  { destruct (hash_at_ok _ _ _ M1 j ltac:(lia)) as [_ Ha]. rewrite Hagree in Ha by lia. destruct (hash_at_ok _ _ _ M2 j ltac:(lia)) as [Hb Ha'].
    rewrite Ha in Ha'. injection Ha' as ->. by eapply list_elem_of_lookup_2. }
  assert (Hir : 0 <= i <= n1).
  { apply sparse_range; [lia|]. rewrite Ei. apply elem_of_app. right. by left. }
  destruct (hash_at_ok _ _ _ M1 i ltac:(lia)) as [_ Hi1]. apply list_elem_of_lookup in Hi as (m & Hm).
  pose proof (lookup_lt_Some _ _ _ Hm) as Hlt. unfold hashes_of in Hlt. rewrite length_map in Hlt. destruct (flatten_ok _ (mv_ok _ _ _ M2)) as [_ H0].
  assert (Hmr : 0 <= Z.of_nat m <= n2) by (unfold n2, seg_end; lia). destruct (hash_at_ok _ _ _ M2 (Z.of_nat m) Hmr) as [Hm2 Hi2].
  rewrite Nat2Z.id in Hm2. assert (Eh : hash_at l2 (Z.of_nat m) = hash_at l1 i) by congruence. rewrite Eh in Hi2.
  assert (i = Z.of_nat m) as -> by (by apply (Hheight _ _ (hash_at l1 i))).
  eexists _, (Z.of_nat m). split; [exact Hs|]. split_and!; [|lia|lia|lia|lia|congruence]. unfold findBlockchainSupplement.
  destruct (hash_at_ok _ _ _ M2 0 ltac:(lia)) as [_ Hg2]. destruct (hash_at_ok _ _ _ M1 0 ltac:(lia)) as [_ Hg1].
  rewrite Hg2. cbn [obind]. rewrite bool_decide_true by (rewrite fmap_last, sparse_last; cbn; rewrite Hagree in Hg1 by lia; congruence).
  cbn [assert_that obind]. rewrite Ht2. cbn [obind]. rewrite Ei, map_app. cbn [map]. unfold findBlockchainSupplement_index.
  rewrite is_empty_false by (by destruct (map _ ids1)).
  rewrite (supplement_first _ _ _ I2 _ _ M2 (map (hash_at l1) ids1) _ _ (Z.of_nat m)); [|by apply Forall_fmap|lia|by rewrite Nat2Z.id].
  cbn [obind]. unfold core_getBlockHashes. rewrite Hc2. cbn [obind]. rewrite (wrap_small 32 count) by (unfold fits; lia).
  rewrite getBlockHashes_flat; [|apply M2|by destruct l2; [destruct (mv_ne _ _ _ M2)|]|lia|done].
  cbn [obind]. by rewrite wrap_small by (unfold fits; lia).
Qed.

End Sync.

(** ** Two small nodes *)

(** The node with the first chain asks the one that has switched to the second. *)
Definition asking : core := sample_state [block_A1; block_A2].

Definition same_height (st1 st2 : core) (n1 n2 : Z) : bool :=
  forallb (fun i => forallb (fun j =>
    match getBlockHashByIndex st1 i, getBlockHashByIndex st2 j with
    | Ok h1, Ok h2 => (i =? j) || negb (bool_decide (h1 = h2))
    | _, _ => true
    end) (seqZ 0 (n2 + 1))) (seqZ 0 (n1 + 1)).

Lemma same_height_ok st1 st2 n1 n2 : same_height st1 st2 n1 n2 = true -> forall i j h, 0 <= i <= n1 -> 0 <= j <= n2 ->
  getBlockHashByIndex st1 i = Ok h -> getBlockHashByIndex st2 j = Ok h -> i = j.
Proof.
  intros H i j h Hi Hj E1 E2. unfold same_height in H. rewrite forallb_forall in H. specialize (H i). rewrite forallb_forall in H.
  assert (In1 : List.In i (seqZ 0 (n1 + 1))) by (apply list_elem_of_In, elem_of_seqZ; lia).
  assert (In2 : List.In j (seqZ 0 (n2 + 1))) by (apply list_elem_of_In, elem_of_seqZ; lia).
  specialize (H In1 j In2). rewrite E1, E2 in H. apply orb_true_iff in H as [H%Z.eqb_eq|H]; [done|]. by rewrite bool_decide_true in H.
Qed.

Lemma sync_finds_common_witness : exists ids start, buildSparseChain asking = Ok ids /\
  findBlockchainSupplement switched ids 10 =
    Ok (take (Z.to_nat 10) (drop (Z.to_nat start) (hashes_of (flatten (sample_chain switched 2)))), 2 + 1, start) /\
  0 <= start <= 2 /\ start <= 2 /\ 2 - start <= 2 * (2 - 0) /\ getBlockHashByIndex asking start = getBlockHashByIndex switched start.
Proof.
  apply (sync_finds_common sample_ops sample_slow_hash sample_currency ∅ sample_order asking switched 2 2 (sample_chain switched 2) 0 10 sample_params);
    [apply sample_state_reachable; vm_compute; reflexivity|apply switched_reachable|vm_compute; reflexivity..|lia|lia|lia|lia| |].
  - intros j Hj. assert (j = 0) as -> by lia. vm_compute. reflexivity.
  - apply same_height_ok. vm_compute. reflexivity.
Defined.

End SyncProofs.
