(* ===== verification/SwitchProofs.v ===== *)
(** * What a node says about a switch

    When an alternative chain becomes the main chain, [notifyOnSuccess] sends the
    hashes of the new blocks with the block that the two chains have in common,
    which it takes to be the last block of the parent of the segment that has
    grown.  No block is in two caches; so that block is on the old main chain
    exactly when the parent is. *)

From S2P Require Import Prelude.
From S2P Require Import Types.
From S2P Require Import Serialization.
From S2P Require Import Block.
From S2P Require Import Currency.
From S2P Require Import Checkpoints.
From S2P Require Import ValidateTransaction.
From S2P Require Import TransactionPool.
From S2P Require Import BlockchainCache.
From S2P Require Import CacheProofs.
From S2P Require Import PushProofs.
From S2P Require Import CoreChain.
From S2P Require Import ChainProofs.
From S2P Require Import FindProofs.
From S2P Require Import BlockRules.
From S2P Require Import MainChain.
From S2P Require Import NodeProofs.
From S2P Require Import NodePool.
From S2P Require Import SampleChain.
From S2P Require Import SyncProofs.
Import Types.Types Serialization.Serialization Currency.Currency Checkpoints.Checkpoints.
Import ValidateTransaction.ValidateTransaction BlockchainCache.BlockchainCache CacheProofs.CacheProofs PushProofs.PushProofs.
Import CoreChain.CoreChain ChainProofs.ChainProofs FindProofs.FindProofs BlockRules.BlockRules MainChain.MainChain.
Import NodeProofs.NodeProofs NodePool.NodePool SampleChain.SampleChain SyncProofs.SyncProofs.

Module SwitchProofs.

(** ** No block is in two caches *)

(** The hashes of the blocks of a cache. *)
Definition blocks (m : gmap Z cache) (q : Z) : option (list Hash) := (fun c => hashes_of (cache_segment c)) <$> m !! q.

Record once (m : gmap Z cache) : Prop := {
  once_cache : forall p q lp lq h, blocks m p = Some lp -> blocks m q = Some lq -> h ∈ lp -> h ∈ lq -> p = q;
  once_nodup : forall p l, blocks m p = Some l -> NoDup l
}.

Definition unknown (m : gmap Z cache) (h : Hash) : Prop := forall q l, blocks m q = Some l -> h ∉ l.

Lemma once_ext m m' : (forall q, blocks m' q = blocks m q) -> once m -> once m'.
Proof. intros E [H1 H2]. split; [intros p q lp lq h|intros p l]; rewrite !E; [apply H1|apply H2]. Qed.

(** A cache whose blocks are those of before and one that is unknown. *)
Lemma once_grown m m' p l h : once m -> unknown m h -> (forall x, x ∈ l -> exists l', blocks m p = Some l' /\ x ∈ l') -> NoDup l ->
  (forall q, blocks m' q = if decide (q = p) then Some (l ++ [h]) else blocks m q) -> once m'.
Proof.
  intros [H1 H2] Hh Hl Hnd E.
  assert (Hother : forall q lq x, blocks m q = Some lq -> x ∈ lq -> x ∈ l ++ [h] -> q = p).
  { intros q lq x Hq Hx [Hxl| ->%list_elem_of_singleton]%elem_of_app; [|by destruct (Hh q lq Hq)].
    destruct (Hl x Hxl) as (l' & Hp & Hx'). by eapply (H1 q p). }
  split; [intros x y lx ly h'|intros x lx]; rewrite !E.
  - repeat case_decide; subst; try done.
    + intros [= <-] Hy Hin Hin'. symmetry. by eapply Hother.
    + intros Hx [= <-] Hin Hin'. by eapply Hother.
    + apply H1.
  - case_decide; [|apply H2]. intros [= <-]. apply NoDup_app. split_and!; [done| |apply NoDup_singleton].
    intros y Hy ->%list_elem_of_singleton. destruct (Hl h Hy) as (l' & Hp & Hy'). by destruct (Hh p l' Hp).
Qed.

Lemma once_split m m' p new l1 l2 : once m -> blocks m p = Some (l1 ++ l2) ->
  (forall q, blocks m' q = if decide (q = new) then Some l2 else if decide (q = p) then Some l1 else blocks m q) -> once m'.
Proof.
  intros [H1 H2] Hp E. destruct (NoDup_app l1 l2) as [Hnd _]. specialize (Hnd (H2 _ _ Hp)) as (Hn1 & Hdis & Hn2).
  assert (Hlow : forall q lq h, blocks m q = Some lq -> h ∈ lq -> h ∈ l1 \/ h ∈ l2 -> q = p).
  { intros q lq h Hq Hin Hor. eapply (H1 q p); [done|done|done|]. by apply elem_of_app. }
  split; [intros x y lx ly h|intros x lx]; rewrite !E.
  - repeat case_decide; subst; try done; intros Hx Hy Hin Hin'; simplify_eq.
    all: try (by destruct (Hdis h)).
    1,2: by destruct (Hlow y ly h ltac:(done) ltac:(done) ltac:(auto)).
    1,2: by destruct (Hlow x lx h ltac:(done) ltac:(done) ltac:(auto)).
    by eapply (H1 x y).
  - repeat case_decide; [by intros [= <-]|by intros [= <-]|apply H2].
Qed.

(** ** What pushing a block does to the caches *)

Section Push.
Context (cn_fast_hash : list Z -> Hash) (parents : chain).

Lemma add_images_infos images i : forall s s', add_images parents images i s = Ok s' -> blockInfos s' = blockInfos s.
Proof.
  induction images as [|k images IH]; intros s s' H; cbn [add_images] in H; [by injection H as <-|].
  apply obind_Ok in H as (s1 & H1 & H). apply IH in H. rewrite H. unfold addSpentKeyImage in H1.
  apply obind_Ok in H1 as (b & _ & H1). apply obind_Ok in H1 as (? & _ & H1). destruct (spentImages s !! k); by injection H1 as <-.
Qed.

Lemma push_outputs_infos outs i t : forall n s l s', push_outputs parents outs i t n s = Ok (l, s') -> blockInfos s' = blockInfos s.
Proof.
  induction outs as [|o outs IH]; intros n s l s' H; cbn [push_outputs] in H; [by injection H as <- <-|].
  destruct (target o). apply obind_Ok in H as ([index s1] & H1 & H). apply obind_Ok in H as ([indexes s2] & H2 & H). injection H as <- <-.
  apply IH in H2. rewrite H2. unfold insertKeyOutputToGlobalIndex in H1. apply obind_Ok in H1 as ([start os] & _ & H1). by injection H1 as <- <-.
Qed.

Lemma push_transactions_infos txs i : forall n s s', push_transactions cn_fast_hash parents txs i n s = Ok s' -> blockInfos s' = blockInfos s.
Proof.
  induction txs as [|t txs IH]; intros n s s' H; cbn [push_transactions] in H; [by injection H as <-|].
  apply obind_Ok in H as (s1 & H1 & H). apply IH in H. rewrite H. unfold pushTransaction in H1. apply obind_Ok in H1 as (? & _ & H1).
  apply obind_Ok in H1 as ([l s2] & H2 & H1). apply push_outputs_infos in H2. apply obind_Ok in H1 as (? & _ & H1).
  rewrite <- H2. set (info := mkTransactionInfo _ _ _ _ _ _) in H1.
  assert (E : blockInfos (insert_transaction info s2) = blockInfos s2) by (unfold insert_transaction; by repeat case_match).
  repeat case_match; by injection H1 as <-.
Qed.

Lemma doPushBlock_hashes block txs images size coins d raw s s' h :
  doPushBlock cn_fast_hash parents block txs images size coins d raw s = Ok s' -> Block.Block.getBlockHash cn_fast_hash block = Ok h ->
  hashes_of s' = hashes_of s ++ [h].
Proof.
  unfold doPushBlock. intros H Hh. apply obind_Ok in H as (? & _ & H). apply obind_Ok in H as (? & _ & H).
  apply obind_Ok in H as ([[d0 c0] n0] & _ & H). rewrite Hh in H. cbn [obind] in H. apply obind_Ok in H as (? & _ & H).
  apply obind_Ok in H as (s1 & H1 & H). apply obind_Ok in H as (? & _ & H). apply obind_Ok in H as (base & _ & H).
  apply obind_Ok in H as (s2 & H2 & H). injection H as <-. apply add_images_infos in H1. apply push_transactions_infos in H2.
  unfold hashes_of. cbn [set_storage blockInfos]. rewrite H2, H1. cbn [set_blockInfos blockInfos]. by rewrite map_app.
Qed.

End Push.

Section Node.
Context (ops : crypto_ops) (slow_hash : Block.Block.hashing_algorithm -> list Z -> Hash).
Context (currency : Currency) (checkpoints : Checkpoints) (hash_order : list Hash -> list Hash).
Local Abbreviation cn_fast_hash := (fast_hash ops).

Lemma chain_of_head st p s parents : chain_of st p = Ok (s :: parents) -> exists c, caches st !! p = Some c /\ cache_segment c = s.
Proof.
  unfold chain_of. intros H. apply obind_Ok in H as (l & Hl & H). injection H as H. unfold lineage in Hl.
  destruct (S (size (caches st))) as [|fuel]; [done|]. cbn [ancestors] in Hl. apply obind_Ok in Hl as (c & Hc%deref_Ok & Hl). exists c. split; [done|].
  destruct (parent c); [apply obind_Ok in Hl as (l' & _ & Hl)|]; injection Hl as <-; by injection H as <- _.
Qed.

Lemma push_blocks p block raw b st st' h : push_checked ops p block raw b st = Ok st' -> Block.Block.getBlockHash cn_fast_hash block = Ok h ->
  exists c s, caches st !! p = Some c /\ st' = update_cache p (set_segment s) st /\ hashes_of s = hashes_of (cache_segment c) ++ [h].
Proof.
  unfold push_checked, cache_pushBlock. intros H Hh. apply obind_Ok in H as ([|s parents] & Hc & H); [done|].
  apply obind_Ok in H as (s' & Hs & H). injection H as <-. apply chain_of_head in Hc as (c & Hc & <-).
  exists c, s'. split_and!; [done|done|]. by eapply doPushBlock_hashes.
Qed.

Lemma push_once p block raw b st st' h : once (caches st) -> unknown (caches st) h -> push_checked ops p block raw b st = Ok st' ->
  Block.Block.getBlockHash cn_fast_hash block = Ok h -> once (caches st').
Proof.
  intros Ho Hu H Hh. apply (push_blocks _ _ _ _ _ _ h) in H as (c & s & Hc & -> & Hs); [|done].
  assert (Hb : blocks (caches st) p = Some (hashes_of (cache_segment c))) by (unfold blocks; by rewrite Hc).
  eapply (once_grown (caches st) _ p _ h Ho Hu); [|by eapply once_nodup|].
  - intros x Hx. by exists (hashes_of (cache_segment c)).
  - intros q. unfold blocks at 1. cbn [update_cache set_caches caches]. rewrite lookup_alter. case_decide.
    + subst q. rewrite decide_True by done. rewrite Hc. cbn. by rewrite Hs.
    + by rewrite decide_False by congruence.
Qed.

Lemma fork_once p block raw b st st' h : once (caches st) -> unknown (caches st) h -> caches st !! next_cache st = None ->
  fork_at ops p block raw b st = Ok st' -> Block.Block.getBlockHash cn_fast_hash block = Ok h -> once (caches st').
Proof.
  intros Ho Hu Hnew H Hh. unfold fork_at, createBlockchainCache, allocate in H. cbv zeta in H. apply obind_Ok in H as (st1 & H1 & H).
  unfold addChild in H1. apply obind_Ok in H1 as (c & Hc%deref_Ok & H1). apply obind_Ok in H1 as (? & _ & H1). injection H1 as <-.
  apply (push_blocks _ _ _ _ _ _ h) in H as (e & s & He & -> & Hs); [|done]. cbn [caches set_caches set_leaves set_chainsStorage update_cache] in *.
  assert (Ee : hashes_of (cache_segment e) = []).
  { rewrite lookup_alter, !lookup_insert in He. repeat case_decide; try congruence; cbn in He; by injection He as <-. }
  rewrite Ee in Hs. eapply (once_grown (caches st) _ (next_cache st) [] h Ho Hu); [by intros y ?%elem_of_nil|constructor|].
  intros q. unfold blocks at 1. rewrite lookup_alter. case_decide.
  - subst q. rewrite He. rewrite decide_True by done. cbn. by rewrite Hs.
  - rewrite decide_False by congruence. unfold blocks. rewrite lookup_alter. case_decide.
    + subst q. rewrite lookup_insert_ne by congruence. by destruct (caches st !! p).
    + by rewrite lookup_insert_ne by congruence.
Qed.

Lemma unknown_views st flats h : tree_ok st -> views st flats -> Forall (fun f => h ∉ hashes_of f) flats -> unknown (caches st) h.
Proof.
  intros Ht Hv Hall q l Hq Hin. unfold blocks in Hq. destruct (caches st !! q) as [c|] eqn:Hc; [|done]. injection Hq as <-.
  destruct (heap_view _ _ _ (tree_heap _ Ht) Hc) as (l & _ & Hvw).
  destruct (prefix_of_leaf st flats q c _ Ht Hv Hc Hvw) as (k & f & u & Hk & -> & _). apply (proj1 (Forall_lookup _ _) Hall k _ Hk).
  unfold hashes_of in *. cbn [join blockInfos]. change (blockInfos (flatten (cache_segment c :: map snd l)))
    with (blockInfos (flatten (map snd l)) ++ blockInfos (cache_segment c)). rewrite !map_app, !elem_of_app. auto.
Qed.

Lemma mainset_caches st st' : updateMainChainSet st = Ok st' -> caches st' = caches st /\ chainsLeaves st' = chainsLeaves st.
Proof. unfold updateMainChainSet. intros H. apply obind_Ok in H as (p & _ & H). apply obind_Ok in H as (l & _ & H). by injection H as <-. Qed.

Section Place.
Context (st : core) (flats : list segment) (block : BlockTemplate) (raw : RawBlock) (h : Hash) (now0 : Z).
Context (b : checked_block) (cell : cache) (c : chain).
Hypothesis Ht : tree_ok st.
Hypothesis Hv : views st flats.
Hypothesis Hpass : passed ops slow_hash currency checkpoints st now0 block h raw b cell c.
Hypothesis Hhash : Block.Block.getBlockHash cn_fast_hash block = Ok h.
Hypothesis Hnew : unknown (caches st) h.
Hypothesis Honce : once (caches st).
Local Abbreviation p := (checked_cache b).

(** The steps after a push on a leaf leave the caches alone. *)
Lemma leaf_caches schedules now r st' : place_on_leaf ops currency checkpoints hash_order schedules now block raw b st = Ok (r, st') ->
  exists main st1, main_leaf st = Ok main /\ push_checked ops p block raw b st = Ok st1 /\ caches st' = caches st1 /\
    (r = ADDED_TO_ALTERNATIVE_AND_SWITCHED -> p <> main /\ swap_leaf (index_of p (chainsLeaves st)) (chainsLeaves st) = Ok (chainsLeaves st')).
Proof.
  unfold place_on_leaf. intros H. apply obind_Ok in H as (main & Hm & H). apply obind_Ok in H as (st1 & H1 & H). exists main, st1.
  split; [done|]. split; [done|]. assert (El : chainsLeaves st1 = chainsLeaves st).
  { apply (push_blocks _ _ _ _ _ _ h) in H1 as (? & s & _ & -> & _); done. }
  destruct (Z.eqb_spec p main) as [Ep|Ep].
  - apply obind_Ok in H as (st2 & H2 & H). apply obind_Ok in H as (st3 & H3 & H). injection H as <- <-.
    apply updateBlockMedianSize_same in H2. apply prune_same in H3. split; [|done]. rewrite (proj1 H3). apply H2.
  - apply obind_Ok in H as (d & _ & H). apply obind_Ok in H as (md & _ & H). case_if_in H; [|by injection H as <- <-].
    cbv zeta in H. apply obind_Ok in H as (? & _ & H). apply obind_Ok in H as (? & _ & H). apply obind_Ok in H as (leaves & Hsw & H).
    apply obind_Ok in H as (st3 & H3 & H). apply mainset_caches in H3 as [H3 H3']. apply obind_Ok in H as (st4 & H4 & H).
    apply obind_Ok in H as (st5 & H5 & H). apply obind_Ok in H as (st6 & H6 & H). injection H as <- <-.
    apply updateBlockMedianSize_same in H4. apply prune_same in H5. apply copyTransactionsToPool_same in H6.
    destruct (same_tree_trans _ _ _ H4 (same_tree_trans _ _ _ H5 H6)) as (Ec & _ & Elv & _). rewrite Ec, Elv, H3, H3'.
    cbn [set_leaves caches chainsLeaves]. rewrite El in Hsw. done.
Qed.

Lemma split_once r st' : checked_onTop b = false ->
  (let! (upperSegment, st) := cache_split p (u32 (checked_previous b + 1)) st in
   let! upper := deref st upperSegment in
   let! _ := assert_that (0 <? getBlockCount (cache_segment upper)) "upperSegment->getBlockCount() > 0" in
   let! lower := deref st p in
   let! _ := assert_that (0 <? getBlockCount (cache_segment lower)) "cache->getBlockCount() > 0" in
   let! st :=
     if is_empty (children upper) then
       let found := index_of p (chainsLeaves st) in
       let! _ := assert_that (found <? length (chainsLeaves st))%nat "found != chainsLeaves.end()" in
       Ok (set_leaves (<[found := upperSegment]> (chainsLeaves st)) st)
     else Ok st in
   let st := set_chainsStorage (chainsStorage st ++ [upperSegment]) st in
   let! st := fork_at ops p block raw b st in
   let! st := updateMainChainSet st in
   Ok (ADDED_TO_ALTERNATIVE, st)) = Ok (r, st') -> r = ADDED_TO_ALTERNATIVE /\ once (caches st').
Proof.
  intros Htop H. pose proof (passed_cell _ _ _ _ _ _ _ _ _ _ _ _ Hpass) as Hcell. pose proof (tree_fresh _ Ht) as Hfr.
  destruct (place_setup _ _ _ _ _ _ _ _ _ _ _ _ Ht Hpass) as (l & _ & _ & _ & _ & Hs & Hr & Et & _).
  rewrite Htop in Et. symmetry in Et. apply Z.eqb_neq in Et. pose proof (ok_start _ Hs). pose proof (ok_end _ Hs).
  apply (place_split_state _ _ _ _ _ _ _ _ _ _ _ _ Ht Hpass) in H as (lower & upper & m' & st3 & Es & Hm' & H3 & H4 & ->); [|lia..].
  destruct (split_sound _ (checked_previous b + 1) _ _ Hs ltac:(lia) Es) as (Ej & _). split; [done|]. apply mainset_caches in H4 as [-> _].
  assert (Hb : blocks (caches st) p = Some (hashes_of lower ++ hashes_of upper)).
  { unfold blocks. rewrite Hcell. cbn. rewrite <- Ej. unfold hashes_of. cbn [join blockInfos]. by rewrite map_app. }
  assert (Eb : forall q, blocks m' q = if decide (q = next_cache st) then Some (hashes_of upper) else
    if decide (q = p) then Some (hashes_of lower) else blocks (caches st) q).
  { intros q. unfold blocks. rewrite Hm'. repeat case_decide; try done. by destruct (caches st !! q). }
  set (st2 := after_split _ _ _ _) in H3. assert (Hc2 : caches st2 = m' /\ next_cache st2 = next_cache st + 1).
  { unfold st2, after_split. by destruct (is_empty (children cell)). }
  destruct Hc2 as [Hc2 Hn2]. eapply (fork_once _ _ _ _ st2); [rewrite Hc2; by eapply once_split| | |exact H3|exact Hhash].
  - rewrite Hc2. intros q lq. rewrite Eb. repeat case_decide; [intros [= <-] Hin..|by apply Hnew]; apply (Hnew _ _ Hb), elem_of_app; auto.
  - rewrite Hc2, Hn2, Hm'. rewrite decide_False by lia. assert (Hnone : caches st !! (next_cache st + 1) = None).
    { apply eq_None_not_Some. intros Hsome. apply (tree_next _ Ht) in Hsome. lia. }
    rewrite decide_False by congruence. rewrite Hnone. by case_decide.
Qed.

(** Only a push on a leaf ends in a switch. *)
Lemma place_cases schedules now r st' : place_block ops currency checkpoints hash_order schedules now block raw b st = Ok (r, st') ->
  (children cell = [] /\ place_on_leaf ops currency checkpoints hash_order schedules now block raw b st = Ok (r, st')) \/
  (r = ADDED_TO_ALTERNATIVE /\ once (caches st')).
Proof.
  pose proof (passed_cell _ _ _ _ _ _ _ _ _ _ _ _ Hpass) as Hcell. pose proof (tree_fresh _ Ht) as Hfr.
  intros H. unfold place_block in H. destruct (checked_onTop b) eqn:Etop.
  - apply obind_Ok in H as (count & Hc & H). unfold getChildCount in Hc. rewrite (deref_ok _ _ _ Hcell) in Hc. injection Hc as <-.
    destruct (Z.eqb_spec (Z.of_nat (length (children cell))) 0) as [E|E]; [left; split; [apply nil_length_inv; lia|done]|right].
    apply obind_Ok in H as (st1 & H1 & H). apply obind_Ok in H as (st2 & H2 & H). apply obind_Ok in H as (st3 & H3 & H). injection H as <- <-.
    split; [done|]. apply mainset_caches in H2 as [H2 _]. apply updateBlockMedianSize_same in H3. rewrite (proj1 H3), H2. by eapply fork_once.
  - right. by apply split_once in H.
Qed.

Lemma place_once schedules now r st' : place_block ops currency checkpoints hash_order schedules now block raw b st = Ok (r, st') -> once (caches st').
Proof.
  intros [[_ H]|[_ H]]%place_cases; [|done]. apply leaf_caches in H as (main & st1 & _ & H1 & -> & _). by eapply push_once.
Qed.

End Place.

Lemma new_unknown st flats h : node_inv currency st flats -> findSegmentContainingBlock st h = Ok None -> unknown (caches st) h.
Proof.
  intros Hi Hn. eapply unknown_views; [apply Hi|apply Hi|].
  destruct (findSegment_exact st flats (inv_tree _ _ _ Hi) (inv_views _ _ _ Hi) h) as (r & Hr & Hnone).
  { destruct (inv_heaviest _ _ _ Hi) as (main & H0 & _). by destruct flats. }
  rewrite Hn in Hr. injection Hr as <-. by apply Hnone.
Qed.

Lemma addBlock_once schedules pool_schedules now block raw st flats code message st' : node_inv currency st flats -> once (caches st) ->
  addBlock_cached ops slow_hash currency checkpoints hash_order schedules pool_schedules now block raw st = Ok (code, message, st') -> once (caches st').
Proof.
  intros Hi Ho H. unfold addBlock_cached in H. apply obind_Ok in H as (h & Hh & H). apply obind_Ok in H as ([st1 [b|e]] & Hc & H).
  - apply check_block_passed in Hc as (-> & cell & c & Hpass). apply obind_Ok in H as ([r st2] & Hp & H). apply obind_Ok in H as (msg & _ & H). injection H as <- <- <-.
    eapply place_once; [apply Hi|exact Hpass|exact Hh| |exact Ho|exact Hp].
    eapply new_unknown; [exact Hi|]. by eapply passed_new.
  - injection H as <- <- <-. apply check_block_same in Hc as [Hs _]. by rewrite (proj1 Hs).
Qed.

Lemma step_once st flats st' : node_inv currency st flats -> once (caches st) -> step ops slow_hash currency checkpoints hash_order st st' -> once (caches st').
Proof.
  intros Hi Ho Hs. revert Hi Ho.
  destruct Hs as [schedules pools now raw st code message st' _ _ H|schedules pools now template st code message st' _ _ H|
    schedule now tx st err st' _ H|gkd dpk now keys vk sk extra st r st' H|now st deleted st' H]; intros Hi Ho.
  - unfold addBlock in H. fold (parse_block ops (raw_block raw)) in H. destruct (parse_block ops (raw_block raw)) as [block|]; [by eapply addBlock_once|by injection H as <- <- <-].
  - unfold submitBlock in H. fold (parse_block ops template) in H. destruct (parse_block ops template) as [block|]; [|by injection H as <- <- <-].
    apply obind_Ok in H as ([txs|] & _ & H); [by eapply addBlock_once|by injection H as <- <- <-].
  - unfold addTransactionToPool in H. apply obind_Ok in H as (n & _ & H). apply obind_Ok in H as ([e w] & _ & H). by injection H as <- <-.
  - by apply template_pool_step in H as (w & -> & _).
  - by apply clean_pool_step in H as (w & -> & _).
Qed.

Lemma init_once w st : genesis_ok currency -> initRootSegment ops currency w = Ok st -> once (caches st).
Proof.
  intros Hg H. pose proof H as H0. apply initRootSegment_inv in H0 as (root & Hroot & Hi); [|done]. unfold initRootSegment in H. rewrite Hroot in H.
  cbn [obind] in H. unfold allocate in H. apply updateBlockMedianSize_same in H as (-> & _). cbn [set_leaves set_chainsStorage set_mainChainSet caches next_cache].
  assert (Hb : forall p l, blocks (<[0 := mkCache root None []]> ∅) p = Some l -> p = 0 /\ l = hashes_of root).
  { intros p l H. unfold blocks in H. rewrite insert_empty in H. apply fmap_Some in H as (c & Hc & ->).
    by apply lookup_singleton_Some in Hc as [<- <-]. }
  split; [by intros p q lp lq h [-> _]%Hb [-> _]%Hb|]. intros p l [_ ->]%Hb. pose proof (inv_hashes _ _ _ Hi) as Hnd. by apply Forall_cons in Hnd as [? _].
Qed.

Lemma reachable_once st : node_params ops currency -> reachable ops slow_hash currency checkpoints hash_order st -> once (caches st).
Proof.
  intros Hp (timeout & st0 & Hi & Hr). pose proof (init_once _ _ (param_genesis _ _ Hp) Hi) as Ho.
  apply initRootSegment_inv in Hi as (root & _ & Hi); [|apply (param_genesis _ _ Hp)]. revert Hi Ho. generalize [root].
  induction Hr as [st|st st1 st2 Hs _ IH]; intros flats Hi Ho; [done|].
  destruct (step_inv _ _ _ _ _ _ _ _ (param_windows _ _ Hp) Hi Hs) as (flats' & Hi'). exact (IH flats' Hi' (step_once _ _ _ Hi Ho Hs)).
Qed.

(** ** The message *)

(** The message has the blocks of the segment that has grown, on top of the last
    block of its parent. *)
Lemma switch_message st p s l previous h message : heap_ok (caches st) -> lin (caches st) p ((p, s) :: l) ->
  notifyOnSuccess ADDED_TO_ALTERNATIVE_AND_SWITCHED previous h p st = Ok message ->
  exists q sq l' root below, l = (q, sq) :: l' /\ root ∈ hashes_of sq /\ hashes_of (flatten (s :: map snd l)) = below ++ root :: hashes_of s /\
    message = ChainSwitch (Z.of_nat (length below)) (root :: hashes_of s).
Proof.
  intros Hm Hl H. pose proof (lin_chain _ Hm _ _ Hl) as Hok. cbn [map snd] in Hok. unfold notifyOnSuccess in H.
  rewrite (chain_of_eq _ _ _ Hm Hl) in H. cbn [obind map snd] in H. destruct l as [|[q sq] l']; [done|]. cbn [map snd] in *.
  assert (Hne : blockInfos sq <> []).
  { destruct (lin_cell _ _ _ q sq Hl) as (cq & Hq & <-); [right; left|]. by eapply heap_blocks. }
  destruct (parents_infos _ _ _ Hok) as (_ & Hend & _). pose proof (start_fits _ _ Hok) as Hfit. destruct (below_length _ _ Hok) as [Hlen _].
  pose proof (ok_end _ (proj1 Hok)) as He. pose proof (flatten_end _ _ Hok) as Hfe.
  assert (Hb : getBlockCount s = Z.of_nat (length (blockInfos s))) by (unfold getBlockCount; apply wrap_small; unfold fits, seg_end in *; lia).
  assert (Hh : hashes_of (flatten (s :: sq :: map snd l')) = hashes_of (flatten (sq :: map snd l')) ++ hashes_of s) by (unfold hashes_of; by rewrite <- map_app).
  rewrite Hb, getBlockHashes_flat in H by (done || (unfold seg_end in *; lia)). cbn [obind] in H. rewrite Hh in H.
  rewrite drop_app_length', take_ge in H by (unfold hashes_of; rewrite length_map; lia).
  destruct (exists_last Hne) as (front & x & E). unfold getTopBlockHash, last_block in H. rewrite E, last_snoc in H. cbn [obind] in H.
  rewrite getTopBlockIndex_ok in H; [|apply Hok|done]. cbn [obind] in H. injection H as <-.
  exists q, sq, l', (bi_blockHash x), (hashes_of (flatten (map snd l')) ++ map bi_blockHash front).
  assert (Esq : hashes_of sq = map bi_blockHash front ++ [bi_blockHash x]) by (unfold hashes_of; by rewrite E, map_app).
  assert (Eq : hashes_of (flatten (sq :: map snd l')) = hashes_of (flatten (map snd l')) ++ hashes_of sq) by (unfold hashes_of; by rewrite <- map_app).
  split_and!; [done|rewrite Esq; apply elem_of_app; right; left| |].
  - rewrite Hh, Eq, Esq, <- !app_assoc. done.
  - f_equal. assert (Hl2 : length (hashes_of (flatten (sq :: map snd l'))) = length (blockInfos (flatten (sq :: map snd l')))) by (unfold hashes_of; apply length_map).
    rewrite Eq, Esq, !length_app in Hl2. cbn [length] in Hl2. rewrite length_app. lia.
Qed.

(** ** The switch *)

(** A block of a cache is on a chain exactly when the cache is. *)
Lemma on_chain m main lm q c h : once m -> lin m main lm -> m !! q = Some c -> h ∈ hashes_of (cache_segment c) ->
  h ∈ hashes_of (flatten (map snd lm)) <-> q ∈ map fst lm.
Proof.
  intros Ho Hl Hq Hh. rewrite hashes_flatten. split.
  - intros ([x s] & Hx & Hin%hasBlock_iff). destruct (lin_cell _ _ _ _ _ Hl Hx) as (cx & Hcx & Es). cbn [snd] in Hin.
    assert (x = q) as <-. { eapply (once_cache _ Ho x q); [unfold blocks; by rewrite Hcx|unfold blocks; by rewrite Hq|cbn; by rewrite Es|done]. }
    by apply (list_elem_of_fmap_2 fst _ (x, s)).
  - intros ([x s] & -> & Hx)%list_elem_of_fmap. cbn [fst] in Hq. destruct (lin_cell _ _ _ _ _ Hl Hx) as (cx & Hcx & <-). simplify_eq.
    exists (x, cache_segment c). split; [done|]. by apply hasBlock_iff.
Qed.

Lemma swap_head p leaves leaves' main : p ∈ leaves -> leaves !! 0%nat = Some main -> p <> main ->
  swap_leaf (index_of p leaves) leaves = Ok leaves' -> leaves' !! 0%nat = Some p.
Proof.
  intros Hin H0 Hne H. pose proof (index_of_lookup _ _ Hin) as Hi. unfold swap_leaf in H. rewrite H0, Hi in H. injection H as <-.
  rewrite list_lookup_insert_ne by congruence. apply list_lookup_insert_eq, lookup_lt_is_Some. eauto.
Qed.

Lemma main_leaf_head st p : head (chainsLeaves st) = Some p -> main_leaf st = Ok p.
Proof. unfold main_leaf, vec_at. change (Z.to_nat 0) with 0%nat. rewrite head_lookup. by intros ->. Qed.

(** The cache that has grown is a leaf beside the main chain and becomes the main leaf. *)
Lemma switch_state schedules pool_schedules now block raw st flats message st' : node_inv currency st flats -> once (caches st) ->
  addBlock_cached ops slow_hash currency checkpoints hash_order schedules pool_schedules now block raw st =
    Ok (AddBlock ADDED_TO_ALTERNATIVE_AND_SWITCHED, Some message, st') ->
  exists p cell s l h previous, findSegmentContainingBlock st (previousBlockHash block) = Ok (Some p) /\
    caches st !! p = Some cell /\ children cell = [] /\ head (chainsLeaves st) <> Some p /\ head (chainsLeaves st') = Some p /\
    lin (caches st) p ((p, cache_segment cell) :: l) /\ lin (caches st') p ((p, s) :: l) /\
    hashes_of s = hashes_of (cache_segment cell) ++ [h] /\ unknown (caches st) h /\
    notifyOnSuccess ADDED_TO_ALTERNATIVE_AND_SWITCHED previous h p st' = Ok message.
Proof.
  intros Hi Ho H. unfold addBlock_cached in H. apply obind_Ok in H as (h & Hh & H). apply obind_Ok in H as ([st1 [b|e]] & Hc & H).
  2: { injection H as -> E _. done. }
  apply check_block_passed in Hc as (-> & cell & c & Hpass). apply obind_Ok in H as ([r st2] & Hp & H). apply obind_Ok in H as (msg & Hmsg & H).
  injection H as -> -> ->. pose proof (inv_tree _ _ _ Hi) as Ht. pose proof (new_unknown _ _ _ Hi (passed_new _ _ _ _ _ _ _ _ _ _ _ _ Hpass)) as Hu.
  pose proof (passed_cell _ _ _ _ _ _ _ _ _ _ _ _ Hpass) as Hcell.
  destruct (place_setup _ _ _ _ _ _ _ _ _ _ _ _ Ht Hpass) as (l & Hl & _).
  destruct (place_cases _ _ _ _ _ _ _ _ Ht Hpass Hh Hu Ho _ _ _ _ Hp) as [[Hleaf Hp']|[? _]]; [clear Hp|done].
  eapply leaf_caches in Hp' as (main & st1 & Hm & H1 & Ec & Hsw); [|done..]. destruct (Hsw eq_refl) as [Hne Hs].
  apply (push_blocks _ _ _ _ _ _ h) in H1 as (c1 & s & Hc1 & -> & Hs1); [|done]. simplify_eq.
  exists (checked_cache b), cell, s, l, h, (checked_previous b). unfold main_leaf, vec_at in Hm.
  change (Z.to_nat 0) with 0%nat in Hm. destruct (chainsLeaves st !! 0%nat) as [m0|] eqn:E0; [|done]. injection Hm as ->.
  split_and!; try done.
  - by eapply passed_found.
  - rewrite head_lookup, E0. congruence.
  - rewrite head_lookup. eapply swap_head; [|exact E0|exact Hne|exact Hs]. apply (tree_leaves _ Ht). by exists cell.
  - rewrite Ec. cbn [update_cache set_caches caches]. apply replace_lin_leaf with (c := cell); try done. apply Ht.
Qed.

Local Abbreviation switched_chains st st' p message := (exists cell q c c' root below hashes,
    caches st !! p = Some cell /\ parent cell = Some q /\ main_chain_of st = Ok c /\ main_chain_of st' = Ok c' /\
    message = ChainSwitch (Z.of_nat (length below)) (root :: hashes) /\ hashes_of (flatten c') = below ++ root :: hashes /\
    Forall (fun h => h ∉ hashes_of (flatten c)) hashes /\ (root ∈ hashes_of (flatten c) <-> q ∈ mainChainSet st)).

Lemma switch_root schedules pool_schedules now block raw st flats message st' : node_inv currency st flats -> once (caches st) ->
  tree_ok st' -> addBlock_cached ops slow_hash currency checkpoints hash_order schedules pool_schedules now block raw st =
    Ok (AddBlock ADDED_TO_ALTERNATIVE_AND_SWITCHED, Some message, st') ->
  exists p, findSegmentContainingBlock st (previousBlockHash block) = Ok (Some p) /\ switched_chains st st' p message.
Proof.
  intros Hi Ho Ht' H. destruct (switch_state _ _ _ _ _ _ _ _ _ Hi Ho H) as (p & cell & s & l & h & previous & Hf & Hc & Hleaf & Hne & H0 & Hl & Hl' & Hs & Hu & Hmsg).
  pose proof (inv_tree _ _ _ Hi) as Ht. destruct (inv_main _ _ _ Hi) as (main & lm & Hmain & Hlm & Hset).
  destruct (switch_message _ _ _ _ _ _ _ (tree_heap _ Ht') Hl' Hmsg) as (q & sq & l' & root & below & -> & Hroot & Hh & ->).
  exists p. split; [done|]. exists cell, q, (map snd lm), (s :: sq :: map snd l'), root, below, (hashes_of s).
  destruct (lin_cell _ _ _ q sq Hl) as (cq & Hq & <-); [by right; left|].
  split_and!; try done.
  - inversion Hl as [|? c0 q' l0 Hp0 Hq' Hl0]; simplify_eq. destruct (lin_head _ _ _ Hl0) as (? & ? & _ & [= -> _ _]). done.
  - unfold main_chain_of. rewrite (main_leaf_head _ _ Hmain). cbn [obind]. by apply chain_of_eq; [apply Ht|].
  - unfold main_chain_of. rewrite (main_leaf_head _ _ H0). cbn [obind]. by apply (chain_of_eq st' _ _ (tree_heap _ Ht') Hl').
  - rewrite Hs. apply Forall_app. split.
    + apply Forall_forall. intros x Hx. rewrite (on_chain _ _ _ _ _ _ Ho Hlm Hc Hx).
      eapply leaf_not_ancestor; [apply Ht|done..|congruence].
    + apply Forall_singleton. intros ([x sx] & Hx & Hin%hasBlock_iff)%hashes_flatten. destruct (lin_cell _ _ _ _ _ Hlm Hx) as (cx & Hcx & <-).
      eapply (Hu x); [|exact Hin]. unfold blocks. by rewrite Hcx.
  - rewrite (on_chain _ _ _ _ _ _ Ho Hlm Hq Hroot), Hset. by rewrite elem_of_list_to_set.
Qed.

(** C40. What the message about a switch says.  When the block [addBlock] was given
    makes an alternative chain the main chain, the message has the hashes of the
    upper end of the new main chain: a root, with its height, and the blocks above
    it, none of which was on the old main chain.  The root is on the old main
    chain, and so the last block that the two chains have in common, exactly when
    the parent of the segment that has grown belongs to the old main chain; when
    that segment is itself a fork of an alternative chain, the message names a
    block which the old main chain does not have.  Stated for every state that a
    node reaches, as long as there is room for the block. *)
Theorem chain_switch_root schedules pool_schedules now raw block st message st' :
  node_params ops currency -> reachable ops slow_hash currency checkpoints hash_order st -> raw_ok raw ->
  parse_block ops (raw_block raw) = Some block -> has_room ops slow_hash currency checkpoints schedules now block raw st ->
  addBlock ops slow_hash currency checkpoints hash_order schedules pool_schedules now raw st =
    Ok (AddBlock ADDED_TO_ALTERNATIVE_AND_SWITCHED, Some message, st') ->
  exists p cell q c c' root below hashes, findSegmentContainingBlock st (previousBlockHash block) = Ok (Some p) /\
    caches st !! p = Some cell /\ parent cell = Some q /\ main_chain_of st = Ok c /\ main_chain_of st' = Ok c' /\
    message = ChainSwitch (Z.of_nat (length below)) (root :: hashes) /\ hashes_of (flatten c') = below ++ root :: hashes /\
    Forall (fun h => h ∉ hashes_of (flatten c)) hashes /\ (root ∈ hashes_of (flatten c) <-> q ∈ mainChainSet st).
Proof.
  intros Hp Hre Hraw Hb Hroom H. pose proof (reachable_once _ Hp Hre) as Ho. pose proof H as Ha. unfold addBlock in Ha.
  fold (parse_block ops (raw_block raw)) in Ha. rewrite Hb in Ha.
  apply reachable_inv in Hre as (flats & Hi); [|apply Hp..].
  destruct (addBlock_cached_inv _ _ _ _ _ _ _ _ _ _ _ _ _ _ _ (param_windows _ _ Hp) Hi (Hroom flats (inv_views _ _ _ Hi)) Ha) as (flats' & Hi' & _).
  destruct (switch_root _ _ _ _ _ _ _ _ _ Hi Ho (inv_tree _ _ _ Hi') Ha) as (p & Hf & cell & q & c & c' & root & below & hashes & Hall).
  exists p, cell, q, c, c', root, below, hashes. by split.
Qed.

End Node.

(** ** A sample *)

(** Chain C forks off chain B, and B forks off the main chain A at the genesis block. *)
Definition forked : core := sample_state [block_A1; block_A2; block_B1; block_B2; block_C2].

Definition is_switch (r : outcome (error_code * option BlockchainMessage * core)) : bool :=
  match r with Ok (AddBlock ADDED_TO_ALTERNATIVE_AND_SWITCHED, Some _, _) => true | _ => false end.

Lemma is_switch_spec r : is_switch r = true -> exists message st', r = Ok (AddBlock ADDED_TO_ALTERNATIVE_AND_SWITCHED, Some message, st').
Proof. destruct r as [[[[[]| |] [message|]] st']|]; try discriminate. intros _. by exists message, st'. Qed.

(** The cache of the block has a parent that is not on the main chain. *)
Definition off_main (st : core) (h : Hash) : bool :=
  match findSegmentContainingBlock st h with
  | Ok (Some p) =>
    match caches st !! p with
    | Some cell => match parent cell with Some q => bool_decide (q ∉ mainChainSet st) | None => false end
    | None => false
    end
  | _ => false
  end.

Lemma off_main_spec st h p cell q : off_main st h = true -> findSegmentContainingBlock st h = Ok (Some p) -> caches st !! p = Some cell ->
  parent cell = Some q -> q ∉ mainChainSet st.
Proof. unfold off_main. intros H Ef E Hq. rewrite Ef, E, Hq in H. by apply bool_decide_eq_true in H. Qed.

Lemma sample_add_eq b st : sample_add b st =
  addBlock sample_ops sample_slow_hash sample_currency ∅ sample_order [] (fun _ => []) 1000 (raw_of b) st.
Proof. reflexivity. Qed.

Lemma chain_switch_root_witness : exists c c' root below hashes st', main_chain_of forked = Ok c /\ main_chain_of st' = Ok c' /\
  sample_add block_C3 forked =
    Ok (AddBlock ADDED_TO_ALTERNATIVE_AND_SWITCHED, Some (ChainSwitch (Z.of_nat (length below)) (root :: hashes)), st') /\
  hashes_of (flatten c') = below ++ root :: hashes /\ root ∉ hashes_of (flatten c).
Proof.
  assert (Hr : sample_reachable forked) by (apply sample_state_reachable; vm_compute; reflexivity).
  destruct (is_switch_spec (sample_add block_C3 forked)) as (message & st' & E); [vm_compute; reflexivity|].
  pose proof E as Ha. rewrite sample_add_eq in Ha.
  assert (Hb : parse_block sample_ops (raw_block (raw_of block_C3)) = Some block_C3) by (vm_compute; reflexivity).
  destruct (chain_switch_root sample_ops sample_slow_hash sample_currency ∅ sample_order [] (fun _ => []) 1000 (raw_of block_C3) block_C3 forked
    message st' sample_params Hr) as (p & cell & q & c & c' & root & below & hashes & Hf & Hcell & Hq & Hc & Hc' & -> & Hh & _ & Hiff);
    [apply raw_test_ok; vm_compute; reflexivity|exact Hb| |exact Ha|].
  - apply sample_room; [exact Hr|vm_compute; reflexivity|exact Hb].
  - exists c, c', root, below, hashes, st'. split; [exact Hc|]. split; [exact Hc'|]. split; [exact Ha|]. split; [exact Hh|].
    rewrite Hiff. eapply off_main_spec; [|exact Hf|exact Hcell|exact Hq]. vm_compute. reflexivity.
Defined.

End SwitchProofs.
