(* ===== verification/TemplateProofs.v ===== *)
(** * Block templates pass the checks of blocks

    What [Core::getBlockTemplate] returns: the transaction of the miner pays the
    reward for a block of exactly its size, and a block mined from the template
    passes the checks of [Core::addBlock] on headers, hashes, sizes and rewards. *)

From S2P Require Import Prelude.
From S2P Require Import Config.
From S2P Require Import Varint.
From S2P Require Import Types.
From S2P Require Import Serialization.
From S2P Require Import SerializationProofs.
From S2P Require Import TransactionExtra.
From S2P Require Import Block.
From S2P Require Import FormatUtils.
From S2P Require Import Currency.
From S2P Require Import CurrencyProofs.
From S2P Require Import Checkpoints.
From S2P Require Import ValidateTransaction.
From S2P Require Import ValidateProofs.
From S2P Require Import TransactionPool.
From S2P Require Import CorePool.
From S2P Require Import PoolProofs.
From S2P Require Import BlockchainCache.
From S2P Require Import CacheProofs.
From S2P Require Import CoreChain.
From S2P Require Import ChainProofs.
From S2P Require Import MathProofs.
From S2P Require Import FindProofs.
From S2P Require Import BlockRules.
From S2P Require Import MainChain.
From S2P Require Import Templates.
From S2P Require Import NodeProofs.
From S2P Require Import NodePool.
From S2P Require Import SampleChain.
From S2P Require Import SyncProofs.
Import Config.parameters Varint.Varint Varint.StreamTools Types.Types Serialization.Serialization TransactionExtra.TransactionExtra.
Import FormatUtils.FormatUtils Currency.Currency CurrencyProofs.CurrencyProofs Checkpoints.Checkpoints ValidateTransaction.ValidateTransaction.
Import BlockchainCache.BlockchainCache CacheProofs.CacheProofs CoreChain.CoreChain ChainProofs.ChainProofs MathProofs.MathProofs FindProofs.FindProofs.
Import BlockRules.BlockRules MainChain.MainChain Templates.Templates NodeProofs.NodeProofs NodePool.NodePool SyncProofs.SyncProofs.

Module TemplateProofs.

Lemma sumZ_elem x l : Forall (fun y => 0 <= y) l -> x ∈ l -> x <= sumZ l.
Proof.
  induction 1 as [|y l Hy Hl IH]; intros Hx; [by apply elem_of_nil in Hx|]. pose proof (sumZ_nonneg _ Hl). simpl.
  apply elem_of_cons in Hx as [->|Hx]; [lia|]. specialize (IH Hx). lia.
Qed.

(** ** The size of a base transaction *)

Local Abbreviation size_of := (getObjectBinarySize ser_Transaction).

Definition vlen (v : Z) : Z := Z.of_nat (length (write_varint v)).

Lemma vlen_range v : 0 <= vlen v <= 11.
Proof. unfold vlen, write_varint. pose proof (write_varint_loop_length 10 v). lia. Qed.

(** An output takes its amount, a tag and a key. *)
Definition outs_len (outs : list TransactionOutput) : Z := sumZ (map (fun o => vlen (out_amount o) + 33) outs).

Definition base_len (tx : Transaction) (index : Z) : Z :=
  vlen (version tx) + vlen (unlockTime tx) + vlen 1 + (1 + vlen index) +
  (vlen (Z.of_nat (length (outputs tx))) + outs_len (outputs tx)) +
  (vlen (Z.of_nat (length (extra tx))) + Z.of_nat (length (extra tx))).

Lemma outs_out outs : Forall valid_output outs -> forall pre, exists bs,
  ser_items ser_TransactionOutput outs (Out pre) = Ok (outs, Out (pre ++ bs)) /\ Z.of_nat (length bs) = outs_len outs.
Proof.
  induction 1 as [|[a [[k]]] outs [Ha Hk] _ IH]; intros pre.
  { exists []. by rewrite app_nil_r. }
  destruct (IH (pre ++ write_varint a ++ [0x2] ++ k)) as (bs & E & Hl). exists ((write_varint a ++ [0x2] ++ k) ++ bs).
  cbn [ser_items]. unfold ser_TransactionOutput at 1. cbn [out_amount target] in *. rewrite ser_uint_out by done. cbn [obind].
  rewrite ser_target_key. unfold ser_KeyOutput, ser_PublicKey, serializePod. cbn [ser_binary obind key]. unfold write.
  rewrite <- !app_assoc in *. rewrite E. cbn [obind]. split; [by rewrite <- ?app_assoc|].
  destruct Hk as [Hk _]. cbn [key] in Hk. rewrite !length_app. cbn [outs_len map sumZ foldr out_amount] in *. unfold outs_len in Hl. unfold vlen at 1.
  cbn [length]. lia.
Qed.

Record base_shape (tx : Transaction) (index : Z) : Prop := {
  shape_version : fits 64 (version tx);
  shape_unlock : fits 64 (unlockTime tx);
  shape_inputs : inputs tx = [InBase (mkBaseInput index)];
  shape_index : fits 64 index;
  shape_outputs : Forall valid_output (outputs tx);
  shape_count : fits 64 (Z.of_nat (length (outputs tx)));
  shape_extra : fits 64 (Z.of_nat (length (extra tx)));
  shape_signatures : signatures tx = []
}.

Lemma base_size tx index : base_shape tx index -> size_of tx = base_len tx index.
Proof.
  intros [Hv Hu Hi Hx Ho Hc He Hs]. destruct tx as [[v u ins outs e] sigs]. cbn [version unlockTime inputs outputs extra signatures tx_prefix] in *. subst ins sigs.
  unfold getObjectBinarySize, toBinaryArray_opt, toBinaryArray, ser_Transaction, ser_TransactionPrefix.
  cbn [version unlockTime inputs outputs extra signatures tx_prefix]. rewrite ser_uint_out by done. cbn [obind is_input]. rewrite andb_false_r.
  rewrite ser_uint_out by done. cbn [obind]. rewrite container_out by (unfold fits; cbn; lia). cbn [ser_items obind].
  rewrite ser_input_base. unfold ser_BaseInput. cbn [blockIndex]. rewrite ser_uint_out by done. cbn [obind].
  rewrite container_out by done. match goal with |- context [ser_items _ outs (Out ?pre)] => destruct (outs_out outs Ho pre) as (bs & -> & Hl) end.
  cbn [obind]. unfold serializeAsBinary. cbn [ser_string obind]. unfold write. rewrite writeVarint_eq by (unfold fits in He; lia).
  cbn [obind is_input inputs tx_prefix andb is_empty negb ser_signatures getSignaturesCount Nat.eqb length Nat.add].
  cbn [obind]. unfold base_len. cbn [version unlockTime outputs extra tx_prefix]. rewrite !length_app. unfold vlen in *. rewrite <- Hl.
  change (Z.of_nat 1) with 1. change (length [255]) with 1%nat. change (length []) with 0%nat. lia.
Qed.

Lemma outs_len_eq outs outs' : map out_amount outs = map out_amount outs' -> outs_len outs = outs_len outs'.
Proof.
  unfold outs_len. rewrite <- !(map_map out_amount (fun a => vlen a + 33)). by intros ->.
Qed.

Lemma outs_len_bound outs : 0 <= outs_len outs <= 44 * Z.of_nat (length outs).
Proof.
  induction outs as [|o outs IH]; [done|]. unfold outs_len in *. simpl. pose proof (vlen_range (out_amount o)). lia.
Qed.

(** Only the lengths of the parts matter. *)
Lemma base_size_eq tx tx' index : base_shape tx index -> base_shape tx' index -> version tx = version tx' -> unlockTime tx = unlockTime tx' ->
  map out_amount (outputs tx) = map out_amount (outputs tx') -> length (extra tx) = length (extra tx') -> size_of tx = size_of tx'.
Proof.
  intros H H' Hv Hu Ho He. rewrite (base_size _ _ H), (base_size _ _ H'). unfold base_len. rewrite Hv, Hu, (outs_len_eq _ _ Ho), He.
  by rewrite <- (length_map out_amount (outputs tx)), Ho, length_map.
Qed.

Lemma base_size_bound tx index : base_shape tx index -> Z.of_nat (length (outputs tx)) <= 11 -> Z.of_nat (length (extra tx)) <= 300 ->
  0 <= size_of tx <= 900.
Proof.
  intros H Ho He. rewrite (base_size _ _ H). unfold base_len. pose proof (outs_len_bound (outputs tx)).
  pose proof (vlen_range (version tx)). pose proof (vlen_range (unlockTime tx)). pose proof (vlen_range 1). pose proof (vlen_range index).
  pose proof (vlen_range (Z.of_nat (length (outputs tx)))). pose proof (vlen_range (Z.of_nat (length (extra tx)))). lia.
Qed.

(** ** The transaction of the miner *)

Section Balance.
Context (construct : Z -> KeyPair -> outcome (option Transaction)) (keys : nat -> KeyPair) (used : Z).
Local Abbreviation loop := (balance construct keys used).

(** What a try was built for. *)
Definition built (tx : Transaction) : Prop := exists k size tx' e,
  construct size (keys k) = Ok (Some tx') /\ 0 <= size - used <= 2 ^ 20 /\ tx = with_extra tx' e /\
  Z.of_nat (length e) <= Z.of_nat (length (extra tx')) + 2 ^ 20 /\ size = u64 (used + size_of tx).

(** The loop returns: transactions stay small while it goes on.  What it returns
    was built for the size the block has with it. *)
Lemma balance_spec tries : 0 <= used < 2 ^ 31 ->
  (forall size k, fits 32 size -> exists r, construct size (keys k) = Ok r /\ forall tx, r = Some tx -> 0 <= size_of tx <= 900) ->
  forall k size, 0 <= size - used <= 2 ^ (10 + Z.of_nat k) -> (k + tries <= 11)%nat ->
  exists r, loop tries k size = Ok r /\ forall tx, r = inl tx -> built tx.
Proof.
  intros Hu Hc. induction tries as [|tries IH]; intros k size Hs Hk; cbn [balance]; [by eexists|].
  assert (Hle : 2 ^ (10 + Z.of_nat k) <= 2 ^ 20) by (apply Z.pow_le_mono_r; lia).
  assert (Hdouble : 2 ^ (10 + Z.of_nat (S k)) = 2 * 2 ^ (10 + Z.of_nat k)) by (rewrite <- Z.pow_succ_r by lia; f_equal; lia).
  assert (Hlow : 2 ^ 10 <= 2 ^ (10 + Z.of_nat k)) by (apply Z.pow_le_mono_r; lia).
  destruct (Hc size k) as ([tx|] & Ec & Htx); [unfold fits; lia| |by eexists; rewrite Ec]. specialize (Htx tx eq_refl). rewrite Ec. cbn [obind].
  assert (Hp : forall tx1 e, tx1 = with_extra tx e -> Z.of_nat (length e) <= Z.of_nat (length (extra tx)) + 2 ^ 20 -> exists r,
    (if negb (size =? u64 (used + size_of tx1)) then Ok (inr (UnexpectedSize size used (size_of tx1))) else Ok (inl tx1)) = Ok r /\
    forall tx2, r = inl tx2 -> built tx2).
  { intros tx1 e E1 He. destruct (Z.eqb_spec size (u64 (used + size_of tx1))) as [Es|]; cbn [negb]; [|by eexists].
    eexists. split; [done|]. intros tx2 [= <-]. exists k, size, tx, e. split_and!; [done|lia|lia|done|lia|done]. }
  rewrite (wrap_small 64 (size - used)) by (unfold fits; lia). case_if.
  { apply IH; [|lia]. rewrite wrap_small by (unfold fits; lia). lia. }
  case_if; [|eapply (Hp tx (extra tx)); [by destruct tx as [[] ?]|lia]]. unfold pad. cbv zeta.
  rewrite (wrap_small 64 (size - used - size_of tx)) by (unfold fits; lia). bool_prop.
  assert (Hlen : Z.of_nat (length (extra tx ++ repeat 0 (Z.to_nat (size - used - size_of tx)))) <= Z.of_nat (length (extra tx)) + 2 ^ 20).
  { rewrite length_app, repeat_length. lia. }
  case_if; [by eapply Hp|]. case_if; [by eexists|].
  case_if; [|eapply Hp; [reflexivity|]; cbn [with_extra extra tx_prefix]; rewrite length_take; lia]. rewrite (wrap_small 64 (_ - 1)) by (unfold fits; lia).
  apply IH; [|lia]. rewrite wrap_small by (unfold fits; lia). lia.
Qed.

(** A transaction that fits is taken at once. *)
Lemma balance_fits tries k size tx : construct size (keys k) = Ok (Some tx) -> 0 <= used -> 0 <= size_of tx -> size = used + size_of tx ->
  fits 64 size -> loop (S tries) k size = Ok (inl tx).
Proof.
  intros Hc Hu Hsz Hs Hf. cbn [balance]. rewrite Hc. cbn [obind]. subst size. unfold fits in Hf. rewrite wrap_small by (unfold fits; lia).
  rewrite !(proj2 (Z.ltb_ge _ _)) by lia. rewrite wrap_small by done. by rewrite Z.eqb_refl.
Qed.

End Balance.

Section MinerTx.
Context (ops : crypto_ops) (c : Currency) (gkd : PublicKey -> SecretKey -> option KeyDerivation)
  (dpk : KeyDerivation -> Z -> PublicKey -> option PublicKey).
Context (v height m already fee used : Z) (view spend : PublicKey) (extraNonce : list Z) (keys : nat -> KeyPair).

(** The key pairs are sound, and the keys derived from them are points. *)
Definition keys_ok : Prop := forall k, pod 32 (publicKey (keys k)) /\ exists d, gkd view (secretKey (keys k)) = Some d /\
  forall no, 0 <= no -> exists key, dpk d no spend = Some key /\ pod 32 key /\ check_key ops key = true.

Hypothesis (Hp : reward_params c) (Hdust : fits 64 (m_defaultDustThreshold c)) (Hm : fits 32 m).
Hypothesis (Hcoins : 0 <= already <= m_moneySupply c) (Hfee : 0 <= fee < 2 ^ 62) (Hheight : fits 32 height) (Hused : 0 <= used < 2 ^ 31).
Hypothesis (Hkeys : keys_ok) (Hnonce : bytes_ok extraNonce) (Hlen : Z.of_nat (length extraNonce) <= TX_EXTRA_NONCE_MAX_COUNT).

Local Abbreviation construct := (fun s key => constructMinerTx c gkd dpk v height m already s fee view spend key extraNonce 11).
Local Abbreviation reward s := (block_reward c v m s already fee height).

(** A transaction that pays the reward of a block of size [s]. *)
Record pays (s : Z) (tx : Transaction) : Prop := {
  pays_version : version tx = CURRENT_TRANSACTION_VERSION;
  pays_unlock : unlockTime tx = u32 (height + m_minedMoneyUnlockWindow c);
  pays_inputs : inputs tx = [InBase (mkBaseInput height)];
  pays_amounts : map out_amount (outputs tx) = miner_amounts c height 11 (reward s);
  pays_keys : Forall (fun o => exists k, target o = ToKey (mkKeyOutput k) /\ pod 32 k /\ check_key ops k = true) (outputs tx);
  pays_signatures : signatures tx = []
}.

Definition extra_len : nat := 33 + if is_empty extraNonce then 0 else 2 + length extraNonce.

Lemma construct_some s k : fits 32 s -> s <= 2 * reward_zone c v m ->
  exists tx, construct s (keys k) = Ok (Some tx) /\ pays s tx /\ length (extra tx) = extra_len.
Proof.
  intros Hs Hle. destruct (Hkeys k) as (Hpod & d & Hd & Hder).
  destruct (constructMinerTx_exact c gkd dpk v height m already s fee view spend (keys k) extraNonce 11 d (fun k => pod 32 k /\ check_key ops k = true))
    as (tx & E & Ha & Hk & Hpre & Hsig & _ & He); [done..|]. exists tx. split_and!; [done| |done]. split; try done; by rewrite Hpre.
Qed.

Lemma construct_none s key : fits 32 s -> 2 * reward_zone c v m < s -> construct s key = Ok None.
Proof.
  intros Hs Hlt. unfold constructMinerTx. destruct (if is_empty extraNonce then _ else _); [|done].
  rewrite getBlockReward_eq by done. by rewrite (proj2 (Z.ltb_lt _ _)).
Qed.

Lemma pays_shape s tx : s <= 2 * reward_zone c v m -> pays s tx -> Z.of_nat (length (extra tx)) <= 2 ^ 21 ->
  base_shape tx height /\ Z.of_nat (length (outputs tx)) <= 11.
Proof.
  intros Hle [Hv Hu Hi Ha Hk Hsig] He. destruct (miner_amounts_spec c v m s already fee height 11) as (Hn & Hsum & Hpos); [done..|].
  pose proof (block_reward_fits c v m s already fee height Hp Hm Hcoins Hfee Hle) as Hr. rewrite <- Ha in *. rewrite length_map in Hn.
  split; [|done]. split; try done.
  - rewrite Hv. unfold fits, CURRENT_TRANSACTION_VERSION, TRANSACTION_VERSION_1. lia.
  - rewrite Hu. apply (fits_mono 32); [lia|]. apply wrap_fits. lia.
  - by apply (fits_mono 32); [lia|].
  - apply Forall_forall. intros o Ho. rewrite Forall_forall in Hk. destruct (Hk o Ho) as (k & Ht & Hpod & _).
    assert (Hin : out_amount o ∈ map out_amount (outputs tx)) by by apply list_elem_of_fmap_2.
    split; [|by rewrite Ht]. pose proof (sumZ_elem (out_amount o) _ ltac:(eapply Forall_impl; [exact Hpos|]; simpl; lia) Hin).
    rewrite Forall_forall in Hpos. pose proof (Hpos _ Hin). rewrite Hsum in *. unfold fits in *. lia.
  - unfold fits. lia.
  - unfold fits. lia.
Qed.

Lemma extra_len_bound : (extra_len <= 300)%nat.
Proof. unfold extra_len. unfold TX_EXTRA_NONCE_MAX_COUNT in Hlen. destruct (is_empty extraNonce); lia. Qed.

Lemma construct_returns s k : fits 32 s -> exists r, construct s (keys k) = Ok r /\ forall tx, r = Some tx -> 0 <= size_of tx <= 900.
Proof.
  intros Hs. destruct (Z.le_gt_cases s (2 * reward_zone c v m)) as [Hle|Hgt].
  - destruct (construct_some s k Hs Hle) as (tx & -> & Hpay & He). eexists. split; [done|]. intros ? [= <-].
    destruct (pays_shape s tx Hle Hpay) as [Hsh Hn]; [rewrite He; pose proof extra_len_bound; lia|].
    eapply base_size_bound; [exact Hsh|done|]. pose proof extra_len_bound. lia.
  - rewrite construct_none by done. by eexists.
Qed.

(** Padding keeps what is paid. *)
Lemma pays_padded s tx e : pays s tx -> pays s (with_extra tx e).
Proof. by intros []. Qed.

Lemma pays_size s tx : s <= 2 * reward_zone c v m -> pays s tx -> Z.of_nat (length (extra tx)) <= 2 ^ 21 -> 0 <= size_of tx < 2 ^ 22.
Proof.
  intros Hle Hpay He. destruct (pays_shape s tx Hle Hpay He) as [Hs Hn]. rewrite (base_size _ _ Hs). unfold base_len.
  pose proof (outs_len_bound (outputs tx)).
  pose proof (vlen_range (version tx)). pose proof (vlen_range (unlockTime tx)). pose proof (vlen_range 1). pose proof (vlen_range height).
  pose proof (vlen_range (Z.of_nat (length (outputs tx)))). pose proof (vlen_range (Z.of_nat (length (extra tx)))). lia.
Qed.

(** What [getBlockTemplate] makes of the transaction of the miner: it returns, and
    the transaction pays the reward for the size that the block has with it. *)
Lemma miner_transaction_spec : exists r, miner_transaction construct keys used = Ok r /\
  forall tx, r = inl tx -> let s := used + size_of tx in pays s tx /\ s <= 2 * reward_zone c v m /\ fits 32 s.
Proof.
  assert (Hu : fits 32 used) by (unfold fits; lia). unfold miner_transaction.
  destruct (construct_returns used 0 Hu) as ([tx0|] & Er & Hr); rewrite Er; cbn [obind]; [|by eexists].
  specialize (Hr tx0 eq_refl). rewrite wrap_small by (unfold fits; lia).
  destruct (balance_spec construct keys used TRIES_COUNT Hused construct_returns 1 (used + size_of tx0)) as (r & -> & Hr1);
    [change (2 ^ (10 + Z.of_nat 1)) with 2048; lia|unfold TRIES_COUNT; lia|].
  exists r. split; [done|]. intros tx -> . destruct (Hr1 tx eq_refl) as (k & size & tx' & e & Ec & Hsize & -> & Hlen' & Es).
  assert (Hs : fits 32 size) by (unfold fits; lia).
  assert (Hle : size <= 2 * reward_zone c v m) by (apply Z.nlt_ge; intros Hgt; by rewrite construct_none in Ec).
  destruct (construct_some size k Hs Hle) as (tx1 & E1 & Hpay & He1). assert (tx1 = tx') as -> by congruence.
  apply (pays_padded _ _ e) in Hpay. pose proof extra_len_bound.
  assert (Hb : 0 <= size_of (with_extra tx' e) < 2 ^ 22) by (eapply pays_size; [exact Hle|done|cbn [with_extra extra tx_prefix]; lia]).
  rewrite wrap_small in Es by (unfold fits; lia). cbv zeta. by rewrite <- Es.
Qed.

(** A block in the full reward zone gets a transaction at once: its reward does
    not depend on its size. *)
Lemma miner_transaction_zone : used + 900 <= reward_zone c v m ->
  exists tx, miner_transaction construct keys used = Ok (inl tx) /\ size_of tx <= 900.
Proof.
  intros Hz. assert (Hu : fits 32 used) by (unfold fits; lia). unfold miner_transaction.
  destruct (construct_some used 0 Hu) as (tx0 & E0 & Hpay0 & He0); [lia|]. rewrite E0. cbn [obind].
  destruct (pays_shape used tx0) as [Hs0 Hn0]; [lia|done|rewrite He0; pose proof extra_len_bound; lia|].
  pose proof (base_size_bound tx0 height Hs0 Hn0 ltac:(rewrite He0; pose proof extra_len_bound; lia)) as Hb0.
  destruct (construct_some (used + size_of tx0) 1) as (tx1 & E1 & Hpay1 & He1); [unfold fits; lia|lia|].
  destruct (pays_shape (used + size_of tx0) tx1) as [Hs1 _]; [lia|done|rewrite He1; pose proof extra_len_bound; lia|].
  assert (Hrew : reward (used + size_of tx0) = reward used).
  { unfold block_reward, penalized. rewrite !(proj2 (Z.leb_le _ (reward_zone c v m))) by lia. done. }
  assert (Hsame : size_of tx1 = size_of tx0).
  { destruct Hpay0 as [? ? ? Ha0 _ _], Hpay1 as [? ? ? Ha1 _ _]. apply (base_size_eq _ _ height); congruence. }
  exists tx1. split; [|lia]. rewrite wrap_small by (unfold fits; lia). rewrite <- Hsame in *.
  apply balance_fits; [done|lia|lia|done|unfold fits; lia].
Qed.

End MinerTx.

(** ** The main chain *)

Section Chain.
Context (currency : Currency) (st : core) (flats : list segment) (p : Z) (l : list (Z * segment)).
Hypothesis (Hinv : node_inv currency st flats) (Hmv : main_view st p l).
Local Abbreviation flat := (flatten (map snd l)).
Local Abbreviation top := (seg_end flat - 1).

Lemma flat_length : Z.of_nat (length (blockInfos flat)) = top + 1.
Proof. destruct (flatten_ok _ (mv_ok _ _ _ Hmv)) as [_ H0]. unfold seg_end. rewrite H0. lia. Qed.

Lemma main_filled s : head (map snd l) = Some s -> blockInfos s <> [].
Proof.
  intros Hs. destruct (lin_head _ _ _ (mv_lin _ _ _ Hmv)) as (c & l' & Hc & E). rewrite E in Hs. injection Hs as <-.
  exact (heap_blocks _ (tree_heap _ (inv_tree _ _ _ Hinv)) _ _ Hc).
Qed.

Lemma main_units count i useGenesis pred : 0 <= count -> 0 <= i <= top ->
  getLastUnits (map snd l) count i useGenesis pred = Ok (map pred (last_units flat count i useGenesis)).
Proof. intros Hc Hi. apply getLastUnits_flat; [apply Hmv|apply main_filled|done|lia]. Qed.

(** The top block and where it is found. *)
Lemma main_tip : exists x, last (blockInfos flat) = Some x /\ core_getTopBlockHash st = Ok (bi_blockHash x) /\
  findSegmentContainingBlock st (bi_blockHash x) = Ok (Some p) /\ chain_getBlockIndex (map snd l) (bi_blockHash x) = Ok top.
Proof.
  destruct (last (blockInfos flat)) as [x|] eqn:Ex.
  2:{ apply last_None in Ex. pose proof flat_length as H. rewrite Ex in H. pose proof (mv_pos _ _ _ Hmv). simpl in H. lia. }
  exists x. split; [done|]. destruct (lin_head _ _ _ (mv_lin _ _ _ Hmv)) as (c & l' & Hc & E).
  assert (Hb : blockInfos (cache_segment c) <> []) by (apply main_filled; by rewrite E).
  destruct (last (blockInfos (cache_segment c))) as [y|] eqn:Ey; [|by apply last_None in Ey].
  assert (y = x) as ->.
  { rewrite E in Ex. cbn [map snd] in Ex. change (blockInfos (flatten (cache_segment c :: map snd l'))) with (blockInfos (flatten (map snd l')) ++ blockInfos (cache_segment c)) in Ex.
    rewrite last_app, Ey in Ex. by injection Ex. }
  assert (Hhas : hasBlock (cache_segment c) (bi_blockHash x) = true).
  { apply hasBlock_iff. unfold hashes_of. apply list_elem_of_fmap_2. rewrite last_lookup in Ey. by eapply list_elem_of_lookup_2. }
  assert (Hfind : findMainChainSegmentContainingBlock st (bi_blockHash x) = Ok (Some p)).
  { rewrite (main_find _ _ _ Hinv _ _ Hmv), E. cbn [search]. rewrite bool_decide_false by set_solver. cbn [snd fst]. by rewrite Hhas. }
  assert (Hat : hashes_of flat !! Z.to_nat top = Some (bi_blockHash x)).
  { unfold hashes_of. rewrite list_lookup_fmap. rewrite last_lookup in Ex. replace (Z.to_nat top) with (pred (length (blockInfos flat))) by (pose proof flat_length; lia).
    by rewrite Ex. }
  pose proof (mv_pos _ _ _ Hmv). destruct (main_index _ _ _ Hinv _ _ Hmv (bi_blockHash x) top ltac:(lia) Hat) as (q & c' & Hq & Hc' & Hi & _).
  assert (q = p) as -> by congruence. assert (c' = c) as -> by congruence. split_and!.
  - unfold core_getTopBlockHash, getTopBlockHash, last_block. rewrite (mv_leaf _ _ _ Hmv). cbn [obind]. rewrite (deref_ok _ _ _ Hc). cbn [obind]. by rewrite Ey.
  - unfold findSegmentContainingBlock. rewrite Hfind. pose proof (mv_leaf _ _ _ Hmv) as Hleaf. unfold main_leaf in Hleaf.
    by destruct (chainsLeaves st).
  - rewrite <- Hi. by rewrite E.
Qed.

(** The timestamps that the template looks at are those of the check. *)
Lemma getBlockTimestampByIndex_eq i x : 0 <= i -> blockInfos flat !! Z.to_nat i = Some x -> getBlockTimestampByIndex st i = Ok (bi_timestamp x).
Proof.
  intros Hi Hx. pose proof (lookup_lt_Some _ _ _ Hx). pose proof flat_length. unfold getBlockTimestampByIndex. rewrite (mv_top _ _ _ Hmv). cbn [obind].
  unfold assert_that at 1. rewrite (proj2 (Z.leb_le _ _)) by lia. cbn [obind]. rewrite (mv_chain _ _ _ Hmv). cbn [obind].
  unfold getLastTimestamps_at. rewrite main_units by lia. unfold last_units, lastn. rewrite drop_0, length_take, Nat.min_l by lia.
  replace (Z.to_nat (i + 1) - Z.to_nat 1)%nat with (Z.to_nat i) by lia. replace (Z.to_nat (i + 1)) with (S (Z.to_nat i)) by lia.
  rewrite (take_S_r _ _ _ Hx), drop_app_length' by (rewrite length_take; lia). done.
Qed.

Lemma timestamps_from_eq count : forall offset, 0 <= offset -> offset + Z.of_nat count <= top + 1 ->
  timestamps_from st count offset = Ok (map bi_timestamp (take count (drop (Z.to_nat offset) (blockInfos flat)))).
Proof.
  induction count as [|count IH]; intros offset Ho Hc; cbn [timestamps_from]; [done|]. pose proof flat_length.
  destruct (lookup_lt_is_Some_2 (blockInfos flat) (Z.to_nat offset)) as [x Hx]; [lia|].
  rewrite (getBlockTimestampByIndex_eq _ x) by done. cbn [obind]. rewrite IH by lia. cbn [obind].
  rewrite (drop_S _ x _ Hx). replace (Z.to_nat (offset + 1)) with (S (Z.to_nat offset)) by lia. done.
Qed.

Lemma template_timestamp_eq now : let w := template_check_window (top + 1) in let ts := map bi_timestamp (last_units flat w top true) in
  template_timestamp now (top + 1) st = Ok (if w <=? top + 1 then Z.max now (medianValue ts) else now).
Proof.
  cbv zeta. unfold template_timestamp. cbv zeta. case_if; [|done]. bool_prop.
  assert (Hw : 0 < template_check_window (top + 1)).
  { unfold template_check_window, BLOCKCHAIN_TIMESTAMP_CHECK_WINDOW_V3, BLOCKCHAIN_TIMESTAMP_CHECK_WINDOW. case_if; lia. }
  rewrite timestamps_from_eq by lia. cbn [obind]. unfold last_units, lastn. pose proof flat_length. rewrite drop_0, length_take, Nat.min_r by lia.
  rewrite (firstn_all2 (blockInfos flat)) by lia. rewrite (firstn_all2 (drop _ _)) by (rewrite length_drop; lia).
  replace (length (blockInfos flat) - Z.to_nat (template_check_window (top + 1)))%nat with (Z.to_nat (top + 1 - template_check_window (top + 1))) by lia.
  f_equal. case_if; bool_prop; lia.
Qed.

(** The median of the sizes, with and without the genesis block. *)
Definition median_at (useGenesis : bool) : Z := medianValue (map bi_blockSize (last_units flat (m_rewardBlocksWindow currency) top useGenesis)).

Lemma median_same : 0 <= m_rewardBlocksWindow currency <= top -> median_at true = median_at false.
Proof.
  intros Hw. unfold median_at, last_units, lastn. pose proof flat_length. do 2 f_equal. rewrite drop_0, drop_drop. f_equal.
  rewrite length_drop, length_take. lia.
Qed.

Lemma medianValue_le (b : Z) v : Forall (fits 32) v -> 0 <= b -> Forall (fun x => x <= b) v -> medianValue v <= b.
Proof.
  intros Hf Hb Hv. destruct (decide (v = [])) as [->|Hne]; [done|].
  destruct (medianValue_middle v) as (i & j & lo & hi & Hi & Hj & _ & _ & _ & Hm); [|done|].
  - eapply Forall_impl; [exact Hf|]. unfold fits. lia.
  - assert (Hin : hi ∈ v) by (rewrite <- (sort_perm v); by eapply list_elem_of_lookup_2). rewrite Forall_forall in Hv. specialize (Hv hi Hin). lia.
Qed.

(** The reward zone is the same when the chain is long enough, or its blocks
    small enough. *)
Lemma zone_same v : sized flat -> 0 <= m_rewardBlocksWindow currency -> 0 <= blockGrantedFullRewardZoneByBlockVersion currency v ->
  (m_rewardBlocksWindow currency <= top \/ Forall (fun x => bi_blockSize x <= blockGrantedFullRewardZoneByBlockVersion currency v) (blockInfos flat)) ->
  reward_zone currency v (median_at true) = reward_zone currency v (median_at false).
Proof.
  intros Hs Hw Hz [Hlong|Hsmall]; [by rewrite median_same|]. unfold reward_zone.
  assert (Hle : forall g, median_at g <= blockGrantedFullRewardZoneByBlockVersion currency v); [|pose proof (Hle true); pose proof (Hle false); lia].
  intros g. apply medianValue_le; [by apply last_sizes_fit|done|]. apply Forall_map. unfold last_units, lastn. by apply Forall_drop, Forall_drop, Forall_take.
Qed.

Lemma size_limit_eq v : sized flat -> 0 <= m_rewardBlocksWindow currency -> getBlockMajorVersionForHeight currency (top + 1) = Ok v ->
  0 <= blockGrantedFullRewardZoneByBlockVersion currency v < 2 ^ 32 ->
  calculateCumulativeBlocksizeLimit currency st (top + 1) = Ok (2 * reward_zone currency v (median_at false)).
Proof.
  intros Hs Hw Hv Hz. unfold calculateCumulativeBlocksizeLimit. rewrite Hv. cbn [obind]. rewrite (mv_chain _ _ _ Hmv). cbn [obind].
  assert (Hct : chain_top (map snd l) = Ok top).
  { pose proof (mv_top _ _ _ Hmv) as H. unfold core_getTopBlockIndex in H. by rewrite (mv_chain _ _ _ Hmv) in H. }
  unfold getLastBlocksSizes. rewrite Hct. cbn [obind]. unfold getLastBlocksSizes_at. pose proof (mv_pos _ _ _ Hmv). rewrite main_units by lia. cbn [obind].
  fold (median_at false). assert (Hm : fits 32 (median_at false)) by (by apply medianValue_fits, last_sizes_fit). unfold reward_zone, fits in *.
  f_equal. case_if; bool_prop; rewrite wrap_small by (unfold fits; lia); lia.
Qed.

End Chain.

(** ** The parent block *)

Definition tag_extra (root : Hash) : list Z := TX_EXTRA_MERGE_MINING_TAG :: 33 :: 0 :: root.

Definition tagged_parent (root : Hash) : ParentBlock :=
  mkParentBlock 0 0 (zeros 32) 1 [] (mkBaseTransaction (mkTransactionPrefix 0 0 [] [] (tag_extra root))) [].

Lemma tag_written root : pod 32 root -> appendMergeMiningTagToExtra [] (mkMergeMiningTag 0 root) = Some (tag_extra root).
Proof.
  intros Hr. assert (Ht : valid_tag (mkMergeMiningTag 0 root)) by (split; [unfold fits; cbn; lia|done]).
  unfold appendMergeMiningTagToExtra, toBinaryArray_opt, toBinaryArray at 1, ser_MergeMiningTag.
  unfold toBinaryArray. rewrite doSerialize_tag_out by done. cbn [obind app ser_string depth merkleRoot]. unfold write.
  destruct Hr as [Hr _]. change (write_varint 0) with [0]. cbn [app length]. rewrite Hr. done.
Qed.

Lemma tag_read root : pod 32 root -> getMergeMiningTagFromExtra (tag_extra root) = Some (mkMergeMiningTag 0 root).
Proof.
  intros Hr. set (f := ExtraMergeMiningTag (mkMergeMiningTag 0 root)).
  destruct (parse_fields [] (or_introl eq_refl) [f]) as (w & Hw & _ & Hp).
  { constructor; [|constructor]. split; [split; [unfold fits; cbn; lia|done]|done]. }
  { apply NoDup_singleton. }
  specialize (Hw []). cbn [app writeTransactionExtra write_field f] in Hw. rewrite (tag_written _ Hr) in Hw. injection Hw as <-.
  unfold getMergeMiningTagFromExtra, parseTransactionExtra. rewrite Hp; [done|lia|]. intros g Hg. by apply list_elem_of_singleton in Hg as ->.
Qed.

Lemma template_parent_eq v : BLOCK_MAJOR_VERSION_2 <= v -> template_parent v = Some (tagged_parent (zeros 32)).
Proof.
  intros Hv. unfold template_parent. unfold BLOCK_MAJOR_VERSION_1, BLOCK_MAJOR_VERSION_2 in *.
  rewrite (proj2 (Z.eqb_neq v 1)), (proj2 (Z.leb_le 2 v)) by lia. rewrite tag_written; [done|ground].
Qed.

(** The parent block takes far less than it may. *)
Lemma parent_written cn_fast_hash root ts nonce : pod 32 root -> fits 64 ts ->
  exists ba, toBinaryArray_opt (Block.Block.ser_ParentBlock cn_fast_hash false false) (tagged_parent root, ts, nonce) = Some ba /\
    Z.of_nat (length ba) <= 2048.
Proof.
  intros Hr Hts. unfold toBinaryArray_opt, toBinaryArray, Block.Block.ser_ParentBlock, tagged_parent.
  cbn [pb_majorVersion pb_minorVersion pb_previousBlockHash transactionCount baseTransactionBranch pb_baseTransaction blockchainBranch].
  do 2 (rewrite (ser_uint_out 8) by (unfold fits; lia); cbn [obind]). rewrite (ser_uint_out 64) by done. cbn [obind].
  unfold ser_Hash, serializePod, Block.Block.ser_nonce. cbn [ser_binary obind]. rewrite (ser_uint_out 64) by (unfold fits; lia). cbn [obind].
  change (wrap 16 1) with 1. cbn [Z.ltb Z.compare Pos.compare Pos.compare_cont]. change (TreeHash.TreeHash.tree_depth 1) with (@Ok Z 0). cbn [obind].
  unfold Block.Block.ser_hash_branch. change (Z.to_nat 0) with 0%nat. cbn [length Nat.eqb negb obind ser_items].
  unfold ser_BaseTransaction. cbn [version unlockTime inputs outputs extra base_prefix].
  rewrite (ser_uint_out 8) by (unfold fits; lia). cbn [obind]. rewrite (ser_uint_out 64) by (unfold fits; lia). cbn [obind].
  do 2 (rewrite container_out by (unfold fits; cbn; lia); cbn [obind ser_items]).
  unfold serializeAsBinary. cbn [ser_string obind]. unfold write. rewrite writeVarint_eq by lia.
  cbn [obind Z.leb TRANSACTION_VERSION_2 Z.compare extra base_prefix]. rewrite (tag_read _ Hr). cbn [depth Z.ltb Z.compare Z.to_nat Z.mul Pos.mul length Nat.eqb negb obind ser_items].
  eexists. split; [reflexivity|]. destruct Hr as [Hr _]. rewrite !length_app. unfold tag_extra. cbn [length]. rewrite Hr.
  pose proof (vlen_range ts). pose proof (vlen_range 0). pose proof (vlen_range 1). pose proof (vlen_range (Z.of_nat 35)). unfold vlen in *.
  change (length (zeros 32)) with 32%nat. change (Z.of_nat 0) with 0. rewrite length_Z_to_le. lia.
Qed.

(** ** The transactions of a template *)

Local Abbreviation pending_ok := PoolProofs.PoolProofs.pending_ok.
Local Abbreviation binary_size := TransactionPool.TransactionPool.binary_size.
Local Abbreviation getTransaction := TransactionPool.TransactionPool.getTransaction.

Lemma u64_add_l a b : u64 (u64 a + b) = u64 (a + b).
Proof. unfold u64, wrap. by rewrite Zplus_mod_idemp_l. Qed.

Lemma u64_add_r a b : u64 (a + u64 b) = u64 (a + b).
Proof. unfold u64, wrap. by rewrite Zplus_mod_idemp_r. Qed.

Lemma fold_amounts outs : forall a, fold_left (fun a o => u64 (a + out_amount o)) outs (u64 a) = u64 (a + sumZ (map out_amount outs)).
Proof.
  induction outs as [|o outs IH]; intros a; cbn [fold_left]; [by rewrite Z.add_0_r|]. rewrite u64_add_l, IH. f_equal. simpl. lia.
Qed.

Lemma fee_loop_eq ins out : PoolProofs.PoolProofs.key_inputs ins -> forall a,
  Block.Block.fee_loop ins (u64 a) out = u64 (a + sumZ (map input_amount ins) - out).
Proof.
  induction 1 as [|[i|i] ins Hi _ IH]; intros a; cbn [Block.Block.fee_loop]; [|done|].
  - rewrite Z.add_0_r. unfold Z.sub. by rewrite u64_add_l.
  - rewrite u64_add_l, IH. f_equal. simpl. lia.
Qed.

(** The fee that the pool computes is the one of the validation. *)
Lemma fee_eq t : pending_ok t -> Block.Block.getTransactionFee (getTransaction t) = u64 (fee_of t).
Proof.
  intros Ht. unfold Block.Block.getTransactionFee. change 0 with (u64 0). rewrite fold_amounts. rewrite fee_loop_eq by apply Ht.
  unfold fee_of, total_in, total_out. unfold u64, wrap. by rewrite Zminus_mod_idemp_r.
Qed.

Lemma fees_eq txs : Forall pending_ok txs ->
  u64 (sumZ (map (fun t => Block.Block.getTransactionFee (getTransaction t)) txs)) = u64 (sumZ (map fee_of txs)).
Proof.
  induction 1 as [|t txs Ht _ IH]; [done|]. simpl. rewrite <- u64_add_r, IH, (fee_eq t Ht), u64_add_r. apply u64_add_l.
Qed.

Lemma sublist_sum {A} (f : A -> Z) l1 l2 : sublist l1 l2 -> Forall (fun x => 0 <= f x) l2 -> 0 <= sumZ (map f l1) <= sumZ (map f l2).
Proof.
  induction 1 as [|x l1 l2 _ IH|x l1 l2 _ IH]; intros Hf; [done|..]; apply Forall_cons in Hf as [Hx Hf]; specialize (IH Hf); simpl; lia.
Qed.

Lemma extract_pending currency txs : Forall pending_ok txs -> forall acc, 0 <= acc -> acc + sumZ (map binary_size txs) < 2 ^ 64 ->
  Forall (fun t => binary_size t <= m_maxTxSize currency) txs ->
  extractTransactions currency (map TransactionPool.TransactionPool.binaryArray txs) acc = Ok (Some (txs, acc + sumZ (map binary_size txs))).
Proof.
  induction 1 as [|t txs Ht Htxs IH]; intros acc Hacc Hsum Hmax; cbn [map extractTransactions]; [by rewrite Z.add_0_r|].
  apply Forall_cons in Hmax as [Hm Hmax]. unfold TransactionPool.TransactionPool.binary_size in Hm at 1. rewrite (proj2 (Z.ltb_ge _ _)) by done.
  unfold Block.Block.CachedTransaction_of_bytes, fromBinaryArray_opt. rewrite (PoolProofs.PoolProofs.pending_read _ Ht).
  change (sumZ (map binary_size (t :: txs))) with (binary_size t + sumZ (map binary_size txs)) in *.
  assert (Hnn : 0 <= sumZ (map binary_size txs)).
  { apply sumZ_nonneg, Forall_map. eapply Forall_impl; [exact Htxs|]. intros x [Hx _]. simpl. lia. }
  destruct (PoolProofs.PoolProofs.pending_size _ Ht) as [Hpos _]. fold (binary_size t) in *.
  rewrite wrap_small by (unfold fits; lia). rewrite IH by (done || lia). cbn [obind].
  rewrite <- Z.add_assoc. by destruct t.
Qed.

Lemma hashes_ok ops block txs : transactionHashes block = map (TransactionPool.TransactionPool.hash_of (fast_hash ops)) txs ->
  NoDup (transactionHashes block) -> check_hashes ops block txs = None.
Proof.
  intros E Hnd. unfold check_hashes. case_if; [|done]. rewrite <- E. rewrite (proj2 (is_unique_iff _ ∅)) by (split; [done|set_solver]). cbn [negb].
  rewrite bool_decide_true by done. cbn [negb]. rewrite (proj2 (forallb_forall _ _)); [done|]. intros h Hh%list_elem_of_In. by apply bool_decide_eq_true.
Qed.

(** ** The template of a node *)

(** Constants of the currency that the template relies on. *)
Record template_params (currency : Currency) : Prop := {
  tp_reward : reward_params currency;
  tp_dust : fits 64 (m_defaultDustThreshold currency);
  tp_zones : forall v, m_minerTxBlobReservedSize currency <= blockGrantedFullRewardZoneByBlockVersion currency v;
  tp_window : m_timestampCheckWindow currency = BLOCKCHAIN_TIMESTAMP_CHECK_WINDOW;
  tp_unlock : 0 <= m_minedMoneyUnlockWindow currency
}.

(** The windows of the two checks of timestamps agree outside of a range of
    heights. *)
Definition windows_agree (height : Z) : Prop := height < LWMA_2_DIFFICULTY_BLOCK_INDEX \/ LWMA_2_DIFFICULTY_BLOCK_INDEX_V3 <= height.

(** The medians with and without the genesis block agree when the chain is long,
    or its blocks are small. *)
Definition sizes_agree (currency : Currency) (v : Z) (flat : segment) : Prop := m_rewardBlocksWindow currency <= seg_end flat - 1 \/
  Forall (fun x => bi_blockSize x <= blockGrantedFullRewardZoneByBlockVersion currency v) (blockInfos flat).

(** What a miner changes: the nonce, and the root of the merge mining tag. *)
Record mined_from (template b : BlockTemplate) : Prop := {
  mined_version : majorVersion b = majorVersion template;
  mined_timestamp : timestamp b = timestamp template;
  mined_previous : previousBlockHash b = previousBlockHash template;
  mined_base : baseTransaction b = baseTransaction template;
  mined_hashes : transactionHashes b = transactionHashes template;
  mined_parent : majorVersion b < BLOCK_MAJOR_VERSION_2 \/ exists root, pod 32 root /\ parentBlock b = tagged_parent root
}.

Section Node.
Context (ops : crypto_ops) (currency : Currency) (checkpoints : Checkpoints) (gkd : PublicKey -> SecretKey -> option KeyDerivation)
  (dpk : KeyDerivation -> Z -> PublicKey -> option PublicKey).
Context (st : core) (flats : list segment) (p : Z) (l : list (Z * segment)) (now : Z) (keys : nat -> KeyPair)
  (view spend : PublicKey) (extraNonce : list Z).
Local Abbreviation flat := (flatten (map snd l)).
Local Abbreviation top := (seg_end flat - 1).
Local Abbreviation reserved := (m_minerTxBlobReservedSize currency).
Local Abbreviation pool := (TransactionPool.TransactionPool.transactionPool (core_pool st)).
Local Abbreviation offered := (PoolProofs.PoolProofs.offered pool).
Local Abbreviation hash_of := (TransactionPool.TransactionPool.hash_of (fast_hash ops)).

(** What the node knows when it makes the template. *)
Record template_input (v coins max d : Z) : Prop := {
  ti_params : node_params ops currency;
  ti_template : template_params currency;
  ti_full : full_inv ops currency st flats;
  ti_view : main_view st p l;
  ti_top : 1 <= top < 2 ^ 32 - 1;
  ti_version : getBlockMajorVersionForHeight currency (top + 1) = Ok v;
  ti_coins : getAlreadyGeneratedCoins (map snd l) top = Ok coins;
  ti_supply : 0 <= coins <= m_moneySupply currency;
  ti_max : maxBlockCumulativeSize currency (top + 1) = Ok max;
  ti_reserved : reserved <= max < 2 ^ 31;
  ti_difficulty : core_getDifficultyForNextBlock currency st = Ok d;
  ti_positive : d <> 0;
  ti_fees : Forall (fun t => 0 <= fee_of t) offered /\ sumZ (map fee_of offered) < 2 ^ 62;
  ti_keys : keys_ok ops gkd dpk view spend keys;
  ti_nonce : bytes_ok extraNonce /\ Z.of_nat (length extraNonce) <= TX_EXTRA_NONCE_MAX_COUNT
}.

Context (v coins max d : Z).
Hypothesis Hti : template_input v coins max d.

Local Abbreviation zone := (reward_zone currency v (median_at currency l false)).

Lemma flat_sized : sized flat.
Proof.
  destruct Hti as [Hp _ Hf Hmv _ _ _ _ _ _ _ _ _ _ _]. pose proof (full_chains _ _ _ _ Hf) as Hi.
  destruct (views_head _ _ _ (inv_views _ _ _ Hi) (mv_leaf _ _ _ Hmv)) as (f & rest & Ef & Hv & _).
  assert (f = flat) as -> by (eapply view_unique; [exact Hv|]; exists l; split; [apply Hmv|done]).
  pose proof (full_sizes _ _ _ _ Hf) as Hs. rewrite Ef in Hs. by apply Forall_cons in Hs as [? _].
Qed.

Lemma zone_range : reserved <= zone < 2 ^ 32 /\ fits 32 zone /\ reward_zone currency v zone = zone.
Proof.
  assert (Hm : fits 32 (median_at currency l false)) by (apply medianValue_fits, last_sizes_fit, flat_sized).
  pose proof (tp_zones _ (ti_template _ _ _ _ Hti) v). pose proof (reward_zone_range currency v _ (tp_reward _ (ti_template _ _ _ _ Hti)) Hm).
  unfold fits, reward_zone in *. lia.
Qed.

Lemma template_fill : exists n t chosen, node_of ops currency checkpoints now st = Ok n /\
  CorePool.CorePool.fillBlockTemplate n [] zone max (top + 1) pool = Ok t /\ sublist chosen offered /\
  CorePool.CorePool.transactionHashes t = map hash_of chosen /\
  CorePool.CorePool.transactionsSize t = sumZ (map binary_size chosen) /\ CorePool.CorePool.transactionsSize t <= max - reserved /\
  CorePool.CorePool.template_fee t = u64 (sumZ (map (fun t => Block.Block.getTransactionFee (getTransaction t)) chosen)).
Proof.
  destruct Hti as [Hp Htp Hf Hmv Ht Hv _ _ HM Hr _ _ _ _ _]. pose proof (full_chains _ _ _ _ Hf) as Hi.
  assert (Hct : chain_top (map snd l) = Ok top).
  { pose proof (mv_top _ _ _ Hmv) as H. unfold core_getTopBlockIndex in H. by rewrite (mv_chain _ _ _ Hmv) in H. }
  unfold node_of. rewrite (mv_chain _ _ _ Hmv). cbn [obind]. rewrite Hct. cbn [obind].
  set (n := CorePool.CorePool.mkNode _ _ _ _ _ _ _ _). destruct zone_range as (Hz & _ & _). pose proof (param_reserved _ _ Hp).
  destruct (PoolProofs.PoolProofs.fill_template_greedy n [] zone max (top + 1) (core_pool st)) as (t & E & H1 & _ & H3 & H4 & H5 & _).
  - exact (full_pool _ _ _ _ Hf).
  - unfold PoolProofs.PoolProofs.timed. cbn [n CorePool.CorePool.last_timestamp]. unfold getLastTimestamps. rewrite Hct. cbn [obind].
    unfold getLastTimestamps_at. rewrite (main_units currency st flats p l Hi Hmv) by lia. cbn [obind].
    assert (Hlen : length (last_units flat 1 top false) = 1%nat).
    { unfold last_units, lastn. pose proof (flat_length st p l Hmv). rewrite !length_drop, length_take. lia. }
    destruct (last_units flat 1 top false); [done|]. by eexists.
  - lia.
  - lia.
  - cbn [n CorePool.CorePool.node_currency]. pose proof (Z.div_le_lower_bound (125 * zone) 100 zone). lia.
  - cbn [n CorePool.CorePool.node_currency]. lia.
  - exists n, t, (PoolProofs.PoolProofs.greedy n (Z.min (125 * zone / 100) max - reserved) (top + 1) 0 offered).
    split_and!; [done|exact E|apply PoolProofs.PoolProofs.greedy_sublist|exact H1|exact H3| |exact H5].
    cbn [n CorePool.CorePool.node_currency] in H4. lia.
Qed.

Lemma offered_ok : Forall pending_ok offered.
Proof.
  rewrite PoolProofs.PoolProofs.offered_perm, Forall_map. exact (PoolProofs.PoolProofs.consistent_ok _ _ (proj1 (full_pool _ _ _ _ (ti_full _ _ _ _ Hti)))).
Qed.

Lemma chosen_ok chosen : sublist chosen offered -> Forall pending_ok chosen.
Proof.
  intros Hs. apply Forall_forall. intros t Ht. pose proof offered_ok as Ho. rewrite Forall_forall in Ho. apply Ho. by eapply sublist_subseteq.
Qed.

(** A template and the transactions it takes. *)
Record made (t : mining_template) (chosen : list TransactionPool.TransactionPool.CachedTransaction) : Prop := {
  made_version : majorVersion (mining_block t) = v;
  made_previous : core_getTopBlockHash st = Ok (previousBlockHash (mining_block t));
  made_timestamp : template_timestamp now (top + 1) st = Ok (timestamp (mining_block t));
  made_parent : template_parent v = Some (parentBlock (mining_block t));
  made_chosen : sublist chosen offered;
  made_hashes : transactionHashes (mining_block t) = map hash_of chosen;
  made_size : sumZ (map binary_size chosen) <= max - reserved;
  made_pays : let s := sumZ (map binary_size chosen) + size_of (baseTransaction (mining_block t)) in
    pays ops currency v (top + 1) zone coins (sumZ (map fee_of chosen)) s (baseTransaction (mining_block t)) /\ s <= 2 * zone /\ fits 32 s;
  made_difficulty : mining_difficulty t = d;
  made_height : mining_height t = top + 1
}.

Lemma template_result : exists st' r,
  getBlockTemplate ops currency checkpoints gkd dpk now keys view spend extraNonce st = Ok (st', r) /\ same_tree st st' /\
  (forall t, r = inl t -> exists chosen, made t chosen) /\
  (sumZ (map binary_size offered) + 900 <= zone -> exists t, r = inl t /\ size_of (baseTransaction (mining_block t)) <= 900).
Proof.
  destruct template_fill as (n & t & chosen & En & Et & Hsub & Hh & Hsz & Hle & Hfee). destruct zone_range as (Hz & Hz32 & Hzz).
  pose proof (chosen_ok _ Hsub) as Hok. pose proof flat_sized as Hsized. pose proof offered_ok as Hoff.
  destruct Hti as [Hp Htp Hf Hmv Ht Hv Hcoins Hsup HM Hr Hd Hd0 [Hfees Hsum] Hkeys [Hnb Hnl]]. pose proof (full_chains _ _ _ _ Hf) as Hi.
  destruct (main_tip currency st flats p l Hi Hmv) as (x & _ & Hth & _). destruct (sublist_sum fee_of _ _ Hsub Hfees) as [Hf0 Hf1].
  rewrite (fees_eq _ Hok), wrap_small in Hfee by (unfold fits; lia).
  assert (Hpos : Forall (fun t => 0 <= binary_size t) offered) by (eapply Forall_impl; [exact Hoff|]; intros y [Hy _]; lia).
  destruct (sublist_sum binary_size _ _ Hsub Hpos) as [Hs0 Hs1]. pose proof (param_reserved _ _ Hp).
  unfold getBlockTemplate. rewrite (mv_top _ _ _ Hmv). cbn [obind]. rewrite (wrap_small 32 (top + 1)) by (unfold fits; lia). rewrite Hd. cbn [obind].
  rewrite (proj2 (Z.eqb_neq _ _) Hd0), Hv. cbn [obind]. destruct (template_parent v) as [parent|] eqn:Epar.
  2:{ exfalso. unfold template_parent in Epar. case_if_in Epar; [done|]. case_if_in Epar; [|done]. by rewrite tag_written in Epar by ground. }
  rewrite Hth. cbn [obind]. rewrite (template_timestamp_eq currency st flats p l Hi Hmv now). cbn [obind].
  rewrite (size_limit_eq currency st flats p l Hi Hmv v Hsized) by (done || apply (param_windows _ _ Hp) || (pose proof (param_zones _ _ Hp v); lia)). cbn [obind].
  rewrite (Z.mul_comm 2), Z.div_mul by lia. rewrite (mv_chain _ _ _ Hmv). cbn [obind]. rewrite Hcoins. cbn [obind]. rewrite HM. cbn [obind].
  rewrite En. cbn [obind]. rewrite Et. cbn [obind]. rewrite Hfee, Hsz.
  destruct (miner_transaction_spec ops currency gkd dpk v (top + 1) zone coins (sumZ (map fee_of chosen)) (sumZ (map binary_size chosen))
    view spend extraNonce keys (tp_reward _ Htp) (tp_dust _ Htp) Hz32 Hsup ltac:(lia) ltac:(unfold fits; lia) ltac:(lia) Hkeys Hnb Hnl) as (r & Er & Hr1).
  pose proof (miner_transaction_zone ops currency gkd dpk v (top + 1) zone coins (sumZ (map fee_of chosen)) (sumZ (map binary_size chosen))
    view spend extraNonce keys (tp_reward _ Htp) (tp_dust _ Htp) Hz32 Hsup ltac:(lia) ltac:(unfold fits; lia) ltac:(lia) Hkeys Hnb Hnl) as Hr2.
  rewrite Er, Hzz in Hr2. rewrite Hzz in Hr1. rewrite Er. cbn [obind]. destruct r as [tx|e].
  - eexists _, _. split_and!; [reflexivity|done| |].
    + intros t0 [= <-]. exists chosen. split; cbn [mining_block majorVersion previousBlockHash timestamp parentBlock transactionHashes baseTransaction block_header mining_difficulty mining_height]; try done; [|lia|by apply Hr1].
      apply (template_timestamp_eq currency st flats p l Hi Hmv now).
    + intros Hsmall. destruct Hr2 as (tx' & [= <-] & Hb); [lia|]. by eexists.
  - eexists _, _. split_and!; [reflexivity|done|done|]. intros Hsmall. by destruct Hr2 as (tx' & ? & _); [lia|].
Qed.

(** ** Blocks mined from a template *)

Lemma miner_reward_ok outs : Forall (fun o => exists k, target o = ToKey (mkKeyOutput k) /\ pod 32 k /\ check_key ops k = true) outs ->
  Forall (fun a => 0 < a) (map out_amount outs) -> forall acc, 0 <= acc -> acc + sumZ (map out_amount outs) < 2 ^ 64 ->
  miner_reward ops outs acc = inl (acc + sumZ (map out_amount outs)).
Proof.
  induction 1 as [|o outs (k & Hk & _ & Hc) _ IH]; intros Hp acc Ha Hs; cbn [miner_reward map]; [by rewrite Z.add_0_r|].
  cbn [map] in Hp. apply Forall_cons in Hp as [Ho Hp]. change (sumZ (map out_amount (o :: outs))) with (out_amount o + sumZ (map out_amount outs)) in Hs.
  assert (0 <= sumZ (map out_amount outs)) by (apply sumZ_nonneg; eapply Forall_impl; [exact Hp|]; simpl; lia).
  rewrite (proj2 (Z.eqb_neq _ _)) by lia. rewrite Hk. cbn [key]. rewrite Hc. cbn [negb]. rewrite (proj2 (Z.ltb_ge _ _)) by lia.
  rewrite IH by (done || lia). f_equal. simpl. lia.
Qed.

Context (t : mining_template) (chosen : list TransactionPool.TransactionPool.CachedTransaction) (b : BlockTemplate).
Hypothesis (Hmade : made t chosen) (Hmined : mined_from (mining_block t) b).

Local Abbreviation total := (sumZ (map binary_size chosen) + size_of (baseTransaction b)).
Local Abbreviation fees := (sumZ (map fee_of chosen)).
Local Abbreviation reward := (block_reward currency v zone total coins fees (top + 1)).

Lemma fees_range : 0 <= fees < 2 ^ 62.
Proof. destruct (ti_fees _ _ _ _ Hti) as [H1 H2]. destruct (sublist_sum fee_of _ _ (made_chosen _ _ Hmade) H1). lia. Qed.

Lemma mined_pays : pays ops currency v (top + 1) zone coins fees total (baseTransaction b) /\ total <= 2 * zone /\ fits 32 total.
Proof. rewrite (mined_base _ _ Hmined). apply Hmade. Qed.

Lemma mined_reward : miner_reward ops (outputs (baseTransaction b)) 0 = inl reward.
Proof.
  destruct mined_pays as ([_ _ _ Ha Hk _] & Hle & _). destruct zone_range as (_ & Hz & Hzz). pose proof fees_range.
  destruct (miner_amounts_spec currency v zone total coins fees (top + 1) 11) as (_ & Hs & Hp); try done; try apply Hti; [rewrite Hzz; lia|].
  pose proof (block_reward_fits currency v zone total coins fees (top + 1)) as Hf. rewrite miner_reward_ok; rewrite ?Ha; try done.
  - by rewrite Hs.
  - rewrite Hs. apply Hf; try done; try apply Hti. rewrite Hzz. lia.
Qed.

Lemma mined_index : Block.Block.getBlockIndex b = top + 1.
Proof. unfold Block.Block.getBlockIndex. destruct mined_pays as ([_ _ -> _ _ _] & _). done. Qed.

Lemma windows_same : windows_agree (top + 1) -> timestampCheckWindow currency (top + 1) = template_check_window (top + 1).
Proof.
  unfold windows_agree, timestampCheckWindow, template_check_window. rewrite (tp_window _ (ti_template _ _ _ _ Hti)).
  unfold LWMA_2_DIFFICULTY_BLOCK_INDEX, LWMA_2_DIFFICULTY_BLOCK_INDEX_V3. intros H. do 2 case_if; bool_prop; (done || lia).
Qed.

Lemma mined_timestamp_ok : windows_agree (top + 1) -> let ts := map bi_timestamp (last_units flat (timestampCheckWindow currency (top + 1)) top true) in
  (timestampCheckWindow currency (top + 1) <=? Z.of_nat (length ts)) && (timestamp b <? medianValue ts) = false.
Proof.
  intros Hw. cbv zeta. rewrite (windows_same Hw). pose proof (made_timestamp _ _ Hmade) as Ht.
  rewrite (template_timestamp_eq currency st flats p l (full_chains _ _ _ _ (ti_full _ _ _ _ Hti)) (ti_view _ _ _ _ Hti) now) in Ht. injection Ht as Ht.
  rewrite (mined_timestamp _ _ Hmined), <- Ht. case_if; bool_prop; [apply andb_false_intro2; lia|]. apply andb_false_intro1. apply Z.leb_gt.
  rewrite length_map. unfold last_units, lastn. pose proof (flat_length st p l (ti_view _ _ _ _ Hti)).
  rewrite drop_0, length_drop, length_take. lia.
Qed.

Lemma mined_header later : windows_agree (top + 1) -> fits 64 (timestamp b) ->
  timestamp b <= later + blockFutureTimeLimit currency (top + 1) -> fits 64 (later + blockFutureTimeLimit currency (top + 1)) ->
  validateBlock ops currency later b (map snd l) = Ok (inl reward).
Proof.
  intros Hw Hts Hfut Hfit. pose proof (ti_view _ _ _ _ Hti) as Hmv. pose proof (full_chains _ _ _ _ (ti_full _ _ _ _ Hti)) as Hi.
  destruct (main_tip currency st flats p l Hi Hmv) as (x & _ & Hth & _ & Hidx). pose proof (ti_top _ _ _ _ Hti) as Htop.
  rewrite (made_previous _ _ Hmade) in Hth. injection Hth as Hth. unfold validateBlock. rewrite (mined_previous _ _ Hmined), Hth, Hidx. cbn [obind].
  rewrite (wrap_small 32 (top + 1)) by (unfold fits; lia). rewrite mined_index, (ti_version _ _ _ _ Hti). cbn [obind].
  rewrite (mined_version _ _ Hmined), (made_version _ _ Hmade), Z.eqb_refl. cbn [negb].
  assert (Hpar : (if BLOCK_MAJOR_VERSION_2 <=? v then
      if (v =? BLOCK_MAJOR_VERSION_2) && (BLOCK_MAJOR_VERSION_1 <? pb_majorVersion (parentBlock b)) then Ok (Some PARENT_BLOCK_WRONG_VERSION)
      else let! ba := Block.Block.getParentBlockBinaryArray (fast_hash ops) b false in
        Ok (if 2048 <? Z.of_nat (length ba) then Some PARENT_BLOCK_SIZE_TOO_BIG else None)
    else Ok None) = Ok None).
  { case_if; [|done]. bool_prop. destruct (mined_parent _ _ Hmined) as [Hlt|(root & Hroot & Hpar)].
    { rewrite (mined_version _ _ Hmined), (made_version _ _ Hmade) in Hlt. lia. }
    rewrite Hpar. cbn [tagged_parent pb_majorVersion]. rewrite andb_false_r. unfold Block.Block.getParentBlockBinaryArray, Block.Block.parent_of. rewrite Hpar.
    destruct (parent_written (fast_hash ops) root (timestamp b) (nonce b) Hroot Hts) as (ba & -> & Hlen). cbn [obind]. by rewrite (proj2 (Z.ltb_ge _ _)). }
  rewrite Hpar. cbn [obind]. rewrite wrap_small by done. rewrite (proj2 (Z.ltb_ge _ _)) by done.
  unfold getLastTimestamps_at. rewrite (main_units currency st flats p l Hi Hmv).
  2:{ rewrite (windows_same Hw). unfold template_check_window. case_if; done. }
  2:{ lia. }
  cbn [obind]. rewrite (mined_timestamp_ok Hw). destruct mined_pays as ([_ Hun Hin _ _ Hsig] & _). rewrite Hin. cbn [blockIndex]. rewrite Z.eqb_refl. cbn [negb].
  rewrite Hun, Z.eqb_refl, Hsig. cbn [negb is_empty]. rewrite andb_false_r. by rewrite mined_reward.
Qed.

Lemma zones_agree : sizes_agree currency v flat -> reward_zone currency v (median_at currency l true) = zone.
Proof.
  intros Hs. destruct (param_windows _ _ (ti_params _ _ _ _ Hti)) as [Hw _]. pose proof (param_zones _ _ (ti_params _ _ _ _ Hti) v).
  pose proof (param_reserved _ _ (ti_params _ _ _ _ Hti)). apply (zone_same currency st p l (ti_view _ _ _ _ Hti)); [apply flat_sized|done|lia|exact Hs].
Qed.

Lemma mined_reward_ok slow_hash h dd : sizes_agree currency v flat -> check_proof ops slow_hash currency checkpoints b h dd = Ok None ->
  exists emission, check_reward ops slow_hash currency checkpoints b h (map snd l) top total fees reward dd = Ok (inl emission).
Proof.
  intros Hs Hproof. pose proof (ti_view _ _ _ _ Hti) as Hmv. pose proof (full_chains _ _ _ _ (ti_full _ _ _ _ Hti)) as Hi.
  pose proof (zones_agree Hs) as Hz. destruct zone_range as (_ & _ & Hzz). destruct mined_pays as (_ & Hle & Hfit). pose proof (mv_pos _ _ _ Hmv).
  unfold check_reward. rewrite (ti_coins _ _ _ _ Hti). cbn [obind]. unfold getLastBlocksSizes_at.
  rewrite (main_units currency st flats p l Hi Hmv) by (apply (param_windows _ _ (ti_params _ _ _ _ Hti)) || lia). cbn [obind].
  fold (median_at currency l true). rewrite mined_index, (mined_version _ _ Hmined), (made_version _ _ Hmade).
  rewrite getBlockReward_eq; [|apply Hti|apply medianValue_fits, last_sizes_fit, flat_sized|done|apply Hti|apply fees_range].
  rewrite (proj2 (Z.ltb_ge _ _)) by (rewrite Hz; lia). cbn [obind].
  assert (Hrew : block_reward currency v (median_at currency l true) total coins fees (top + 1) = reward) by (unfold block_reward; by rewrite Hz, Hzz).
  rewrite Hrew, Z.eqb_refl. cbn [negb]. rewrite Hproof. by eexists.
Qed.

Lemma main_view_same st' : same_tree st st' -> main_view st' p l.
Proof.
  intros Hs. pose proof (ti_view _ _ _ _ Hti) as Hmv. pose proof (full_chains _ _ _ _ (ti_full _ _ _ _ Hti)) as Hi.
  destruct (main_view_exists currency st' flats) as (p' & l' & Hmv'); [by eapply node_inv_same|]. destruct Hs as (Hc & _ & Hl & _).
  assert (Hp : main_leaf st' = main_leaf st) by (unfold main_leaf; by rewrite Hl). pose proof (mv_leaf _ _ _ Hmv') as Hp'. rewrite Hp, (mv_leaf _ _ _ Hmv) in Hp'.
  injection Hp' as <-. pose proof (mv_lin _ _ _ Hmv') as Hlin. rewrite Hc in Hlin. by rewrite (lin_unique _ _ _ _ (mv_lin _ _ _ Hmv) Hlin).
Qed.

Lemma chosen_hashes : NoDup (map hash_of chosen).
Proof.
  pose proof (PoolProofs.PoolProofs.consistent_hashes _ _ (proj1 (full_pool _ _ _ _ (ti_full _ _ _ _ Hti)))) as Hnd.
  assert (Hoff : NoDup (map hash_of offered)).
  { rewrite PoolProofs.PoolProofs.offered_perm, map_map. exact Hnd. }
  eapply sublist_NoDup; [exact Hoff|]. pose proof (made_chosen _ _ Hmade) as Hs. clear - Hs.
  induction Hs; cbn [map]; by constructor.
Qed.

Lemma chosen_extracted : max <= m_maxTxSize currency ->
  extractTransactions currency (map TransactionPool.TransactionPool.binaryArray chosen) 0 = Ok (Some (chosen, sumZ (map binary_size chosen))) /\
  0 <= sumZ (map binary_size chosen).
Proof.
  intros Hmax. pose proof (chosen_ok _ (made_chosen _ _ Hmade)) as Hok. pose proof (ti_reserved _ _ _ _ Hti) as HR. pose proof (made_size _ _ Hmade) as Hsize.
  assert (Hpos : Forall (fun y => 0 <= y) (map binary_size chosen)).
  { apply Forall_map. eapply Forall_impl; [exact Hok|]. intros y [Hy _]. simpl. lia. }
  pose proof (sumZ_nonneg _ Hpos) as Hnn. pose proof (param_reserved _ _ (ti_params _ _ _ _ Hti)). split; [|done].
  rewrite extract_pending; [done|done|lia|lia|]. apply Forall_forall. intros y Hy.
  pose proof (sumZ_elem (binary_size y) _ Hpos (list_elem_of_fmap_2 _ _ _ Hy)). lia.
Qed.

(** The sum of the fees that the validation computes. *)
Lemma chosen_fees schedules later st' spent fee : max <= m_maxTxSize currency ->
  validate_transactions ops currency checkpoints schedules later chosen ∅ 0 (map snd l) top (timestamp b) st' = Ok (st', inl (spent, fee)) -> fee = fees.
Proof.
  intros Hmax Hval. destruct (chosen_extracted Hmax) as [Hx _]. pose proof fees_range.
  assert (Hbytes : Forall bytes_ok (map TransactionPool.TransactionPool.binaryArray chosen)).
  { apply Forall_map. eapply Forall_impl; [exact (chosen_ok _ (made_chosen _ _ Hmade))|]. by intros y []. }
  apply (validate_transactions_fee ops currency checkpoints chosen schedules later ∅ 0) in Hval; [|by eapply extracted_amounts].
  rewrite Hval, Z.add_0_l. apply wrap_small. unfold fits. lia.
Qed.

Lemma mined_on_tip st' : same_tree st st' -> findSegmentContainingBlock st' (previousBlockHash b) = Ok (Some p) /\
  chain_of st' p = Ok (map snd l) /\ chain_getBlockIndex (map snd l) (previousBlockHash b) = Ok top /\ chain_top (map snd l) = Ok top.
Proof.
  intros Htree. pose proof (main_view_same st' Htree) as Hmv. pose proof (full_chains _ _ _ _ (ti_full _ _ _ _ Hti)) as Hi.
  assert (Hi' : node_inv currency st' flats) by by eapply node_inv_same.
  destruct (main_tip currency st' flats p l Hi' Hmv) as (x & _ & Hth & Hfind & Hidx). destruct Htree as (Hc & _ & Hl & _).
  assert (Heq : core_getTopBlockHash st' = core_getTopBlockHash st) by (unfold core_getTopBlockHash, main_leaf, deref; by rewrite Hl, Hc).
  rewrite Heq, (made_previous _ _ Hmade) in Hth. injection Hth as Hth. rewrite (mined_previous _ _ Hmined), Hth. split_and!; [done| |done|].
  - pose proof (mv_chain _ _ _ Hmv) as H. unfold main_chain_of in H. by rewrite (mv_leaf _ _ _ Hmv) in H.
  - pose proof (mv_top _ _ _ Hmv) as H. unfold core_getTopBlockIndex in H. by rewrite (mv_chain _ _ _ Hmv) in H.
Qed.

(** A block mined from the template passes the checks of [addBlock]. *)
Lemma mined_checked slow_hash st' h dd later schedules template spent fee : same_tree st st' -> windows_agree (top + 1) -> sizes_agree currency v flat ->
  0 <= size_of (baseTransaction b) <= reserved -> max <= m_maxTxSize currency -> fits 64 (timestamp b) ->
  timestamp b <= later + blockFutureTimeLimit currency (top + 1) -> fits 64 (later + blockFutureTimeLimit currency (top + 1)) ->
  findSegmentContainingBlock st' h = Ok None -> getDifficultyForNextBlock currency (map snd l) top = Ok dd -> dd <> 0 ->
  check_proof ops slow_hash currency checkpoints b h dd = Ok None ->
  validate_transactions ops currency checkpoints schedules later chosen ∅ 0 (map snd l) top (timestamp b) st' = Ok (st', inl (spent, fee)) ->
  exists checked, check_block ops slow_hash currency checkpoints schedules later b h
      (mkRawBlock template (map TransactionPool.TransactionPool.binaryArray chosen)) st' = Ok (st', inl checked) /\
    checked_cache checked = p /\ checked_onTop checked = true /\ checked_difficulty checked = dd.
Proof.
  intros Htree Hw Hz Hbase Hmax Hts Hfut Hfit Hnew Hd Hd0 Hproof Hval.
  assert (Hhashes : transactionHashes b = map hash_of chosen) by (rewrite (mined_hashes _ _ Hmined); apply Hmade).
  destruct (mined_on_tip st' Htree) as (Hfind & Hchain & Hidx & Hct). destruct (chosen_extracted Hmax) as [Hx Hnn].
  pose proof (chosen_fees _ _ _ _ _ Hmax Hval) as ->. pose proof (ti_reserved _ _ _ _ Hti) as HR. pose proof (made_size _ _ Hmade) as Hsize.
  pose proof (ti_top _ _ _ _ Hti) as Htop. destruct (mined_reward_ok slow_hash h dd Hz Hproof) as (emission & Hrew).
  unfold check_block. rewrite Hnew. cbn [obind raw_transactions]. rewrite Hhashes, !length_map, Nat.eqb_refl. cbn [assert_that obind].
  rewrite Hfind. cbn [obind]. rewrite Hchain. cbn [obind]. rewrite Hx. cbn [obind]. unfold assert_that. rewrite (proj2 (Z.ltb_lt _ _)) by lia. cbn [obind].
  rewrite Hidx. cbn [obind]. rewrite Hct. cbn [obind]. rewrite (wrap_small 32 (top + 1)) by (unfold fits; lia). rewrite (ti_max _ _ _ _ Hti). cbn [obind].
  rewrite (wrap_small 64 (_ + _)) by (unfold fits; lia). rewrite (proj2 (Z.ltb_ge _ _)) by lia. rewrite (mined_header later Hw Hts Hfut Hfit). cbn [obind].
  rewrite Hd. cbn [obind]. rewrite (proj2 (Z.eqb_neq _ _) Hd0).
  rewrite (hashes_ok ops b chosen Hhashes) by (rewrite Hhashes; apply chosen_hashes). rewrite Hval. cbn [obind].
  rewrite (Z.add_comm (size_of _)), Hrew. cbn [obind]. eexists. split; [done|]. cbn [checked_cache checked_onTop checked_difficulty]. by rewrite Z.eqb_refl.
Qed.

(** The difficulty that the miner is told is the one of the check, unless the
    version changes with the block. *)
Lemma difficulty_same : getBlockMajorVersionForHeight currency top = Ok v -> 0 <= difficultyBlocksCountByBlockVersion currency v top ->
  getDifficultyForNextBlock currency (map snd l) top = Ok d.
Proof.
  intros Hv Hcount. pose proof (ti_view _ _ _ _ Hti) as Hmv. pose proof (full_chains _ _ _ _ (ti_full _ _ _ _ Hti)) as Hi.
  pose proof (ti_difficulty _ _ _ _ Hti) as Hd. pose proof (ti_top _ _ _ _ Hti) as Htop.
  assert (Hct : chain_top (map snd l) = Ok top).
  { pose proof (mv_top _ _ _ Hmv) as H. unfold core_getTopBlockIndex in H. by rewrite (mv_chain _ _ _ Hmv) in H. }
  assert (Hunits : forall pred, getLastUnits (map snd l) (Z.min top (difficultyBlocksCountByBlockVersion currency v top)) top false pred =
    getLastUnits (map snd l) (difficultyBlocksCountByBlockVersion currency v top) top false pred).
  { intros pred. rewrite !(main_units currency st flats p l Hi Hmv) by lia. do 2 f_equal. unfold last_units, lastn. f_equal.
    pose proof (flat_length st p l Hmv). rewrite length_drop, length_take. lia. }
  unfold core_getDifficultyForNextBlock in Hd. rewrite (mv_chain _ _ _ Hmv) in Hd. cbn [obind] in Hd. rewrite Hct in Hd. cbn [obind] in Hd.
  rewrite Hv in Hd. cbn [obind] in Hd. unfold getLastTimestamps, getLastCumulativeDifficulties in Hd. rewrite Hct in Hd. cbn [obind] in Hd.
  unfold getLastTimestamps_at, getLastCumulativeDifficulties_at in Hd. rewrite !Hunits in Hd.
  unfold getDifficultyForNextBlock. rewrite Hct. cbn [obind]. unfold assert_that. rewrite (proj2 (Z.leb_le _ _)) by lia. cbn [obind].
  rewrite (wrap_small 32 (top + 1)) by (unfold fits; lia). rewrite (ti_version _ _ _ _ Hti). exact Hd.
Qed.

End Node.

(** ** Templates of running nodes *)

Section Running.
Context (ops : crypto_ops) (slow_hash : Block.Block.hashing_algorithm -> list Z -> Hash).
Context (currency : Currency) (checkpoints : Checkpoints) (hash_order : list Hash -> list Hash).
Context (gkd : PublicKey -> SecretKey -> option KeyDerivation) (dpk : KeyDerivation -> Z -> PublicKey -> option PublicKey).
Local Abbreviation node_reachable := (reachable ops slow_hash currency checkpoints hash_order).

(** C6. Block templates are good, in every state that a node reaches with a block
    above the genesis block, when: the next block has the version of the top block;
    the difficulty of the next block is computed and not zero; the coins of the
    chain are within the supply; the fees of the pool are not negative and sum to
    less than [2^62]; the keys of the miner can be derived and the extra nonce fits
    its field; and the size limits of the currency are consistent.  Then
    [getBlockTemplate] returns, and it has a template when the pool leaves 900 bytes
    of the full reward zone.  A new block mined from a template passes every check
    of [addBlock] on top of the main chain, for the difficulty that the miner was
    told (version, parent block, timestamp, size, hashes, and a reward that is exact
    for its size and fees), once its proof of work and its transactions are valid,
    and provided that: its height is not from 100000 to 128799, where the template
    and the check take medians of different windows of timestamps; the chain is
    longer than the reward window or its blocks are within the full reward zone,
    since the template leaves out the genesis block from the median of sizes; its
    base transaction is within the reserved size; and its timestamp is not too far
    ahead of the clock of the node that checks it. *)
Theorem template_accepted now keys view spend extraNonce st p c top v coins max d :
  node_params ops currency -> template_params currency -> node_reachable st -> main_leaf st = Ok p -> main_chain_of st = Ok c ->
  core_getTopBlockIndex st = Ok top -> 1 <= top < 2 ^ 32 - 1 ->
  getBlockMajorVersionForHeight currency top = Ok v -> getBlockMajorVersionForHeight currency (top + 1) = Ok v ->
  0 <= difficultyBlocksCountByBlockVersion currency v top -> core_getDifficultyForNextBlock currency st = Ok d -> d <> 0 ->
  getAlreadyGeneratedCoins c top = Ok coins -> 0 <= coins <= m_moneySupply currency ->
  maxBlockCumulativeSize currency (top + 1) = Ok max -> m_minerTxBlobReservedSize currency <= max < 2 ^ 31 -> max <= m_maxTxSize currency ->
  let pool := PoolProofs.PoolProofs.offered (TransactionPool.TransactionPool.transactionPool (core_pool st)) in
  Forall (fun t => 0 <= fee_of t) pool -> sumZ (map fee_of pool) < 2 ^ 62 ->
  keys_ok ops gkd dpk view spend keys -> bytes_ok extraNonce -> Z.of_nat (length extraNonce) <= TX_EXTRA_NONCE_MAX_COUNT ->
  exists st' r, getBlockTemplate ops currency checkpoints gkd dpk now keys view spend extraNonce st = Ok (st', r) /\
    (sumZ (map binary_size pool) + 900 <= blockGrantedFullRewardZoneByBlockVersion currency v -> exists t, r = inl t) /\
    forall t, r = inl t -> exists chosen, sublist chosen pool /\
      transactionHashes (mining_block t) = map (TransactionPool.TransactionPool.hash_of (fast_hash ops)) chosen /\
      forall b h later schedules template spent fee, mined_from (mining_block t) b ->
        windows_agree (top + 1) -> sizes_agree currency v (flatten c) -> 0 <= size_of (baseTransaction b) <= m_minerTxBlobReservedSize currency ->
        fits 64 (timestamp b) -> timestamp b <= later + blockFutureTimeLimit currency (top + 1) -> fits 64 (later + blockFutureTimeLimit currency (top + 1)) ->
        findSegmentContainingBlock st' h = Ok None -> check_proof ops slow_hash currency checkpoints b h (mining_difficulty t) = Ok None ->
        validate_transactions ops currency checkpoints schedules later chosen ∅ 0 c top (timestamp b) st' = Ok (st', inl (spent, fee)) ->
        exists checked, check_block ops slow_hash currency checkpoints schedules later b h
            (mkRawBlock template (map TransactionPool.TransactionPool.binaryArray chosen)) st' = Ok (st', inl checked) /\
          checked_cache checked = p /\ checked_onTop checked = true.
Proof.
  intros Hp Htp Hreach Hleaf Hchain Htop Ht Hv Hv' Hcount Hd Hd0 Hcoins Hsup HM HR HR' pool Hf0 Hf1 Hkeys Hnb Hnl.
  destruct (reachable_full ops slow_hash currency checkpoints hash_order Hp st Hreach) as (flats & Hfull).
  destruct (main_view_exists currency st flats (full_chains _ _ _ _ Hfull)) as (p' & l & Hmv).
  assert (p' = p) as -> by (pose proof (mv_leaf _ _ _ Hmv); congruence). assert (c = map snd l) as -> by (pose proof (mv_chain _ _ _ Hmv); congruence).
  assert (top = seg_end (flatten (map snd l)) - 1) as -> by (pose proof (mv_top _ _ _ Hmv); congruence).
  assert (Hti : template_input ops currency gkd dpk st flats p l keys view spend extraNonce v coins max d) by by split.
  destruct (template_result ops currency checkpoints gkd dpk st flats p l now keys view spend extraNonce v coins max d Hti) as (st' & r & E & Htree & Hmade & Hsmall).
  exists st', r. split_and!; [done| |].
  - intros Hle. destruct Hsmall as (t & Et & _); [|by exists t]. unfold reward_zone. fold pool. lia.
  - intros t Et. destruct (Hmade t Et) as (chosen & Hm). exists chosen. split_and!; [apply Hm|apply Hm|].
    intros b h later schedules template spent fee Hmined Hw Hs Hbase Hts Hfut Hfit Hnew Hproof Hval. rewrite (made_difficulty _ _ _ _ _ _ _ _ _ _ _ Hm) in Hproof.
    destruct (mined_checked ops currency checkpoints gkd dpk st flats p l now keys view spend extraNonce v coins max d Hti t chosen b Hm Hmined
      slow_hash st' h d later schedules template spent fee) as (checked & Ec & Hcache & Hon & _); try done; [|by exists checked].
    eapply difficulty_same; [exact Hti|done|done].
Qed.

End Running.

(** ** A template of the small node *)

Import SampleChain.SampleChain.

(** Four blocks in quick succession. *)
Definition block_D1 : BlockTemplate := block_v1 200 9.
Definition block_D2 : BlockTemplate := merge_mined 2 2 210 block_D1 11563298.
Definition block_D3 : BlockTemplate := merge_mined 3 3 220 block_D2 11563295.
Definition block_D4 : BlockTemplate := merge_mined 4 4 230 block_D3 11563292.

Definition mining : core := sample_state [block_D1; block_D2; block_D3; block_D4].

Definition sample_derivation (view : PublicKey) (_ : SecretKey) : option KeyDerivation := Some view.
Definition sample_derive (_ : KeyDerivation) (_ : Z) (spend : PublicKey) : option PublicKey := Some spend.

Definition sample_getBlockTemplate : outcome (core * (mining_template + template_error)) :=
  getBlockTemplate sample_ops sample_currency ∅ sample_derivation sample_derive 300 (fun _ => mkKeyPair (zeros 32) (zeros 32)) (zeros 32) (zeros 32) [] mining.

Definition default_template : mining_template := mkMining Block.Block.default_block 0 0.

Definition state_after (r : outcome (core * (mining_template + template_error))) : core := match r with Ok (st, _) => st | Err _ => mining end.
Definition template_of (r : outcome (core * (mining_template + template_error))) : mining_template :=
  match r with Ok (_, inl t) => t | _ => default_template end.

Definition after_template : core := state_after sample_getBlockTemplate.
Definition sample_template : mining_template := template_of sample_getBlockTemplate.

Definition with_root (root : Hash) (b : BlockTemplate) : BlockTemplate :=
  mkBlockTemplate (block_header b) (tagged_parent root) (baseTransaction b) (transactionHashes b).

Lemma with_root_mined root b : pod 32 root -> mined_from b (with_root root b).
Proof. intros Hr. split; try done. right. by exists root. Qed.

(** The template with the tag of its header hash. *)
Definition ok_hash (r : outcome Hash) : Hash := match r with Ok h => h | Err _ => [] end.
Definition sample_mined : BlockTemplate :=
  with_root (ok_hash (Block.Block.getAuxiliaryBlockHeaderHash digest (mining_block sample_template))) (mining_block sample_template).

Lemma sample_template_params : template_params sample_currency.
Proof.
  split; try ground. intros v. unfold blockGrantedFullRewardZoneByBlockVersion. repeat case_if; vm_compute; discriminate.
Qed.

Lemma sample_keys_ok : keys_ok sample_ops sample_derivation sample_derive (zeros 32) (zeros 32) (fun _ => mkKeyPair (zeros 32) (zeros 32)).
Proof. intros k. split; [ground|]. exists (zeros 32). split; [done|]. intros no _. exists (zeros 32). split_and!; [done|ground|done]. Qed.

Lemma sample_mined_from : mined_from (mining_block sample_template) sample_mined.
Proof.
  apply with_root_mined. split; [vm_compute; reflexivity|].
  assert (H : raw_test (mkRawBlock (ok_hash (Block.Block.getAuxiliaryBlockHeaderHash digest (mining_block sample_template))) []) = true) by (vm_compute; reflexivity).
  by apply raw_test_ok in H as [? _].
Qed.

Lemma sample_sizes : sizes_agree sample_currency 4 (flatten (sample_chain mining 0)).
Proof.
  right. apply Forall_forall. intros x Hx%list_elem_of_In. apply Z.leb_le. revert x Hx. apply forallb_forall. vm_compute. reflexivity.
Qed.

Lemma template_accepted_witness : exists checked, sample_getBlockTemplate = Ok (after_template, inl sample_template) /\
  check_block sample_ops sample_slow_hash sample_currency ∅ [] 300 sample_mined (sample_hash sample_mined) (mkRawBlock [] []) after_template =
    Ok (after_template, inl checked) /\ checked_onTop checked = true.
Proof.
  assert (Hr : sample_reachable mining) by (apply sample_state_reachable; vm_compute; reflexivity).
  assert (Hpool : PoolProofs.PoolProofs.offered (TransactionPool.TransactionPool.transactionPool (core_pool mining)) = []) by (vm_compute; reflexivity).
  pose proof (template_accepted sample_ops sample_slow_hash sample_currency ∅ sample_order sample_derivation sample_derive 300
    (fun _ => mkKeyPair (zeros 32) (zeros 32)) (zeros 32) (zeros 32) [] mining 0 (sample_chain mining 0) 4 4 1500046253186 100000 56 sample_params
    sample_template_params Hr) as H. cbv zeta in H. rewrite Hpool in H.
  destruct H as (st' & r & E & Hs & Ht);
    [vm_compute; reflexivity..|lia|vm_compute; reflexivity|vm_compute; reflexivity|vm_compute; discriminate|vm_compute; reflexivity|lia|
     vm_compute; reflexivity|split; vm_compute; discriminate|vm_compute; reflexivity|split; vm_compute; (reflexivity || discriminate)|vm_compute; discriminate|
     constructor|vm_compute; reflexivity|exact sample_keys_ok|constructor|vm_compute; discriminate|].
  destruct Hs as (t & ->); [vm_compute; discriminate|]. destruct (Ht t eq_refl) as (chosen & Hsub & _ & Hb). apply sublist_nil_r in Hsub as ->.
  assert (E1 : after_template = st') by exact (f_equal state_after E). assert (E2 : sample_template = t) by exact (f_equal template_of E). subst st' t.
  assert (Hnew : findSegmentContainingBlock after_template (sample_hash sample_mined) = Ok None) by (vm_compute; reflexivity).
  assert (Hproof : check_proof sample_ops sample_slow_hash sample_currency ∅ sample_mined (sample_hash sample_mined) (mining_difficulty sample_template) = Ok None) by (vm_compute; reflexivity).
  assert (Hbase : 0 <= size_of (baseTransaction sample_mined) <= m_minerTxBlobReservedSize sample_currency) by (split; vm_compute; discriminate).
  assert (Htime : timestamp sample_mined = 300) by (vm_compute; reflexivity).
  assert (Hts : fits 64 (timestamp sample_mined)) by (rewrite Htime; ground).
  assert (Hfut : timestamp sample_mined <= 300 + blockFutureTimeLimit sample_currency (4 + 1)) by (rewrite Htime; vm_compute; discriminate).
  assert (Hfit : fits 64 (300 + blockFutureTimeLimit sample_currency (4 + 1))) by ground.
  destruct (Hb sample_mined (sample_hash sample_mined) 300 [] [] ∅ 0 sample_mined_from (or_introl eq_refl) sample_sizes Hbase Hts Hfut Hfit Hnew Hproof eq_refl)
    as (checked & Hc & _ & Hon).
  exists checked. split; [exact E|]. split; [exact Hc|exact Hon].
Defined.

End TemplateProofs.
