(* ===== verification/MinerProofs.v ===== *)
(** * The miner finds blocks that the node accepts

    The threads of the miner share the atomic [m_state] and the plain [m_block].
    For every schedule of their steps: only one thread writes [m_block], and what
    [mine] returns is the template with a nonce that meets the difficulty; and
    when threads keep getting steps, a nonce that exists is found.  After
    [adjustBlockTemplate] such a block passes the proof-of-work check of the
    node. *)

From S2P Require Import Prelude.
From S2P Require Import Config.
From S2P Require Import IntUtil.
From S2P Require Import TreeHash.
From S2P Require Import Types.
From S2P Require Import Serialization.
From S2P Require Import SerializationProofs.
From S2P Require Import TransactionExtra.
From S2P Require Import Block.
From S2P Require Import Currency.
From S2P Require Import SampleChain.
From S2P Require Import Templates.
From S2P Require Import TemplateProofs.
From S2P Require Import Miner.
Import Config.parameters IntUtil.CheckDifficulty TreeHash.TreeHash Types.Types Serialization.Serialization TransactionExtra.TransactionExtra.
Import Currency.Currency Templates.Templates TemplateProofs.TemplateProofs.
Import Miner.BlockUtilities Miner.Miner Miner.MinerManager.

Module MinerProofs.

(** ** All schedules *)

Section Mining.
Context (cn_fast_hash : list Z -> Hash) (slow_hash : Block.Block.hashing_algorithm -> list Z -> Hash).
Context (difficulty : Z) (template : BlockTemplate) (n : Z) (threads : nat).
Local Abbreviation long_hash := (BlockUtilities.getBlockLongHash cn_fast_hash slow_hash).
Local Abbreviation step_nonce := (u32 (Z.of_nat threads)).
Local Abbreviation acts := (act cn_fast_hash slow_hash difficulty step_nonce).
Local Abbreviation runs := (run cn_fast_hash slow_hash difficulty step_nonce).

(** The block that thread [i] tests in round [k]. *)
Definition candidate (i k : nat) : BlockTemplate := with_nonce (u32 (n + Z.of_nat i + Z.of_nat k * Z.of_nat threads)) template.

Definition solves (b : BlockTemplate) : Prop := exists h, long_hash b = Ok h /\ check_hash h difficulty = true.

Definition throws (b : BlockTemplate) : Prop := exists e, long_hash b = Err e.

(** Where a thread may be after [k] rounds. *)
Record worker_ok (i k : nat) (w : worker) (state : MiningState) : Prop := {
  ok_block : worker_block w = candidate i k;
  ok_found : match worker_at w with AtLoad | AtSwitch _ | AtWrite => solves (candidate i k) | AtCatch => throws (candidate i k) | _ => True end;
  ok_seen : forall s, worker_at w = AtSwitch s -> s <> MINING_IN_PROGRESS -> state <> MINING_IN_PROGRESS;
  ok_left : worker_at w = AtWrite \/ worker_at w = Returned -> state <> MINING_IN_PROGRESS
}.

Definition writing (m : miner) (i : nat) : Prop := exists w, m_workers m !! i = Some w /\ worker_at w = AtWrite.

Definition found (b : BlockTemplate) : Prop := exists i k, (i < threads)%nat /\ b = candidate i k /\ solves b.

(** Some block that was tested could not be hashed. *)
Definition failed : Prop := exists i k, (i < threads)%nat /\ throws (candidate i k).

Record mining_ok (stopped : Prop) (m : miner) : Prop := {
  mining_threads : length (m_workers m) = threads;
  mining_workers : forall i w, m_workers m !! i = Some w -> exists k, worker_ok i k w (m_state m);
  mining_one : forall i j, writing m i -> writing m j -> i = j;
  mining_result : m_state m = BLOCK_FOUND -> (exists i, writing m i) \/ exists b, m_block m = Some b /\ found b;
  mining_stopped : m_state m = MINING_STOPPED -> stopped \/ failed
}.

Lemma start_worker m m0 i w : start template n threads m = Ok m0 -> m_workers m0 !! i = Some w -> w = mkWorker AtTest (candidate i 0).
Proof.
  unfold start. case_if; [done|]. case_match; [done|]. intros [= <-] Hw. cbn [m_workers] in Hw. unfold start_workers in Hw.
  rewrite list_lookup_fmap in Hw. destruct (seq 0 threads !! i) as [j|] eqn:Ej; [|done].
  apply lookup_seq in Ej as [-> _]. injection Hw as <-. unfold candidate. do 2 f_equal. rewrite Z.mul_0_l, Z.add_0_r. done.
Qed.

Lemma start_ok stopped m m0 : start template n threads m = Ok m0 -> mining_ok stopped m0 /\ m_state m0 = MINING_IN_PROGRESS.
Proof.
  intros H. pose proof (start_worker m m0) as Hw. revert H Hw. unfold start. case_if; [done|]. case_match; [done|]. intros [= <-] Hw.
  split; [|done]. split; cbn [m_workers m_state m_block]; try done.
  - unfold start_workers. by rewrite length_map, length_seq.
  - intros i w Hi. rewrite (Hw i w eq_refl Hi). exists 0%nat. by split; cbn [worker_at worker_block]; try done; intros [|].
  - intros i j (w & Hi & Ha) _. by rewrite (Hw i w eq_refl Hi) in Ha.
Qed.

Lemma miner_run_app l1 l2 : forall m, runs (l1 ++ l2) m = (let! m := runs l1 m in runs l2 m).
Proof. induction l1 as [|a l1 IH]; intros m; cbn [run app]; [done|]. destruct (acts a m); cbn [obind]; [apply IH|done]. Qed.

Lemma worker_ok_left i k w state state' : worker_ok i k w state -> (state <> MINING_IN_PROGRESS -> state' <> MINING_IN_PROGRESS) -> worker_ok i k w state'.
Proof. intros [H1 H2 H3 H4] Hs. split; eauto. Qed.

Lemma candidate_next i k : with_nonce (u32 (nonce (candidate i k) + step_nonce)) (candidate i k) = candidate i (S k).
Proof.
  unfold candidate, with_nonce. cbn [majorVersion minorVersion nonce timestamp previousBlockHash block_header parentBlock baseTransaction transactionHashes].
  do 2 f_equal. unfold u32, wrap. rewrite <- Zplus_mod. f_equal. lia.
Qed.

(** A step of thread [i] that leaves it at [w']. *)
Lemma update_ok P m i w w' state' block' count' : mining_ok P m -> m_workers m !! i = Some w -> (exists k, worker_ok i k w' state') ->
  (m_state m <> MINING_IN_PROGRESS -> state' <> MINING_IN_PROGRESS) ->
  (worker_at w' = AtWrite -> forall j, writing m j -> j = i) ->
  (state' = BLOCK_FOUND -> worker_at w' = AtWrite \/ (exists j, writing m j /\ j <> i) \/ exists b, block' = Some b /\ found b) ->
  (state' = MINING_STOPPED -> P \/ failed) ->
  mining_ok P (mkMiner state' block' count' (<[i := w']> (m_workers m))).
Proof.
  intros [Ht Hw H1 Hb Hs] Hi Hok Hleft Hone Hblock Hstop. assert (Hlt : (i < length (m_workers m))%nat) by (by eapply lookup_lt_Some).
  assert (Hwr : forall j, writing (mkMiner state' block' count' (<[i := w']> (m_workers m))) j <->
    (j = i /\ worker_at w' = AtWrite) \/ (j <> i /\ writing m j)).
  { intros j. unfold writing. cbn [m_workers]. destruct (decide (j = i)) as [->|Hne].
    - rewrite list_lookup_insert_eq by done. split; [intros (x & [= <-] & Hx); by left|]. intros [[_ Hx]|[]]; [by exists w'|done].
    - rewrite list_lookup_insert_ne by done. split; [by right|]. by intros [[]|[_ ?]]. }
  split; cbn [m_workers m_state m_block].
  - by rewrite length_insert.
  - intros j x Hx. destruct (decide (j = i)) as [->|Hne].
    + rewrite list_lookup_insert_eq in Hx by done. by injection Hx as <-.
    + rewrite list_lookup_insert_ne in Hx by done. destruct (Hw j x Hx) as (k & Hk). exists k. by eapply worker_ok_left.
  - intros j j' [[-> Ha]|[Hj Hwj]]%Hwr [[-> Ha']|[Hj' Hwj']]%Hwr; [done|by rewrite (Hone Ha _ Hwj')|by rewrite (Hone Ha' _ Hwj)|by apply H1].
  - intros Hf. destruct (Hblock Hf) as [Ha|[(j & Hj & Hne)|Hb']]; [|left; exists j; apply Hwr; by right|by right].
    left. exists i. apply Hwr. by left.
  - done.
Qed.

(** What a step of thread [i] does, by its place. *)
Lemma work_ok P m i spurious m' : mining_ok P m -> acts (Work i spurious) m = Ok m' -> mining_ok P m'.
Proof.
  intros Hm H. cbn [act] in H. destruct (m_workers m !! i) as [w|] eqn:Hi; [|by injection H as <-].
  apply obind_Ok in H as ([w' [[state' block'] count']] & Hs & H). injection H as <-.
  destruct (mining_workers _ _ Hm i w Hi) as (k & Hok). pose proof Hok as [Hb Hf Hsn Hl].
  assert (Hlt : (i < threads)%nat) by (rewrite <- (mining_threads _ _ Hm); by eapply lookup_lt_Some).
  assert (Hstay : forall at',
    Ok (mkWorker at' (worker_block w), (m_state m, m_block m, m_hash_count m)) = Ok (w', (state', block', count')) -> (match at' with AtLoad | AtSwitch _ => solves (candidate i k) | AtCatch => throws (candidate i k) | AtWrite => False | _ => True end) ->
    (forall s, at' = AtSwitch s -> s <> MINING_IN_PROGRESS -> m_state m <> MINING_IN_PROGRESS) -> (at' = Returned -> m_state m <> MINING_IN_PROGRESS) ->
    worker_at w <> AtWrite ->
    mining_ok P (mkMiner state' block' count' (<[i := w']> (m_workers m)))).
  { intros at' [= <- <- <- <-] Ha Hsw Hret Hnw. eapply update_ok; [exact Hm|exact Hi| |done|by cbn [worker_at]; intros ->| |apply Hm].
    - exists k. split; cbn [worker_at worker_block]; try done; [by destruct at'|]. intros [->|?]; [done|by apply Hret].
    - intros Hbf. destruct (mining_result _ _ Hm Hbf) as [(j & Hj)|Hb']; [|by right; right]. right. left. exists j. split; [done|].
      intros ->. destruct Hj as (x & Hx & Hxw). congruence. }
  unfold worker_step in Hs. destruct (worker_at w) as [| | |s| | | |] eqn:Ea.
  - case_match; (eapply Hstay; [exact Hs|done|done|done|done]).
  - rewrite Hb in Hs. destruct (long_hash (candidate i k)) as [h|e] eqn:Eh.
    + destruct (check_hash h difficulty) eqn:Ec; (rewrite <- Hb in Hs; eapply Hstay; [exact Hs| |done|done|done]); [|done]. by exists h.
    + destruct e; try done; rewrite <- Hb in Hs; (eapply Hstay; [exact Hs| |done|done|done]); by eexists.
  - eapply Hstay; [exact Hs|exact Hf| |done|done]. by intros s [= <-].
  - destruct s; [eapply Hstay; [exact Hs|done|done| |done]; intros _; by eapply Hsn..|].
    destruct (bool_decide (m_state m = MINING_IN_PROGRESS) && negb spurious) eqn:E.
    + apply andb_true_iff in E as [E%bool_decide_eq_true _]. injection Hs as <- <- <- <-. eapply update_ok; [exact Hm|exact Hi| |done| |by left|done].
      * exists k. by split.
      * intros _ j (x & Hx & Hxw). destruct (mining_workers _ _ Hm j x Hx) as (k' & [_ _ _ Hl']). destruct Hl'; [by left|done].
    + eapply Hstay; [exact Hs|exact Hf| |done|done]. by intros s [= <-].
  - injection Hs as <- <- <- <-. eapply update_ok; [exact Hm|exact Hi| |done|done| |apply Hm].
    + exists k. split; cbn [worker_at worker_block]; try done. intros _. apply Hl. by left.
    + intros _. right. right. eexists. split; [done|]. exists i, k. rewrite Hb. by split_and!.
  - injection Hs as <- <- <- <-. eapply update_ok; [exact Hm|exact Hi| |done|done| |apply Hm].
    + exists (S k). split; cbn [worker_at worker_block]; try done; [rewrite Hb; apply candidate_next|by intros []].
    + intros Hbf. destruct (mining_result _ _ Hm Hbf) as [(j & Hj)|Hb']; [|by right; right]. right. left. exists j. split; [done|].
      intros ->. destruct Hj as (x & Hx & Hxw). congruence.
  - injection Hs as <- <- <- <-. eapply update_ok; [exact Hm|exact Hi| |done|done|done|].
    + exists k. by split.
    + intros _. right. by exists i, k.
  - eapply Hstay; [exact Hs|done|done| |done]. intros _. apply Hl. by right.
Qed.

Lemma stop_ok (P : Prop) m spurious m' : mining_ok P m -> P -> acts (Stop spurious) m = Ok m' -> mining_ok P m'.
Proof.
  intros Hm HP H. cbn [act] in H. case_if_in H; injection H as <-; [|done]. destruct Hm as [Ht Hw Hone _ _]. split; try done; [|by left].
  intros i w Hi. destruct (Hw i w Hi) as (k & Hk). exists k. by eapply worker_ok_left.
Qed.

Definition is_stop (a : action) : bool := match a with Stop _ => true | Work _ _ => false end.

Lemma run_ok (P : Prop) actions : (forall a, a ∈ actions -> is_stop a = true -> P) -> forall m m', mining_ok P m -> runs actions m = Ok m' -> mining_ok P m'.
Proof.
  induction actions as [|a actions IH]; intros HP m m' Hm H; cbn [run] in H; [by injection H as <-|]. apply obind_Ok in H as (m1 & Ha & H).
  eapply IH; [|clear H|exact H]; [intros b Hb; apply HP; by right|]. destruct a as [i spurious|spurious]; [by eapply work_ok|].
  eapply stop_ok; [exact Hm| |exact Ha]. by apply (HP (Stop spurious)); [left|].
Qed.

Lemma returned_all m i w : all_returned m = true -> m_workers m !! i = Some w -> worker_at w = Returned.
Proof.
  unfold all_returned. rewrite forallb_forall. intros H Hi. specialize (H w). destruct (worker_at w); try done; exfalso;
    (assert (false = true); [apply H, list_elem_of_In; by eapply list_elem_of_lookup_2|done]).
Qed.

(** What is known when every thread has returned. *)
Lemma finished P m : (0 < threads)%nat -> mining_ok P m -> all_returned m = true ->
  match finish m with Some b => found b | None => P \/ failed end.
Proof.
  intros Hpos Hm Hall. unfold finish. destruct (decide (m_state m = MINING_STOPPED)) as [Es|Hns]; [by apply Hm|].
  destruct (lookup_lt_is_Some_2 (m_workers m) 0) as [w Hw]; [by rewrite (mining_threads _ _ Hm)|].
  destruct (mining_workers _ _ Hm 0%nat w Hw) as (k & [_ _ _ Hl]). assert (Hst : m_state m <> MINING_IN_PROGRESS).
  { apply Hl. right. by eapply returned_all. }
  destruct (mining_result _ _ Hm) as [(i & x & Hx & Ha)|(b & -> & Hb)]; [by destruct (m_state m)| |done].
  rewrite (returned_all _ _ _ Hall Hx) in Ha. done.
Qed.

(** ** Schedules in which threads keep getting steps *)

Section Progress.
Hypothesis Hhash : forall i k, exists h, long_hash (candidate i k) = Ok h.

Lemma no_throws i k : ~ throws (candidate i k).
Proof. intros (e & He). destruct (Hhash i k) as (h & Hh). congruence. Qed.

Lemma work_returns m i : mining_ok False m -> exists m', acts (Work i false) m = Ok m'.
Proof.
  intros Hm. cbn [act]. destruct (m_workers m !! i) as [w|] eqn:Hi; [|by eexists].
  destruct (mining_workers _ _ Hm i w Hi) as (k & [Hb _ _ _]). destruct (Hhash i k) as (h & Hh). unfold worker_step. rewrite Hb, Hh.
  destruct (worker_at w) as [| | |[]| | | |]; repeat case_match; simplify_eq/=; by eexists.
Qed.

(** The steps of a thread, other than those at which it waits for its turn. *)
Definition is_turn (i : nat) (a : action) : bool := match a with Work j false => (j =? i)%nat | _ => false end.

Definition turns (i : nat) (actions : list action) : nat := length (List.filter (is_turn i) actions).

Definition quiet (actions : list action) : Prop := Forall (fun a => exists i, a = Work i false) actions.

(** A property of thread [i] that its own steps bring closer to zero. *)
Lemma countdown (near : nat -> miner -> Prop) (Q : miner -> Prop) i actions : quiet actions ->
  (forall r m j m', mining_ok False m -> Q m -> near r m -> acts (Work j false) m = Ok m' ->
     Q m' /\ near (if decide (j = i) then Nat.pred r else r) m') ->
  forall r m, mining_ok False m -> Q m -> near r m ->
  exists m', runs actions m = Ok m' /\ mining_ok False m' /\ Q m' /\ near (r - turns i actions)%nat m'.
Proof.
  intros Hq Hstep. induction Hq as [|a actions (j & ->) _ IH]; intros r m Hm HQ Hr; cbn [run].
  { exists m. split_and!; try done. unfold turns. cbn [List.filter length]. by rewrite Nat.sub_0_r. }
  destruct (work_returns m j Hm) as (m1 & H1). rewrite H1. cbn [obind]. destruct (Hstep r m j m1 Hm HQ Hr H1) as [HQ1 Hr1].
  destruct (IH _ m1 (work_ok _ _ _ _ _ Hm H1) HQ1 Hr1) as (m' & E & Hm' & HQ' & Hr'). exists m'. split_and!; [done..|].
  revert Hr'. unfold turns. cbn [List.filter is_turn]. destruct (decide (j = i)) as [->|Hne].
  - rewrite Nat.eqb_refl. cbn [length]. by replace (r - S _)%nat with (Nat.pred r - length (List.filter (is_turn i) actions))%nat by lia.
  - by rewrite (proj2 (Nat.eqb_neq _ _) Hne).
Qed.

(** ** A nonce that exists is found *)

(** The steps thread [i] needs before it has found the solution of round [k0]. *)
Definition rank (k0 k : nat) (at' : position) : nat :=
  match at' with
  | AtTest => 3 * (k0 - k) + 4
  | AtHash => 3 * (k0 - k) + 3
  | AtCount => 3 * (k0 - k) + 2
  | AtLoad => 2
  | AtSwitch _ => 1
  | _ => 0
  end.

Definition searching (i k0 r : nat) (m : miner) : Prop := m_state m <> MINING_IN_PROGRESS \/
  exists w k, m_workers m !! i = Some w /\ worker_ok i k w (m_state m) /\ (k <= k0)%nat /\ (worker_at w = AtCount -> (k < k0)%nat) /\
    (rank k0 k (worker_at w) <= r)%nat.

Lemma step_state w state block count w' state' block' count' :
  worker_step cn_fast_hash slow_hash difficulty step_nonce false w state block count = Ok (w', (state', block', count')) ->
  state <> MINING_IN_PROGRESS -> state' <> MINING_IN_PROGRESS.
Proof.
  unfold worker_step. intros H Hs. destruct (worker_at w) as [| | |[]| | | |].
  2:{ destruct (long_hash (worker_block w)) as [h|[]]; try done; [destruct (check_hash h difficulty)|..]; by injection H as <- <- <- <-. }
  1: destruct (decide (state = MINING_IN_PROGRESS)); by injection H as <- <- <- <-.
  4: destruct (bool_decide (state = MINING_IN_PROGRESS) && negb false); by injection H as <- <- <- <-.
  all: by injection H as <- <- <- <-.
Qed.

Lemma left_stays m j m' : m_state m <> MINING_IN_PROGRESS -> acts (Work j false) m = Ok m' -> m_state m' <> MINING_IN_PROGRESS.
Proof.
  intros Hs H. cbn [act] in H. destruct (m_workers m !! j) as [w|]; [|by injection H as <-].
  apply obind_Ok in H as ([w' [[state' block'] count']] & Hw & H). injection H as <-. by eapply step_state.
Qed.

(** Steps of other threads do not move a thread. *)
Lemma other_thread m j i m' : j <> i -> acts (Work j false) m = Ok m' -> m_workers m' !! i = m_workers m !! i.
Proof.
  intros Hne H. cbn [act] in H. destruct (m_workers m !! j) as [w|]; [|by injection H as <-].
  apply obind_Ok in H as ([w' [[state' block'] count']] & Hw & H). injection H as <-. cbn [m_workers]. by rewrite list_lookup_insert_ne.
Qed.

Lemma own_step m i w : m_workers m !! i = Some w -> forall m', acts (Work i false) m = Ok m' -> exists w' state' block' count',
  worker_step cn_fast_hash slow_hash difficulty step_nonce false w (m_state m) (m_block m) (m_hash_count m) = Ok (w', (state', block', count')) /\
  m_workers m' !! i = Some w' /\ m_state m' = state'.
Proof.
  intros Hi m' H. cbn [act] in H. rewrite Hi in H. apply obind_Ok in H as ([w' [[state' block'] count']] & Hw & H). injection H as <-.
  exists w', state', block', count'. split_and!; [done| |done]. cbn [m_workers]. apply list_lookup_insert_eq. by eapply lookup_lt_Some.
Qed.

(** A step of the searching thread, while no block is found. *)
Lemma search_step i k0 k w count block w' state' block' count' : solves (candidate i k0) -> worker_ok i k w MINING_IN_PROGRESS ->
  (k <= k0)%nat -> (worker_at w = AtCount -> (k < k0)%nat) ->
  worker_step cn_fast_hash slow_hash difficulty step_nonce false w MINING_IN_PROGRESS block count = Ok (w', (state', block', count')) ->
  state' <> MINING_IN_PROGRESS \/ exists k', worker_block w' = candidate i k' /\ (k' <= k0)%nat /\ (worker_at w' = AtCount -> (k' < k0)%nat) /\
    (rank k0 k' (worker_at w') <= Nat.pred (rank k0 k (worker_at w)))%nat.
Proof.
  intros (h0 & Hh0 & Hc0) [Hb Hf Hsn Hl] Hk Hcount H. unfold worker_step in H. destruct (worker_at w) as [| | |s| | | |] eqn:Ea.
  - rewrite decide_True in H by done. injection H as <- <- <- <-. right. exists k. cbn [worker_at worker_block rank]. split_and!; [done|done|done|lia].
  - rewrite Hb in H. destruct (Hhash i k) as (h & Hh). rewrite Hh in H. destruct (check_hash h difficulty) eqn:Ec; injection H as <- <- <- <-; right; exists k;
      cbn [worker_at worker_block rank]; (split_and!; [done|done| |lia]); [done|]. intros _. destruct (decide (k = k0)) as [->|]; [|lia]. congruence.
  - injection H as <- <- <- <-. right. exists k. cbn [worker_at worker_block rank]. split_and!; [done|done|done|lia].
  - destruct s; [by destruct (Hsn _ eq_refl)..|]. rewrite bool_decide_true in H by done. injection H as <- <- <- <-. by left.
  - destruct Hl; [by left|done].
  - injection H as <- <- <- <-. right. exists (S k). cbn [worker_at worker_block]. specialize (Hcount eq_refl).
    split_and!; [rewrite Hb; apply candidate_next|lia|done|cbn [rank]; lia].
  - by destruct (no_throws i k).
  - destruct Hl; [by right|done].
Qed.

Lemma search_countdown i k0 r m j m' : solves (candidate i k0) -> mining_ok False m -> searching i k0 r m -> acts (Work j false) m = Ok m' ->
  searching i k0 (if decide (j = i) then Nat.pred r else r) m'.
Proof.
  intros Hsol Hm [Hs|(w & k & Hi & Hok & Hk & Hc & Hr)] H; [left; by eapply left_stays|].
  destruct (decide (m_state m' = MINING_IN_PROGRESS)) as [Es'|]; [|by left].
  assert (Es : m_state m = MINING_IN_PROGRESS).
  { destruct (decide (m_state m = MINING_IN_PROGRESS)); [done|]. by destruct (left_stays m j m'). }
  pose proof (work_ok _ _ _ _ _ Hm H) as Hm'. right. destruct (decide (j = i)) as [->|Hne].
  - destruct (own_step m i w Hi m' H) as (w' & state' & block' & count' & Hstep & Hi' & Est). rewrite Es in Hstep, Hok.
    destruct (search_step i k0 k w _ _ w' state' block' count' Hsol Hok Hk Hc Hstep) as [Hleft|(k' & Hb' & Hk' & Hc' & Hr')]; [congruence|].
    destruct (mining_workers _ _ Hm' i w' Hi') as (k'' & [Hb'' Hf'' Hsn'' Hl'']). rewrite <- Hb'', Hb' in Hf''.
    exists w', k'. split_and!; try done. lia.
  - exists w, k. rewrite (other_thread _ _ _ _ Hne H). split_and!; try done. by rewrite Es', <- Es.
Qed.

(** The steps a thread needs to return once mining is over. *)
Definition remaining (at' : position) : nat :=
  match at' with
  | AtHash => 3
  | AtLoad | AtCount | AtSwitch MINING_IN_PROGRESS => 2
  | Returned => 0
  | _ => 1
  end.

Definition leaving (i r : nat) (m : miner) : Prop := exists w, m_workers m !! i = Some w /\ (remaining (worker_at w) <= r)%nat.

Lemma leave_step w state block count w' state' block' count' : state <> MINING_IN_PROGRESS ->
  worker_step cn_fast_hash slow_hash difficulty step_nonce false w state block count = Ok (w', (state', block', count')) ->
  (remaining (worker_at w') <= Nat.pred (remaining (worker_at w)))%nat.
Proof.
  intros Hs H. unfold worker_step in H. destruct (worker_at w) as [| | |[]| | | |].
  2:{ destruct (long_hash (worker_block w)) as [h|[]]; try done; [destruct (check_hash h difficulty)|..]; injection H as <- <- <- <-; cbn; lia. }
  1: rewrite decide_False in H by done; injection H as <- <- <- <-; cbn; lia.
  4: rewrite bool_decide_false in H by done.
  all: injection H as <- <- <- <-; cbn; try lia; destruct state; cbn; (lia || done).
Qed.

Lemma leave_countdown i r m j m' : m_state m <> MINING_IN_PROGRESS -> leaving i r m -> acts (Work j false) m = Ok m' ->
  leaving i (if decide (j = i) then Nat.pred r else r) m'.
Proof.
  intros Hs (w & Hi & Hr) H. destruct (decide (j = i)) as [->|Hne].
  - destruct (own_step m i w Hi m' H) as (w' & state' & block' & count' & Hstep & Hi' & _). exists w'. split; [done|].
    apply leave_step in Hstep; [lia|done].
  - exists w. by rewrite (other_thread _ _ _ _ Hne H).
Qed.

(** A solution in round [k] of thread [i], enough steps for that thread, and then
    three steps for each. *)
Lemma mining_finds i k m m0 before after : start template n threads m = Ok m0 -> (i < threads)%nat -> solves (candidate i k) ->
  quiet before -> quiet after -> (3 * k + 4 <= turns i before)%nat -> (forall j, (j < threads)%nat -> (3 <= turns j after)%nat) ->
  exists m' b, runs (before ++ after) m0 = Ok m' /\ all_returned m' = true /\ finish m' = Some b /\ found b.
Proof.
  intros Hstart Hi Hsol Hq1 Hq2 Ht1 Ht2. pose proof Hstart as Hm0. apply (start_ok False) in Hm0 as [Hm0 Es0].
  destruct (lookup_lt_is_Some_2 (m_workers m0) i) as [w Hw]; [by rewrite (mining_threads _ _ Hm0)|].
  assert (Hw0 : w = mkWorker AtTest (candidate i 0)) by (by eapply start_worker).
  destruct (countdown (searching i k) (fun _ => True) i before Hq1) with (r := (3 * k + 4)%nat) (m := m0) as (m1 & E1 & Hm1 & _ & Hr1); [|done|done| |].
  { intros r m2 j m3 Hm2 _ Hr H. split; [done|]. by eapply search_countdown. }
  { right. exists w, 0%nat. subst w. destruct (mining_workers _ _ Hm0 i _ Hw) as (k' & Hok). split_and!; try done; [|lia|cbn [worker_at rank]; lia].
    split; try done; apply Hok. }
  assert (Hleft : m_state m1 <> MINING_IN_PROGRESS).
  { replace (3 * k + 4 - turns i before)%nat with 0%nat in Hr1 by lia. destruct Hr1 as [|(x & k' & _ & [_ Hf _ Hl] & _ & _ & Hr)]; [done|].
    destruct (worker_at x) as [| | |s| | | |]; cbn [rank] in Hr; try lia; [apply Hl; by left|by apply no_throws in Hf|apply Hl; by right]. }
  destruct (countdown (fun _ _ => True) (fun m => m_state m <> MINING_IN_PROGRESS) i after Hq2) with (r := 0%nat) (m := m1) as (m2 & E2 & Hm2 & Hleft2 & _); try done.
  { intros r m3 j m4 _ Hs _ H. split; [|done]. by eapply left_stays. }
  assert (Hall : all_returned m2 = true).
  { unfold all_returned. apply forallb_forall. intros x Hx%list_elem_of_In. apply list_elem_of_lookup in Hx as (j & Hj).
    assert (Hlt : (j < threads)%nat) by (rewrite <- (mining_threads _ _ Hm2); by eapply lookup_lt_Some).
    destruct (lookup_lt_is_Some_2 (m_workers m1) j) as [y Hy]; [by rewrite (mining_threads _ _ Hm1)|].
    destruct (countdown (leaving j) (fun m => m_state m <> MINING_IN_PROGRESS) j after Hq2) with (r := 3%nat) (m := m1) as (m3 & E3 & _ & _ & (z & Hz & Hr)); try done.
    - intros r m3 j' m4 _ Hs Hr H. split; [by eapply left_stays|by eapply leave_countdown].
    - exists y. split; [done|]. destruct (worker_at y) as [| | |[]| | | |]; cbn; lia.
    - assert (m3 = m2) as -> by congruence. assert (z = x) as -> by congruence. specialize (Ht2 j Hlt).
      destruct (worker_at x) as [| | |[]| | | |]; cbn [remaining] in Hr; (lia || done). }
  exists m2. pose proof (finished False m2 ltac:(lia) Hm2 Hall) as Hfin. destruct (finish m2) as [b|].
  - exists b. split_and!; try done. rewrite miner_run_app, E1. done.
  - destruct Hfin as [[]|(i' & k' & _ & Hthrow)]. by apply no_throws in Hthrow.
Qed.

End Progress.

End Mining.

(** ** The proof-of-work check of the node *)

Section Check.
Context (cn_fast_hash : list Z -> Hash) (slow_hash : Block.Block.hashing_algorithm -> list Z -> Hash).
Local Abbreviation long_hash := (BlockUtilities.getBlockLongHash cn_fast_hash slow_hash).

(** The miner computes the hashes of the node. *)
Lemma long_hash_same b h : long_hash b = Ok h -> Block.Block.getBlockLongHash cn_fast_hash slow_hash b = Ok h.
Proof.
  unfold BlockUtilities.getBlockLongHash, Block.Block.getBlockLongHash. case_if; [done|].
  unfold BlockUtilities.getParentBlockHashingBinaryArray, BlockUtilities.getParentBinaryArray, Block.Block.getParentBlockHashingBinaryArray.
  by destruct (toBinaryArray_opt _ _).
Qed.

Lemma merkle_root_same b : BlockUtilities.getMerkleRoot cn_fast_hash b = Block.Block.getAuxiliaryBlockHeaderHash cn_fast_hash b.
Proof. reflexivity. Qed.

(** The header of a merge-mined block has neither the nonce nor the timestamp. *)
Lemma header_same (h h' : BlockHeader) : BLOCK_MAJOR_VERSION_2 <= majorVersion h -> majorVersion h' = majorVersion h -> minorVersion h' = minorVersion h ->
  previousBlockHash h' = previousBlockHash h ->
  toBinaryArray_opt Block.Block.serializeBlockHeader h' = toBinaryArray_opt Block.Block.serializeBlockHeader h.
Proof.
  destruct h as [M m n ts prev], h' as [M' m' n' ts' prev']. cbn [majorVersion minorVersion previousBlockHash]. intros Hv -> -> ->.
  unfold toBinaryArray_opt, toBinaryArray, Block.Block.serializeBlockHeader.
  cbn [majorVersion minorVersion timestamp previousBlockHash nonce ser_uint obind]. unfold BLOCK_MAJOR_VERSION_1, BLOCK_MAJOR_VERSION_2 in *.
  destruct (BLOCK_MAJOR_VERSION_7 <? M); [done|]. cbn [obind]. rewrite (proj2 (Z.eqb_neq M 1)), (proj2 (Z.leb_le 2 _)) by lia. done.
Qed.

Lemma aux_same (b b' : BlockTemplate) : BLOCK_MAJOR_VERSION_2 <= majorVersion b -> majorVersion b' = majorVersion b -> minorVersion b' = minorVersion b ->
  previousBlockHash b' = previousBlockHash b -> baseTransaction b' = baseTransaction b -> transactionHashes b' = transactionHashes b ->
  Block.Block.getAuxiliaryBlockHeaderHash cn_fast_hash b' = Block.Block.getAuxiliaryBlockHeaderHash cn_fast_hash b.
Proof.
  intros Hv H1 H2 H3 Hb Ht. unfold Block.Block.getAuxiliaryBlockHeaderHash, Block.Block.getBlockHashingBinaryArray, Block.Block.getTransactionTreeHash.
  by rewrite (header_same b b' Hv H1 H2 H3), Hb, Ht.
Qed.

(** What [adjustMergeMiningTag] changes. *)
Lemma adjusted_tag (template adjusted : BlockTemplate) : (forall x, pod 32 (cn_fast_hash x)) -> BLOCK_MAJOR_VERSION_2 <= majorVersion template ->
  adjustMergeMiningTag cn_fast_hash template = Ok adjusted -> exists root,
    Block.Block.getAuxiliaryBlockHeaderHash cn_fast_hash template = Ok root /\ pod 32 root /\
    block_header adjusted = block_header template /\ baseTransaction adjusted = baseTransaction template /\
    transactionHashes adjusted = transactionHashes template /\ extra (pb_baseTransaction (parentBlock adjusted)) = tag_extra root /\
    blockchainBranch (parentBlock adjusted) = blockchainBranch (parentBlock template) /\
    (parentBlock template = tagged_parent (zeros 32) -> parentBlock adjusted = tagged_parent root).
Proof.
  intros Hpod Hv H. unfold adjustMergeMiningTag in H. rewrite (proj2 (Z.leb_le _ _)) in H by done. rewrite merkle_root_same in H.
  apply obind_Ok in H as (root & Hroot & H). assert (Hp : pod 32 root).
  { unfold Block.Block.getAuxiliaryBlockHeaderHash in Hroot. apply obind_Ok in Hroot as (ba & _ & Hroot). injection Hroot as <-. apply Hpod. }
  rewrite (tag_written _ Hp) in H. injection H as <-. exists root. cbn [block_header baseTransaction transactionHashes parentBlock pb_baseTransaction blockchainBranch extra base_prefix].
  split_and!; try done. by intros ->.
Qed.

(** What [adjustBlockTemplate] changes besides. *)
Lemma adjusted_time config last (template adjusted : BlockTemplate) : adjustBlockTemplate cn_fast_hash config last template = Ok adjusted ->
  exists tagged time, adjustMergeMiningTag cn_fast_hash template = Ok tagged /\ adjusted = with_timestamp time tagged /\
    (firstBlockTimestamp config = 0 -> adjusted = tagged).
Proof.
  intros (tagged & Htag & H)%obind_Ok. injection H as <-. exists tagged.
  assert (Hsame : tagged = with_timestamp (timestamp tagged) tagged) by (by destruct tagged as [[] ? ? ?]).
  destruct (Z.eqb_spec (firstBlockTimestamp config) 0) as [|Hne]; [by exists (timestamp tagged)|].
  repeat case_if; eexists; split_and!; done.
Qed.

Lemma tag_version (template tagged : BlockTemplate) : adjustMergeMiningTag cn_fast_hash template = Ok tagged -> majorVersion tagged = majorVersion template.
Proof.
  intros H. unfold adjustMergeMiningTag in H. case_if_in H; [|by injection H as <-]. apply obind_Ok in H as (root & _ & H).
  destruct (appendMergeMiningTagToExtra _ _); [|done]. by injection H as <-.
Qed.

Lemma found_passes c g difficulty config last (template adjusted : BlockTemplate) n threads b : (forall x, pod 32 (cn_fast_hash x)) ->
  genesisBlockHash c cn_fast_hash = Ok g -> 1 <= majorVersion template -> blockchainBranch (parentBlock template) = [] ->
  adjustBlockTemplate cn_fast_hash config last template = Ok adjusted ->
  found cn_fast_hash slow_hash difficulty adjusted n threads b -> checkProofOfWork c cn_fast_hash slow_hash b difficulty = Ok true.
Proof.
  intros Hpod Hg Hv Hbranch (tagged & time & Htag & -> & _)%adjusted_time (i & k & _ & -> & h & Hh%long_hash_same & Hc). set (b := candidate _ _ _ _ _) in *.
  unfold checkProofOfWork, checkProofOfWorkV1, checkProofOfWorkV2. rewrite Hh. cbn [obind]. rewrite Hc. cbn [negb].
  assert (Hvb : majorVersion b = majorVersion tagged) by done. pose proof (tag_version _ _ Htag) as Ev. unfold BLOCK_MAJOR_VERSION_1 in *.
  destruct (Z.eqb_spec (majorVersion b) 1) as [E|Hne]; [by rewrite E|]. assert (H2 : BLOCK_MAJOR_VERSION_2 <= majorVersion template) by (unfold BLOCK_MAJOR_VERSION_2; lia).
  destruct (adjusted_tag template tagged Hpod H2 Htag) as (root & Hroot & Hp & Ehd & Ebase & Ehash & Eex & Ebr & _).
  rewrite (proj2 (Z.ltb_ge _ _)) by (unfold BLOCK_MAJOR_VERSION_2 in *; lia).
  change (parentBlock b) with (parentBlock tagged). rewrite Eex, (tag_read _ Hp), Ebr, Hbranch. cbn [length merkleRoot].
  cbn [Z.of_nat Z.ltb Z.compare Z.mul Pos.mul]. rewrite (aux_same template b); try done; [|by unfold b; cbn; rewrite Ehd..].
  rewrite Hroot. cbn [obind].
  rewrite Hg. cbn [obind tree_hash_from_branch from_branch_loop]. by rewrite bool_decide_true.
Qed.

Lemma found_mined config last difficulty (template adjusted : BlockTemplate) n threads b : (forall x, pod 32 (cn_fast_hash x)) ->
  template_parent (majorVersion template) = Some (parentBlock template) -> adjustBlockTemplate cn_fast_hash config last template = Ok adjusted ->
  found cn_fast_hash slow_hash difficulty adjusted n threads b -> firstBlockTimestamp config = 0 -> mined_from template b.
Proof.
  intros Hpod Hpar (tagged & time & Htag & _ & Hsame)%adjusted_time (i & k & _ & -> & _) H0. rewrite (Hsame H0).
  destruct (Z.le_gt_cases BLOCK_MAJOR_VERSION_2 (majorVersion template)) as [H2|H2].
  - destruct (adjusted_tag template tagged Hpod H2 Htag) as (root & _ & Hp & Ehd & Ebase & Ehash & _ & _ & Etag).
    rewrite (template_parent_eq _ H2) in Hpar. injection Hpar as Hpar. unfold candidate, with_nonce.
    split; cbn [majorVersion timestamp previousBlockHash block_header baseTransaction transactionHashes parentBlock]; try by rewrite ?Ehd.
    right. exists root. split; [done|]. by apply Etag.
  - assert (tagged = template) as ->.
    { unfold adjustMergeMiningTag in Htag. rewrite (proj2 (Z.leb_gt _ _)) in Htag by done. by injection Htag. }
    split; try done. by left.
Qed.

(** C7. Every run of the miner is sound: for any schedule of the threads, with [stop]
    and spurious failures of the atomic exchange at any time, no two threads write
    [m_block]; and when all threads have returned, [mine] returns a block that
    passes the proof-of-work check of the node, whatever timestamps the miner is
    configured with, and that is the template of the node with a nonce and a merge
    mining tag when it keeps the timestamp; or [mine] was stopped, or a hash could
    not be computed. *)
Theorem mine_accepted c g difficulty config last (template adjusted : BlockTemplate) n threads m m0 actions m' :
  (forall x, pod 32 (cn_fast_hash x)) -> genesisBlockHash c cn_fast_hash = Ok g -> 1 <= majorVersion template ->
  template_parent (majorVersion template) = Some (parentBlock template) -> adjustBlockTemplate cn_fast_hash config last template = Ok adjusted ->
  start adjusted n threads m = Ok m0 -> run cn_fast_hash slow_hash difficulty (u32 (Z.of_nat threads)) actions m0 = Ok m' ->
  (forall i j, writing m' i -> writing m' j -> i = j) /\
  (all_returned m' = true ->
   match finish m' with
   | Some b => checkProofOfWork c cn_fast_hash slow_hash b difficulty = Ok true /\ (firstBlockTimestamp config = 0 -> mined_from template b)
   | None => (exists spurious, Stop spurious ∈ actions) \/ failed cn_fast_hash slow_hash adjusted n threads
   end).
Proof.
  intros Hpod Hg Hv Hpar Hadj Hstart Hrun. set (P := exists spurious, Stop spurious ∈ actions).
  pose proof Hstart as Hm0. apply (start_ok cn_fast_hash slow_hash difficulty adjusted n threads P) in Hm0 as [Hm0 _].
  assert (Hm' : mining_ok cn_fast_hash slow_hash difficulty adjusted n threads P m').
  { eapply run_ok; [|exact Hm0|exact Hrun]. intros [|spurious] Ha Hs; [done|]. by exists spurious. }
  split; [apply Hm'|]. intros Hall. assert (Hpos : (0 < threads)%nat) by (unfold start in Hstart; destruct threads; [done|lia]).
  pose proof (finished _ _ _ _ _ _ P m' Hpos Hm' Hall) as Hfin. destruct (finish m') as [b|]; [|done].
  split; [|by eapply found_mined]. eapply found_passes; try done.
  unfold template_parent in Hpar. case_if_in Hpar; [by injection Hpar as <-|]. case_if_in Hpar; [|by injection Hpar as <-].
  destruct (appendMergeMiningTagToExtra _ _); [|done]. by injection Hpar as <-.
Qed.

(** C24. The miner finds what there is to find: when hashes can be computed and round
    [k] of thread [i] has a solution, then after [3 * k + 4] steps of that thread
    and three more of each, in any order, [mine] returns a block that meets the
    difficulty, as long as nobody stops the miner meanwhile and the weak atomic
    exchange does not fail spuriously. *)
Theorem mine_finds difficulty template n threads i k m m0 before after :
  (forall i k, exists h, long_hash (candidate template n threads i k) = Ok h) ->
  start template n threads m = Ok m0 -> (i < threads)%nat -> solves cn_fast_hash slow_hash difficulty (candidate template n threads i k) ->
  quiet before -> quiet after -> (3 * k + 4 <= turns i before)%nat -> (forall j, (j < threads)%nat -> (3 <= turns j after)%nat) ->
  exists m' b, run cn_fast_hash slow_hash difficulty (u32 (Z.of_nat threads)) (before ++ after) m0 = Ok m' /\ all_returned m' = true /\
    finish m' = Some b /\ solves cn_fast_hash slow_hash difficulty b.
Proof.
  intros Hhash Hstart Hi Hsol Hq1 Hq2 Ht1 Ht2.
  destruct (mining_finds cn_fast_hash slow_hash difficulty template n threads Hhash i k m m0 before after Hstart Hi Hsol Hq1 Hq2 Ht1 Ht2)
    as (m' & b & Hr & Ha & Hf & (i' & k' & _ & _ & Hb)). by exists m', b.
Qed.

End Check.

(** ** A miner with two threads *)

Import SampleChain.SampleChain.

(** A hash that is small for a third of the nonces. *)
Definition third_hash (_ : Block.Block.hashing_algorithm) (x : list Z) : Hash := if sumZ x mod 3 =? 0 then zeros 32 else repeat 255 32.

Definition idle : miner := mkMiner MINING_STOPPED None 0 [].
Definition miner_after (r : outcome miner) : miner := match r with Ok m => m | Err _ => idle end.
Definition block_after (r : outcome BlockTemplate) : BlockTemplate := match r with Ok b => b | Err _ => Block.Block.default_block end.

Definition sample_config : MiningConfig := mkMiningConfig 2 0 0 0.

(** The template of the small node, with its tag. *)
Definition sample_adjusted : BlockTemplate := block_after (adjustBlockTemplate digest sample_config 0 (mining_block sample_template)).
Definition sample_started : miner := miner_after (start sample_adjusted 8 2 idle).

(** Thread 0 meets a spurious failure and an ineffective [stop]. *)
Definition sample_actions : list action :=
  repeat (Work 1 false) 4 ++ [Work 0 false; Work 1 true; Stop true; Work 0 true] ++ repeat (Work 0 false) 8 ++ repeat (Work 1 false) 10.
Definition sample_finished : miner := miner_after (run digest third_hash 2 2 sample_actions sample_started).

Lemma digest_pod x : pod 32 (digest x).
Proof. split; [apply length_Z_to_le|apply Z_to_le_bytes]. Qed.

Definition passes (template : BlockTemplate) (r : option BlockTemplate) : Prop :=
  match r with
  | Some b => checkProofOfWork sample_currency digest third_hash b 2 = Ok true /\ mined_from template b
  | None => False
  end.

Lemma mine_accepted_witness : all_returned sample_finished = true /\ option_map (fun b : BlockTemplate => nonce b) (finish sample_finished) = Some 10 /\
  (forall i j, writing sample_finished i -> writing sample_finished j -> i = j) /\
  passes (mining_block sample_template) (finish sample_finished).
Proof.
  assert (Hg : genesisBlockHash sample_currency digest = Ok (ok_hash (genesisBlockHash sample_currency digest))) by (vm_compute; reflexivity).
  assert (Hadj : adjustBlockTemplate digest sample_config 0 (mining_block sample_template) = Ok sample_adjusted) by (vm_compute; reflexivity).
  assert (Hs : start sample_adjusted 8 2 idle = Ok sample_started) by (vm_compute; reflexivity).
  assert (Hr : run digest third_hash 2 (u32 (Z.of_nat 2)) sample_actions sample_started = Ok sample_finished) by (vm_compute; reflexivity).
  assert (Hall : all_returned sample_finished = true) by (vm_compute; reflexivity).
  assert (Hn : option_map (fun b : BlockTemplate => nonce b) (finish sample_finished) = Some 10) by (vm_compute; reflexivity).
  destruct (mine_accepted digest third_hash sample_currency _ 2 sample_config 0 (mining_block sample_template) sample_adjusted 8 2 idle sample_started sample_actions
    sample_finished digest_pod Hg ltac:(vm_compute; discriminate) ltac:(vm_compute; reflexivity) Hadj Hs Hr) as [Hone Hfin].
  specialize (Hfin Hall). split; [exact Hall|]. split; [exact Hn|]. split; [exact Hone|].
  destruct (finish sample_finished); [|discriminate Hn]. destruct Hfin as [Hpow Hfrom]. split; [exact Hpow|exact (Hfrom eq_refl)].
Defined.

(** A block of the first version, which has its nonce in the header. *)
Definition plain_template : BlockTemplate :=
  mkBlockTemplate (mkBlockHeader 1 0 0 100 (zeros 32)) Block.Block.default_parent default_transaction [].

Lemma plain_hash j : exists h, BlockUtilities.getBlockLongHash digest third_hash (with_nonce j plain_template) = Ok h.
Proof. eexists. lazy -[digest third_hash Z_to_le u32 wrap]. reflexivity. Qed.

Definition turn_by_turn (rounds : nat) : list action := concat (repeat [Work 1 false; Work 0 false] rounds).

Lemma turn_by_turn_quiet rounds : quiet (turn_by_turn rounds).
Proof. unfold turn_by_turn, quiet. induction rounds as [|r IH]; cbn; [done|]. constructor; [by eexists|]. constructor; [by eexists|done]. Qed.

Lemma mine_finds_witness : exists m' b, run digest third_hash 2 (u32 (Z.of_nat 2)) (turn_by_turn 7 ++ turn_by_turn 3) (miner_after (start plain_template 9 2 idle)) = Ok m' /\
  finish m' = Some b /\ solves digest third_hash 2 b.
Proof.
  destruct (mine_finds digest third_hash 2 plain_template 9 2 0 1 idle (miner_after (start plain_template 9 2 idle)) (turn_by_turn 7) (turn_by_turn 3))
    as (m' & b & Hr & _ & Hf & Hb).
  - intros i k. exact (plain_hash (u32 (9 + Z.of_nat i + Z.of_nat k * Z.of_nat 2))).
  - vm_compute. reflexivity.
  - lia.
  - exists (zeros 32). split; vm_compute; reflexivity.
  - apply turn_by_turn_quiet.
  - apply turn_by_turn_quiet.
  - vm_compute. lia.
  - intros j Hj. destruct j as [|[|j]]; [vm_compute; lia..|lia].
  - exists m', b. split; [exact Hr|]. split; [exact Hf|exact Hb].
Defined.

End MinerProofs.
